(** * Device-object archive: writer registry, reader parser and tri-mode serializer

    A shallow embedding of the archive code of DiligentCore
    ([Graphics/Archiver/src/ArchiverImpl.cpp], [Archiver_GL.cpp] and
    [Graphics/GraphicsEngine/src/DeviceObjectArchiveBase.cpp]) together with
    the properties its specification states about it.  Further parts cover
    the serialization of the archive to a stream, the round trip between
    the writer and the reader, the shader reader of the OpenGL backend
    ([Graphics/GraphicsEngineOpenGL/src/DeviceObjectArchiveGLImpl.cpp]) and
    the path functions of [Platforms/Basic/src/BasicFileSystem.cpp].

    Integers of the C++ code are [Z] with the wrap-around written out, bytes
    are [Z] in the range 0..255, hash maps keyed by name are [gmap string],
    vectors are lists. *)

From Stdlib Require Import ZArith Lia.
From stdpp Require Import base option list functions gmap strings pretty.

Local Open Scope Z_scope.

(** ** Machine integers *)

Definition wrap32 (x : Z) : Z := x mod 2 ^ 32.

(** [StaticCast<Uint32>]: a plain [static_cast] in release builds (the range
    check is a debug assertion). *)
Definition StaticCast_Uint32 (x : Z) : Z := wrap32 x.

(** The value every absent 32-bit offset carries. *)
Definition InvalidOffset : Z := 2 ^ 32 - 1.

(** Little-endian byte image of the [w] low bytes of [x], and its inverse. *)
Fixpoint le_bytes (w : nat) (x : Z) : list Z :=
  match w with
  | O => []
  | S w' => x mod 256 :: le_bytes w' (x / 256)
  end.

Fixpoint le_value (bs : list Z) : Z :=
  match bs with
  | [] => 0
  | b :: rest => b + 256 * le_value rest
  end.

(** Bytes of a string literal, and a C string read back from bytes (up to the
    first zero byte). *)
Definition bytes_of_string (s : string) : list Z :=
  (fun a => Z.of_N (Ascii.N_of_ascii a)) <$> String.list_ascii_of_string s.

Fixpoint cstr (bs : list Z) : list Z :=
  match bs with
  | [] => []
  | b :: rest => if decide (b = 0) then [] else b :: cstr rest
  end.

Definition nonzero_bytes (bs : list Z) : bool :=
  forallb (fun b => bool_decide (0 < b < 256)) bs.

(** The C string that a pointer to the head of a buffer refers to: a read
    of a C string goes on to the first zero byte, wherever that is.  [None]
    stands for a buffer that ends before a zero byte, where the read runs
    on outside the buffer. *)
Fixpoint cstr_in (bs : list Z) : option (list Z) :=
  match bs with
  | [] => None
  | b :: rest => if decide (b = 0) then Some [] else cons b <$> cstr_in rest
  end.

(** ** The tri-mode serializer (spec section 4.A) *)

Module Serializer.

(** Modelled from the spec: [Serializer.hpp] and [PSOSerializer.hpp] are not
    part of the sources at hand.  The serializer is a cursor that, depending
    on its mode, counts bytes, writes bytes into a caller-provided buffer or
    reads bytes from a caller-provided buffer. *)
Inductive SerializerMode := Read | Write | Measure.

(** Modelled from the spec: the cursor.  [m_Buf] is the caller-provided
    buffer (empty in Measure mode) and [m_Ptr] the position inside it (the
    byte counter in Measure mode). *)
Record Ser := MkSer { m_Buf : list Z; m_Ptr : nat }.

Definition GetSize (s : Ser) : nat := m_Ptr s.
Definition IsEnd (s : Ser) : Prop := m_Ptr s = length (m_Buf s).
Definition GetRemainSize (s : Ser) : nat := (length (m_Buf s) - m_Ptr s)%nat.
Definition GetCurrentPtr (s : Ser) : list Z := drop (m_Ptr s) (m_Buf s).

(** Modelled from the spec: the one primitive all fields go through.
    Measure advances the counter by [n]; Write puts the [n] bytes [src] at
    the cursor; Read extracts [n] bytes at the cursor.  A write or a read
    beyond the buffer end yields [None] (an assertion for Write,
    [corrupt-archive] for Read). *)
Definition Copy (mode : SerializerMode) (src : list Z) (n : nat) (s : Ser)
  : option (list Z * Ser) :=
  match mode with
  | Measure => Some (src, MkSer (m_Buf s) (m_Ptr s + n))
  | Write =>
      if decide (m_Ptr s + n <= length (m_Buf s))%nat
      then Some (src, MkSer (take (m_Ptr s) (m_Buf s) ++ take n src
                              ++ drop (m_Ptr s + n) (m_Buf s))
                            (m_Ptr s + n))
      else None
  | Read =>
      if decide (m_Ptr s + n <= length (m_Buf s))%nat
      then Some (take n (drop (m_Ptr s) (m_Buf s)), MkSer (m_Buf s) (m_Ptr s + n))
      else None
  end.

(** Modelled from the spec: the field kinds of section 3 (unsigned integers
    and enums by their width in bytes, length-prefixed zero-terminated
    strings, nullable pointers stored as an index with a sentinel,
    fixed-length arrays, count-prefixed arrays) and sequences of fields. *)
Inductive schema : Type :=
  | TUInt (w : nat)
  | TString
  | TPtrIndex (sentinel : Z)
  | TFixedArr (n : nat) (e : schema)
  | TArray (e : schema)
  | TUnit
  | TPair (a b : schema).

(** The C++ values of a schema: a string is a nullable [const char*]
    ([None] is [nullptr]), a pointer stored as an index is nullable too. *)
Fixpoint sem (t : schema) : Type :=
  match t with
  | TUInt _ => Z
  | TString => option (list Z)
  | TPtrIndex _ => option Z
  | TFixedArr _ e => list (sem e)
  | TArray e => list (sem e)
  | TUnit => unit
  | TPair a b => (sem a * sem b)%type
  end.

(** The value a destination holds before it is read into. *)
Fixpoint dflt (t : schema) : sem t :=
  match t return sem t with
  | TUInt _ => 0
  | TString => None
  | TPtrIndex _ => None
  | TFixedArr _ _ => []
  | TArray _ => []
  | TUnit => tt
  | TPair a b => (dflt a, dflt b)
  end.

(** An integer (or enum) field of [w] bytes. *)
Definition SerializeInt (mode : SerializerMode) (w : nat) (x : Z) (s : Ser)
  : option (Z * Ser) :=
  '(bs, s') ← Copy mode (le_bytes w x) w s;
  Some (match mode with Read => le_value bs | _ => x end, s').

(** Modelled from the spec: a string is a 32-bit length that includes the
    terminator, followed by the raw bytes; a null pointer is stored as the
    empty string. *)
Definition SerializeStr (mode : SerializerMode) (v : option (list Z)) (s : Ser)
  : option (option (list Z) * Ser) :=
  let str := default [] v in
  let Length := wrap32 (Z.of_nat (length str) + 1) in
  '(len, s1) ← SerializeInt mode 4 Length s;
  '(bs, s2) ← Copy mode (take (Z.to_nat len) (str ++ [0])) (Z.to_nat len) s1;
  Some (match mode with Read => Some (cstr bs) | _ => v end, s2).

(** Modelled from the spec: a nullable pointer stored as a 32-bit index, the
    null pointer being the sentinel index. *)
Definition SerializePtrIndex (mode : SerializerMode) (sentinel : Z) (v : option Z) (s : Ser)
  : option (option Z * Ser) :=
  '(i, s') ← SerializeInt mode 4 (default sentinel v) s;
  Some (match mode with
        | Read => if decide (i = sentinel) then None else Some i
        | _ => v
        end, s').

(** The elements of an array, one after the other: [SerializeElems] walks the
    source array (Write and Measure), [ReadElems] fills [n] destinations. *)
Fixpoint SerializeElems {A} (f : A -> Ser -> option (A * Ser)) (l : list A) (s : Ser)
  : option (list A * Ser) :=
  match l with
  | [] => Some ([], s)
  | x :: rest =>
      '(x', s1) ← f x s;
      '(rest', s2) ← SerializeElems f rest s1;
      Some (x' :: rest', s2)
  end.

Fixpoint ReadElems {A} (g : Ser -> option (A * Ser)) (n : nat) (s : Ser)
  : option (list A * Ser) :=
  match n with
  | O => Some ([], s)
  | S n' =>
      '(x, s1) ← g s;
      '(rest, s2) ← ReadElems g n' s1;
      Some (x :: rest, s2)
  end.

(** The single schema walk shared by the three modes: the argument is the
    source value in Write and Measure mode and the (ignored) destination in
    Read mode; the result is the value the destination holds afterwards. *)
Fixpoint Serialize (mode : SerializerMode) (t : schema) : sem t -> Ser -> option (sem t * Ser) :=
  match t return sem t -> Ser -> option (sem t * Ser) with
  | TUInt w => SerializeInt mode w
  | TString => SerializeStr mode
  | TPtrIndex sentinel => SerializePtrIndex mode sentinel
  | TFixedArr n e => fun v s =>
      match mode with
      | Read => ReadElems (Serialize Read e (dflt e)) n s
      | _ => SerializeElems (Serialize mode e) v s
      end
  | TArray e => fun v s =>
      '(cnt, s1) ← SerializeInt mode 4 (wrap32 (Z.of_nat (length v))) s;
      match mode with
      | Read => ReadElems (Serialize Read e (dflt e)) (Z.to_nat cnt) s1
      | _ => SerializeElems (Serialize mode e) v s1
      end
  | TUnit => fun v s => Some (v, s)
  | TPair a b => fun v s =>
      '(x, s1) ← Serialize mode a (fst v) s;
      '(y, s2) ← Serialize mode b (snd v) s1;
      Some ((x, y), s2)
  end.

(** [Serializer<Measure> MSer; schema(MSer, v); MSer.GetSize(nullptr)]. *)
Definition MeasureSize (t : schema) (v : sem t) : nat :=
  match Serialize Measure t v (MkSer [] 0) with
  | Some (_, s) => GetSize s
  | None => 0
  end.

(** A freshly allocated buffer of [n] bytes. *)
Definition Allocate (n : nat) : list Z := replicate n 0.

(** The values a schema can hold in C++ and keep through the format:
    integers fit their width, strings have non-zero bytes and a length that
    fits 32 bits with the terminator, array counts fit 32 bits, fixed arrays
    have their length, indices differ from the sentinel. *)
Fixpoint wfb (t : schema) : sem t -> bool :=
  match t return sem t -> bool with
  | TUInt w => fun x => bool_decide (0 <= x < 256 ^ Z.of_nat w)
  | TString => fun v =>
      let str := default [] v in
      nonzero_bytes str && bool_decide (Z.of_nat (length str) + 1 < 2 ^ 32)
  | TPtrIndex sentinel => fun v =>
      match v with
      | None => bool_decide (0 <= sentinel < 2 ^ 32)
      | Some i => bool_decide (0 <= i < 2 ^ 32 /\ i <> sentinel)
      end
  | TFixedArr n e => fun v => bool_decide (length v = n) && forallb (wfb e) v
  | TArray e => fun v => bool_decide (Z.of_nat (length v) < 2 ^ 32) && forallb (wfb e) v
  | TUnit => fun _ => true
  | TPair a b => fun v => wfb a (fst v) && wfb b (snd v)
  end.

(** What the format preserves of a value: everything but the difference
    between a null string and an empty one. *)
Fixpoint preserved (t : schema) : sem t -> sem t :=
  match t return sem t -> sem t with
  | TUInt _ => fun x => x
  | TString => fun v => Some (default [] v)
  | TPtrIndex _ => fun v => v
  | TFixedArr _ e => fun v => preserved e <$> v
  | TArray e => fun v => preserved e <$> v
  | TUnit => fun v => v
  | TPair a b => fun v => (preserved a (fst v), preserved b (snd v))
  end.

(** The bytes a value occupies (used to state what Write leaves in the
    buffer). *)
Fixpoint encode (t : schema) : sem t -> list Z :=
  match t return sem t -> list Z with
  | TUInt w => fun x => le_bytes w x
  | TString => fun v =>
      let str := default [] v in
      let Length := wrap32 (Z.of_nat (length str) + 1) in
      le_bytes 4 Length ++ take (Z.to_nat Length) (str ++ [0])
  | TPtrIndex sentinel => fun v => le_bytes 4 (default sentinel v)
  | TFixedArr _ e => fun v => concat (encode e <$> v)
  | TArray e => fun v => le_bytes 4 (wrap32 (Z.of_nat (length v))) ++ concat (encode e <$> v)
  | TUnit => fun _ => []
  | TPair a b => fun v => encode a (fst v) ++ encode b (snd v)
  end.

(** What the proofs about Write and Read mode say of a field serializer:
    it leaves, or finds, the bytes of the value at the cursor, whatever
    surrounds them in the buffer. *)
Definition writes_encode {A} (f : A -> Ser -> option (A * Ser)) (enc : A -> list Z) : Prop :=
  forall x pre junk post p,
    p = length pre -> length junk = length (enc x) ->
    f x (MkSer (pre ++ junk ++ post) p)
    = Some (x, MkSer (pre ++ enc x ++ post) (p + length (enc x))).

Definition reads_encode {A} (g : Ser -> option (A * Ser)) (bytes : list Z) (res : A) : Prop :=
  forall pre post p,
    p = length pre ->
    g (MkSer (pre ++ bytes ++ post) p)
    = Some (res, MkSer (pre ++ bytes ++ post) (p + length bytes)).

(** Modelled from the spec: the resource-signature description of seed
    scenario S1, as far as the scenario names its fields: resources
    (shader stages, name, array size, resource type), immutable samplers
    (shader stages, name; the sampler state is the default one) and the
    binding index. *)
Definition PipelineResourceDesc_schema : schema :=
  TPair (TUInt 4) (TPair TString (TPair (TUInt 4) (TUInt 1))).

Definition ImmutableSamplerDesc_schema : schema :=
  TPair (TUInt 4) TString.

Definition PRSDesc_schema : schema :=
  TPair (TArray PipelineResourceDesc_schema)
        (TPair (TArray ImmutableSamplerDesc_schema) (TUInt 1)).

Definition S1_PRSDesc : sem PRSDesc_schema :=
  ([ (1, (Some (bytes_of_string "R1"), (1, 2)));
     (2, (Some (bytes_of_string "R2"), (3, 6))) ],
   ([ (3, Some (bytes_of_string "S1")) ], 2)).

End Serializer.

(** ** Bit loops

    [for (auto Bits = Flags; Bits != 0;) { auto Bit = ExtractLSB(Bits); ... }]
    visits the set bits of a flag word from the least significant one;
    [set_bits Flags] is the list of their positions ([PlatformMisc::GetLSB])
    in that order. *)
Definition set_bits (Flags : Z) : list Z :=
  filter (fun i => Z.testbit Flags i = true) (seqZ 0 32).

(** ** The writer: [ArchiverImpl] *)

Module Archiver.
Import Serializer.

(** [DeviceObjectArchiveBase::DeviceType], in declaration order; loops
    [for (type = 0; type < DeviceDataCount; ++type)] run over [DeviceTypes]. *)
Inductive DeviceType :=
  OpenGL | Direct3D11 | Direct3D12 | Vulkan | Metal_iOS | Metal_MacOS.

#[global] Instance DeviceType_eq_dec : EqDecision DeviceType.
Proof. solve_decision. Defined.

Definition DeviceTypes : list DeviceType :=
  [OpenGL; Direct3D11; Direct3D12; Vulkan; Metal_iOS; Metal_MacOS].

(** [SerializedMemory]: a null block ([None], what [operator bool] tests) or
    an owned block of bytes. *)
Abbreviation SerializedMemory := (option (list Z)).

Definition Mem_Ptr (m : SerializedMemory) : list Z := default [] m.
Definition Mem_Size (m : SerializedMemory) : Z := Z.of_nat (length (Mem_Ptr m)).
Definition Mem_bool (m : SerializedMemory) : bool :=
  match m with Some _ => true | None => false end.

(** [SerializableResourceSignatureImpl]: the object behind an
    [IPipelineResourceSignature*].  [prs_this] is its address (pointers are
    compared by it), [prs_SerializedMemory] is [GetSerializedMemory(Type)],
    which may return a null pointer. *)
Record SerializableResourceSignatureImpl := MkPRS {
  prs_this : Z;
  prs_Name : string;
  prs_BindingIndex : Z;
  prs_SharedSerializedMemory : SerializedMemory;
  prs_SerializedMemory : DeviceType -> option SerializedMemory
}.

(** [SerializableRenderPassImpl]. *)
Record SerializableRenderPassImpl := MkRP {
  rp_this : Z;
  rp_Name : string;
  rp_SharedSerializedMemory : SerializedMemory
}.

(** [PRSData::GetSharedData] and [PRSData::GetDeviceData]. *)
Definition PRS_GetSharedData (PRS : SerializableResourceSignatureImpl) : SerializedMemory :=
  prs_SharedSerializedMemory PRS.

Definition PRS_GetDeviceData (PRS : SerializableResourceSignatureImpl) (Type_ : DeviceType)
  : SerializedMemory :=
  match prs_SerializedMemory PRS Type_ with
  | Some pMem => pMem
  | None => None
  end.

(** [ShaderCreateInfo], the fields the archiver reads. *)
Record ShaderCreateInfo := MkShaderCI {
  Desc_ShaderType : Z;
  EntryPoint : option (list Z);
  Source : list Z;
  SourceLength : nat;
  Macros : option (list (list Z * list Z));
  SourceLanguage : Z;
  ShaderCompiler : Z;
  UseCombinedTextureSamplers : Z;
  CombinedSamplerSuffix : option (list Z)
}.

Definition SHADER_SOURCE_LANGUAGE_DEFAULT : Z := 0.
Definition SHADER_COMPILER_DEFAULT : Z := 0.

(** [m_Shaders[dev]]: the shader list and the map from a key's bytes to its
    position in the list.  [ShaderKey] hashes and compares the bytes of
    [Key.Mem]. *)
Record TPerDeviceShaders := MkShaders {
  Shaders_List : list (list Z);
  Shaders_Map : gmap (list Z) nat
}.

(** [TPSOData]: the shared blob and the per-device blobs of a pipeline. *)
Record TPSOData := MkPSOData {
  SharedData : SerializedMemory;
  PerDeviceData : DeviceType -> SerializedMemory
}.

Definition TPSOData_empty : TPSOData := MkPSOData None (fun _ => None).

Record ArchiverImpl := MkArchiver {
  m_PRSMap : gmap string SerializableResourceSignatureImpl;
  m_PRSCache : list SerializableResourceSignatureImpl;
  m_RPMap : gmap string SerializableRenderPassImpl;
  m_GraphicsPSOMap : gmap string TPSOData;
  m_ComputePSOMap : gmap string TPSOData;
  m_TilePSOMap : gmap string TPSOData;
  m_RayTracingPSOMap : gmap string TPSOData;
  m_Shaders : DeviceType -> TPerDeviceShaders
}.

Definition ArchiverImpl_new : ArchiverImpl :=
  MkArchiver ∅ [] ∅ ∅ ∅ ∅ ∅ (fun _ => MkShaders [] ∅).

Definition set_PRSMap m (w : ArchiverImpl) : ArchiverImpl :=
  MkArchiver m (m_PRSCache w) (m_RPMap w) (m_GraphicsPSOMap w) (m_ComputePSOMap w)
             (m_TilePSOMap w) (m_RayTracingPSOMap w) (m_Shaders w).
Definition set_PRSCache c (w : ArchiverImpl) : ArchiverImpl :=
  MkArchiver (m_PRSMap w) c (m_RPMap w) (m_GraphicsPSOMap w) (m_ComputePSOMap w)
             (m_TilePSOMap w) (m_RayTracingPSOMap w) (m_Shaders w).
Definition set_RPMap m (w : ArchiverImpl) : ArchiverImpl :=
  MkArchiver (m_PRSMap w) (m_PRSCache w) m (m_GraphicsPSOMap w) (m_ComputePSOMap w)
             (m_TilePSOMap w) (m_RayTracingPSOMap w) (m_Shaders w).
Definition set_Shaders sh (w : ArchiverImpl) : ArchiverImpl :=
  MkArchiver (m_PRSMap w) (m_PRSCache w) (m_RPMap w) (m_GraphicsPSOMap w) (m_ComputePSOMap w)
             (m_TilePSOMap w) (m_RayTracingPSOMap w) sh.

(** The four instances of the [PSOMap] parameter of [SerializePSO]. *)
Inductive PSOKind := GraphicsPSO | ComputePSO | TilePSO | RayTracingPSO.

#[global] Instance PSOKind_eq_dec : EqDecision PSOKind.
Proof. solve_decision. Defined.

Definition PSOMap (kind : PSOKind) (w : ArchiverImpl) : gmap string TPSOData :=
  match kind with
  | GraphicsPSO => m_GraphicsPSOMap w
  | ComputePSO => m_ComputePSOMap w
  | TilePSO => m_TilePSOMap w
  | RayTracingPSO => m_RayTracingPSOMap w
  end.

Definition set_PSOMap (kind : PSOKind) (m : gmap string TPSOData) (w : ArchiverImpl)
  : ArchiverImpl :=
  match kind with
  | GraphicsPSO =>
      MkArchiver (m_PRSMap w) (m_PRSCache w) (m_RPMap w) m (m_ComputePSOMap w)
                 (m_TilePSOMap w) (m_RayTracingPSOMap w) (m_Shaders w)
  | ComputePSO =>
      MkArchiver (m_PRSMap w) (m_PRSCache w) (m_RPMap w) (m_GraphicsPSOMap w) m
                 (m_TilePSOMap w) (m_RayTracingPSOMap w) (m_Shaders w)
  | TilePSO =>
      MkArchiver (m_PRSMap w) (m_PRSCache w) (m_RPMap w) (m_GraphicsPSOMap w)
                 (m_ComputePSOMap w) m (m_RayTracingPSOMap w) (m_Shaders w)
  | RayTracingPSO =>
      MkArchiver (m_PRSMap w) (m_PRSCache w) (m_RPMap w) (m_GraphicsPSOMap w)
                 (m_ComputePSOMap w) (m_TilePSOMap w) m (m_Shaders w)
  end.

(** The pipeline create info, as far as [SerializePSO] looks into it.
    [ppResourceSignatures] is a nullable pointer to an array of nullable
    pointers; [pRenderPass] is read for graphics pipelines only; the other
    fields are the opaque [OtherFields]. *)
Record PipelineStateCreateInfo := MkCI {
  PSODesc_Name : option string;
  PSODesc_ResourceLayout : list Z;
  ResourceSignaturesCount : Z;
  ppResourceSignatures : option (list (option SerializableResourceSignatureImpl));
  pRenderPass : option SerializableRenderPassImpl;
  OtherFields : list Z
}.

Record PipelineStateArchiveInfo := MkArchiveInfo {
  PSOFlags : Z;
  DeviceFlags : Z
}.

Record DefaultPRSInfo := MkDefPRS {
  DefPRS_pPRS : option SerializableResourceSignatureImpl;
  DefPRS_DeviceFlags : Z;
  DefPRS_UniqueName : string
}.

(** [RENDER_DEVICE_TYPE]: the position of a bit of [DeviceFlags] is the
    render device type it stands for. *)
Definition RENDER_DEVICE_TYPE_UNDEFINED : Z := 0.
Definition RENDER_DEVICE_TYPE_D3D11 : Z := 1.
Definition RENDER_DEVICE_TYPE_D3D12 : Z := 2.
Definition RENDER_DEVICE_TYPE_GL : Z := 3.
Definition RENDER_DEVICE_TYPE_GLES : Z := 4.
Definition RENDER_DEVICE_TYPE_VULKAN : Z := 5.
Definition RENDER_DEVICE_TYPE_METAL : Z := 6.
Definition RENDER_DEVICE_TYPE_COUNT : Z := 7.

(** A backend shader patcher: [PatchShaders*(CreateInfo&, Data&, DefPRS&)], a
    member function of the archiver that reports success. *)
Definition Patcher : Type :=
  PipelineStateCreateInfo -> TPSOData -> DefaultPRSInfo -> ArchiverImpl ->
  bool * (PipelineStateCreateInfo * TPSOData * DefaultPRSInfo * ArchiverImpl).

(** What the archiver takes from outside [ArchiverImpl.cpp] and
    [Archiver_GL.cpp]: the build configuration, the serialization device,
    the patchers of the backends whose sources are elsewhere, and the schema
    of a pipeline create info.  A patcher gets the pipeline's entry through
    [Data] and leaves the four pipeline maps alone. *)
Class Externals := {
  D3D11_SUPPORTED : bool;
  D3D12_SUPPORTED : bool;
  GL_SUPPORTED : bool;
  VULKAN_SUPPORTED : bool;
  METAL_SUPPORTED : bool;
  GetValidDeviceFlags : Z;
  ValidatePSOCreateInfo : PSOKind -> PipelineStateCreateInfo -> bool;
  PatchShadersD3D11 : PSOKind -> Patcher;
  PatchShadersD3D12 : PSOKind -> Patcher;
  PatchShadersVk : PSOKind -> Patcher;
  PatchShadersMtl : PSOKind -> Patcher;
  ExtractShadersGL : PSOKind -> PipelineStateCreateInfo -> list ShaderCreateInfo;
  AppendShaderMacros : list Z -> list (list Z * list Z) -> list Z;
  PRS_Equal : SerializableResourceSignatureImpl -> SerializableResourceSignatureImpl -> bool;
  SerializerPSOImpl : PSOKind -> PipelineStateCreateInfo -> list string -> list Z;
  Patcher_frame :
    forall P, P ∈ [PatchShadersD3D11; PatchShadersD3D12; PatchShadersVk; PatchShadersMtl] ->
    forall kind CI Data DefPRS w k,
      PSOMap k (P kind CI Data DefPRS w).2.2 = PSOMap k w
}.

Section Registry.
Context `{Ext : Externals}.

(** [std::unordered_map::emplace]: the entry found or inserted under the key,
    whether the insertion took place, and the map afterwards. *)
Definition emplace {K V} `{Countable K} (k : K) (v : V) (m : gmap K V)
  : V * bool * gmap K V :=
  match m !! k with
  | Some v0 => (v0, false, m)
  | None => (v, true, <[k := v]> m)
  end.

(** [m_PRSCache.insert]: an unordered set under [PRS_Equal]. *)
Definition PRSCache_insert (PRS : SerializableResourceSignatureImpl)
  (c : list SerializableResourceSignatureImpl) : list SerializableResourceSignatureImpl :=
  if existsb (PRS_Equal PRS) c then c else c ++ [PRS].

(** [ArchiverImpl::AddPipelineResourceSignature] on an
    [IPipelineResourceSignature] pointer. *)
Definition AddPipelineResourceSignature
  (pPRS : option SerializableResourceSignatureImpl) (w : ArchiverImpl) : bool * ArchiverImpl :=
  match pPRS with
  | None => (false, w)
  | Some pPRSImpl =>
      let Name := prs_Name pPRSImpl in
      let '(Iter, Inserted, Map') := emplace Name pPRSImpl (m_PRSMap w) in
      if negb Inserted then
        if bool_decide (prs_this Iter <> prs_this pPRSImpl)
        then (false, w)
        else (true, w)
      else
        (true, set_PRSCache (PRSCache_insert pPRSImpl (m_PRSCache w)) (set_PRSMap Map' w))
  end.

(** [ArchiverImpl::AddRenderPass]. *)
Definition AddRenderPass (pRP : option SerializableRenderPassImpl) (w : ArchiverImpl)
  : bool * ArchiverImpl :=
  match pRP with
  | None => (false, w)
  | Some pRPImpl =>
      let '(Iter, Inserted, Map') := emplace (rp_Name pRPImpl) pRPImpl (m_RPMap w) in
      if negb Inserted then
        if bool_decide (rp_this Iter <> rp_this pRPImpl)
        then (false, w)
        else (true, w)
      else (true, set_RPMap Map' w)
  end.

(** [ArchiverImpl::GetDefaultPRSName]: the first name of the sequence
    [PRSName0], [PRSName0 + "1"], [PRSName0 + "2"], ... that is not a key of
    [m_PRSMap].  A map of [n] entries leaves one of the first [n + 1] names
    free, which bounds the search. *)
Definition DefaultPRSName (PSOName : string) (Index : N) : string :=
  let PRSName0 := "Default Signature of PSO '" +:+ PSOName +:+ "'" in
  if decide (Index = 0%N) then PRSName0 else PRSName0 +:+ pretty Index.

Fixpoint GetDefaultPRSName_from (fuel : nat) (Index : N)
  (Map : gmap string SerializableResourceSignatureImpl) (PSOName : string) : string :=
  let PRSName := DefaultPRSName PSOName Index in
  match Map !! PRSName with
  | None => PRSName
  | Some _ =>
      match fuel with
      | O => PRSName
      | S fuel' => GetDefaultPRSName_from fuel' (N.succ Index) Map PSOName
      end
  end.

Definition GetDefaultPRSName (w : ArchiverImpl) (PSOName : string) : string :=
  GetDefaultPRSName_from (size (m_PRSMap w)) 0 (m_PRSMap w) PSOName.

(** *** Shader deduplication *)

(** The prefix both shader serializers put before the payload: shader type,
    entry point, source language and compiler (32-bit enums). *)
Definition ShaderPrefix_schema : schema :=
  TPair (TUInt 4) (TPair TString (TPair (TUInt 4) (TUInt 4))).

(** The prefix of [SerializeShaderSource], which also carries
    [UseCombinedTextureSamplers] (a [bool]) and [CombinedSamplerSuffix]. *)
Definition ShaderSourcePrefix_schema : schema :=
  TPair (TUInt 4) (TPair TString (TPair (TUInt 4) (TPair (TUInt 4) (TPair (TUInt 1) TString)))).

(** [ShaderKey Key{make_shared<SerializedMemory>(Size)}], filled by a Write
    serializer with the prefix and then with the payload, one byte at a
    time. *)
Definition WriteShaderKey (t : schema) (prefix : sem t) (pBytes : list Z) : list Z :=
  let Size := (MeasureSize t prefix + length pBytes)%nat in
  let Ser0 := MkSer (Allocate Size) 0 in
  match Serialize Write t prefix Ser0 with
  | Some (_, Ser1) =>
      match SerializeElems (SerializeInt Write 1) pBytes Ser1 with
      | Some (_, Ser2) => m_Buf Ser2
      | None => m_Buf Ser1
      end
  | None => m_Buf Ser0
  end.

Definition ShaderBytecodeKey (CI : ShaderCreateInfo) (Bytecode : list Z) : list Z :=
  WriteShaderKey ShaderPrefix_schema
    (Desc_ShaderType CI, (EntryPoint CI,
       (SHADER_SOURCE_LANGUAGE_DEFAULT, SHADER_COMPILER_DEFAULT)))
    Bytecode.

Definition ShaderSourceKey (CI : ShaderCreateInfo) : list Z :=
  let Source0 := take (SourceLength CI) (Source CI) in
  let Source1 := match Macros CI with
                 | Some M => AppendShaderMacros Source0 M
                 | None => Source0
                 end in
  WriteShaderKey ShaderSourcePrefix_schema
    (Desc_ShaderType CI, (EntryPoint CI, (SourceLanguage CI, (ShaderCompiler CI,
       (UseCombinedTextureSamplers CI, CombinedSamplerSuffix CI)))))
    (Source1 ++ [0]).

(** [auto IterAndInserted = Shaders.Map.emplace(Key, Shaders.List.size());
    if (IterAndInserted.second) Shaders.List.push_back(Key);] and the index
    [Iter->second]. *)
Definition EmplaceShader (Key : list Z) (Shaders : TPerDeviceShaders)
  : nat * TPerDeviceShaders :=
  let '(Index, Inserted, Map') :=
    emplace Key (length (Shaders_List Shaders)) (Shaders_Map Shaders) in
  if Inserted
  then (Index, MkShaders (Shaders_List Shaders ++ [Key]) Map')
  else (Index, Shaders).

Definition SerializeShaderKey (ShaderIndices : list Z) (DevType : DeviceType)
  (Key : list Z) (w : ArchiverImpl) : list Z * ArchiverImpl :=
  let '(Index, Shaders') := EmplaceShader Key (m_Shaders w DevType) in
  (ShaderIndices ++ [StaticCast_Uint32 (Z.of_nat Index)],
   set_Shaders (<[DevType := Shaders']> (m_Shaders w)) w).

(** [ArchiverImpl::SerializeShaderBytecode]. *)
Definition SerializeShaderBytecode (ShaderIndices : list Z) (DevType : DeviceType)
  (CI : ShaderCreateInfo) (Bytecode : list Z) (w : ArchiverImpl) : list Z * ArchiverImpl :=
  SerializeShaderKey ShaderIndices DevType (ShaderBytecodeKey CI Bytecode) w.

(** [ArchiverImpl::SerializeShaderSource]. *)
Definition SerializeShaderSource (ShaderIndices : list Z) (DevType : DeviceType)
  (CI : ShaderCreateInfo) (w : ArchiverImpl) : list Z * ArchiverImpl :=
  SerializeShaderKey ShaderIndices DevType (ShaderSourceKey CI) w.

(** A call of the spec's [serialize_shader]: bytecode or source. *)
Inductive ShaderCall :=
  | BytecodeCall (CI : ShaderCreateInfo) (Bytecode : list Z)
  | SourceCall (CI : ShaderCreateInfo).

Definition ShaderCall_Key (c : ShaderCall) : list Z :=
  match c with
  | BytecodeCall CI Bytecode => ShaderBytecodeKey CI Bytecode
  | SourceCall CI => ShaderSourceKey CI
  end.

Definition serialize_shader (ShaderIndices : list Z) (DevType : DeviceType)
  (c : ShaderCall) (w : ArchiverImpl) : list Z * ArchiverImpl :=
  match c with
  | BytecodeCall CI Bytecode => SerializeShaderBytecode ShaderIndices DevType CI Bytecode w
  | SourceCall CI => SerializeShaderSource ShaderIndices DevType CI w
  end.

(** A patcher's loop over the shader stages of a pipeline: every call
    appends its index to the same [ShaderIndices]. *)
Fixpoint serialize_shaders (ShaderIndices : list Z) (DevType : DeviceType)
  (calls : list ShaderCall) (w : ArchiverImpl) : list Z * ArchiverImpl :=
  match calls with
  | [] => (ShaderIndices, w)
  | c :: rest =>
      let '(ShaderIndices', w') := serialize_shader ShaderIndices DevType c w in
      serialize_shaders ShaderIndices' DevType rest w'
  end.

(** [ArchiverImpl::SerializeShadersForPSO]: the index array, a 32-bit count
    followed by the indices. *)
Definition ShaderIndexArray_schema : schema := TArray (TUInt 4).

Definition SerializeShadersForPSO (ShaderIndices : list Z) : SerializedMemory :=
  let Size := MeasureSize ShaderIndexArray_schema ShaderIndices in
  match Serialize Write ShaderIndexArray_schema ShaderIndices (MkSer (Allocate Size) 0) with
  | Some (_, Ser1) => Some (m_Buf Ser1)
  | None => Some (Allocate Size)
  end.

(** [ArchiverImpl::PatchShadersGL] ([Archiver_GL.cpp]). *)
Definition PatchShadersGL (kind : PSOKind) : Patcher :=
  fun CreateInfo Data DefPRS w =>
    let ShaderStages := ExtractShadersGL kind CreateInfo in
    let '(ShaderIndices, w') :=
      serialize_shaders [] OpenGL (SourceCall <$> ShaderStages) w in
    (true, (CreateInfo,
            MkPSOData (SharedData Data)
                      (<[OpenGL := SerializeShadersForPSO ShaderIndices]> (PerDeviceData Data)),
            DefPRS, w')).

(** *** Adding pipelines *)

(** The loop of [ValidatePipelineStateArchiveInfo] over the signatures:
    every pointer is non-null and no binding index repeats ([PRSExists]).
    An index past the end of the array counts as a null pointer. *)
Fixpoint ValidateSignatures (pp : list (option SerializableResourceSignatureImpl))
  (idxs : list nat) (PRSExists : gset Z) : bool :=
  match idxs with
  | [] => true
  | i :: rest =>
      match pp !! i with
      | Some (Some pSignature) =>
          if decide (prs_BindingIndex pSignature ∈ PRSExists) then false
          else ValidateSignatures pp rest ({[prs_BindingIndex pSignature]} ∪ PRSExists)
      | _ => false
      end
  end.

(** [ValidatePipelineStateArchiveInfo]: [false] where the source throws. *)
Definition ValidatePipelineStateArchiveInfo (PSOCreateInfo : PipelineStateCreateInfo)
  (ArchiveInfo : PipelineStateArchiveInfo) (ValidDeviceFlags : Z) : bool :=
  negb (DeviceFlags ArchiveInfo =? 0)
  && (Z.land (DeviceFlags ArchiveInfo) ValidDeviceFlags =? DeviceFlags ArchiveInfo)
  && match PSODesc_Name PSOCreateInfo with Some _ => true | None => false end
  && eqb (negb (ResourceSignaturesCount PSOCreateInfo =? 0))
         (match ppResourceSignatures PSOCreateInfo with Some _ => true | None => false end)
  && ValidateSignatures (default [] (ppResourceSignatures PSOCreateInfo))
       (seq 0 (Z.to_nat (ResourceSignaturesCount PSOCreateInfo))) ∅.

(** The [switch (Type)] of [SerializePSO]: the patcher of a render device
    type, if its backend is compiled in; the other cases only log. *)
Definition PatchShaders (kind : PSOKind) (Type_ : Z) : option Patcher :=
  if decide (Type_ = RENDER_DEVICE_TYPE_D3D11) then
    if D3D11_SUPPORTED then Some (PatchShadersD3D11 kind) else None
  else if decide (Type_ = RENDER_DEVICE_TYPE_D3D12) then
    if D3D12_SUPPORTED then Some (PatchShadersD3D12 kind) else None
  else if decide (Type_ = RENDER_DEVICE_TYPE_GL \/ Type_ = RENDER_DEVICE_TYPE_GLES) then
    if GL_SUPPORTED then Some (PatchShadersGL kind) else None
  else if decide (Type_ = RENDER_DEVICE_TYPE_VULKAN) then
    if VULKAN_SUPPORTED then Some (PatchShadersVk kind) else None
  else if decide (Type_ = RENDER_DEVICE_TYPE_METAL) then
    if METAL_SUPPORTED then Some (PatchShadersMtl kind) else None
  else None.

(** [Data] is a reference to the entry of the pipeline in its map: what a
    patcher leaves in [Data] is what the map holds under the name. *)
Definition SetData (kind : PSOKind) (Name : string) (Data : TPSOData) (w : ArchiverImpl)
  : ArchiverImpl :=
  set_PSOMap kind (<[Name := Data]> (PSOMap kind w)) w.

(** The loop of [SerializePSO] over the bits of [ArchiveInfo.DeviceFlags]; it
    stops with [false] at the first patcher that fails. *)
Fixpoint PatchLoop (kind : PSOKind) (Name : string) (InResourceLayout : list Z)
  (UseDefaultPRS : bool) (DeviceBits : list Z)
  (PSOCreateInfo : PipelineStateCreateInfo) (Data : TPSOData) (DefPRS : DefaultPRSInfo)
  (w : ArchiverImpl)
  : bool * (PipelineStateCreateInfo * TPSOData * DefaultPRSInfo * ArchiverImpl) :=
  match DeviceBits with
  | [] => (true, (PSOCreateInfo, Data, DefPRS, w))
  | Type_ :: rest =>
      let '(ok, (CI1, Data1, DefPRS1, w1)) :=
        match PatchShaders kind Type_ with
        | Some Patch => Patch PSOCreateInfo Data DefPRS w
        | None => (true, (PSOCreateInfo, Data, DefPRS, w))
        end in
      let w2 := SetData kind Name Data1 w1 in
      if negb ok then (false, (CI1, Data1, DefPRS1, w2))
      else
        let CI2 :=
          if UseDefaultPRS
          then MkCI (PSODesc_Name CI1) InResourceLayout 0 None (pRenderPass CI1) (OtherFields CI1)
          else CI1 in
        PatchLoop kind Name InResourceLayout UseDefaultPRS rest CI2 Data1 DefPRS1 w2
  end.

(** The loop that adds the signatures of a pipeline and collects their
    names; [None] where [AddPipelineResourceSignature] fails (the signatures
    added before stay added).  An index past the end of the array counts as a
    null pointer. *)
Fixpoint AddSignatures (pp : list (option SerializableResourceSignatureImpl))
  (idxs : list nat) (PRSNames : list string) (w : ArchiverImpl)
  : option (list string) * ArchiverImpl :=
  match idxs with
  | [] => (Some PRSNames, w)
  | i :: rest =>
      let pSignature := default None (pp !! i) in
      let '(ok, w') := AddPipelineResourceSignature pSignature w in
      if negb ok then (None, w')
      else AddSignatures pp rest
             (PRSNames ++ [match pSignature with Some s => prs_Name s | None => "" end]) w'
  end.

(** [ArchiverImpl::SerializePSO]. *)
Definition SerializePSO (kind : PSOKind) (InPSOCreateInfo : PipelineStateCreateInfo)
  (ArchiveInfo : PipelineStateArchiveInfo) (w : ArchiverImpl) : bool * ArchiverImpl :=
  let PSOCreateInfo := InPSOCreateInfo in
  if negb (ValidatePipelineStateArchiveInfo PSOCreateInfo ArchiveInfo GetValidDeviceFlags
           && ValidatePSOCreateInfo kind PSOCreateInfo)
  then (false, w)
  else
    match PSODesc_Name PSOCreateInfo with
    | None => (false, w)
    | Some Name =>
        let '(_, Inserted, Map') := emplace Name TPSOData_empty (PSOMap kind w) in
        if negb Inserted then (false, w)
        else
          let w0 := set_PSOMap kind Map' w in
          let Data := TPSOData_empty in
          let UseDefaultPRS := ResourceSignaturesCount PSOCreateInfo =? 0 in
          let DefPRS :=
            if UseDefaultPRS
            then MkDefPRS None (DeviceFlags ArchiveInfo) (GetDefaultPRSName w0 Name)
            else MkDefPRS None 0 "" in
          let '(ok, (CI1, Data1, DefPRS1, w1)) :=
            PatchLoop kind Name (PSODesc_ResourceLayout InPSOCreateInfo) UseDefaultPRS
              (set_bits (DeviceFlags ArchiveInfo)) PSOCreateInfo Data DefPRS w0 in
          if negb ok then (false, w1)
          else if Mem_bool (SharedData Data1) then (true, w1)
          else
            let CI2 :=
              if UseDefaultPRS
              then MkCI (PSODesc_Name CI1) (PSODesc_ResourceLayout CI1) 1
                        (Some [DefPRS_pPRS DefPRS1]) (pRenderPass CI1) (OtherFields CI1)
              else CI1 in
            match AddSignatures (default [] (ppResourceSignatures CI2))
                    (seq 0 (Z.to_nat (ResourceSignaturesCount CI2))) [] w1 with
            | (None, w2) => (false, w2)
            | (Some PRSNames, w2) =>
                let Data2 := MkPSOData (Some (SerializerPSOImpl kind CI2 PRSNames))
                                       (PerDeviceData Data1) in
                (true, SetData kind Name Data2 w2)
            end
    end.

(** [AddGraphicsPipelineState], [AddComputePipelineState],
    [AddRayTracingPipelineState] and [AddTilePipelineState]. *)
Definition AddGraphicsPipelineState (PSOCreateInfo : PipelineStateCreateInfo)
  (ArchiveInfo : PipelineStateArchiveInfo) (w : ArchiverImpl) : bool * ArchiverImpl :=
  match pRenderPass PSOCreateInfo with
  | Some pRP =>
      let '(ok, w') := AddRenderPass (Some pRP) w in
      if negb ok then (false, w')
      else SerializePSO GraphicsPSO PSOCreateInfo ArchiveInfo w'
  | None => SerializePSO GraphicsPSO PSOCreateInfo ArchiveInfo w
  end.

Definition AddComputePipelineState := SerializePSO ComputePSO.
Definition AddRayTracingPipelineState := SerializePSO RayTracingPSO.
Definition AddTilePipelineState := SerializePSO TilePSO.

(** The add operation of each pipeline kind. *)
Definition AddPipelineState (kind : PSOKind) :=
  match kind with
  | GraphicsPSO => AddGraphicsPipelineState
  | ComputePSO => AddComputePipelineState
  | TilePSO => AddTilePipelineState
  | RayTracingPSO => AddRayTracingPipelineState
  end.

(** The state in which [SerializePSO] enters its loop over the device bits,
    in a call of an add operation that passes the validation and finds the
    name of the pipeline free: the render pass of a graphics pipeline has
    been added ([AddGraphicsPipelineState]), the pipeline has its empty
    entry in the map ([emplace]), and [DefPRS] is set up for the default
    signature when the pipeline has no signatures of its own. *)
Definition PatchLoop_writer (kind : PSOKind) (PSOCreateInfo : PipelineStateCreateInfo)
  (Name : string) (w : ArchiverImpl) : ArchiverImpl :=
  let w' := match kind with
            | GraphicsPSO => (AddRenderPass (pRenderPass PSOCreateInfo) w).2
            | _ => w
            end in
  set_PSOMap kind (<[Name := TPSOData_empty]> (PSOMap kind w')) w'.

Definition PatchLoop_DefPRS (PSOCreateInfo : PipelineStateCreateInfo)
  (ArchiveInfo : PipelineStateArchiveInfo) (Name : string) (w0 : ArchiverImpl)
  : DefaultPRSInfo :=
  if ResourceSignaturesCount PSOCreateInfo =? 0
  then MkDefPRS None (DeviceFlags ArchiveInfo) (GetDefaultPRSName w0 Name)
  else MkDefPRS None 0 "".

End Registry.

(** The shader map sends a key to the position of its entry in the list. *)
Definition shaders_wf (sh : TPerDeviceShaders) : Prop :=
  forall k i, Shaders_Map sh !! k = Some i <-> Shaders_List sh !! i = Some k.

(** *** The layout engine: reserving space and writing named resources *)

(** Modelled from the spec: [TDataElement] is a [FixedLinearAllocator],
    whose source is not at hand.  The spec describes two passes over growing
    buffers (a reserve pass that adds up the sizes, a fill pass from the
    start of the block) and a format whose records are packed, without
    alignment; so a block is the number of bytes reserved and the bytes
    written so far, and no padding is reserved or inserted. *)
Record TDataElement := MkData {
  ReservedSize : Z;
  Data : list Z
}.

Definition TDataElement_new : TDataElement := MkData 0 [].

(** Modelled from the spec: [AddSpace(size)] reserves [size] bytes.  The
    typed requests of the source, [AddSpace<T>(n)], count as the [n] packed
    records of section 4.B: [n * sizeof(T)] bytes. *)
Definition AddSpace (size : Z) (e : TDataElement) : TDataElement :=
  MkData (ReservedSize e + size) (Data e).

(** Modelled from the spec: [GetCurrentSize()], the bytes written so far. *)
Definition GetCurrentSize (e : TDataElement) : Z := Z.of_nat (length (Data e)).

(** Modelled from the spec: [DstChunk.Copy(Ptr, Size)].  The bytes go to the
    current end of the block; the result is the offset
    [pDst - GetDataPtr()] and the block.  [Construct<T>] and
    [ConstructArray<T>(n)] are copies of the packed bytes of the records. *)
Definition Data_Copy (bytes : list Z) (e : TDataElement) : Z * TDataElement :=
  (GetCurrentSize e, MkData (ReservedSize e) (Data e ++ bytes)).

(** Modelled from the spec: the record sizes of section 4.B (packed 32-bit
    fields). *)
Definition sizeof_DataHeader : Z := 52.
Definition sizeof_FileOffsetAndSize : Z := 8.

(** Modelled from the spec: [PRSDataHeader], [RPDataHeader] and
    [PSODataHeader], one shape: the kind tag and the per-device sizes and
    offsets, which start as zero and as the absent offset. *)
Record DataHeader := MkHeader {
  Header_Type : Z;
  DeviceSpecificDataSize : DeviceType -> Z;
  DeviceSpecificDataOffset : DeviceType -> Z
}.

Definition DataHeader_new (Type_ : Z) : DataHeader :=
  MkHeader Type_ (fun _ => 0) (fun _ => InvalidOffset).

Definition SetSize (Type_ : DeviceType) (v : Z) (h : DataHeader) : DataHeader :=
  MkHeader (Header_Type h) (<[Type_ := v]> (DeviceSpecificDataSize h))
           (DeviceSpecificDataOffset h).

Definition SetOffset (Type_ : DeviceType) (v : Z) (h : DataHeader) : DataHeader :=
  MkHeader (Header_Type h) (DeviceSpecificDataSize h)
           (<[Type_ := v]> (DeviceSpecificDataOffset h)).

Definition DataHeader_bytes (h : DataHeader) : list Z :=
  le_bytes 4 (Header_Type h)
  ++ concat ((fun d => le_bytes 4 (DeviceSpecificDataSize h d)) <$> DeviceTypes)
  ++ concat ((fun d => le_bytes 4 (DeviceSpecificDataOffset h d)) <$> DeviceTypes).

(** The part of [PendingData] that the named resources go to. *)
Record PendingData := MkPending {
  Pending_SharedData : TDataElement;
  Pending_PerDeviceData : DeviceType -> TDataElement
}.

Definition set_SharedData (e : TDataElement) (P : PendingData) : PendingData :=
  MkPending e (Pending_PerDeviceData P).

Definition set_PerDeviceData (Type_ : DeviceType) (e : TDataElement) (P : PendingData)
  : PendingData :=
  MkPending (Pending_SharedData P) (<[Type_ := e]> (Pending_PerDeviceData P)).

(** [if (Type == DeviceType::Metal_MacOS) Type = DeviceType::Metal_iOS;]
    "MacOS & iOS have the same PRS". *)
Definition PRSDevType (Type_ : DeviceType) : DeviceType :=
  if decide (Type_ = Metal_MacOS) then Metal_iOS else Type_.

(** [ReserveSpace], the body of the loop over [m_Shaders]. *)
Definition ReserveSpaceForShaders (Shaders : DeviceType -> TPerDeviceShaders)
  (Type_ : DeviceType) (P : PendingData) : PendingData :=
  let List := Shaders_List (Shaders Type_) in
  match List with
  | [] => P
  | _ =>
      let DeviceData := Pending_PerDeviceData P Type_ in
      let DeviceData1 :=
        AddSpace (sizeof_FileOffsetAndSize * Z.of_nat (length List)) DeviceData in
      set_PerDeviceData Type_
        (foldl (fun e Sh => AddSpace (Z.of_nat (length Sh)) e) DeviceData1 List) P
  end.

(** [ReserveSpace], the body of the loop over [m_PRSMap]. *)
Definition ReserveSpaceForPRS (PRS : SerializableResourceSignatureImpl) (P : PendingData)
  : PendingData :=
  let P1 := set_SharedData
              (AddSpace (Mem_Size (PRS_GetSharedData PRS))
                 (AddSpace sizeof_DataHeader (Pending_SharedData P))) P in
  foldl (fun P' Type_ =>
           let Src := PRS_GetDeviceData PRS (PRSDevType Type_) in
           set_PerDeviceData Type_ (AddSpace (Mem_Size Src) (Pending_PerDeviceData P' Type_)) P')
        P1 DeviceTypes.

(** [ReserveSpace], the body of the loop over [m_RPMap]. *)
Definition ReserveSpaceForRP (RP : SerializableRenderPassImpl) (P : PendingData) : PendingData :=
  set_SharedData
    (AddSpace (Mem_Size (rp_SharedSerializedMemory RP))
       (AddSpace sizeof_DataHeader (Pending_SharedData P))) P.

(** [ReserveSpaceForPSO], the body of its loop. *)
Definition ReserveSpaceForPSO (PSO : TPSOData) (P : PendingData) : PendingData :=
  let P1 := set_SharedData
              (AddSpace (Mem_Size (SharedData PSO))
                 (AddSpace sizeof_DataHeader (Pending_SharedData P))) P in
  foldl (fun P' Type_ =>
           let Src := PerDeviceData PSO Type_ in
           set_PerDeviceData Type_ (AddSpace (Mem_Size Src) (Pending_PerDeviceData P' Type_)) P')
        P1 DeviceTypes.

(** A range-for over an unordered map: the entries in the order the map
    yields them. *)
Definition for_each {V S} (body : V -> S -> S) (m : gmap string V) (s : S) : S :=
  foldl (fun s' kv => body kv.2 s') s (map_to_list m).

(** [ArchiverImpl::ReserveSpace]. *)
Definition ReserveSpace (w : ArchiverImpl) : PendingData :=
  let P0 := MkPending TDataElement_new (fun _ => TDataElement_new) in
  let P1 := foldl (fun P Type_ => ReserveSpaceForShaders (m_Shaders w) Type_ P) P0 DeviceTypes in
  let P2 := for_each ReserveSpaceForPRS (m_PRSMap w) P1 in
  let P3 := for_each ReserveSpaceForRP (m_RPMap w) P2 in
  let P4 := for_each ReserveSpaceForPSO (m_GraphicsPSOMap w) P3 in
  let P5 := for_each ReserveSpaceForPSO (m_ComputePSOMap w) P4 in
  let P6 := for_each ReserveSpaceForPSO (m_TilePSOMap w) P5 in
  for_each ReserveSpaceForPSO (m_RayTracingPSOMap w) P6.

(** [WritePerDeviceData]: nothing for a null block; otherwise the bytes go to
    the device block and their size and offset into the header slot of
    [Type]. *)
Definition WritePerDeviceData (Header : DataHeader) (Type_ : DeviceType)
  (SrcMem : SerializedMemory) (DstChunk : TDataElement) : DataHeader * TDataElement :=
  if negb (Mem_bool SrcMem) then (Header, DstChunk)
  else
    let '(Offset, DstChunk') := Data_Copy (Mem_Ptr SrcMem) DstChunk in
    (SetOffset Type_ (StaticCast_Uint32 Offset)
       (SetSize Type_ (StaticCast_Uint32 (Mem_Size SrcMem)) Header),
     DstChunk').

(** The lambda [WritePRSPerDeviceData] of [SerializeToStream]. *)
Definition WritePRSPerDeviceData (Header : DataHeader) (Type_ : DeviceType)
  (Src : SerializableResourceSignatureImpl) (Pending : PendingData)
  : DataHeader * PendingData :=
  let PRSDevType := PRSDevType Type_ in
  let '(Header', Dst') :=
    WritePerDeviceData Header Type_ (PRS_GetDeviceData Src PRSDevType)
      (Pending_PerDeviceData Pending Type_) in
  (Header', set_PerDeviceData Type_ Dst' Pending).

(** The lambda [WritePSOPerDeviceData] of [SerializeToStream]. *)
Definition WritePSOPerDeviceData (Header : DataHeader) (Type_ : DeviceType)
  (Src : TPSOData) (Pending : PendingData) : DataHeader * PendingData :=
  let '(Header', Dst') :=
    WritePerDeviceData Header Type_ (PerDeviceData Src Type_)
      (Pending_PerDeviceData Pending Type_) in
  (Header', set_PerDeviceData Type_ Dst' Pending).

(** The body of the loop of [WriteDeviceObjectData] for one object:
    [WriteHeader] puts the header and the shared blob into [SharedData] and
    yields the offset of the header; the per-device writes then fill the
    header in place, so [SharedData] ends with the bytes of the filled
    header.  The result is the entry's [DataOffsetArray[j]], the increment of
    its [DataSizeArray[j]], and the pending data. *)
Definition WriteDeviceObject {Obj} (Type_ : Z) (GetSharedData : Obj -> SerializedMemory)
  (WriteDeviceData : DataHeader -> DeviceType -> Obj -> PendingData -> DataHeader * PendingData)
  (O : Obj) (Pending : PendingData) : Z * Z * PendingData :=
  let Shared := Pending_SharedData Pending in
  let DstOffset := StaticCast_Uint32 (GetCurrentSize Shared) in
  let '(Header, Pending1) :=
    foldl (fun '(h, P) d => WriteDeviceData h d O P) (DataHeader_new Type_, Pending) DeviceTypes in
  let Shared' := MkData (ReservedSize Shared)
                        (Data Shared ++ DataHeader_bytes Header ++ Mem_Ptr (GetSharedData O)) in
  (DstOffset, sizeof_DataHeader, set_SharedData Shared' Pending1).

(** The writer of the seed scenarios: every backend is compiled in, the
    backends whose sources are elsewhere have a patcher that fails (as when a
    shader does not compile for them), and the remaining collaborators are
    the simplest ones. *)
Definition FailingPatcher : Patcher :=
  fun CreateInfo Data DefPRS w => (false, (CreateInfo, Data, DefPRS, w)).

#[local] Program Instance FailingBackends : Externals := {|
  D3D11_SUPPORTED := true;
  D3D12_SUPPORTED := true;
  GL_SUPPORTED := true;
  VULKAN_SUPPORTED := true;
  METAL_SUPPORTED := true;
  GetValidDeviceFlags := 126;
  ValidatePSOCreateInfo := fun _ _ => true;
  PatchShadersD3D11 := fun _ => FailingPatcher;
  PatchShadersD3D12 := fun _ => FailingPatcher;
  PatchShadersVk := fun _ => FailingPatcher;
  PatchShadersMtl := fun _ => FailingPatcher;
  ExtractShadersGL := fun _ _ => [];
  AppendShaderMacros := fun Source _ => Source;
  PRS_Equal := fun a b => bool_decide (prs_this a = prs_this b);
  SerializerPSOImpl := fun _ _ _ => []
|}.
Next Obligation.
  intros P HP kind CI Data DefPRS w k.
  repeat (apply elem_of_cons in HP as [->|HP]; [reflexivity|]).
  by apply elem_of_nil in HP.
Qed.

(** Seed scenario S2: the vertex shader source [void main(){}]. *)
Definition S2_ShaderCI : ShaderCreateInfo :=
  MkShaderCI 1 (Some (bytes_of_string "main")) (bytes_of_string "void main(){}") 13
             None 0 0 1 (Some (bytes_of_string "_sampler")).

(** A signature and a compute pipeline [P] that refers to it, to be archived
    for Direct3D11. *)
Definition Sig1 : SerializableResourceSignatureImpl :=
  MkPRS 4096 "Sig" 0 (Some [1; 2; 3])
        (fun d => match d with
                  | Metal_iOS => Some (Some [7; 8])
                  | Metal_MacOS => Some (Some [9])
                  | _ => None
                  end).

(** Another signature object with the name of [Sig1]. *)
Definition Sig1_other : SerializableResourceSignatureImpl :=
  MkPRS 8192 "Sig" 0 (Some [1; 2; 3]) (fun _ => None).

Definition ComputeP : PipelineStateCreateInfo :=
  MkCI (Some "P") [] 1 (Some [Some Sig1]) None [].

Definition ForD3D11 : PipelineStateArchiveInfo := MkArchiveInfo 0 2.

(** A writer whose Vulkan patcher depends on its input: it fails for a
    pipeline without further fields (nothing to compile) and succeeds for
    every other pipeline; the other collaborators are those of
    [FailingBackends].  [ForGLAndVulkan] requests OpenGL (bit 3) and Vulkan
    (bit 5). *)
Definition SelectivePatcher : Patcher :=
  fun CreateInfo Data DefPRS w =>
    (bool_decide (OtherFields CreateInfo <> []), (CreateInfo, Data, DefPRS, w)).

#[local] Program Instance SelectiveBackends : Externals := {|
  D3D11_SUPPORTED := true;
  D3D12_SUPPORTED := true;
  GL_SUPPORTED := true;
  VULKAN_SUPPORTED := true;
  METAL_SUPPORTED := true;
  GetValidDeviceFlags := 126;
  ValidatePSOCreateInfo := fun _ _ => true;
  PatchShadersD3D11 := fun _ => FailingPatcher;
  PatchShadersD3D12 := fun _ => FailingPatcher;
  PatchShadersVk := fun _ => SelectivePatcher;
  PatchShadersMtl := fun _ => FailingPatcher;
  ExtractShadersGL := fun _ _ => [];
  AppendShaderMacros := fun Source _ => Source;
  PRS_Equal := fun a b => bool_decide (prs_this a = prs_this b);
  SerializerPSOImpl := fun _ _ _ => []
|}.
Next Obligation.
  intros P HP kind CI Data DefPRS w k.
  repeat (apply elem_of_cons in HP as [->|HP]; [reflexivity|]).
  by apply elem_of_nil in HP.
Qed.

Definition ForGLAndVulkan : PipelineStateArchiveInfo := MkArchiveInfo 0 40.

(** The compute pipeline [P] with a field for the backends to compile. *)
Definition ComputeP_with_code : PipelineStateCreateInfo :=
  MkCI (Some "P") [] 1 (Some [Some Sig1]) None [1].

End Archiver.

(** ** The reader: [DeviceObjectArchiveBase] *)

Module DeviceObjectArchive.
Import Serializer.

Abbreviation DeviceType := Archiver.DeviceType.

(** The position of a device type in the per-device arrays
    ([static_cast<Uint32>(DevType)]; [GetBlockOffsetType] maps a device type
    to the block offset type of the same position). *)
Definition DeviceType_index (d : DeviceType) : Z :=
  match d with
  | Archiver.OpenGL => 0
  | Archiver.Direct3D11 => 1
  | Archiver.Direct3D12 => 2
  | Archiver.Vulkan => 3
  | Archiver.Metal_iOS => 4
  | Archiver.Metal_MacOS => 5
  end.

(** The byte source ([IArchive]): its size and a read that fails when the
    range is not inside the source. *)
Definition Archive_GetSize (A : list Z) : Z := Z.of_nat (length A).

Definition Archive_Read (A : list Z) (Pos Size : Z) : option (list Z) :=
  if decide (0 <= Pos /\ 0 <= Size /\ Pos + Size <= Archive_GetSize A)
  then Some (take (Z.to_nat Size) (drop (Z.to_nat Pos) A))
  else None.

(** A read through a pointer into a buffer of the reader: [None] stands for
    an access outside the buffer, which the source does not check. *)
Definition bytes_at (Data : list Z) (Off Len : Z) : option (list Z) :=
  if decide (0 <= Off /\ 0 <= Len /\ Off + Len <= Z.of_nat (length Data))
  then Some (take (Z.to_nat Len) (drop (Z.to_nat Off) Data))
  else None.

Definition u32_at (Data : list Z) (Off : Z) : option Z :=
  le_value <$> bytes_at Data Off 4.

(** Modelled from the spec: [ChunkType], declared in the absent
    [DeviceObjectArchiveBase.hpp]: nine kinds, the first being the reserved
    one. *)
Inductive ChunkType :=
  | Undefined
  | ArchiveDebugInfo
  | ResourceSignature
  | GraphicsPipelineStates
  | ComputePipelineStates
  | RayTracingPipelineStates
  | TilePipelineStates
  | RenderPass
  | Shaders.

Definition ChunkType_Count : Z := 9.

Definition ChunkType_of_Z (t : Z) : option ChunkType :=
  match t with
  | 0 => Some Undefined
  | 1 => Some ArchiveDebugInfo
  | 2 => Some ResourceSignature
  | 3 => Some GraphicsPipelineStates
  | 4 => Some ComputePipelineStates
  | 5 => Some RayTracingPipelineStates
  | 6 => Some TilePipelineStates
  | 7 => Some RenderPass
  | 8 => Some Shaders
  | _ => None
  end.

Definition ChunkType_to_Z (t : ChunkType) : Z :=
  match t with
  | Undefined => 0
  | ArchiveDebugInfo => 1
  | ResourceSignature => 2
  | GraphicsPipelineStates => 3
  | ComputePipelineStates => 4
  | RayTracingPipelineStates => 5
  | TilePipelineStates => 6
  | RenderPass => 7
  | Shaders => 8
  end.

(** Modelled from the spec: the records of section 4.B, packed 32-bit
    fields in the order the spec lists them. *)
Record ArchiveHeader := MkArchiveHeader {
  MagicNumber : Z;
  Version : Z;
  NumChunks : Z;
  BlockBaseOffsets : DeviceType -> Z
}.

Definition sizeof_ArchiveHeader : Z := 36.

Record ChunkHeader := MkChunkHeader {
  Chunk_Type : Z;
  Chunk_Size : Z;
  Chunk_Offset : Z
}.

Definition sizeof_ChunkHeader : Z := 12.

Definition sizeof_DataHeader : Z := 52.
Definition sizeof_FileOffsetAndSize : Z := 8.

(** The 32-bit field at [Off] of a record image that is long enough. *)
Definition field32 (bs : list Z) (Off : Z) : Z :=
  le_value (take 4 (drop (Z.to_nat Off) bs)).

Definition ArchiveHeader_of_bytes (bs : list Z) : ArchiveHeader :=
  MkArchiveHeader (field32 bs 0) (field32 bs 4) (field32 bs 8)
                  (fun d => field32 bs (12 + 4 * DeviceType_index d)).

Definition ChunkHeader_of_bytes (bs : list Z) : ChunkHeader :=
  MkChunkHeader (field32 bs 0) (field32 bs 4) (field32 bs 8).

(** The chunk headers in an image of [n] consecutive records. *)
Fixpoint ChunkHeaders_of_bytes (n : nat) (bs : list Z) : list ChunkHeader :=
  match n with
  | O => []
  | S n' => ChunkHeader_of_bytes bs :: ChunkHeaders_of_bytes n' (drop 12 bs)
  end.

(** Modelled from the spec: the data headers, one shape: the kind tag, the
    per-device sizes and the per-device offsets; [GetEndOffset] is the 32-bit
    sum of offset and size. *)
Record DataHeader := MkDataHeader {
  Header_Type : Z;
  DeviceSpecificDataSize : DeviceType -> Z;
  DeviceSpecificDataOffset : DeviceType -> Z
}.

Definition DataHeader_of_bytes (bs : list Z) : DataHeader :=
  MkDataHeader (field32 bs 0)
               (fun d => field32 bs (4 + 4 * DeviceType_index d))
               (fun d => field32 bs (28 + 4 * DeviceType_index d)).

Definition Header_GetSize (h : DataHeader) (d : DeviceType) : Z := DeviceSpecificDataSize h d.
Definition Header_GetOffset (h : DataHeader) (d : DeviceType) : Z := DeviceSpecificDataOffset h d.
Definition Header_GetEndOffset (h : DataHeader) (d : DeviceType) : Z :=
  wrap32 (DeviceSpecificDataOffset h d + DeviceSpecificDataSize h d).

(** What reader construction and the readers of chunks end with: the value,
    an exception ([LOG_ERROR_AND_THROW]), or an access outside a buffer. *)
Inductive Error :=
  | NullArchive
  | ReadFailed
  | BadMagic
  | UnsupportedVersion
  | DuplicateChunk
  | UnknownChunk
  | CorruptArchive.

Inductive Result (A : Type) :=
  | Ok (a : A)
  | Throw (e : Error)
  | OutOfBounds.
Arguments Ok {A} a.
Arguments Throw {A} e.
Arguments OutOfBounds {A}.

Definition is_Ok {A} (r : Result A) : Prop :=
  match r with Ok _ => True | _ => False end.

Definition is_Throw {A} (r : Result A) : Prop :=
  match r with Throw _ => True | _ => False end.

(** The entry of a name: where its shared data lie in the archive, and the
    weak reference to the object unpacked last ([None]: empty). *)
Record NameOffsetAndCache := MkEntry {
  Entry_Offset : Z;
  Entry_Size : Z;
  Entry_Cache : option Z
}.

(** The entry of a shader index: where the shader lies in the device block,
    and the strong reference to the shader created last. *)
Record ShaderOffsetAndCache := MkShaderEntry {
  Shader_Offset : Z;
  Shader_Size : Z;
  Shader_Cache : option Z
}.

Record DeviceObjectArchiveBase := MkReader {
  m_pArchive : list Z;
  m_DevType : DeviceType;
  m_BaseOffsets : DeviceType -> Z;
  m_DebugInfo : Z * list Z;
  m_PRSMap : gmap (list Z) NameOffsetAndCache;
  m_GraphicsPSOMap : gmap (list Z) NameOffsetAndCache;
  m_ComputePSOMap : gmap (list Z) NameOffsetAndCache;
  m_RayTracingPSOMap : gmap (list Z) NameOffsetAndCache;
  m_TilePSOMap : gmap (list Z) NameOffsetAndCache;
  m_RenderPassMap : gmap (list Z) NameOffsetAndCache;
  m_Shaders : list ShaderOffsetAndCache
}.

(** The named-resource maps of the reader. *)
Inductive ResMap := PRSMap | GraphicsPSOMap | ComputePSOMap | RayTracingPSOMap | TilePSOMap
                  | RenderPassMap.

#[global] Instance ResMap_eq_dec : EqDecision ResMap.
Proof. solve_decision. Defined.

Definition get_map (k : ResMap) (r : DeviceObjectArchiveBase)
  : gmap (list Z) NameOffsetAndCache :=
  match k with
  | PRSMap => m_PRSMap r
  | GraphicsPSOMap => m_GraphicsPSOMap r
  | ComputePSOMap => m_ComputePSOMap r
  | RayTracingPSOMap => m_RayTracingPSOMap r
  | TilePSOMap => m_TilePSOMap r
  | RenderPassMap => m_RenderPassMap r
  end.

Definition set_map (k : ResMap) (m : gmap (list Z) NameOffsetAndCache)
  (r : DeviceObjectArchiveBase) : DeviceObjectArchiveBase :=
  match k with
  | PRSMap =>
      MkReader (m_pArchive r) (m_DevType r) (m_BaseOffsets r) (m_DebugInfo r) m
               (m_GraphicsPSOMap r) (m_ComputePSOMap r) (m_RayTracingPSOMap r)
               (m_TilePSOMap r) (m_RenderPassMap r) (m_Shaders r)
  | GraphicsPSOMap =>
      MkReader (m_pArchive r) (m_DevType r) (m_BaseOffsets r) (m_DebugInfo r) (m_PRSMap r)
               m (m_ComputePSOMap r) (m_RayTracingPSOMap r)
               (m_TilePSOMap r) (m_RenderPassMap r) (m_Shaders r)
  | ComputePSOMap =>
      MkReader (m_pArchive r) (m_DevType r) (m_BaseOffsets r) (m_DebugInfo r) (m_PRSMap r)
               (m_GraphicsPSOMap r) m (m_RayTracingPSOMap r)
               (m_TilePSOMap r) (m_RenderPassMap r) (m_Shaders r)
  | RayTracingPSOMap =>
      MkReader (m_pArchive r) (m_DevType r) (m_BaseOffsets r) (m_DebugInfo r) (m_PRSMap r)
               (m_GraphicsPSOMap r) (m_ComputePSOMap r) m
               (m_TilePSOMap r) (m_RenderPassMap r) (m_Shaders r)
  | TilePSOMap =>
      MkReader (m_pArchive r) (m_DevType r) (m_BaseOffsets r) (m_DebugInfo r) (m_PRSMap r)
               (m_GraphicsPSOMap r) (m_ComputePSOMap r) (m_RayTracingPSOMap r)
               m (m_RenderPassMap r) (m_Shaders r)
  | RenderPassMap =>
      MkReader (m_pArchive r) (m_DevType r) (m_BaseOffsets r) (m_DebugInfo r) (m_PRSMap r)
               (m_GraphicsPSOMap r) (m_ComputePSOMap r) (m_RayTracingPSOMap r)
               (m_TilePSOMap r) m (m_Shaders r)
  end.

Definition set_DebugInfo (i : Z * list Z) (r : DeviceObjectArchiveBase)
  : DeviceObjectArchiveBase :=
  MkReader (m_pArchive r) (m_DevType r) (m_BaseOffsets r) i (m_PRSMap r)
           (m_GraphicsPSOMap r) (m_ComputePSOMap r) (m_RayTracingPSOMap r)
           (m_TilePSOMap r) (m_RenderPassMap r) (m_Shaders r).

Definition set_Shaders (s : list ShaderOffsetAndCache) (r : DeviceObjectArchiveBase)
  : DeviceObjectArchiveBase :=
  MkReader (m_pArchive r) (m_DevType r) (m_BaseOffsets r) (m_DebugInfo r) (m_PRSMap r)
           (m_GraphicsPSOMap r) (m_ComputePSOMap r) (m_RayTracingPSOMap r)
           (m_TilePSOMap r) (m_RenderPassMap r) s.

(** What the parser takes from outside [DeviceObjectArchiveBase.cpp]: the
    two constants of the format, and what the unchecked test of a bit
    outside [std::bitset<9> ProcessedBits] yields. *)
Class ArchiveFormat := {
  HeaderMagicNumber : Z;
  GetHeaderVersion : Z;
  ProcessedBits_outside : Z -> bool
}.

Section Parser.
Context `{Fmt : ArchiveFormat}.

(** [DeviceObjectArchiveBase::ReadArchiveDebugInfo]. *)
Definition ReadArchiveDebugInfo (Chunk : ChunkHeader) (r : DeviceObjectArchiveBase)
  : Result DeviceObjectArchiveBase :=
  match Archive_Read (m_pArchive r) (Chunk_Offset Chunk) (Chunk_Size Chunk) with
  | None => Throw ReadFailed
  | Some Data =>
      match Serialize Read (TPair (TUInt 4) TString) (0, None) (MkSer Data 0) with
      | Some ((APIVersion, GitHash), _) =>
          Ok (set_DebugInfo (APIVersion, default [] GitHash) r)
      | None => Throw CorruptArchive
      end
  end.

(** The loop of [ReadNamedResources] over the entries, from entry [i] on:
    [CurrentSize] is [InPlaceAlloc.GetCurrentSize()], the three arrays start
    at [NameLengthArray], [DataSizeArray] and [DataOffsetArray].  The sum
    [DataOffsetArray[i] + DataSizeArray[i]] is a sum of two [Uint32].  The
    key of an entry is [HashMapStringKey{Name, true}], the C string that the
    pointer [Name] refers to: it ends at the first zero byte from the start
    of the name on, which need not be among the [NameLength] bytes of the
    name; a read that finds no zero byte in the chunk body runs on outside
    the buffer.  The allocator [InPlaceAlloc] is not among the sources at
    hand; what [Allocate<char>(0)] returns is left open, and an entry whose
    name length is zero is treated like a read outside the buffer. *)
Fixpoint ReadNames (Data : list Z) (ArchiveSize : Z)
  (NameLengthArray DataSizeArray DataOffsetArray : Z)
  (todo : nat) (i : Z) (CurrentSize : Z)
  (NameAndOffset : gmap (list Z) NameOffsetAndCache)
  : Result (gmap (list Z) NameOffsetAndCache) :=
  match todo with
  | O => Ok NameAndOffset
  | S todo' =>
      match u32_at Data (NameLengthArray + 4 * i) with
      | None => OutOfBounds
      | Some NameLength =>
          if decide (CurrentSize + NameLength > Z.of_nat (length Data))
          then Throw CorruptArchive
          else
            match u32_at Data (DataOffsetArray + 4 * i), u32_at Data (DataSizeArray + 4 * i) with
            | Some DataOffset, Some DataSize =>
                if decide (wrap32 (DataOffset + DataSize) > ArchiveSize)
                then Throw CorruptArchive
                else
                  match (if decide (NameLength = 0) then None
                         else cstr_in (drop (Z.to_nat CurrentSize) Data)) with
                  | None => OutOfBounds
                  | Some Name =>
                      ReadNames Data ArchiveSize NameLengthArray DataSizeArray DataOffsetArray
                        todo' (i + 1) (CurrentSize + NameLength)
                        (Archiver.emplace Name (MkEntry DataOffset DataSize None)
                           NameAndOffset).2
                  end
            | _, _ => OutOfBounds
            end
      end
  end.

(** [DeviceObjectArchiveBase::ReadNamedResources]. *)
Definition ReadNamedResources (pArchive : list Z) (Chunk : ChunkHeader)
  (NameAndOffset : gmap (list Z) NameOffsetAndCache)
  : Result (gmap (list Z) NameOffsetAndCache) :=
  match Archive_Read pArchive (Chunk_Offset Chunk) (Chunk_Size Chunk) with
  | None => Throw ReadFailed
  | Some Data =>
      match u32_at Data 0 with
      | None => OutOfBounds
      | Some Count =>
          let NameLengthArray := 4 in
          let DataSizeArray := 4 + 4 * Count in
          let DataOffsetArray := 4 + 8 * Count in
          ReadNames Data (Archive_GetSize pArchive)
            NameLengthArray DataSizeArray DataOffsetArray
            (Z.to_nat Count) 0 (4 + 12 * Count) NameAndOffset
      end
  end.

(** Where [ReadNamedResources] finds record [i] of a chunk body [Data] that
    announces [Count] records: its name length, data size and data offset
    are the elements [i] of [NameLengthArray], [DataSizeArray] and
    [DataOffsetArray], its name starts where the names of the records before
    it end ([InPlaceAlloc.GetCurrentSize()] when the loop reaches it), and
    its key is the C string there. *)
Definition NameLength_at (Data : list Z) (i : nat) : option Z :=
  u32_at Data (4 + 4 * Z.of_nat i).

Definition DataSize_at (Data : list Z) (Count : Z) (i : nat) : option Z :=
  u32_at Data (4 + 4 * Count + 4 * Z.of_nat i).

Definition DataOffset_at (Data : list Z) (Count : Z) (i : nat) : option Z :=
  u32_at Data (4 + 8 * Count + 4 * Z.of_nat i).

Fixpoint Name_pos (Data : list Z) (Count : Z) (i : nat) : option Z :=
  match i with
  | O => Some (4 + 12 * Count)
  | S i' =>
      match Name_pos Data Count i', NameLength_at Data i' with
      | Some pos, Some len => Some (pos + len)
      | _, _ => None
      end
  end.

Definition Name_key (Data : list Z) (Count : Z) (i : nat) : option (list Z) :=
  match Name_pos Data Count i with
  | Some pos => cstr_in (drop (Z.to_nat pos) Data)
  | None => None
  end.

(** [DeviceObjectArchiveBase::LoadDeviceSpecificData], up to the call of
    [Fn]: the block of the selected device, or nothing (an error is logged).
    The sums are sums of [Uint32]. *)
Definition LoadDeviceSpecificData (r : DeviceObjectArchiveBase) (Header : DataHeader)
  : option (list Z) :=
  let BaseOffset := m_BaseOffsets r (m_DevType r) in
  let ArchiveSize := Archive_GetSize (m_pArchive r) in
  if decide (BaseOffset > ArchiveSize) then None
  else if decide (Header_GetSize Header (m_DevType r) = 0) then None
  else if decide (wrap32 (BaseOffset + Header_GetEndOffset Header (m_DevType r)) > ArchiveSize)
  then None
  else
    Archive_Read (m_pArchive r)
      (wrap32 (BaseOffset + Header_GetOffset Header (m_DevType r)))
      (Header_GetSize Header (m_DevType r)).

(** The shader table of [ReadIndexedResources]: [Count] records of offset
    and size. *)
Fixpoint ShaderEntries_of_bytes (n : nat) (bs : list Z) : list ShaderOffsetAndCache :=
  match n with
  | O => []
  | S n' => MkShaderEntry (field32 bs 0) (field32 bs 4) None
            :: ShaderEntries_of_bytes n' (drop 8 bs)
  end.

(** [DeviceObjectArchiveBase::ReadIndexedResources]. *)
Definition ReadIndexedResources (Chunk : ChunkHeader) (r : DeviceObjectArchiveBase)
  : Result DeviceObjectArchiveBase :=
  match Archive_Read (m_pArchive r) (Chunk_Offset Chunk) sizeof_DataHeader with
  | None => Throw ReadFailed
  | Some hb =>
      match LoadDeviceSpecificData r (DataHeader_of_bytes hb) with
      | None => Ok r
      | Some pData =>
          let Count := Z.to_nat (Z.of_nat (length pData) / sizeof_FileOffsetAndSize) in
          Ok (set_Shaders (ShaderEntries_of_bytes Count pData) r)
      end
  end.

(** [ProcessedBits[static_cast<size_t>(Chunk.Type)]]. *)
Definition ProcessedBits_test (ProcessedBits : gset Z) (t : Z) : bool :=
  if decide (0 <= t < ChunkType_Count) then bool_decide (t ∈ ProcessedBits)
  else ProcessedBits_outside t.

Definition ReadInto (k : ResMap) (Chunk : ChunkHeader) (r : DeviceObjectArchiveBase)
  : Result DeviceObjectArchiveBase :=
  match ReadNamedResources (m_pArchive r) Chunk (get_map k r) with
  | Ok m => Ok (set_map k m r)
  | Throw e => Throw e
  | OutOfBounds => OutOfBounds
  end.

(** The [switch (Chunk.Type)] of the constructor. *)
Definition ReadChunk (Chunk : ChunkHeader) (r : DeviceObjectArchiveBase)
  : Result DeviceObjectArchiveBase :=
  match ChunkType_of_Z (Chunk_Type Chunk) with
  | Some ArchiveDebugInfo => ReadArchiveDebugInfo Chunk r
  | Some ResourceSignature => ReadInto PRSMap Chunk r
  | Some GraphicsPipelineStates => ReadInto GraphicsPSOMap Chunk r
  | Some ComputePipelineStates => ReadInto ComputePSOMap Chunk r
  | Some RayTracingPipelineStates => ReadInto RayTracingPSOMap Chunk r
  | Some TilePipelineStates => ReadInto TilePSOMap Chunk r
  | Some RenderPass => ReadInto RenderPassMap Chunk r
  | Some Shaders => ReadIndexedResources Chunk r
  | Some Undefined | None => Throw UnknownChunk
  end.

(** The loop of the constructor over the chunk headers. *)
Fixpoint ReadChunks (Chunks : list ChunkHeader) (ProcessedBits : gset Z)
  (r : DeviceObjectArchiveBase) : Result DeviceObjectArchiveBase :=
  match Chunks with
  | [] => Ok r
  | Chunk :: rest =>
      if ProcessedBits_test ProcessedBits (Chunk_Type Chunk) then Throw DuplicateChunk
      else
        match ReadChunk Chunk r with
        | Ok r' => ReadChunks rest ({[Chunk_Type Chunk]} ∪ ProcessedBits) r'
        | Throw e => Throw e
        | OutOfBounds => OutOfBounds
        end
  end.

(** The header of a byte source and its chunk headers, as the constructor
    reads them. *)
Definition ReadHeader (A : list Z) : option ArchiveHeader :=
  ArchiveHeader_of_bytes <$> Archive_Read A 0 sizeof_ArchiveHeader.

Definition ReadChunkHeaders (A : list Z) (Header : ArchiveHeader) : option (list ChunkHeader) :=
  ChunkHeaders_of_bytes (Z.to_nat (NumChunks Header))
    <$> Archive_Read A sizeof_ArchiveHeader (sizeof_ChunkHeader * NumChunks Header).

(** [DeviceObjectArchiveBase::DeviceObjectArchiveBase]. *)
Definition DeviceObjectArchiveBase_new (pArchive : option (list Z)) (DevType : DeviceType)
  : Result DeviceObjectArchiveBase :=
  match pArchive with
  | None => Throw NullArchive
  | Some A =>
      match ReadHeader A with
      | None => Throw ReadFailed
      | Some Header =>
          if decide (MagicNumber Header <> HeaderMagicNumber) then Throw BadMagic
          else if decide (Version Header <> GetHeaderVersion) then Throw UnsupportedVersion
          else
            match ReadChunkHeaders A Header with
            | None => Throw ReadFailed
            | Some Chunks =>
                ReadChunks Chunks ∅
                  (MkReader A DevType (BlockBaseOffsets Header) (0, []) ∅ ∅ ∅ ∅ ∅ ∅ [])
            end
      end
  end.

End Parser.

(** *** Unpacking *)

(** The fields of [GraphicsPipelineDesc] and [TilePipelineDesc] that an
    unpack request can override; a description is the value of each field
    (structures as their bytes). *)
Inductive PipelineField :=
  | BlendDesc | SampleMask | RasterizerDesc | DepthStencilDesc | InputLayout
  | PrimitiveTopology | NumViewports | NumRenderTargets | RTVFormats
  | SubpassIndex | ShadingRateFlags | DSVFormat | SmplDesc | SampleCount.

#[global] Instance PipelineField_eq_dec : EqDecision PipelineField.
Proof. solve_decision. Defined.

Record PipelineDesc := MkPipelineDesc {
  Desc_Field : PipelineField -> list Z;
  Desc_pRenderPass : option Z
}.

(** The shader members of the create infos: [pVS], [pPS], [pGS], [pHS],
    [pDS], [pAS], [pMS] and [pTS]. *)
Inductive ShaderSlot := pVS | pPS | pGS | pHS | pDS | pAS | pMS | pTS.

#[global] Instance ShaderSlot_eq_dec : EqDecision ShaderSlot.
Proof. solve_decision. Defined.

(** [GraphicsPipelineStateCreateInfo] and [TilePipelineStateCreateInfo] as
    the reader fills them; object pointers are addresses, [None] is null. *)
Record PSOCreateInfo := MkPSOCI {
  CI_Name : list Z;
  CI_SRBAllocationGranularity : Z;
  CI_ImmediateContextMask : Z;
  CI_Flags : Z;
  CI_ResourceSignaturesCount : Z;
  CI_ppResourceSignatures : option (list (option Z));
  CI_Pipeline : PipelineDesc;
  CI_Shaders : ShaderSlot -> option Z;
  CI_Rest : list Z
}.

(** [PSOData<CreateInfoType>]. *)
Record PSOData := MkPSO {
  PSO_pHeader : DataHeader;
  PSO_CreateInfo : PSOCreateInfo;
  PSO_PRSNames : list (list Z);
  PSO_RenderPassName : option (list Z)
}.

(** The fields of [RenderPassAttachmentDesc] that a request can override. *)
Inductive AttachmentField :=
  | Format | AttSampleCount | LoadOp | StoreOp | StencilLoadOp | StencilStoreOp
  | InitialState | FinalState.

#[global] Instance AttachmentField_eq_dec : EqDecision AttachmentField.
Proof. solve_decision. Defined.

Record RenderPassDesc := MkRPDesc {
  RP_Name : list Z;
  RP_pAttachments : list (AttachmentField -> Z);
  RP_Rest : list Z
}.

Record RPData := MkRPData {
  RP_pHeader : DataHeader;
  RP_Desc : RenderPassDesc
}.

Record PRSData := MkPRSData {
  PRS_pHeader : DataHeader;
  PRS_Name : list Z;
  PRS_SRBAllocationGranularity : Z;
  PRS_Desc : list Z
}.

Record ShaderCreateInfo := MkShaderCI {
  Shader_Type : Z;
  Shader_EntryPoint : option (list Z);
  Shader_SourceLanguage : Z;
  Shader_Compiler : Z;
  Shader_CompileFlags : Z;
  Shader_ByteCode : list Z
}.

(** [RenderPassAttachmentUnpackInfo] and [RenderPassUnpackInfo];
    [AttachmentCount] is the length of [pAttachments]. *)
Record AttachmentUnpackInfo := MkAttachmentInfo {
  AttachmentIndex : Z;
  Att_OverrideFlags : Z;
  AttachmentDesc : AttachmentField -> Z
}.

Record RenderPassUnpackInfo := MkRPInfo {
  RPInfo_Name : list Z;
  RPInfo_pAttachments : list AttachmentUnpackInfo
}.

Definition AttachmentCount (I : RenderPassUnpackInfo) : Z :=
  Z.of_nat (length (RPInfo_pAttachments I)).

Record ResourceSignatureUnpackInfo := MkPRSInfo {
  PRSInfo_Name : list Z;
  PRSInfo_SRBAllocationGranularity : Z
}.

(** [PipelineStateUnpackInfo].  [pGraphicsPipelineDesc] and
    [pTilePipelineDesc] are read only when an override flag is set, and the
    source requires them to be non-null then. *)
Record PipelineStateUnpackInfo := MkPSOInfo {
  PSOInfo_Name : list Z;
  OverrideFlags : Z;
  PSOInfo_SRBAllocationGranularity : Z;
  PSOInfo_ImmediateContextMask : Z;
  pGraphicsPipelineDesc : PipelineDesc;
  pTilePipelineDesc : PipelineDesc
}.

Definition PSO_UNPACK_OVERRIDE_FLAG_NONE : Z := 0.
Definition DefaultSRBAllocationGranularity : Z := 1.
Definition PSO_CREATE_FLAG_DONT_REMAP_SHADER_RESOURCES : Z := 4.
Definition SHADER_COMPILE_FLAG_SKIP_REFLECTION : Z := 8.

(** The render device and what else unpacking takes from outside
    [DeviceObjectArchiveBase.cpp]: the factories of live objects, the
    reference counts of these objects ([Lock] upgrades a weak reference and
    reports whether the object is alive, [Release] drops a strong
    reference), the shader type of a shader, and the description schemas of
    the absent [PSOSerializer] in Read mode ([None]: the bytes end early). *)
Class RenderDevice := {
  Device : Type;
  Lock : Z -> Device -> bool * Device;
  Release : Z -> Device -> Device;
  GetShaderType : Z -> Device -> Z;
  CreateShader : ShaderCreateInfo -> Device -> option Z * Device;
  CreateGraphicsPipelineState : PSOCreateInfo -> Device -> option Z * Device;
  CreateTilePipelineState : PSOCreateInfo -> Device -> option Z * Device;
  CreateRenderPass_ : RenderPassDesc -> Device -> option Z * Device;
  CreateSignature : PRSData -> list Z -> Device -> option Z * Device;
  Read_PSOCreateInfo :
    ChunkType -> list Z -> option (PSOCreateInfo * list (list Z) * option (list Z));
  Read_RenderPassDesc : list Z -> option RenderPassDesc;
  Read_PRSDesc : list Z -> option (list Z)
}.

Section Unpack.
Context `{Dev : RenderDevice}.

(** [DeviceObjectArchiveBase::GetCachedResource]. *)
Definition GetCachedResource (Name : list Z) (k : ResMap) (r : DeviceObjectArchiveBase)
  (dev : Device) : option Z * Device :=
  match get_map k r !! Name with
  | None => (None, dev)
  | Some e =>
      match Entry_Cache e with
      | None => (None, dev)
      | Some obj =>
          let '(alive, dev') := Lock obj dev in
          if alive then (Some obj, dev') else (None, dev')
      end
  end.

(** [DeviceObjectArchiveBase::CacheResource]. *)
Definition CacheResource (Name : list Z) (k : ResMap) (pResource : option Z)
  (r : DeviceObjectArchiveBase) (dev : Device) : DeviceObjectArchiveBase * Device :=
  match get_map k r !! Name with
  | None => (r, dev)
  | Some e =>
      let '(alive, dev') :=
        match Entry_Cache e with
        | None => (false, dev)
        | Some obj =>
            let '(alive, dev1) := Lock obj dev in
            (alive, if alive then Release obj dev1 else dev1)
        end in
      if alive then (r, dev')
      else
        (set_map k (<[Name := MkEntry (Entry_Offset e) (Entry_Size e) pResource]> (get_map k r)) r,
         dev')
  end.

(** [DeviceObjectArchiveBase::LoadResourceData], up to the call of [Fn]: the
    name as the directory holds it and the shared bytes of the resource. *)
Definition LoadResourceData (k : ResMap) (ResourceName : list Z) (r : DeviceObjectArchiveBase)
  : option (list Z * list Z) :=
  match get_map k r !! ResourceName with
  | None => None
  | Some e =>
      match Archive_Read (m_pArchive r) (Entry_Offset e) (Entry_Size e) with
      | None => None
      | Some pData => Some (ResourceName, pData)
      end
  end.

(** [Ser.Cast<HeaderType>()] followed by the test of the kind tag: the
    header and the bytes after it. *)
Definition CastHeader (Type_ : ChunkType) (pData : list Z) : option (DataHeader * list Z) :=
  match Copy Read [] (Z.to_nat sizeof_DataHeader) (MkSer pData 0) with
  | None => None
  | Some (hb, Ser1) =>
      let pHeader := DataHeader_of_bytes hb in
      if decide (Header_Type pHeader <> ChunkType_to_Z Type_) then None
      else Some (pHeader, GetCurrentPtr Ser1)
  end.

(** [DeviceObjectArchiveBase::ReadPRSData]. *)
Definition ReadPRSData (Name : list Z) (r : DeviceObjectArchiveBase) : option PRSData :=
  '(ResName, pData) ← LoadResourceData PRSMap Name r;
  '(pHeader, rest) ← CastHeader ResourceSignature pData;
  Desc ← Read_PRSDesc rest;
  Some (MkPRSData pHeader ResName 0 Desc).

(** [DeviceObjectArchiveBase::ReadRPData]. *)
Definition ReadRPData (Name : list Z) (r : DeviceObjectArchiveBase) : option RPData :=
  '(ResName, pData) ← LoadResourceData RenderPassMap Name r;
  '(pHeader, rest) ← CastHeader RenderPass pData;
  Desc ← Read_RenderPassDesc rest;
  Some (MkRPData pHeader (MkRPDesc ResName (RP_pAttachments Desc) (RP_Rest Desc))).

(** [DeviceObjectArchiveBase::ReadPSOData]. *)
Definition ReadPSOData (Type_ : ChunkType) (Name : list Z) (k : ResMap)
  (r : DeviceObjectArchiveBase) : option PSOData :=
  '(ResName, pData) ← LoadResourceData k Name r;
  '(pHeader, rest) ← CastHeader Type_ pData;
  '(CI, PRSNames, RenderPassName) ← Read_PSOCreateInfo Type_ rest;
  Some (MkPSO pHeader
          (MkPSOCI ResName (CI_SRBAllocationGranularity CI) (CI_ImmediateContextMask CI)
                   (Z.lor (CI_Flags CI) PSO_CREATE_FLAG_DONT_REMAP_SHADER_RESOURCES)
                   (CI_ResourceSignaturesCount CI) (CI_ppResourceSignatures CI)
                   (CI_Pipeline CI) (CI_Shaders CI) (CI_Rest CI))
          PRSNames RenderPassName).

(** The override switch of [UnpackRenderPass] for one flag of one
    attachment. *)
Definition RP_OverrideField (bit : Z) : option AttachmentField :=
  match bit with
  | 0 => Some Format
  | 1 => Some AttSampleCount
  | 2 => Some LoadOp
  | 3 => Some StoreOp
  | 4 => Some StencilLoadOp
  | 5 => Some StencilStoreOp
  | 6 => Some InitialState
  | 7 => Some FinalState
  | _ => None
  end.

Definition OverrideAttachment (Override : AttachmentUnpackInfo) (Dst : AttachmentField -> Z)
  : AttachmentField -> Z :=
  foldl (fun Dst' bit =>
           match RP_OverrideField bit with
           | Some f => <[f := AttachmentDesc Override f]> Dst'
           | None => Dst'
           end)
        Dst (set_bits (Att_OverrideFlags Override)).

(** The attachment loop of [UnpackRenderPass].  The source indexes the
    copied array with [Override.AttachmentIndex] unchecked; here an index
    outside the array overrides nothing. *)
Definition OverrideAttachments (Overrides : list AttachmentUnpackInfo)
  (pAttachments : list (AttachmentField -> Z)) : list (AttachmentField -> Z) :=
  foldl (fun atts Override =>
           alter (OverrideAttachment Override) (Z.to_nat (AttachmentIndex Override)) atts)
        pAttachments Overrides.

(** [DeviceObjectArchiveBase::UnpackRenderPass]: the object ([None] is a
    null pointer), the reader and the device afterwards. *)
Definition UnpackRenderPass (DeArchiveInfo : RenderPassUnpackInfo)
  (r : DeviceObjectArchiveBase) (dev : Device)
  : option Z * DeviceObjectArchiveBase * Device :=
  let OverrideAttachments_ := negb (AttachmentCount DeArchiveInfo =? 0) in
  let '(pCached, dev0) :=
    if negb OverrideAttachments_
    then GetCachedResource (RPInfo_Name DeArchiveInfo) RenderPassMap r dev
    else (None, dev) in
  match pCached with
  | Some pRP => (Some pRP, r, dev0)
  | None =>
      match ReadRPData (RPInfo_Name DeArchiveInfo) r with
      | None => (None, r, dev0)
      | Some RP =>
          let Desc :=
            if OverrideAttachments_
            then MkRPDesc (RP_Name (RP_Desc RP))
                          (OverrideAttachments (RPInfo_pAttachments DeArchiveInfo)
                             (RP_pAttachments (RP_Desc RP)))
                          (RP_Rest (RP_Desc RP))
            else RP_Desc RP in
          let '(pRP, dev1) := CreateRenderPass_ Desc dev0 in
          if negb OverrideAttachments_
          then let '(r', dev2) :=
                 CacheResource (RPInfo_Name DeArchiveInfo) RenderPassMap pRP r dev1 in
               (pRP, r', dev2)
          else (pRP, r, dev1)
      end
  end.

(** [DeviceObjectArchiveBase::UnpackResourceSignatureImpl]. *)
Definition UnpackResourceSignature (DeArchiveInfo : ResourceSignatureUnpackInfo)
  (r : DeviceObjectArchiveBase) (dev : Device)
  : option Z * DeviceObjectArchiveBase * Device :=
  let '(pCached, dev0) := GetCachedResource (PRSInfo_Name DeArchiveInfo) PRSMap r dev in
  match pCached with
  | Some pSignature => (Some pSignature, r, dev0)
  | None =>
      match ReadPRSData (PRSInfo_Name DeArchiveInfo) r with
      | None => (None, r, dev0)
      | Some PRS =>
          let PRS1 := MkPRSData (PRS_pHeader PRS) (PRS_Name PRS)
                                (PRSInfo_SRBAllocationGranularity DeArchiveInfo) (PRS_Desc PRS) in
          match LoadDeviceSpecificData r (PRS_pHeader PRS1) with
          | None => (None, r, dev0)
          | Some pData =>
              let '(pSignature, dev1) := CreateSignature PRS1 pData dev0 in
              let '(r', dev2) :=
                CacheResource (PRSInfo_Name DeArchiveInfo) PRSMap pSignature r dev1 in
              (pSignature, r', dev2)
          end
      end
  end.

(** The releases of [~ReleaseTempResourceRefs]: the signatures and the
    render pass that the create info refers to. *)
Definition ReleaseTempResourceRefs (PSO : PSOData) (dev : Device) : Device :=
  let CI := PSO_CreateInfo PSO in
  let dev1 :=
    match CI_ppResourceSignatures CI with
    | Some pp =>
        foldl (fun d p => match p with Some o => Release o d | None => d end) dev
              (take (Z.to_nat (CI_ResourceSignaturesCount CI)) pp)
    | None => dev
    end in
  match Desc_pRenderPass (CI_Pipeline CI) with
  | Some pRP => Release pRP dev1
  | None => dev1
  end.

Definition set_CI (CI : PSOCreateInfo) (PSO : PSOData) : PSOData :=
  MkPSO (PSO_pHeader PSO) CI (PSO_PRSNames PSO) (PSO_RenderPassName PSO).

Definition set_Pipeline (P : PipelineDesc) (CI : PSOCreateInfo) : PSOCreateInfo :=
  MkPSOCI (CI_Name CI) (CI_SRBAllocationGranularity CI) (CI_ImmediateContextMask CI)
          (CI_Flags CI) (CI_ResourceSignaturesCount CI) (CI_ppResourceSignatures CI)
          P (CI_Shaders CI) (CI_Rest CI).

Definition set_Signatures (pp : list (option Z)) (CI : PSOCreateInfo) : PSOCreateInfo :=
  MkPSOCI (CI_Name CI) (CI_SRBAllocationGranularity CI) (CI_ImmediateContextMask CI)
          (CI_Flags CI) (CI_ResourceSignaturesCount CI) (Some pp)
          (CI_Pipeline CI) (CI_Shaders CI) (CI_Rest CI).

Definition set_Shader (s : ShaderSlot) (o : Z) (CI : PSOCreateInfo) : PSOCreateInfo :=
  MkPSOCI (CI_Name CI) (CI_SRBAllocationGranularity CI) (CI_ImmediateContextMask CI)
          (CI_Flags CI) (CI_ResourceSignaturesCount CI) (CI_ppResourceSignatures CI)
          (CI_Pipeline CI) (<[s := Some o]> (CI_Shaders CI)) (CI_Rest CI).

Definition set_CI_Name (n : list Z) (CI : PSOCreateInfo) : PSOCreateInfo :=
  MkPSOCI n (CI_SRBAllocationGranularity CI) (CI_ImmediateContextMask CI)
          (CI_Flags CI) (CI_ResourceSignaturesCount CI) (CI_ppResourceSignatures CI)
          (CI_Pipeline CI) (CI_Shaders CI) (CI_Rest CI).

Definition set_Granularity (g m : Z) (CI : PSOCreateInfo) : PSOCreateInfo :=
  MkPSOCI (CI_Name CI) g m
          (CI_Flags CI) (CI_ResourceSignaturesCount CI) (CI_ppResourceSignatures CI)
          (CI_Pipeline CI) (CI_Shaders CI) (CI_Rest CI).

(** [DeviceObjectArchiveBase::CreateRenderPass]. *)
Definition CreateRenderPass (PSO : PSOData) (r : DeviceObjectArchiveBase) (dev : Device)
  : bool * PSOData * DeviceObjectArchiveBase * Device :=
  match PSO_RenderPassName PSO with
  | None | Some [] => (true, PSO, r, dev)
  | Some RenderPassName =>
      let '(pRP, r', dev') := UnpackRenderPass (MkRPInfo RenderPassName []) r dev in
      match pRP with
      | None => (false, PSO, r', dev')
      | Some _ =>
          let CI := PSO_CreateInfo PSO in
          (true,
           set_CI (set_Pipeline (MkPipelineDesc (Desc_Field (CI_Pipeline CI)) pRP) CI) PSO,
           r', dev')
      end
  end.

(** The loop of [CreateResourceSignatures] over the signature names: the
    array filled so far, and whether every signature was unpacked. *)
Fixpoint UnpackSignatures (Names : list (list Z)) (pp : list (option Z))
  (r : DeviceObjectArchiveBase) (dev : Device)
  : bool * list (option Z) * DeviceObjectArchiveBase * Device :=
  match Names with
  | [] => (true, pp, r, dev)
  | Name :: rest =>
      let '(pSignature, r', dev') :=
        UnpackResourceSignature (MkPRSInfo Name DefaultSRBAllocationGranularity) r dev in
      match pSignature with
      | None => (false, pp ++ [None], r', dev')
      | Some _ => UnpackSignatures rest (pp ++ [pSignature]) r' dev'
      end
  end.

(** [DeviceObjectArchiveBase::CreateResourceSignatures]; a name past the end
    of [PRSNames] is the null name. *)
Definition CreateResourceSignatures (PSO : PSOData) (r : DeviceObjectArchiveBase)
  (dev : Device) : bool * PSOData * DeviceObjectArchiveBase * Device :=
  let CI := PSO_CreateInfo PSO in
  if CI_ResourceSignaturesCount CI =? 0 then (true, PSO, r, dev)
  else
    let Names := (fun i => default [] (PSO_PRSNames PSO !! i))
                   <$> seq 0 (Z.to_nat (CI_ResourceSignaturesCount CI)) in
    let '(ok, pp, r', dev') := UnpackSignatures Names [] r dev in
    (ok, set_CI (set_Signatures pp CI) PSO, r', dev').

(** The loop of [LoadShaders] over the shader indices. *)
Fixpoint LoadShaderList (BaseOffset : Z) (Indices : list Z) (Loaded : list Z)
  (r : DeviceObjectArchiveBase) (dev : Device)
  : option (list Z) * DeviceObjectArchiveBase * Device :=
  match Indices with
  | [] => (Some Loaded, r, dev)
  | Idx :: rest =>
      match m_Shaders r !! Z.to_nat Idx with
      | None => (None, r, dev)
      | Some e =>
          match Shader_Cache e with
          | Some pShader => LoadShaderList BaseOffset rest (Loaded ++ [pShader]) r dev
          | None =>
              match Archive_Read (m_pArchive r) (wrap32 (BaseOffset + Shader_Offset e))
                      (Shader_Size e) with
              | None => (None, r, dev)
              | Some pData =>
                  match Serialize Read Archiver.ShaderPrefix_schema
                          (0, (None, (0, 0))) (MkSer pData 0) with
                  | None => (None, r, dev)
                  | Some ((ShaderType, (EntryPoint_, (SourceLanguage_, ShaderCompiler_))), Ser2) =>
                      let ShaderCI :=
                        MkShaderCI ShaderType EntryPoint_ SourceLanguage_ ShaderCompiler_
                                   SHADER_COMPILE_FLAG_SKIP_REFLECTION (GetCurrentPtr Ser2) in
                      let '(pShader, dev') := CreateShader ShaderCI dev in
                      match pShader with
                      | None => (None, r, dev')
                      | Some sh =>
                          let r' :=
                            set_Shaders
                              (<[Z.to_nat Idx :=
                                   MkShaderEntry (Shader_Offset e) (Shader_Size e) (Some sh)]>
                                 (m_Shaders r)) r in
                          LoadShaderList BaseOffset rest (Loaded ++ [sh]) r' dev'
                      end
                  end
              end
          end
      end
  end.

(** [DeviceObjectArchiveBase::LoadShaders]. *)
Definition LoadShaders (pData : list Z) (r : DeviceObjectArchiveBase) (dev : Device)
  : option (list Z) * DeviceObjectArchiveBase * Device :=
  let BaseOffset := m_BaseOffsets r (m_DevType r) in
  if decide (BaseOffset > Archive_GetSize (m_pArchive r)) then (None, r, dev)
  else
    match Serialize Read Archiver.ShaderIndexArray_schema [] (MkSer pData 0) with
    | None => (None, r, dev)
    | Some (ShaderIndices, _) => LoadShaderList BaseOffset ShaderIndices [] r dev
    end.

(** The shader switch of [UnpackGraphicsPSO]: the member a shader of a given
    type goes to ([SHADER_TYPE_VERTEX] is 1, [PIXEL] 2, [GEOMETRY] 4, [HULL]
    8, [DOMAIN] 16, [AMPLIFICATION] 64, [MESH] 128). *)
Definition GraphicsShaderSlot (ShaderType : Z) : option ShaderSlot :=
  match ShaderType with
  | 1 => Some pVS
  | 2 => Some pPS
  | 4 => Some pGS
  | 8 => Some pHS
  | 16 => Some pDS
  | 64 => Some pAS
  | 128 => Some pMS
  | _ => None
  end.

Definition SHADER_TYPE_TILE : Z := 16384.

Fixpoint AssignGraphicsShaders (Loaded : list Z) (dev : Device) (CI : PSOCreateInfo)
  : option PSOCreateInfo :=
  match Loaded with
  | [] => Some CI
  | Shader :: rest =>
      match GraphicsShaderSlot (GetShaderType Shader dev) with
      | Some s => AssignGraphicsShaders rest dev (set_Shader s Shader CI)
      | None => None
      end
  end.

Definition override_fields (fs : list PipelineField) (Src Dst : PipelineDesc) : PipelineDesc :=
  MkPipelineDesc (foldl (fun D f => <[f := Desc_Field Src f]> D) (Desc_Field Dst) fs)
                 (Desc_pRenderPass Dst).

(** The override switch of [UnpackGraphicsPSO] for one flag;
    [PSO_UNPACK_OVERRIDE_FLAG_NAME] is bit 0 and
    [PSO_UNPACK_OVERRIDE_FLAG_SAMPLE_DESC] bit 12. *)
Definition GraphicsOverride (Src : PipelineDesc) (bit : Z) (CI : PSOCreateInfo)
  : PSOCreateInfo :=
  let P := CI_Pipeline CI in
  match bit with
  | 0 => set_CI_Name (bytes_of_string "AZ TODO") CI
  | 1 => set_Pipeline (override_fields [RasterizerDesc] Src P) CI
  | 2 => set_Pipeline (override_fields [BlendDesc] Src P) CI
  | 3 => set_Pipeline (override_fields [SampleMask] Src P) CI
  | 4 => set_Pipeline (override_fields [DepthStencilDesc] Src P) CI
  | 5 => set_Pipeline (override_fields [InputLayout] Src P) CI
  | 6 => set_Pipeline (override_fields [PrimitiveTopology] Src P) CI
  | 7 => set_Pipeline (override_fields [NumViewports] Src P) CI
  | 8 => set_Pipeline (override_fields [NumRenderTargets; RTVFormats] Src P) CI
  | 9 => set_Pipeline (MkPipelineDesc
                         (Desc_Field (override_fields [SubpassIndex] Src P))
                         (Desc_pRenderPass Src)) CI
  | 10 => set_Pipeline (override_fields [ShadingRateFlags] Src P) CI
  | 11 => set_Pipeline (override_fields [DSVFormat] Src P) CI
  | 12 => set_Pipeline (override_fields [SmplDesc] Src P) CI
  | _ => CI
  end.

(** The override switch of [UnpackTilePSO] for one flag. *)
Definition TileOverride (Src : PipelineDesc) (bit : Z) (CI : PSOCreateInfo) : PSOCreateInfo :=
  let P := CI_Pipeline CI in
  match bit with
  | 0 => set_CI_Name (bytes_of_string "AZ TODO") CI
  | 1 => set_Pipeline (override_fields [SampleCount] Src P) CI
  | 8 => set_Pipeline (override_fields [NumRenderTargets; RTVFormats] Src P) CI
  | _ => CI
  end.

(** [DeviceObjectArchiveBase::UnpackGraphicsPSO]. *)
Definition UnpackGraphicsPSO (DeArchiveInfo : PipelineStateUnpackInfo)
  (r : DeviceObjectArchiveBase) (dev : Device)
  : option Z * DeviceObjectArchiveBase * Device :=
  let HasOverrideFlags := negb (OverrideFlags DeArchiveInfo =? PSO_UNPACK_OVERRIDE_FLAG_NONE) in
  let '(pCached, dev0) :=
    if negb HasOverrideFlags
    then GetCachedResource (PSOInfo_Name DeArchiveInfo) GraphicsPSOMap r dev
    else (None, dev) in
  match pCached with
  | Some pPSO => (Some pPSO, r, dev0)
  | None =>
      match ReadPSOData GraphicsPipelineStates (PSOInfo_Name DeArchiveInfo) GraphicsPSOMap r with
      | None => (None, r, dev0)
      | Some PSO =>
          let '(ok1, PSO1, r1, dev1) := CreateRenderPass PSO r dev0 in
          if negb ok1 then (None, r1, ReleaseTempResourceRefs PSO1 dev1)
          else
            let '(ok2, PSO2, r2, dev2) := CreateResourceSignatures PSO1 r1 dev1 in
            if negb ok2 then (None, r2, ReleaseTempResourceRefs PSO2 dev2)
            else
              let CI3 := set_Granularity (PSOInfo_SRBAllocationGranularity DeArchiveInfo)
                           (PSOInfo_ImmediateContextMask DeArchiveInfo) (PSO_CreateInfo PSO2) in
              let PSO3 := set_CI CI3 PSO2 in
              match LoadDeviceSpecificData r2 (PSO_pHeader PSO3) with
              | None => (None, r2, ReleaseTempResourceRefs PSO3 dev2)
              | Some pData =>
                  let '(LoadedShaders, r3, dev3) := LoadShaders pData r2 dev2 in
                  match LoadedShaders with
                  | None => (None, r3, ReleaseTempResourceRefs PSO3 dev3)
                  | Some Shaders_ =>
                      match AssignGraphicsShaders Shaders_ dev3 CI3 with
                      | None => (None, r3, ReleaseTempResourceRefs PSO3 dev3)
                      | Some CI4 =>
                          let CI5 :=
                            foldl (fun CI bit =>
                                     GraphicsOverride (pGraphicsPipelineDesc DeArchiveInfo) bit CI)
                                  CI4 (set_bits (OverrideFlags DeArchiveInfo)) in
                          let '(pPSO, dev4) := CreateGraphicsPipelineState CI5 dev3 in
                          let '(r4, dev5) :=
                            if negb HasOverrideFlags
                            then CacheResource (PSOInfo_Name DeArchiveInfo) GraphicsPSOMap
                                   pPSO r3 dev4
                            else (r3, dev4) in
                          (pPSO, r4, ReleaseTempResourceRefs (set_CI CI5 PSO3) dev5)
                      end
                  end
              end
      end
  end.

(** [DeviceObjectArchiveBase::UnpackTilePSO]. *)
Definition UnpackTilePSO (DeArchiveInfo : PipelineStateUnpackInfo)
  (r : DeviceObjectArchiveBase) (dev : Device)
  : option Z * DeviceObjectArchiveBase * Device :=
  let HasOverrideFlags := negb (OverrideFlags DeArchiveInfo =? PSO_UNPACK_OVERRIDE_FLAG_NONE) in
  let '(pCached, dev0) :=
    if negb HasOverrideFlags
    then GetCachedResource (PSOInfo_Name DeArchiveInfo) TilePSOMap r dev
    else (None, dev) in
  match pCached with
  | Some pPSO => (Some pPSO, r, dev0)
  | None =>
      match ReadPSOData TilePipelineStates (PSOInfo_Name DeArchiveInfo) TilePSOMap r with
      | None => (None, r, dev0)
      | Some PSO =>
          let '(ok2, PSO2, r2, dev2) := CreateResourceSignatures PSO r dev0 in
          if negb ok2 then (None, r2, ReleaseTempResourceRefs PSO2 dev2)
          else
            let CI3 := set_Granularity (PSOInfo_SRBAllocationGranularity DeArchiveInfo)
                         (PSOInfo_ImmediateContextMask DeArchiveInfo) (PSO_CreateInfo PSO2) in
            let PSO3 := set_CI CI3 PSO2 in
            match LoadDeviceSpecificData r2 (PSO_pHeader PSO3) with
            | None => (None, r2, ReleaseTempResourceRefs PSO3 dev2)
            | Some pData =>
                let '(LoadedShaders, r3, dev3) := LoadShaders pData r2 dev2 in
                match LoadedShaders with
                | Some [Shader] =>
                    if decide (GetShaderType Shader dev3 <> SHADER_TYPE_TILE)
                    then (None, r3, ReleaseTempResourceRefs PSO3 dev3)
                    else
                      let CI4 := set_Shader pTS Shader CI3 in
                      let CI5 :=
                        foldl (fun CI bit =>
                                 TileOverride (pTilePipelineDesc DeArchiveInfo) bit CI)
                              CI4 (set_bits (OverrideFlags DeArchiveInfo)) in
                      let '(pPSO, dev4) := CreateTilePipelineState CI5 dev3 in
                      let '(r4, dev5) :=
                        if negb HasOverrideFlags
                        then CacheResource (PSOInfo_Name DeArchiveInfo) TilePSOMap pPSO r3 dev4
                        else (r3, dev4) in
                      (pPSO, r4, ReleaseTempResourceRefs (set_CI CI5 PSO3) dev5)
                | _ => (None, r3, ReleaseTempResourceRefs PSO3 dev3)
                end
            end
      end
  end.

(** [DeviceObjectArchiveBase::ClearResourceCache]. *)
Definition ClearResourceCache (r : DeviceObjectArchiveBase) : DeviceObjectArchiveBase :=
  set_Shaders
    ((fun Shader => MkShaderEntry (Shader_Offset Shader) (Shader_Size Shader) None)
       <$> m_Shaders r) r.

(** Two directories that agree on the offset and the size of every name
    (their weak caches may differ). *)
Definition same_directory (m1 m2 : gmap (list Z) NameOffsetAndCache) : Prop :=
  forall n, (fun e => (Entry_Offset e, Entry_Size e)) <$> (m1 !! n)
            = (fun e => (Entry_Offset e, Entry_Size e)) <$> (m2 !! n).

(** The result of an unpack step, with the directory [k] of its reader
    replaced by [m]. *)
Definition with_map {X : Type} (k : ResMap) (m : gmap (list Z) NameOffsetAndCache)
  (res : X * DeviceObjectArchiveBase * Device) : X * DeviceObjectArchiveBase * Device :=
  (res.1.1, set_map k m res.1.2, res.2).

Definition with_map4 {X Y : Type} (k : ResMap) (m : gmap (list Z) NameOffsetAndCache)
  (res : X * Y * DeviceObjectArchiveBase * Device) : X * Y * DeviceObjectArchiveBase * Device :=
  (res.1.1, set_map k m res.1.2, res.2).

End Unpack.

(** The format of the seed scenarios: version 1; a test of a bit outside
    [ProcessedBits] finds it clear. *)
Definition Format_v1 : ArchiveFormat := {|
  HeaderMagicNumber := 0x54415243;
  GetHeaderVersion := 1;
  ProcessedBits_outside := fun _ => false
|}.

Definition ArchiveHeader_bytes (Magic Version_ NumChunks_ : Z) : list Z :=
  le_bytes 4 Magic ++ le_bytes 4 Version_ ++ le_bytes 4 NumChunks_
  ++ concat (replicate 6 (le_bytes 4 InvalidOffset)).

Definition ChunkHeader_bytes (Type_ Size Offset : Z) : list Z :=
  le_bytes 4 Type_ ++ le_bytes 4 Size ++ le_bytes 4 Offset.

(** An archive of 68 bytes with one resource-signature chunk of one entry
    named [Sig], whose data offset is [0xFFFFFFFF] and whose data size is 2. *)
Definition WrapArchive : list Z :=
  ArchiveHeader_bytes 0x54415243 1 1
  ++ ChunkHeader_bytes 2 20 48
  ++ (le_bytes 4 1 ++ le_bytes 4 4 ++ le_bytes 4 2 ++ le_bytes 4 0xFFFFFFFF
      ++ bytes_of_string "Sig" ++ [0]).

(** An archive of 48 bytes whose only chunk, a resource-signature chunk, is
    said to lie at offset 1000. *)
Definition TruncatedArchive : list Z :=
  ArchiveHeader_bytes 0x54415243 1 1 ++ ChunkHeader_bytes 2 100 1000.

(** An archive without chunks. *)
Definition EmptyArchive : list Z := ArchiveHeader_bytes 0x54415243 1 0.

(** Archives that the constructor rejects: a header with another magic
    number; a header of version 2; two resource-signature chunks, both over
    the same body of four bytes that announces no record; one chunk of kind
    9, and one of the reserved kind 0. *)
Definition BadMagicArchive : list Z := ArchiveHeader_bytes 0x12345678 1 0.

Definition BadVersionArchive : list Z := ArchiveHeader_bytes 0x54415243 2 0.

Definition DuplicateChunkArchive : list Z :=
  ArchiveHeader_bytes 0x54415243 1 2
  ++ ChunkHeader_bytes 2 4 60 ++ ChunkHeader_bytes 2 4 60
  ++ le_bytes 4 0.

Definition UnknownChunkArchive : list Z :=
  ArchiveHeader_bytes 0x54415243 1 1 ++ ChunkHeader_bytes 9 0 48.

Definition UndefinedChunkArchive : list Z :=
  ArchiveHeader_bytes 0x54415243 1 1 ++ ChunkHeader_bytes 0 0 48.

(** Two resource-signature chunks again, over a body of two bytes: too
    short for the record count that [ReadNamedResources] reads first. *)
Definition ShortChunkArchive : list Z :=
  ArchiveHeader_bytes 0x54415243 1 2
  ++ ChunkHeader_bytes 2 2 60 ++ ChunkHeader_bytes 2 2 60
  ++ [0; 0].

(** A chunk body of 33 bytes with two records: the name of the first, [AB],
    has no terminating zero byte among its two bytes and is followed by the
    name of the second, [CD] with its zero byte. *)
Definition RunOnNames : list Z :=
  le_bytes 4 2
  ++ (le_bytes 4 2 ++ le_bytes 4 3)
  ++ (le_bytes 4 1 ++ le_bytes 4 1)
  ++ (le_bytes 4 0 ++ le_bytes 4 0)
  ++ bytes_of_string "AB" ++ (bytes_of_string "CD" ++ [0]).

(** A chunk body of 32 bytes with two records that are both named [A]: the
    first has data offset 3 and data size 1, the second data offset 5 and
    data size 2.  It is read as a byte source of its own, with the chunk at
    offset 0. *)
Definition RepeatedNames : list Z :=
  le_bytes 4 2
  ++ (le_bytes 4 2 ++ le_bytes 4 2)
  ++ (le_bytes 4 1 ++ le_bytes 4 2)
  ++ (le_bytes 4 3 ++ le_bytes 4 5)
  ++ (bytes_of_string "A" ++ [0]) ++ (bytes_of_string "A" ++ [0]).

(** The device of the seed scenarios: its state is the address of the next
    object it creates, every object stays alive, every shader is a vertex
    shader, and a description reads back as the empty one. *)
Definition EmptyPipelineDesc : PipelineDesc := MkPipelineDesc (fun _ => []) None.

Definition EmptyCreateInfo : PSOCreateInfo :=
  MkPSOCI [] 0 0 0 0 None EmptyPipelineDesc (fun _ => None) [].

Definition CountingDevice : RenderDevice := {|
  Device := Z;
  Lock := fun _ dev => (true, dev);
  Release := fun _ dev => dev;
  GetShaderType := fun _ _ => 1;
  CreateShader := fun _ dev => (Some dev, dev + 1);
  CreateGraphicsPipelineState := fun _ dev => (Some dev, dev + 1);
  CreateTilePipelineState := fun _ dev => (Some dev, dev + 1);
  CreateRenderPass_ := fun _ dev => (Some dev, dev + 1);
  CreateSignature := fun _ _ dev => (Some dev, dev + 1);
  Read_PSOCreateInfo := fun _ _ => Some (EmptyCreateInfo, [], None);
  Read_RenderPassDesc := fun _ => Some (MkRPDesc [] [] []);
  Read_PRSDesc := fun _ => Some []
|}.

(** Seed scenario S6: a reader for OpenGL over an archive that holds the
    shared data of the graphics pipeline [P] (a data header and nothing
    else) followed by the OpenGL block (an empty shader index array); [P]
    has been unpacked before and its cache refers to the object 100. *)
Definition S6_Archive : list Z :=
  Archiver.DataHeader_bytes
    (Archiver.MkHeader 3
       (fun d => match d with Archiver.OpenGL => 4 | _ => 0 end)
       (fun d => match d with Archiver.OpenGL => 0 | _ => InvalidOffset end))
  ++ le_bytes 4 0.

Definition S6_Reader (Cache : option Z) : DeviceObjectArchiveBase :=
  MkReader S6_Archive Archiver.OpenGL (fun _ => 52) (0, [])
           ∅ {[ bytes_of_string "P" := MkEntry 0 52 Cache ]} ∅ ∅ ∅ ∅ [].

(** The request of S6: [P] with the [BLEND_STATE] override flag, and the
    request without overrides. *)
Definition S6_Override : PipelineStateUnpackInfo :=
  MkPSOInfo (bytes_of_string "P") 4 1 1
            (MkPipelineDesc (fun f => match f with BlendDesc => [1] | _ => [] end) None)
            EmptyPipelineDesc.

Definition S6_Plain : PipelineStateUnpackInfo :=
  MkPSOInfo (bytes_of_string "P") 0 1 1 EmptyPipelineDesc EmptyPipelineDesc.

End DeviceObjectArchive.

(** ** The writer, continued *)

Module ArchiveStream.
Import Serializer Archiver.

Section Registry.
Context `{Ext : Externals}.

(** [ArchiverImpl::CachePipelineResourceSignature]: [m_PRSCache.insert]
    finds a cached signature that equals the new one, or adds the new one;
    the result is the success flag, the signature [pPRS] refers to
    afterwards, and the writer. *)
Definition CachePipelineResourceSignature (pPRS : SerializableResourceSignatureImpl)
  (w : ArchiverImpl) : bool * SerializableResourceSignatureImpl * ArchiverImpl :=
  match List.find (PRS_Equal pPRS) (m_PRSCache w) with
  | Some found => (true, found, w)
  | None =>
      let w1 := set_PRSCache (m_PRSCache w ++ [pPRS]) w in
      let '(ok, w2) := AddPipelineResourceSignature (Some pPRS) w1 in
      (ok, pPRS, w2)
  end.

End Registry.

(** *** Serialization to a stream *)

(** Modelled from the spec: [TDataElement::IsEmpty], nothing was
    reserved. *)
Definition IsEmpty (e : TDataElement) : bool := ReservedSize e =? 0.

(** The name of a map entry as the C string [NameAndData.first.GetStr()]. *)
Definition Name_bytes (n : string) : list Z := cstr (bytes_of_string n).

(** What the build defines: [DILIGENT_API_VERSION] and, if it is defined,
    [DILIGENT_CORE_COMMIT_HASH]. *)
Class BuildInfo := {
  DILIGENT_API_VERSION : Z;
  DILIGENT_CORE_COMMIT_HASH : option (list Z)
}.

(** Modelled from the spec: like [TDataElement], the block of a chunk
    ([Pending.ChunkData[i]]) with the objects that the writer constructs in
    it, packed, in their order in the block: the serialized
    debug info; the [ShadersDataHeader]; or the [NamedResourceArrayHeader]
    (its [Count]), the three arrays that [InitNamedResourceArrayHeader]
    constructs after it, and the copied names.  An array assignment
    [Array[i] = x] is [<[i := x]>]. *)
Inductive ChunkContent :=
  | NoContent
  | DebugInfoContent (bytes : list Z)
  | ShadersContent (Header : DataHeader)
  | NamedContent (Count : Z) (NameLengthArray DataSizeArray DataOffsetArray : list Z)
                 (Names : list (list Z)).

Record TChunk := MkChunk {
  Chunk_ReservedSize : Z;
  Chunk_Content : ChunkContent
}.

Definition u32_array_bytes (a : list Z) : list Z := concat (le_bytes 4 <$> a).

(** The bytes of a chunk block, [GetDataPtr()] to [GetCurrentSize()]. *)
Definition ChunkContent_bytes (c : ChunkContent) : list Z :=
  match c with
  | NoContent => []
  | DebugInfoContent bytes => bytes
  | ShadersContent Header => DataHeader_bytes Header
  | NamedContent Count NameLengthArray DataSizeArray DataOffsetArray Names =>
      le_bytes 4 Count ++ u32_array_bytes NameLengthArray ++ u32_array_bytes DataSizeArray
      ++ u32_array_bytes DataOffsetArray ++ concat Names
  end.

Definition Chunk_bytes (c : TChunk) : list Z := ChunkContent_bytes (Chunk_Content c).
Definition Chunk_GetCurrentSize (c : TChunk) : Z := Z.of_nat (length (Chunk_bytes c)).
Definition Chunk_IsEmpty (c : TChunk) : bool := Chunk_ReservedSize c =? 0.

(** What is reserved in a block and not filled yet. *)
Definition Unused (e : TDataElement) : Z := ReservedSize e - GetCurrentSize e.

(** The blocks of [PendingData] that named resources and shaders go to:
    the shared block ([None]) and the device blocks. *)
Definition Block (D : PendingData) (b : option DeviceType) : TDataElement :=
  match b with
  | None => Pending_SharedData D
  | Some d => Pending_PerDeviceData D d
  end.

Definition TChunk_new : TChunk := MkChunk 0 NoContent.

Abbreviation ChunkType := DeviceObjectArchive.ChunkType.

#[global] Instance ChunkType_eq_dec : EqDecision ChunkType.
Proof. solve_decision. Defined.

(** [ChunkType] in the order of its values; loops over [Pending.ChunkData]
    run over [ChunkTypes]. *)
Definition ChunkTypes : list ChunkType :=
  [DeviceObjectArchive.Undefined; DeviceObjectArchive.ArchiveDebugInfo;
   DeviceObjectArchive.ResourceSignature; DeviceObjectArchive.GraphicsPipelineStates;
   DeviceObjectArchive.ComputePipelineStates; DeviceObjectArchive.RayTracingPipelineStates;
   DeviceObjectArchive.TilePipelineStates; DeviceObjectArchive.RenderPass;
   DeviceObjectArchive.Shaders].

(** [ArchiveHeader] and [ChunkHeader] as the writer fills them, and their
    images (the layout the reader parses). *)
Definition FileHeader_bytes (h : DeviceObjectArchive.ArchiveHeader) : list Z :=
  le_bytes 4 (DeviceObjectArchive.MagicNumber h)
  ++ le_bytes 4 (DeviceObjectArchive.Version h)
  ++ le_bytes 4 (DeviceObjectArchive.NumChunks h)
  ++ concat ((fun d => le_bytes 4 (DeviceObjectArchive.BlockBaseOffsets h d)) <$> DeviceTypes).

Record ChunkHdr := MkChunkHdr {
  Hdr_Type : ChunkType;
  Hdr_Size : Z;
  Hdr_Offset : Z
}.

Definition ChunkHdr_bytes (c : ChunkHdr) : list Z :=
  le_bytes 4 (DeviceObjectArchive.ChunkType_to_Z (Hdr_Type c))
  ++ le_bytes 4 (Hdr_Size c)
  ++ le_bytes 4 (Hdr_Offset c).

(** [PendingData]: the header block (the file header and the chunk
    headers constructed in it), the chunk blocks, the resource counts, the
    shared data and the device blocks, and the offset in the file.
    [DataOffsetArrayPerChunk[i]] points to the [DataOffsetArray] of chunk
    [i] if the chunk is a chunk of names and is null otherwise. *)
Record PendingStream := MkStream {
  FileHeader : DeviceObjectArchive.ArchiveHeader;
  ChunkHeaders : list ChunkHdr;
  ChunkData : ChunkType -> TChunk;
  ResourceCountPerChunk : ChunkType -> Z;
  Pending : PendingData;
  OffsetInFile : Z
}.

Definition set_ChunkData (Type_ : ChunkType) (c : TChunk) (P : PendingStream) : PendingStream :=
  MkStream (FileHeader P) (ChunkHeaders P) (<[Type_ := c]> (ChunkData P))
           (ResourceCountPerChunk P) (Pending P) (OffsetInFile P).

Definition set_ResourceCount (Type_ : ChunkType) (n : Z) (P : PendingStream) : PendingStream :=
  MkStream (FileHeader P) (ChunkHeaders P) (ChunkData P)
           (<[Type_ := n]> (ResourceCountPerChunk P)) (Pending P) (OffsetInFile P).

Definition set_Pending (D : PendingData) (P : PendingStream) : PendingStream :=
  MkStream (FileHeader P) (ChunkHeaders P) (ChunkData P)
           (ResourceCountPerChunk P) D (OffsetInFile P).

Definition DataOffsetArrayPerChunk (P : PendingStream) (Type_ : ChunkType) : option (list Z) :=
  match Chunk_Content (ChunkData P Type_) with
  | NamedContent _ _ _ DataOffsetArray _ => Some DataOffsetArray
  | _ => None
  end.

Definition DeviceDataCount : Z := 6.

Section Stream.
Context `{Fmt : DeviceObjectArchive.ArchiveFormat} `{Build : BuildInfo}.

(** [ArchiverImpl::InitNamedResourceArrayHeader]: the block of the chunk
    with the count, the three arrays and the names, and the resource
    count.  (An assignment to an array element outside the array, which
    needs a map of 2^32 entries, is left out.) *)
Definition InitNamedResourceArrayHeader {Obj} (Type_ : ChunkType)
  (GetSharedData : Obj -> SerializedMemory) (Map : gmap string Obj) (P : PendingStream)
  : PendingStream :=
  let Count := StaticCast_Uint32 (Z.of_nat (size Map)) in
  let Reserved :=
    foldl (fun s NameAndData => s + (Z.of_nat (length (Name_bytes NameAndData.1)) + 1))
          (4 + 4 * Count + 4 * Count + 4 * Count) (map_to_list Map) in
  let Arrays0 := (replicate (Z.to_nat Count) 0, replicate (Z.to_nat Count) 0, @nil (list Z)) in
  let '(NameLengthArray, DataSizeArray, Names, _) :=
    foldl (fun '(NameLengthArray, DataSizeArray, Names, i) NameAndData =>
             let Name := Name_bytes NameAndData.1 in
             let NameLen := Z.of_nat (length Name) in
             (<[Z.to_nat i := StaticCast_Uint32 (NameLen + 1)]> NameLengthArray,
              <[Z.to_nat i := StaticCast_Uint32 (Mem_Size (GetSharedData NameAndData.2))]>
                DataSizeArray,
              Names ++ [Name ++ [0]],
              wrap32 (i + 1)))
          (Arrays0, 0) (map_to_list Map) in
  set_ResourceCount Type_ Count
    (set_ChunkData Type_
       (MkChunk Reserved
          (NamedContent Count NameLengthArray DataSizeArray (replicate (Z.to_nat Count) 0) Names))
       P).

(** [ArchiverImpl::WriteDebugInfo]. *)
Definition DebugInfo_schema : schema := TPair (TUInt 4) TString.

Definition WriteDebugInfo (P : PendingStream) : PendingStream :=
  let v : sem DebugInfo_schema := (DILIGENT_API_VERSION, DILIGENT_CORE_COMMIT_HASH) in
  let Size := MeasureSize DebugInfo_schema v in
  if decide (Size = 0%nat) then P
  else
    let bytes :=
      match Serialize Write DebugInfo_schema v (MkSer (Allocate Size) 0) with
      | Some (_, Ser1) => m_Buf Ser1
      | None => Allocate Size
      end in
    set_ChunkData DeviceObjectArchive.ArchiveDebugInfo
      (MkChunk (Z.of_nat Size) (DebugInfoContent bytes)) P.

(** The body of the loop of [WriteDeviceObjectData] for object [j]: the
    header and the data are written by [WriteDeviceObject], which yields
    [DataOffsetArray[j]] and the increment of [DataSizeArray[j]]. *)
Definition WriteDeviceObjectAt {Obj} (Type_ : ChunkType)
  (GetSharedData : Obj -> SerializedMemory)
  (WriteDeviceData : DataHeader -> DeviceType -> Obj -> PendingData -> DataHeader * PendingData)
  (j : Z) (O : Obj) (P : PendingStream) : PendingStream :=
  let '(DstOffset, Increment, D) :=
    WriteDeviceObject (DeviceObjectArchive.ChunkType_to_Z Type_) GetSharedData WriteDeviceData
      O (Pending P) in
  let Chunk := ChunkData P Type_ in
  let Content :=
    match Chunk_Content Chunk with
    | NamedContent Count NameLengthArray DataSizeArray DataOffsetArray Names =>
        NamedContent Count NameLengthArray
          (alter (fun DstArraySize => wrap32 (DstArraySize + Increment)) (Z.to_nat j)
             DataSizeArray)
          (<[Z.to_nat j := DstOffset]> DataOffsetArray)
          Names
    | c => c
    end in
  set_Pending D (set_ChunkData Type_ (MkChunk (Chunk_ReservedSize Chunk) Content) P).

(** [ArchiverImpl::WriteDeviceObjectData]. *)
Definition WriteDeviceObjectData {Obj} (Type_ : ChunkType)
  (GetSharedData : Obj -> SerializedMemory)
  (WriteDeviceData : DataHeader -> DeviceType -> Obj -> PendingData -> DataHeader * PendingData)
  (ObjectMap : gmap string Obj) (P : PendingStream) : PendingStream :=
  if decide (ObjectMap = ∅) then P
  else
    let P1 := InitNamedResourceArrayHeader Type_ GetSharedData ObjectMap P in
    (foldl (fun '(P', j) Obj_ =>
              (WriteDeviceObjectAt Type_ GetSharedData WriteDeviceData j Obj_.2 P',
               wrap32 (j + 1)))
           (P1, 0) (map_to_list ObjectMap)).1.

(** The loop of [WriteShaderData] over the shaders of a device: each shader
    is copied to the block and its offset and size go to the next record of
    the table, which starts at [pOffsetAndSize] in the block. *)
Definition store32 (Off : Z) (v : Z) (bs : list Z) : list Z :=
  take (Z.to_nat Off) bs ++ le_bytes 4 v ++ drop (Z.to_nat Off + 4) bs.

Definition WriteShader (pOffsetAndSize : Z) (acc : TDataElement * Z) (Sh : list Z)
  : TDataElement * Z :=
  let '(Dst, s) := acc in
  let '(pDst, Dst1) := Data_Copy Sh Dst in
  let Record_ := pOffsetAndSize + sizeof_FileOffsetAndSize * s in
  (MkData (ReservedSize Dst1)
          (store32 (Record_ + 4) (StaticCast_Uint32 (Z.of_nat (length Sh)))
             (store32 Record_ (StaticCast_Uint32 pDst) (Data Dst1))),
   s + 1).

(** The body of the loop of [WriteShaderData] over the devices. *)
Definition WriteDeviceShaders (w : ArchiverImpl) (acc : DataHeader * PendingData)
  (dev : DeviceType) : DataHeader * PendingData :=
  let '(Header, D) := acc in
  let List := Shaders_List (m_Shaders w dev) in
  match List with
  | [] => acc
  | _ =>
      let Dst := Pending_PerDeviceData D dev in
      let n := Z.of_nat (length List) in
      let '(pOffsetAndSize, Dst1) :=
        Data_Copy (replicate (Z.to_nat (sizeof_FileOffsetAndSize * n)) 0) Dst in
      let Header1 :=
        SetSize dev (StaticCast_Uint32 (sizeof_FileOffsetAndSize * n))
          (SetOffset dev (StaticCast_Uint32 pOffsetAndSize) Header) in
      let '(Dst2, _) := foldl (WriteShader pOffsetAndSize) (Dst1, 0) List in
      (Header1, set_PerDeviceData dev Dst2 D)
  end.

(** [ArchiverImpl::WriteShaderData]. *)
Definition WriteShaderData (w : ArchiverImpl) (P : PendingStream) : PendingStream :=
  let HasShaders :=
    existsb (fun d => match Shaders_List (m_Shaders w d) with [] => false | _ => true end)
            DeviceTypes in
  if negb HasShaders then P
  else
    let Header0 := DataHeader_new (DeviceObjectArchive.ChunkType_to_Z DeviceObjectArchive.Shaders) in
    let '(Header, D) := foldl (WriteDeviceShaders w) (Header0, Pending P) DeviceTypes in
    set_Pending D
      (set_ResourceCount DeviceObjectArchive.Shaders DeviceDataCount
         (set_ChunkData DeviceObjectArchive.Shaders
            (MkChunk sizeof_DataHeader (ShadersContent Header)) P)).

(** The first loop of [UpdateOffsetsInArchive]: the chunk headers of the
    chunks that are not empty, and the offset after them. *)
Definition AddChunkHeader (P : PendingStream) (acc : list ChunkHdr * Z) (i : ChunkType)
  : list ChunkHdr * Z :=
  let '(Headers, Offset) := acc in
  if Chunk_IsEmpty (ChunkData P i) then acc
  else
    let Size := StaticCast_Uint32 (Chunk_GetCurrentSize (ChunkData P i)) in
    (Headers ++ [MkChunkHdr i Size (StaticCast_Uint32 Offset)], Offset + Size).

(** The second loop: the offsets of the data headers become offsets in the
    file. *)
Definition UpdateDataOffset (Offset_in_file : Z) (Offset : Z) : Z :=
  if decide (Offset = InvalidOffset) then InvalidOffset
  else StaticCast_Uint32 (Offset + Offset_in_file).

Definition UpdateChunkOffsets (Offset_in_file : Z) (P : PendingStream) (Hdr : ChunkHdr)
  : PendingStream :=
  let ChunkInd := Hdr_Type Hdr in
  let Count := ResourceCountPerChunk P ChunkInd in
  let Chunk := ChunkData P ChunkInd in
  match Chunk_Content Chunk with
  | NamedContent Count0 NameLengthArray DataSizeArray DataOffsetArray Names =>
      let DataOffsetArray' :=
        foldl (fun a j => alter (UpdateDataOffset Offset_in_file) j a) DataOffsetArray
              (seq 0 (Z.to_nat Count)) in
      set_ChunkData ChunkInd
        (MkChunk (Chunk_ReservedSize Chunk)
           (NamedContent Count0 NameLengthArray DataSizeArray DataOffsetArray' Names)) P
  | _ => P
  end.

(** The third loop: the base offsets of the device blocks. *)
Definition AddBlockBaseOffset (D : PendingData) (acc : (DeviceType -> Z) * Z) (dev : DeviceType)
  : (DeviceType -> Z) * Z :=
  let '(BlockBaseOffsets, Offset) := acc in
  if IsEmpty (Pending_PerDeviceData D dev)
  then (<[dev := InvalidOffset]> BlockBaseOffsets, Offset)
  else (<[dev := StaticCast_Uint32 Offset]> BlockBaseOffsets,
        Offset + GetCurrentSize (Pending_PerDeviceData D dev)).

(** [ArchiverImpl::UpdateOffsetsInArchive]. *)
Definition UpdateOffsetsInArchive (P : PendingStream) : PendingStream :=
  let NumChunks :=
    Z.of_nat (length (filter (fun i => Chunk_IsEmpty (ChunkData P i) = false) ChunkTypes)) in
  let Offset0 := DeviceObjectArchive.sizeof_ArchiveHeader
                 + DeviceObjectArchive.sizeof_ChunkHeader * NumChunks in
  let '(Headers, Offset1) := foldl (AddChunkHeader P) ([], Offset0) ChunkTypes in
  let P1 := foldl (UpdateChunkOffsets Offset1) P Headers in
  let Offset2 := Offset1 + GetCurrentSize (Pending_SharedData (Pending P1)) in
  let '(BlockBaseOffsets, Offset3) :=
    foldl (AddBlockBaseOffset (Pending P1)) (fun _ => 0, Offset2) DeviceTypes in
  MkStream
    (DeviceObjectArchive.MkArchiveHeader DeviceObjectArchive.HeaderMagicNumber
       DeviceObjectArchive.GetHeaderVersion NumChunks BlockBaseOffsets)
    Headers (ChunkData P1) (ResourceCountPerChunk P1) (Pending P1) Offset3.

(** [ArchiverImpl::WritePendingDataToStream].  A stream is the bytes
    written to it so far, and [Write] adds bytes at its end. *)
Definition PendingBytes (P : PendingStream) : list Z :=
  FileHeader_bytes (FileHeader P)
  ++ concat (ChunkHdr_bytes <$> ChunkHeaders P)
  ++ concat ((fun i => if Chunk_IsEmpty (ChunkData P i) then [] else Chunk_bytes (ChunkData P i))
               <$> ChunkTypes)
  ++ Data (Pending_SharedData (Pending P))
  ++ concat ((fun d => if IsEmpty (Pending_PerDeviceData (Pending P) d) then []
                       else Data (Pending_PerDeviceData (Pending P) d)) <$> DeviceTypes).

Definition WritePendingDataToStream (P : PendingStream) (Stream : list Z) : list Z :=
  Stream ++ PendingBytes P.

(** The debug check that ends [WritePendingDataToStream]:
    [InitialSize + pStream->GetSize() == Pending.OffsetInFile]. *)
Definition WritePendingDataToStream_check (P : PendingStream) (Stream : list Z) : Prop :=
  Z.of_nat (length Stream) + Z.of_nat (length (WritePendingDataToStream P Stream))
  = OffsetInFile P.

(** The pending data of [SerializeToStream] before
    [UpdateOffsetsInArchive]. *)
Definition WriteAll (w : ArchiverImpl) : PendingStream :=
  let P0 := MkStream (DeviceObjectArchive.MkArchiveHeader 0 0 0 (fun _ => 0)) []
                     (fun _ => TChunk_new) (fun _ => 0) (ReserveSpace w) 0 in
  let P1 := WriteDebugInfo P0 in
  let P2 := WriteShaderData w P1 in
  let P3 := WriteDeviceObjectData DeviceObjectArchive.ResourceSignature PRS_GetSharedData
              WritePRSPerDeviceData (m_PRSMap w) P2 in
  let P4 := WriteDeviceObjectData DeviceObjectArchive.RenderPass rp_SharedSerializedMemory
              (fun Header _ _ D => (Header, D)) (m_RPMap w) P3 in
  let P5 := WriteDeviceObjectData DeviceObjectArchive.GraphicsPipelineStates SharedData
              WritePSOPerDeviceData (m_GraphicsPSOMap w) P4 in
  let P6 := WriteDeviceObjectData DeviceObjectArchive.ComputePipelineStates SharedData
              WritePSOPerDeviceData (m_ComputePSOMap w) P5 in
  let P7 := WriteDeviceObjectData DeviceObjectArchive.TilePipelineStates SharedData
              WritePSOPerDeviceData (m_TilePSOMap w) P6 in
  WriteDeviceObjectData DeviceObjectArchive.RayTracingPipelineStates SharedData
    WritePSOPerDeviceData (m_RayTracingPSOMap w) P7.

(** [ArchiverImpl::SerializeToStream]: the result and the stream. *)
Definition SerializeToStream (w : ArchiverImpl) (pStream : option (list Z))
  : bool * option (list Z) :=
  match pStream with
  | None => (false, None)
  | Some Stream =>
      (true, Some (WritePendingDataToStream (UpdateOffsetsInArchive (WriteAll w)) Stream))
  end.

(** [ArchiverImpl::SerializeToBlob] with [ppBlob] not null: the stream is
    a new memory stream over an empty blob. *)
Definition SerializeToBlob (w : ArchiverImpl) : bool * option (list Z) :=
  match SerializeToStream w (Some []) with
  | (true, pDataBlob) => (true, pDataBlob)
  | (false, _) => (false, None)
  end.

End Stream.

(** *** The requests to the blocks

    What [ReserveSpace] and the writes of [SerializeToStream] ask of the
    shared block and of the device blocks does not depend on the allocator
    behind [TDataElement].  The definitions below follow the same functions
    once more and keep, for one block [b] (the shared block is [None]), the
    requests that are made to it, in their order. *)

Inductive ElementType :=
  FileOffsetAndSize_t | PRSDataHeader_t | RPDataHeader_t | PSODataHeader_t.

(** [AddSpace<T>(n)], [Construct<T>(...)] and [ConstructArray<T>(n)] ask for
    [n] objects of type [T]; [AddSpace(size)] and [Copy(Ptr, size)] ask for
    [size] bytes. *)
Inductive Request :=
  | Objects (T : ElementType) (n : Z)
  | Bytes (size : Z).

(** A request to the block [target], as the block [b] sees it. *)
Definition request (b target : option DeviceType) (q : Request) (log : list Request)
  : list Request :=
  if decide (target = b) then log ++ [q] else log.

(** [ReserveSpace], the body of the loop over [m_Shaders]. *)
Definition ReserveSpaceForShaders_requests (Shaders : DeviceType -> TPerDeviceShaders)
  (b : option DeviceType) (log : list Request) (Type_ : DeviceType) : list Request :=
  let List := Shaders_List (Shaders Type_) in
  match List with
  | [] => log
  | _ =>
      foldl (fun log' Sh => request b (Some Type_) (Bytes (Z.of_nat (length Sh))) log')
            (request b (Some Type_) (Objects FileOffsetAndSize_t (Z.of_nat (length List))) log)
            List
  end.

(** [ReserveSpace], the body of the loop over [m_PRSMap]. *)
Definition ReserveSpaceForPRS_requests (b : option DeviceType)
  (PRS : SerializableResourceSignatureImpl) (log : list Request) : list Request :=
  let log1 := request b None (Bytes (Mem_Size (PRS_GetSharedData PRS)))
                (request b None (Objects PRSDataHeader_t 1) log) in
  foldl (fun log' Type_ =>
           let Src := PRS_GetDeviceData PRS (PRSDevType Type_) in
           request b (Some Type_) (Bytes (Mem_Size Src)) log')
        log1 DeviceTypes.

(** [ReserveSpace], the body of the loop over [m_RPMap]. *)
Definition ReserveSpaceForRP_requests (b : option DeviceType)
  (RP : SerializableRenderPassImpl) (log : list Request) : list Request :=
  request b None (Bytes (Mem_Size (rp_SharedSerializedMemory RP)))
    (request b None (Objects RPDataHeader_t 1) log).

(** [ReserveSpaceForPSO], the body of its loop. *)
Definition ReserveSpaceForPSO_requests (b : option DeviceType)
  (PSO : TPSOData) (log : list Request) : list Request :=
  let log1 := request b None (Bytes (Mem_Size (SharedData PSO)))
                (request b None (Objects PSODataHeader_t 1) log) in
  foldl (fun log' Type_ =>
           let Src := PerDeviceData PSO Type_ in
           request b (Some Type_) (Bytes (Mem_Size Src)) log')
        log1 DeviceTypes.

(** [ArchiverImpl::ReserveSpace]: the requests to the block [b]. *)
Definition ReserveSpace_requests (w : ArchiverImpl) (b : option DeviceType) : list Request :=
  let L1 := foldl (ReserveSpaceForShaders_requests (m_Shaders w) b) [] DeviceTypes in
  let L2 := for_each (ReserveSpaceForPRS_requests b) (m_PRSMap w) L1 in
  let L3 := for_each (ReserveSpaceForRP_requests b) (m_RPMap w) L2 in
  let L4 := for_each (ReserveSpaceForPSO_requests b) (m_GraphicsPSOMap w) L3 in
  let L5 := for_each (ReserveSpaceForPSO_requests b) (m_ComputePSOMap w) L4 in
  let L6 := for_each (ReserveSpaceForPSO_requests b) (m_TilePSOMap w) L5 in
  for_each (ReserveSpaceForPSO_requests b) (m_RayTracingPSOMap w) L6.

(** [WriteHeader]: the header is constructed in the shared block and the
    shared blob is copied after it. *)
Definition WriteHeader_requests (b : option DeviceType) (T : ElementType)
  (SrcMem : SerializedMemory) (log : list Request) : list Request :=
  request b None (Bytes (Mem_Size SrcMem)) (request b None (Objects T 1) log).

(** [WritePerDeviceData]: nothing for a null block, a copy otherwise. *)
Definition WritePerDeviceData_requests (b : option DeviceType) (Type_ : DeviceType)
  (SrcMem : SerializedMemory) (log : list Request) : list Request :=
  if negb (Mem_bool SrcMem) then log
  else request b (Some Type_) (Bytes (Mem_Size SrcMem)) log.

(** [ArchiverImpl::WriteDeviceObjectData]; the requests of
    [InitNamedResourceArrayHeader] go to the block of the chunk. *)
Definition WriteDeviceObjectData_requests {Obj} (b : option DeviceType) (T : ElementType)
  (GetSharedData : Obj -> SerializedMemory)
  (WriteDeviceData : DeviceType -> Obj -> list Request -> list Request)
  (ObjectMap : gmap string Obj) (log : list Request) : list Request :=
  if decide (ObjectMap = ∅) then log
  else
    foldl (fun log' Obj_ =>
             foldl (fun log'' Type_ => WriteDeviceData Type_ Obj_.2 log'')
                   (WriteHeader_requests b T (GetSharedData Obj_.2) log') DeviceTypes)
          log (map_to_list ObjectMap).

(** The body of the loop of [WriteShaderData] over the devices. *)
Definition WriteDeviceShaders_requests (w : ArchiverImpl) (b : option DeviceType)
  (log : list Request) (dev : DeviceType) : list Request :=
  let List := Shaders_List (m_Shaders w dev) in
  match List with
  | [] => log
  | _ =>
      foldl (fun log' Sh => request b (Some dev) (Bytes (Z.of_nat (length Sh))) log')
            (request b (Some dev) (Objects FileOffsetAndSize_t (Z.of_nat (length List))) log)
            List
  end.

(** [ArchiverImpl::WriteShaderData]; the [ShadersDataHeader] goes to the
    block of the chunk. *)
Definition WriteShaderData_requests (w : ArchiverImpl) (b : option DeviceType)
  (log : list Request) : list Request :=
  let HasShaders :=
    existsb (fun d => match Shaders_List (m_Shaders w d) with [] => false | _ => true end)
            DeviceTypes in
  if negb HasShaders then log
  else foldl (WriteDeviceShaders_requests w b) log DeviceTypes.

(** The writes of [ArchiverImpl::SerializeToStream], from [WriteShaderData]
    to the last [WriteDeviceObjectData] ([WriteDebugInfo] asks the block of
    its chunk only): the requests to the block [b]. *)
Definition SerializeToStream_requests (w : ArchiverImpl) (b : option DeviceType)
  : list Request :=
  let WritePRSPerDeviceData_requests :=
    fun Type_ (Src : SerializableResourceSignatureImpl) =>
      WritePerDeviceData_requests b Type_ (PRS_GetDeviceData Src (PRSDevType Type_)) in
  let WritePSOPerDeviceData_requests :=
    fun Type_ (Src : TPSOData) =>
      WritePerDeviceData_requests b Type_ (PerDeviceData Src Type_) in
  let L2 := WriteShaderData_requests w b [] in
  let L3 := WriteDeviceObjectData_requests b PRSDataHeader_t PRS_GetSharedData
              WritePRSPerDeviceData_requests (m_PRSMap w) L2 in
  let L4 := WriteDeviceObjectData_requests b RPDataHeader_t rp_SharedSerializedMemory
              (fun _ _ log => log) (m_RPMap w) L3 in
  let L5 := WriteDeviceObjectData_requests b PSODataHeader_t SharedData
              WritePSOPerDeviceData_requests (m_GraphicsPSOMap w) L4 in
  let L6 := WriteDeviceObjectData_requests b PSODataHeader_t SharedData
              WritePSOPerDeviceData_requests (m_ComputePSOMap w) L5 in
  let L7 := WriteDeviceObjectData_requests b PSODataHeader_t SharedData
              WritePSOPerDeviceData_requests (m_TilePSOMap w) L6 in
  WriteDeviceObjectData_requests b PSODataHeader_t SharedData
    WritePSOPerDeviceData_requests (m_RayTracingPSOMap w) L7.

(** A request that asks for something: every request but one for zero
    bytes. *)
Definition asks (q : Request) : bool :=
  match q with
  | Objects _ _ => true
  | Bytes size => negb (size =? 0)
  end.

(** *** What the pending data hold of the objects *)

(** The blocks of [D'] are the blocks of [D] with more bytes at their
    ends. *)
Definition extends (D D' : PendingData) : Prop :=
  forall b, exists suffix, Data (Block D' b) = Data (Block D b) ++ suffix.

(** The data of an object for device [d]: the bytes lie in the device
    block where the slot [d] of the header says, or the slot is as
    [DataHeader_new] leaves it when the object has no data for [d]. *)
Definition device_data_written (Src : SerializedMemory) (Header : DataHeader) (d : DeviceType)
  (Dev : list Z) : Prop :=
  if Mem_bool Src
  then exists Offset,
         DeviceSpecificDataOffset Header d = StaticCast_Uint32 Offset
         /\ DeviceSpecificDataSize Header d = StaticCast_Uint32 (Mem_Size Src)
         /\ DeviceObjectArchive.bytes_at Dev Offset (Mem_Size Src) = Some (Mem_Ptr Src)
  else DeviceSpecificDataSize Header d = 0 /\ DeviceSpecificDataOffset Header d = InvalidOffset.

(** An object in the pending data: at [DataOffset] of the shared block lie
    its header and its shared data, and the device blocks hold its device
    data. *)
Definition object_written (Type_ : ChunkType) (Shared : SerializedMemory)
  (Src : DeviceType -> SerializedMemory) (D : PendingData) (DataOffset : Z) : Prop :=
  exists Offset Header,
    DataOffset = StaticCast_Uint32 Offset
    /\ Header_Type Header = DeviceObjectArchive.ChunkType_to_Z Type_
    /\ DeviceObjectArchive.bytes_at (Data (Pending_SharedData D)) Offset
         (sizeof_DataHeader + Mem_Size Shared)
       = Some (DataHeader_bytes Header ++ Mem_Ptr Shared)
    /\ forall d, device_data_written (Src d) Header d (Data (Pending_PerDeviceData D d)).

(** The table of [FileOffsetAndSize] records of shaders that lie one after
    another from [Offset] on, and a device block that holds, from
    [TableOffset] on, the table of its shaders and then the shaders. *)
Fixpoint ShaderTable (Offset : Z) (List : list (list Z)) : list Z :=
  match List with
  | [] => []
  | Sh :: rest =>
      le_bytes 4 (StaticCast_Uint32 Offset)
      ++ le_bytes 4 (StaticCast_Uint32 (Z.of_nat (length Sh)))
      ++ ShaderTable (Offset + Z.of_nat (length Sh)) rest
  end.

Definition shaders_written (List : list (list Z)) (TableOffset : Z) (Dev : list Z) : Prop :=
  let TableSize := sizeof_FileOffsetAndSize * Z.of_nat (length List) in
  DeviceObjectArchive.bytes_at Dev TableOffset
    (TableSize + Z.of_nat (length (concat List)))
  = Some (ShaderTable (TableOffset + TableSize) List ++ concat List).

(** The shader chunk after [WriteShaderData]: untouched when no device
    has shaders; otherwise a header whose slot of a device with shaders
    has the size and the offset of the table of the device, the table and
    the shaders being in the block of the device, and whose slot of a
    device without shaders has the size zero. *)
Definition shader_chunk_written (w : ArchiverImpl) (P : PendingStream) : Prop :=
  (ChunkData P DeviceObjectArchive.Shaders = TChunk_new
   /\ forall d, Shaders_List (m_Shaders w d) = [])
  \/ exists Header,
       ChunkData P DeviceObjectArchive.Shaders
       = MkChunk sizeof_DataHeader (ShadersContent Header)
       /\ forall d,
            match Shaders_List (m_Shaders w d) with
            | [] => DeviceSpecificDataSize Header d = 0
            | List =>
                exists TableOffset,
                  DeviceSpecificDataSize Header d
                  = StaticCast_Uint32 (sizeof_FileOffsetAndSize * Z.of_nat (length List))
                  /\ DeviceSpecificDataOffset Header d = StaticCast_Uint32 TableOffset
                  /\ shaders_written List TableOffset
                       (Data (Pending_PerDeviceData (Pending P) d))
            end.

(** The chunk of a map after [WriteDeviceObjectData]: untouched for an
    empty map; otherwise the names of the map and, for a map of fewer than
    2^32 objects, the count, the lengths of the names, the sizes of the
    shared data with their headers and the offsets of the objects. *)
Definition chunk_written {Obj} (Type_ : ChunkType) (GetSharedData : Obj -> SerializedMemory)
  (Src : Obj -> DeviceType -> SerializedMemory) (Map : gmap string Obj) (P : PendingStream)
  : Prop :=
  let items := map_to_list Map in
  if decide (Map = ∅) then ChunkData P Type_ = TChunk_new
  else
    exists Reserved Count NameLengthArray DataSizeArray DataOffsetArray,
      Reserved <> 0
      /\ ChunkData P Type_
         = MkChunk Reserved
             (NamedContent Count NameLengthArray DataSizeArray DataOffsetArray
                ((fun kv : string * Obj => Name_bytes kv.1 ++ [0]) <$> items))
      /\ length DataOffsetArray = Z.to_nat Count
      /\ ResourceCountPerChunk P Type_ = Count
      /\ (Z.of_nat (length items) < 2 ^ 32 ->
          Count = Z.of_nat (length items)
          /\ NameLengthArray
             = (fun kv : string * Obj => wrap32 (Z.of_nat (length (Name_bytes kv.1)) + 1))
                 <$> items
          /\ DataSizeArray
             = (fun kv : string * Obj =>
                  wrap32 (wrap32 (Mem_Size (GetSharedData kv.2)) + sizeof_DataHeader))
                 <$> items
          /\ Forall2 (fun DataOffset (kv : string * Obj) =>
                        object_written Type_ (GetSharedData kv.2) (Src kv.2) (Pending P)
                          DataOffset)
               DataOffsetArray items).

(** A render pass and another render pass object of the same name. *)
Definition RP1 : SerializableRenderPassImpl := MkRP 12288 "RP" (Some [4; 5]).
Definition RP1_other : SerializableRenderPassImpl := MkRP 16384 "RP" (Some [4; 5]).

(** A graphics pipeline [G] that refers to [Sig1] and [RP1]. *)
Definition GraphicsG : PipelineStateCreateInfo :=
  MkCI (Some "G") [] 1 (Some [Some Sig1]) (Some RP1) [].

(** Archive infos: no device at all, and OpenGL only. *)
Definition ForNoDevice : PipelineStateArchiveInfo := MkArchiveInfo 0 0.
Definition ForGL : PipelineStateArchiveInfo := MkArchiveInfo 0 8.

(** A writer in which a compute pipeline [P] is registered. *)
Definition WriterWithP : ArchiverImpl :=
  set_PSOMap ComputePSO {[ "P" := MkPSOData (Some [1]) (fun _ => None) ]} ArchiverImpl_new.

(** A build, and a writer with a signature, a render pass, a compute
    pipeline that has data for OpenGL, and two OpenGL shaders. *)
Definition Build_example : BuildInfo := {|
  DILIGENT_API_VERSION := 250014;
  DILIGENT_CORE_COMMIT_HASH := Some (bytes_of_string "0a1b2c3")
|}.

Definition PipelineP : TPSOData :=
  MkPSOData (Some [1; 2])
            (fun d => match d with OpenGL => Some [5; 6; 7] | _ => None end).

Definition WriterSigP : ArchiverImpl :=
  MkArchiver {[ "Sig" := Sig1 ]} [] {[ "RP" := RP1 ]} ∅ {[ "P" := PipelineP ]} ∅ ∅
    (fun d => match d with
              | OpenGL => MkShaders [[10; 11]; [12]] {[ [10; 11] := 0%nat; [12] := 1%nat ]}
              | _ => MkShaders [] ∅
              end).

End ArchiveStream.

(** ** The reader, continued *)

Module Dearchiver.
Import Serializer DeviceObjectArchive.

(** [DeviceObjectArchiveBase::RenderDeviceTypeToArchiveDeviceType]; [None]
    is [DeviceType::Count], the answer for a render device type that has no
    block in the archive. *)
Definition RenderDeviceTypeToArchiveDeviceType (RenderDeviceType : Z) : option DeviceType :=
  if decide (RenderDeviceType = Archiver.RENDER_DEVICE_TYPE_D3D11) then Some Archiver.Direct3D11
  else if decide (RenderDeviceType = Archiver.RENDER_DEVICE_TYPE_D3D12)
  then Some Archiver.Direct3D12
  else if decide (RenderDeviceType = Archiver.RENDER_DEVICE_TYPE_GL
                  \/ RenderDeviceType = Archiver.RENDER_DEVICE_TYPE_GLES)
  then Some Archiver.OpenGL
  else if decide (RenderDeviceType = Archiver.RENDER_DEVICE_TYPE_VULKAN)
  then Some Archiver.Vulkan
  else if decide (RenderDeviceType = Archiver.RENDER_DEVICE_TYPE_METAL)
  then Some Archiver.Metal_iOS
  else None.

(** Two shader tables that agree on the offset and the size of every index
    (the cached shaders may differ). *)
Definition same_shaders (s1 s2 : list ShaderOffsetAndCache) : Prop :=
  (fun e => (Shader_Offset e, Shader_Size e)) <$> s1
  = (fun e => (Shader_Offset e, Shader_Size e)) <$> s2.

(** Two readers that differ in their caches only. *)
Definition same_archive (r1 r2 : DeviceObjectArchiveBase) : Prop :=
  m_pArchive r1 = m_pArchive r2
  /\ m_DevType r1 = m_DevType r2
  /\ m_BaseOffsets r1 = m_BaseOffsets r2
  /\ m_DebugInfo r1 = m_DebugInfo r2
  /\ (forall k, same_directory (get_map k r1) (get_map k r2))
  /\ same_shaders (m_Shaders r1) (m_Shaders r2).

(** What construction over the archive [A] for the device type [DevType]
    leaves in a reader: the archive, the device type and the block offsets
    of the header, directory entries with empty caches whose 32-bit end
    offset is within the archive, and a shader table with empty caches. *)
Definition constructed (A : list Z) (DevType : DeviceType) (BaseOffsets : DeviceType -> Z)
  (r : DeviceObjectArchiveBase) : Prop :=
  m_pArchive r = A
  /\ m_DevType r = DevType
  /\ m_BaseOffsets r = BaseOffsets
  /\ (forall k Name e, get_map k r !! Name = Some e ->
        Entry_Cache e = None
        /\ wrap32 (Entry_Offset e + Entry_Size e) <= Archive_GetSize A)
  /\ Forall (fun s => Shader_Cache s = None) (m_Shaders r).

(** The bytes of a chunk that construction reads lie inside the archive:
    the whole body, or the data header of the shaders chunk. *)
Definition chunk_in_archive (A : list Z) (c : ChunkHeader) : Prop :=
  0 <= Chunk_Offset c
  /\ Chunk_Offset c
     + (if decide (Chunk_Type c = ChunkType_to_Z Shaders) then sizeof_DataHeader
        else Chunk_Size c)
     <= Archive_GetSize A.

(** [ComputePipelineStateCreateInfo] as the reader fills it: the members it
    shares with the other create infos, and [pCS]. *)
Record ComputePSOCreateInfo := MkComputeCI {
  Compute_CI : PSOCreateInfo;
  pCS : option Z
}.

Definition SHADER_TYPE_COMPUTE : Z := 32.

(** The factory of compute pipelines, [IRenderDevice::CreateComputePipelineState]. *)
Class ComputeDevice `{Dev : RenderDevice} := {
  CreateComputePipelineState : ComputePSOCreateInfo -> Device -> option Z * Device
}.

Section Unpack.
Context `{CDev : ComputeDevice}.

(** [~ReleaseTempResourceRefs<ComputePipelineStateCreateInfo>]: the
    signatures that the create info refers to. *)
Definition ReleaseSignatureRefs (PSO : PSOData) (dev : Device) : Device :=
  let CI := PSO_CreateInfo PSO in
  match CI_ppResourceSignatures CI with
  | Some pp =>
      foldl (fun d p => match p with Some o => Release o d | None => d end) dev
            (take (Z.to_nat (CI_ResourceSignaturesCount CI)) pp)
  | None => dev
  end.

(** The request [DeArchiveInfo] without its override flags. *)
Definition without_flags (DeArchiveInfo : PipelineStateUnpackInfo) : PipelineStateUnpackInfo :=
  MkPSOInfo (PSOInfo_Name DeArchiveInfo) PSO_UNPACK_OVERRIDE_FLAG_NONE
            (PSOInfo_SRBAllocationGranularity DeArchiveInfo)
            (PSOInfo_ImmediateContextMask DeArchiveInfo)
            (pGraphicsPipelineDesc DeArchiveInfo) (pTilePipelineDesc DeArchiveInfo).

(** The objects the cache of an entry refers to have been destroyed. *)
Definition expired (e : NameOffsetAndCache) : Prop :=
  forall obj, Entry_Cache e = Some obj -> forall d, (Lock obj d).1 = false.

(** [DeviceObjectArchiveBase::UnpackComputePSO].  The cache is consulted
    whatever the override flags are; it is written only without flags. *)
Definition UnpackComputePSO (DeArchiveInfo : PipelineStateUnpackInfo)
  (r : DeviceObjectArchiveBase) (dev : Device)
  : option Z * DeviceObjectArchiveBase * Device :=
  let HasOverrideFlags := negb (OverrideFlags DeArchiveInfo =? PSO_UNPACK_OVERRIDE_FLAG_NONE) in
  let '(pCached, dev0) :=
    GetCachedResource (PSOInfo_Name DeArchiveInfo) ComputePSOMap r dev in
  match pCached with
  | Some pPSO => (Some pPSO, r, dev0)
  | None =>
      match ReadPSOData ComputePipelineStates (PSOInfo_Name DeArchiveInfo) ComputePSOMap r with
      | None => (None, r, dev0)
      | Some PSO =>
          let '(ok2, PSO2, r2, dev2) := CreateResourceSignatures PSO r dev0 in
          if negb ok2 then (None, r2, ReleaseSignatureRefs PSO2 dev2)
          else
            let CI3 := set_Granularity (PSOInfo_SRBAllocationGranularity DeArchiveInfo)
                         (PSOInfo_ImmediateContextMask DeArchiveInfo) (PSO_CreateInfo PSO2) in
            let PSO3 := set_CI CI3 PSO2 in
            match LoadDeviceSpecificData r2 (PSO_pHeader PSO3) with
            | None => (None, r2, ReleaseSignatureRefs PSO3 dev2)
            | Some pData =>
                let '(LoadedShaders, r3, dev3) := LoadShaders pData r2 dev2 in
                match LoadedShaders with
                | Some [Shader] =>
                    if decide (GetShaderType Shader dev3 <> SHADER_TYPE_COMPUTE)
                    then (None, r3, ReleaseSignatureRefs PSO3 dev3)
                    else
                      let '(pPSO, dev4) :=
                        CreateComputePipelineState (MkComputeCI CI3 (Some Shader)) dev3 in
                      let '(r4, dev5) :=
                        if negb HasOverrideFlags
                        then CacheResource (PSOInfo_Name DeArchiveInfo) ComputePSOMap pPSO r3 dev4
                        else (r3, dev4) in
                      (pPSO, r4, ReleaseSignatureRefs PSO3 dev5)
                | _ => (None, r3, ReleaseSignatureRefs PSO3 dev3)
                end
            end
      end
  end.

End Unpack.

(** The compute factory of the seed scenarios' device. *)
Definition CountingCreate (CI : ComputePSOCreateInfo) (dev : Z) : option Z * Z :=
  (Some dev, dev + 1).

Definition CountingCompute : @ComputeDevice CountingDevice :=
  @Build_ComputeDevice CountingDevice CountingCreate.

(** A reader over an archive that holds the shared data of the render pass
    [RP] (a data header and nothing else); [RP] has not been unpacked. *)
Definition RP_Archive : list Z :=
  Archiver.DataHeader_bytes (Archiver.DataHeader_new (ChunkType_to_Z RenderPass)).

Definition RP_Reader : DeviceObjectArchiveBase :=
  MkReader RP_Archive Archiver.OpenGL (fun _ => InvalidOffset) (0, [])
           ∅ ∅ ∅ ∅ ∅ {[ bytes_of_string "RP" := MkEntry 0 52 None ]} [].

Definition RP_Plain : RenderPassUnpackInfo := MkRPInfo (bytes_of_string "RP") [].

(** A reader over an archive that is one device block: the table of one
    shader, and the shader (its prefix and three bytes of bytecode). *)
Definition Shader_Blob : list Z :=
  encode Archiver.ShaderPrefix_schema (1, (Some (bytes_of_string "main"), (0, 0)))
  ++ [1; 2; 3].

Definition Shader_Archive : list Z :=
  le_bytes 4 8 ++ le_bytes 4 (Z.of_nat (length Shader_Blob)) ++ Shader_Blob.

Definition Shader_Reader : DeviceObjectArchiveBase :=
  MkReader Shader_Archive Archiver.OpenGL (fun _ => 0) (0, [])
           ∅ ∅ ∅ ∅ ∅ ∅ [MkShaderEntry 8 (Z.of_nat (length Shader_Blob)) None].

(** The index array of a pipeline that uses shader 0 twice. *)
Definition Shader_Indices : list Z :=
  encode Archiver.ShaderIndexArray_schema [0; 0].

End Dearchiver.

(** ** The writer and the reader together *)

Module RoundTrip.
Import Serializer Archiver ArchiveStream.

(** The chunk that the constructor of the reader reads into a directory
    (the [switch] of the constructor). *)
Definition ChunkType_of (k : DeviceObjectArchive.ResMap) : ChunkType :=
  match k with
  | DeviceObjectArchive.PRSMap => DeviceObjectArchive.ResourceSignature
  | DeviceObjectArchive.GraphicsPSOMap => DeviceObjectArchive.GraphicsPipelineStates
  | DeviceObjectArchive.ComputePSOMap => DeviceObjectArchive.ComputePipelineStates
  | DeviceObjectArchive.RayTracingPSOMap => DeviceObjectArchive.RayTracingPipelineStates
  | DeviceObjectArchive.TilePSOMap => DeviceObjectArchive.TilePipelineStates
  | DeviceObjectArchive.RenderPassMap => DeviceObjectArchive.RenderPass
  end.

(** No two names of a map are the same C string. *)
Definition distinct_names {Obj} (Map : gmap string Obj) : Prop :=
  forall n1 n2, is_Some (Map !! n1) -> is_Some (Map !! n2) ->
                Name_bytes n1 = Name_bytes n2 -> n1 = n2.

Definition names_are_distinct (w : ArchiverImpl) : Prop :=
  distinct_names (m_PRSMap w) /\ distinct_names (m_RPMap w)
  /\ distinct_names (m_GraphicsPSOMap w) /\ distinct_names (m_ComputePSOMap w)
  /\ distinct_names (m_TilePSOMap w) /\ distinct_names (m_RayTracingPSOMap w).

(** A directory with the entries of a map of the writer: under the name of
    every object an entry whose range of the archive holds the header of
    the object and then its shared data, the header being of the kind of
    the map and pointing to the device data of the object in the device
    blocks [D]; and no other names. *)
Definition directory_of {Obj} (Type_ : ChunkType) (GetSharedData : Obj -> SerializedMemory)
  (Src : Obj -> DeviceType -> SerializedMemory) (Map : gmap string Obj)
  (D : PendingData) (A : list Z)
  (dir : gmap (list Z) DeviceObjectArchive.NameOffsetAndCache) : Prop :=
  (forall n O, Map !! n = Some O ->
     exists e Header,
       dir !! Name_bytes n = Some e
       /\ DeviceObjectArchive.Archive_Read A (DeviceObjectArchive.Entry_Offset e)
            (DeviceObjectArchive.Entry_Size e)
          = Some (DataHeader_bytes Header ++ Mem_Ptr (GetSharedData O))
       /\ Header_Type Header = DeviceObjectArchive.ChunkType_to_Z Type_
       /\ forall d, device_data_written (Src O d) Header d (Data (Pending_PerDeviceData D d)))
  /\ (forall Name, is_Some (dir !! Name) -> exists n, is_Some (Map !! n) /\ Name = Name_bytes n).

(** What the reader [r] gives back of a map of the writer: for every
    object, [LoadResourceData] finds the name and loads data that start
    with a header of the kind of the map, followed by the shared data of
    the object; [LoadDeviceSpecificData] with that header loads the data of
    the object for the device of the reader, if the object has such data;
    and the directory has no other names. *)
Definition reads_back {Obj} (k : DeviceObjectArchive.ResMap)
  (GetSharedData : Obj -> SerializedMemory) (Src : Obj -> DeviceType -> SerializedMemory)
  (Map : gmap string Obj) (r : DeviceObjectArchive.DeviceObjectArchiveBase) : Prop :=
  (forall n O, Map !! n = Some O ->
     exists pData Header,
       DeviceObjectArchive.LoadResourceData k (Name_bytes n) r = Some (Name_bytes n, pData)
       /\ DeviceObjectArchive.CastHeader (ChunkType_of k) pData
          = Some (Header, Mem_Ptr (GetSharedData O))
       /\ (Mem_Size (Src O (DeviceObjectArchive.m_DevType r)) <> 0 ->
           DeviceObjectArchive.LoadDeviceSpecificData r Header
           = Some (Mem_Ptr (Src O (DeviceObjectArchive.m_DevType r)))))
  /\ (forall Name, is_Some (DeviceObjectArchive.get_map k r !! Name) ->
        exists n, is_Some (Map !! n) /\ Name = Name_bytes n).

Definition reads_back_all (w : ArchiverImpl) (r : DeviceObjectArchive.DeviceObjectArchiveBase)
  : Prop :=
  reads_back DeviceObjectArchive.PRSMap PRS_GetSharedData
    (fun O t => PRS_GetDeviceData O (PRSDevType t)) (m_PRSMap w) r
  /\ reads_back DeviceObjectArchive.RenderPassMap rp_SharedSerializedMemory
       (fun _ _ => None) (m_RPMap w) r
  /\ reads_back DeviceObjectArchive.GraphicsPSOMap SharedData PerDeviceData
       (m_GraphicsPSOMap w) r
  /\ reads_back DeviceObjectArchive.ComputePSOMap SharedData PerDeviceData
       (m_ComputePSOMap w) r
  /\ reads_back DeviceObjectArchive.TilePSOMap SharedData PerDeviceData (m_TilePSOMap w) r
  /\ reads_back DeviceObjectArchive.RayTracingPSOMap SharedData PerDeviceData
       (m_RayTracingPSOMap w) r.

(** What the reader [r] gives back of the shaders that the writer holds
    for the device of the reader: the shader table of the reader has an
    entry for every shader, in the order of the indices of the writer, and
    the range of the archive that [LoadShaders] reads for an entry holds
    the bytes of the shader. *)
Definition reads_back_shaders (w : ArchiverImpl)
  (r : DeviceObjectArchive.DeviceObjectArchiveBase) : Prop :=
  let List := Shaders_List (m_Shaders w (DeviceObjectArchive.m_DevType r)) in
  length (DeviceObjectArchive.m_Shaders r) = length List
  /\ forall (i : nat) Sh,
       List !! i = Some Sh ->
       exists e,
         DeviceObjectArchive.m_Shaders r !! i = Some e
         /\ DeviceObjectArchive.Shader_Cache e = None
         /\ DeviceObjectArchive.Archive_Read (DeviceObjectArchive.m_pArchive r)
              (wrap32 (DeviceObjectArchive.m_BaseOffsets r (DeviceObjectArchive.m_DevType r)
                       + DeviceObjectArchive.Shader_Offset e))
              (DeviceObjectArchive.Shader_Size e)
            = Some Sh.

(** The create-info that [LoadShaders] hands to the device for a shader
    whose bytes are the prefix [k.1] (shader type, entry point, source
    language and compiler) followed by the bytes [k.2]. *)
Definition ShaderCI_of_key (k : sem ShaderPrefix_schema * list Z)
  : DeviceObjectArchive.ShaderCreateInfo :=
  let '(ShaderType, (EntryPoint_, (SourceLanguage_, ShaderCompiler_))) :=
    preserved ShaderPrefix_schema k.1 in
  DeviceObjectArchive.MkShaderCI ShaderType EntryPoint_ SourceLanguage_ ShaderCompiler_
    DeviceObjectArchive.SHADER_COMPILE_FLAG_SKIP_REFLECTION k.2.

(** The bytes of such a shader in the list of the writer. *)
Definition ShaderKey_bytes (k : sem ShaderPrefix_schema * list Z) : list Z :=
  encode ShaderPrefix_schema k.1 ++ k.2.

Section Shaders.
Context `{Dev : DeviceObjectArchive.RenderDevice}.

(** [CreateShader] for one create-info after another, up to the first
    failure; the shaders are added to [Loaded]. *)
Fixpoint CreateShaders (CIs : list DeviceObjectArchive.ShaderCreateInfo) (Loaded : list Z)
  (dev : DeviceObjectArchive.Device) : option (list Z) * DeviceObjectArchive.Device :=
  match CIs with
  | [] => (Some Loaded, dev)
  | CI :: rest =>
      let '(pShader, dev') := DeviceObjectArchive.CreateShader CI dev in
      match pShader with
      | None => (None, dev')
      | Some sh => CreateShaders rest (Loaded ++ [sh]) dev'
      end
  end.

End Shaders.

(** A writer with one OpenGL shader (a vertex shader with the entry point
    [main] and three bytes of code) and a pipeline that uses it. *)
Definition ShaderKey_example : sem ShaderPrefix_schema * list Z :=
  ((1, (Some (bytes_of_string "main"), (0, 0))), [1; 2; 3]).

Definition WriterShader : ArchiverImpl :=
  MkArchiver ∅ [] ∅ ∅
    {[ "P" := MkPSOData (Some [1; 2])
                (fun d => match d with
                          | OpenGL => SerializeShadersForPSO [0]
                          | _ => None
                          end) ]} ∅ ∅
    (fun d => match d with
              | OpenGL => MkShaders [ShaderKey_bytes ShaderKey_example]
                            {[ ShaderKey_bytes ShaderKey_example := 0%nat ]}
              | _ => MkShaders [] ∅
              end).

Section Archive.
Context `{Fmt : DeviceObjectArchive.ArchiveFormat} `{Build : BuildInfo}.

(** The bytes that [SerializeToBlob] leaves in the blob. *)
Definition Archive_bytes (w : ArchiverImpl) : list Z :=
  PendingBytes (UpdateOffsetsInArchive (WriteAll w)).

(** The header that the constructor of the reader makes of a chunk header
    of the writer. *)
Definition ChunkHeader_of (h : ChunkHdr) : DeviceObjectArchive.ChunkHeader :=
  DeviceObjectArchive.MkChunkHeader (DeviceObjectArchive.ChunkType_to_Z (Hdr_Type h))
    (Hdr_Size h) (Hdr_Offset h).

(** The directory [k] of a reader of the archive of [w]. *)
Definition writer_directory (w : ArchiverImpl) (k : DeviceObjectArchive.ResMap)
  (dir : gmap (list Z) DeviceObjectArchive.NameOffsetAndCache) : Prop :=
  let D := Pending (WriteAll w) in
  let A := Archive_bytes w in
  match k with
  | DeviceObjectArchive.PRSMap =>
      directory_of DeviceObjectArchive.ResourceSignature PRS_GetSharedData
        (fun O t => PRS_GetDeviceData O (PRSDevType t)) (m_PRSMap w) D A dir
  | DeviceObjectArchive.RenderPassMap =>
      directory_of DeviceObjectArchive.RenderPass rp_SharedSerializedMemory
        (fun _ _ => None) (m_RPMap w) D A dir
  | DeviceObjectArchive.GraphicsPSOMap =>
      directory_of DeviceObjectArchive.GraphicsPipelineStates SharedData PerDeviceData
        (m_GraphicsPSOMap w) D A dir
  | DeviceObjectArchive.ComputePSOMap =>
      directory_of DeviceObjectArchive.ComputePipelineStates SharedData PerDeviceData
        (m_ComputePSOMap w) D A dir
  | DeviceObjectArchive.TilePSOMap =>
      directory_of DeviceObjectArchive.TilePipelineStates SharedData PerDeviceData
        (m_TilePSOMap w) D A dir
  | DeviceObjectArchive.RayTracingPSOMap =>
      directory_of DeviceObjectArchive.RayTracingPipelineStates SharedData PerDeviceData
        (m_RayTracingPSOMap w) D A dir
  end.

(** The base offsets of the reader point to the device blocks of the
    writer in the archive. *)
Definition blocks_located (w : ArchiverImpl) (r : DeviceObjectArchive.DeviceObjectArchiveBase)
  : Prop :=
  forall d, IsEmpty (Pending_PerDeviceData (Pending (WriteAll w)) d) = false ->
    DeviceObjectArchive.bytes_at (Archive_bytes w) (DeviceObjectArchive.m_BaseOffsets r d)
      (GetCurrentSize (Pending_PerDeviceData (Pending (WriteAll w)) d))
    = Some (Data (Pending_PerDeviceData (Pending (WriteAll w)) d)).

(** The reader after the chunks [S] of the archive of [w] were read. *)
Definition read_so_far (w : ArchiverImpl) (S : list ChunkType)
  (r : DeviceObjectArchive.DeviceObjectArchiveBase) : Prop :=
  DeviceObjectArchive.m_pArchive r = Archive_bytes w
  /\ blocks_located w r
  /\ (forall k, (ChunkType_of k ∈ S -> writer_directory w k (DeviceObjectArchive.get_map k r))
                /\ (ChunkType_of k ∉ S -> DeviceObjectArchive.get_map k r = ∅))
  /\ (DeviceObjectArchive.ArchiveDebugInfo ∈ S ->
      DeviceObjectArchive.m_DebugInfo r
      = (DILIGENT_API_VERSION, default [] DILIGENT_CORE_COMMIT_HASH))
  /\ (DeviceObjectArchive.Shaders ∈ S -> reads_back_shaders w r)
  /\ (DeviceObjectArchive.Shaders ∉ S -> DeviceObjectArchive.m_Shaders r = []).

End Archive.

End RoundTrip.

(** ** Paths of the basic file system ([Platforms/Basic/src/BasicFileSystem.cpp]) *)

Module FileSystem.

(** [Char] is [char]; a [String] ([std::string]) is the list of its
    characters.  A [const Char*] argument is the list of the characters it
    points to; the code reads it up to the first zero character, and the
    end of the list stands for the terminator. *)
Definition Char : Type := Ascii.ascii.
Definition String : Type := list Char.

Definition NUL : Char := Ascii.ascii_of_nat 0.
Definition FwdSlash : Char := Ascii.ascii_of_nat 47.
Definition BackSlash : Char := Ascii.ascii_of_nat 92.
Definition Dot : String := [Ascii.ascii_of_nat 46].
Definition DotDot : String := [Ascii.ascii_of_nat 46; Ascii.ascii_of_nat 46].

(** [*c]. *)
Definition deref (c : list Char) : Char :=
  match c with
  | [] => NUL
  | x :: _ => x
  end.

(** [std::string{Path}] of a [const Char*]: the characters before the
    terminator. *)
Fixpoint c_str (c : list Char) : String :=
  match c with
  | [] => []
  | x :: c' => if bool_decide (x = NUL) then [] else x :: c_str c'
  end.

(** What the code takes from [BasicFileSystem.hpp] and the platform:
    [IsSlash] and [SlashSymbol]. *)
Class Platform := {
  IsSlash : Char -> bool;
  SlashSymbol : Char
}.

(** The platform of the tests: both slashes separate, the forward slash is
    the slash symbol. *)
Definition Platform_Linux : Platform :=
  {| IsSlash := fun c => bool_decide (c = FwdSlash) || bool_decide (c = BackSlash);
     SlashSymbol := FwdSlash |}.

Section Paths.
Context `{Plat : Platform}.

(** [if (Slash != 0) DEV_CHECK_ERR(IsSlash(Slash), ...); else Slash =
    SlashSymbol;] (the check is a debug assertion). *)
Definition SlashOrDefault (Slash : Char) : Char :=
  if bool_decide (Slash = NUL) then SlashSymbol else Slash.

(** [BasicFileSystem::CorrectSlashes]. *)
Definition CorrectSlashes (Path : String) (Slash : Char) : String :=
  let Slash := SlashOrDefault Slash in
  let RevSlashSym := if bool_decide (Slash = BackSlash) then FwdSlash else BackSlash in
  (fun x => if bool_decide (x = RevSlashSym) then Slash else x) <$> Path.

(** [Path.find_last_of(chars)]; [None] is [String::npos]. *)
Fixpoint find_last_of (Path : String) (chars : list Char) : option nat :=
  match Path with
  | [] => None
  | x :: rest =>
      match find_last_of rest chars with
      | Some pos => Some (S pos)
      | None => if bool_decide (x ∈ chars) then Some O else None
      end
  end.

(** [BasicFileSystem::GetPathComponents]: the directory and the file name
    (the source stores each through its pointer when the pointer is not
    null). *)
Definition GetPathComponents (Path : String) : String * String :=
  match find_last_of Path [FwdSlash; BackSlash] with
  | Some LastSlashPos => (take LastSlashPos Path, drop (S LastSlashPos) Path)
  | None => ([], Path)
  end.

(** [while ( *c != '\0' && IsSlash( *c)) ++c;] *)
Fixpoint skip_slashes (c : list Char) : list Char :=
  match c with
  | [] => []
  | x :: c' => if negb (bool_decide (x = NUL)) && IsSlash x then skip_slashes c' else c
  end.

(** [while ( *c != '\0' && !IsSlash( *c)) PathCmp.push_back( *(c++));] *)
Fixpoint read_component (c : list Char) (PathCmp : String) : String * list Char :=
  match c with
  | [] => (PathCmp, [])
  | x :: c' =>
      if negb (bool_decide (x = NUL)) && negb (IsSlash x)
      then read_component c' (PathCmp ++ [x])
      else (PathCmp, c)
  end.

(** The end of the body of the loop of [SplitPath]: the component is
    skipped, pops the last component, or is added. *)
Definition push_component (Simplify : bool) (Components : list String) (PathCmp : String)
  : list String :=
  if Simplify && bool_decide (PathCmp = Dot) then Components
  else if Simplify && bool_decide (PathCmp = DotDot)
          && negb (bool_decide (Components = []))
          && negb (bool_decide (last Components = Some DotDot))
       then removelast Components
       else Components ++ [PathCmp].

(** The loop of [SplitPath]; every round takes at least one character, so
    the length of the path is fuel enough. *)
Fixpoint SplitPath_loop (fuel : nat) (Simplify : bool) (c : list Char)
  (Components : list String) : list String :=
  match fuel with
  | O => Components
  | S fuel' =>
      if bool_decide (deref c = NUL) then Components
      else
        let c1 := skip_slashes c in
        if bool_decide (deref c1 = NUL) then Components
        else
          let '(PathCmp, c2) := read_component c1 [] in
          SplitPath_loop fuel' Simplify c2 (push_component Simplify Components PathCmp)
  end.

(** [BasicFileSystem::SplitPath]. *)
Definition SplitPath (Path : list Char) (Simplify : bool) : list String :=
  SplitPath_loop (length Path) Simplify Path [].

(** [if (!Path.empty()) Path.push_back(Slash); Path.append(Cmp);] *)
Definition append_component (Slash : Char) (Path : String) (Cmp : String) : String :=
  (if bool_decide (Path = []) then Path else Path ++ [Slash]) ++ Cmp.

(** [BasicFileSystem::SimplifyPath]; [None] is the null path. *)
Definition SimplifyPath (Path : option (list Char)) (Slash : Char) : String :=
  match Path with
  | None => []
  | Some Path =>
      let Slash := SlashOrDefault Slash in
      let PathComponents := SplitPath Path true in
      foldl (append_component Slash) [] PathComponents
  end.

(** The first loop of [GetRelativePath]: what is left of the two lists
    after their common prefix. *)
Fixpoint skip_common (from_it to_it : list String) : list String * list String :=
  match from_it, to_it with
  | f :: from', t :: to' =>
      if bool_decide (f = t) then skip_common from' to' else (from_it, to_it)
  | _, _ => (from_it, to_it)
  end.

(** The second loop of [GetRelativePath]: one [..] for every component
    left of the source path, the last one apart when the path is a file. *)
Fixpoint go_up (IsFromDirectory : bool) (from_it : list String) (RelPath : String) : String :=
  match from_it with
  | [] => RelPath
  | _ :: rest =>
      if negb IsFromDirectory && bool_decide (rest = []) then RelPath
      else go_up IsFromDirectory rest (append_component SlashSymbol RelPath DotDot)
  end.

(** [BasicFileSystem::GetRelativePath]. *)
Definition GetRelativePath (PathFrom : list Char) (IsFromDirectory : bool)
  (PathTo : list Char) (IsToDirectory : bool) : String :=
  let FromPathComps := SplitPath PathFrom true in
  let ToPathComps := SplitPath PathTo true in
  let '(from_it, to_it) := skip_common FromPathComps ToPathComps in
  if bool_decide (length from_it = length FromPathComps) then c_str PathFrom
  else
    let RelPath := go_up IsFromDirectory from_it [] in
    foldl (append_component SlashSymbol) RelPath to_it.

(** The components of a path read character by character, [cur] being the
    component under way: the loop of [SplitPath] without simplification,
    in the form the proofs use. *)
Definition finish (cur : String) : list String :=
  if bool_decide (cur = []) then [] else [cur].

Fixpoint split_chars (cur : String) (c : list Char) : list String :=
  match c with
  | [] => finish cur
  | x :: c' =>
      if bool_decide (x = NUL) then finish cur
      else if IsSlash x then finish cur ++ split_chars [] c'
           else split_chars (cur ++ [x]) c'
  end.

(** A component: not empty, without terminator and without slash. *)
Definition is_component (Cmp : String) : Prop :=
  Cmp <> [] /\ forall x, x ∈ Cmp -> x <> NUL /\ IsSlash x = false.

(** A simplified list of components: [..] components first, then
    components that are neither [.] nor [..]. *)
Definition simplified (Components : list String) : Prop :=
  exists (k : nat) (names : list String),
    Components = replicate k DotDot ++ names
    /\ forall n, n ∈ names -> n <> Dot /\ n <> DotDot.

End Paths.

(** Strings of the tests. *)
Definition str (s : string) : String := String.list_ascii_of_string s.

End FileSystem.

(** ** The OpenGL reader
    ([Graphics/GraphicsEngineOpenGL/src/DeviceObjectArchiveGLImpl.cpp]) *)

Module DeviceObjectArchiveGL.
Import Serializer.

(** The two fields that [SerializeShaderSource] writes after the prefix
    common to all shaders: [UseCombinedTextureSamplers] (a [bool], one
    byte) and [CombinedSamplerSuffix]. *)
Definition SourceFields_schema : schema := TPair (TUInt 1) TString.

(** The [ShaderCreateInfo] of [UnpackShader]: what its caller has set
    ([Given]: type, entry point, language, compiler and compile flags) and
    the fields it sets itself; [Source] holds the bytes from the pointer
    [ShaderCI.Source] on. *)
Record ShaderCreateInfo := MkShaderCI {
  Given : DeviceObjectArchive.ShaderCreateInfo;
  UseCombinedTextureSamplers : Z;
  CombinedSamplerSuffix : option (list Z);
  Source : list Z;
  SourceLength : Z
}.

(** [ShaderCI.CompileFlags &= ~SHADER_COMPILE_FLAG_SKIP_REFLECTION]. *)
Definition clear_SKIP_REFLECTION (CI : DeviceObjectArchive.ShaderCreateInfo)
  : DeviceObjectArchive.ShaderCreateInfo :=
  DeviceObjectArchive.MkShaderCI
    (DeviceObjectArchive.Shader_Type CI) (DeviceObjectArchive.Shader_EntryPoint CI)
    (DeviceObjectArchive.Shader_SourceLanguage CI) (DeviceObjectArchive.Shader_Compiler CI)
    (Z.land (DeviceObjectArchive.Shader_CompileFlags CI)
            (Z.lnot DeviceObjectArchive.SHADER_COMPILE_FLAG_SKIP_REFLECTION))
    (DeviceObjectArchive.Shader_ByteCode CI).

(** The OpenGL render device: [pDevice->CreateShader]. *)
Class RenderDeviceGL := {
  Device : Type;
  CreateShader : ShaderCreateInfo -> Device -> option Z * Device
}.

Section Unpack.
Context `{Dev : RenderDeviceGL}.

(** [DeviceObjectArchiveGLImpl::UnpackShader]; [None]: the bytes end
    before the two fields do.  [SourceLength] is a [size_t]. *)
Definition UnpackShader (Ser : Ser) (ShaderCI : ShaderCreateInfo) (pDevice : Device)
  : option (option Z * Device) :=
  match Serialize Read SourceFields_schema
          (UseCombinedTextureSamplers ShaderCI, CombinedSamplerSuffix ShaderCI) Ser with
  | None => None
  | Some ((UseCombinedTextureSamplers_, CombinedSamplerSuffix_), Ser') =>
      let ShaderCI' :=
        MkShaderCI (clear_SKIP_REFLECTION (Given ShaderCI))
          UseCombinedTextureSamplers_ CombinedSamplerSuffix_
          (GetCurrentPtr Ser')
          ((Z.of_nat (GetRemainSize Ser') - 1) mod 2 ^ 64) in
      Some (CreateShader ShaderCI' pDevice)
  end.

End Unpack.

(** A device that numbers its shaders, and a shader source of the writer. *)
Definition CountingDeviceGL : RenderDeviceGL :=
  {| Device := Z; CreateShader := fun _ dev => (Some dev, dev + 1) |}.

Definition SourceCI_example : Archiver.ShaderCreateInfo :=
  Archiver.MkShaderCI 1 (Some (bytes_of_string "main")) (bytes_of_string "void main(){}") 13
    None 0 0 1 (Some (bytes_of_string "_sampler")).

End DeviceObjectArchiveGL.

(** * Part II: properties of the embedding *)

(** ** Machine integers and byte strings *)

Lemma length_le_bytes w x : length (le_bytes w x) = w.
Proof. revert x. induction w as [|w IH]; intros x; simpl; [done|]. by rewrite IH. Qed.

Lemma le_value_le_bytes w x :
  0 <= x < 256 ^ Z.of_nat w -> le_value (le_bytes w x) = x.
Proof.
  revert x. induction w as [|w IH]; intros x Hx.
  - simpl in *. lia.
  - cbn [le_bytes le_value]. rewrite IH.
    + pose proof (Z.div_mod x 256). lia.
    + rewrite Nat2Z.inj_succ, Z.pow_succ_r in Hx by lia.
      split; [apply Z.div_pos; lia|].
      apply Z.div_lt_upper_bound; lia.
Qed.

Lemma wrap32_small x : 0 <= x < 2 ^ 32 -> wrap32 x = x.
Proof. intros. unfold wrap32. by apply Z.mod_small. Qed.

Lemma wrap32_range x : 0 <= wrap32 x < 256 ^ Z.of_nat 4.
Proof. unfold wrap32. change (256 ^ Z.of_nat 4) with (2 ^ 32). apply Z.mod_pos_bound. lia. Qed.

Lemma forallb_Forall_true {A} (f : A -> bool) l :
  forallb f l = true -> Forall (fun x => f x = true) l.
Proof.
  induction l as [|x l IH]; cbn; intros H; [constructor|].
  apply andb_prop in H as [Hx Hl]. constructor; auto.
Qed.

Lemma cstr_terminated bs post :
  nonzero_bytes bs = true -> cstr (bs ++ 0 :: post) = bs.
Proof.
  induction bs as [|b bs IH]; simpl; intros H.
  - done.
  - apply andb_prop in H as [Hb Hbs]. apply bool_decide_eq_true in Hb.
    destruct (decide (b = 0)); [lia|]. by rewrite IH.
Qed.

(** ** The tri-mode serializer *)

Module SerializerFacts.
Import Serializer.

#[local] Arguments le_bytes : simpl never.
#[local] Arguments wrap32 : simpl never.
#[local] Arguments SerializeInt : simpl never.
#[local] Arguments Copy : simpl never.

Lemma Copy_Write_at pre junk post src p :
  p = length pre -> length junk = length src ->
  Copy Write src (length src) (MkSer (pre ++ junk ++ post) p)
  = Some (src, MkSer (pre ++ src ++ post) (p + length src)).
Proof.
  intros -> Hjunk. unfold Copy. cbn [m_Buf m_Ptr].
  rewrite decide_True by (rewrite !length_app; lia).
  rewrite take_app_length, (take_ge src) by lia.
  rewrite <- Hjunk, (app_assoc pre junk post), <- length_app, drop_app_length.
  done.
Qed.

Lemma Copy_Read_at src pre bs post p n :
  p = length pre -> n = length bs ->
  Copy Read src n (MkSer (pre ++ bs ++ post) p)
  = Some (bs, MkSer (pre ++ bs ++ post) (p + n)).
Proof.
  intros -> ->. unfold Copy. cbn [m_Buf m_Ptr].
  rewrite decide_True by (rewrite !length_app; lia).
  by rewrite drop_app_length, take_app_length.
Qed.

Lemma Copy_Measure src n s :
  Copy Measure src n s = Some (src, MkSer (m_Buf s) (m_Ptr s + n)).
Proof. done. Qed.

Lemma SerializeInt_Measure w x s :
  SerializeInt Measure w x s = Some (x, MkSer (m_Buf s) (m_Ptr s + w)).
Proof. done. Qed.

Lemma SerializeInt_Write w x pre junk post p :
  p = length pre -> length junk = w ->
  SerializeInt Write w x (MkSer (pre ++ junk ++ post) p)
  = Some (x, MkSer (pre ++ le_bytes w x ++ post) (p + w)).
Proof.
  intros Hp Hj. unfold SerializeInt.
  pose proof (Copy_Write_at pre junk post (le_bytes w x) p Hp) as H.
  rewrite length_le_bytes in H. rewrite H by done. done.
Qed.

Lemma SerializeInt_Read w x x0 pre post p :
  p = length pre -> 0 <= x < 256 ^ Z.of_nat w ->
  SerializeInt Read w x0 (MkSer (pre ++ le_bytes w x ++ post) p)
  = Some (x, MkSer (pre ++ le_bytes w x ++ post) (p + w)).
Proof.
  intros Hp Hx. unfold SerializeInt.
  rewrite (Copy_Read_at _ pre (le_bytes w x) post p w Hp) by (by rewrite length_le_bytes).
  cbn. by rewrite le_value_le_bytes.
Qed.

(** The length of the string body that follows the 32-bit length. *)
Lemma length_str_body (str : list Z) :
  length (take (Z.to_nat (wrap32 (Z.of_nat (length str) + 1))) (str ++ [0]))
  = Z.to_nat (wrap32 (Z.of_nat (length str) + 1)).
Proof.
  apply length_take_le. rewrite length_app. cbn.
  assert (wrap32 (Z.of_nat (length str) + 1) <= Z.of_nat (length str) + 1).
  { unfold wrap32. apply Z.mod_le; lia. }
  lia.
Qed.

(** *** Measure mode counts the bytes of [encode] *)

Lemma SerializeElems_Measure {A} (f : A -> Ser -> option (A * Ser)) (enc : A -> list Z) l :
  (forall x s, f x s = Some (x, MkSer (m_Buf s) (m_Ptr s + length (enc x)))) ->
  forall s, SerializeElems f l s
            = Some (l, MkSer (m_Buf s) (m_Ptr s + length (concat (enc <$> l)))).
Proof.
  intros Hf. induction l as [|x l IH]; intros s; cbn.
  - by rewrite Nat.add_0_r; destruct s.
  - rewrite Hf. cbn. rewrite IH. cbn. rewrite length_app. do 3 f_equal. lia.
Qed.

Lemma Serialize_Measure t v s :
  Serialize Measure t v s = Some (v, MkSer (m_Buf s) (m_Ptr s + length (encode t v))).
Proof.
  revert v s. induction t as [w| |sentinel|n e IH|e IH| |a IHa b IHb]; intros v s;
    cbn [Serialize encode sem fst snd].
  - by rewrite SerializeInt_Measure, length_le_bytes.
  - unfold SerializeStr. rewrite SerializeInt_Measure. cbn. rewrite Copy_Measure. cbn.
    rewrite length_app, length_le_bytes, length_str_body. do 3 f_equal. lia.
  - unfold SerializePtrIndex. rewrite SerializeInt_Measure. cbn.
    by rewrite length_le_bytes.
  - by apply SerializeElems_Measure.
  - rewrite SerializeInt_Measure. cbn.
    rewrite (SerializeElems_Measure _ (encode e)) by done. cbn.
    rewrite length_app, length_le_bytes. do 3 f_equal. lia.
  - by rewrite Nat.add_0_r; destruct s.
  - destruct v as [x y]. rewrite IHa. cbn. rewrite IHb. cbn.
    rewrite length_app. do 3 f_equal. lia.
Qed.

Lemma MeasureSize_encode t v : MeasureSize t v = length (encode t v).
Proof. unfold MeasureSize. by rewrite Serialize_Measure. Qed.

(** *** Write mode leaves [encode] in the buffer *)

Lemma SerializeElems_Write {A} (f : A -> Ser -> option (A * Ser)) (enc : A -> list Z) :
  writes_encode f enc ->
  writes_encode (SerializeElems f) (fun l => concat (enc <$> l)).
Proof.
  intros Hf l. induction l as [|x l IH]; intros pre junk post p Hp Hj; cbn in *.
  - destruct junk; [|done]. by rewrite Nat.add_0_r.
  - rewrite length_app in Hj.
    rewrite <- (take_drop (length (enc x)) junk), <- (app_assoc _ _ post).
    rewrite (Hf x pre _ _ p Hp) by (rewrite length_take; lia). cbn.
    rewrite (app_assoc pre (enc x)).
    rewrite (IH (pre ++ enc x)); [|rewrite length_app; lia|rewrite length_drop; lia].
    cbn. rewrite <- !app_assoc, length_app. do 3 f_equal. lia.
Qed.

Lemma Serialize_Write t : writes_encode (Serialize Write t) (encode t).
Proof.
  induction t as [w| |sentinel|n e IH|e IH| |a IHa b IHb];
    intros v pre junk post p Hp Hj; cbn [Serialize encode sem fst snd] in *.
  - rewrite length_le_bytes in *. by apply SerializeInt_Write.
  - rewrite length_app, length_le_bytes, length_str_body in Hj.
    unfold SerializeStr.
    rewrite <- (take_drop 4 junk), <- (app_assoc _ _ post).
    rewrite (SerializeInt_Write _ _ pre _ _ p Hp) by (rewrite length_take; lia). cbn.
    rewrite (app_assoc pre (le_bytes 4 _)).
    pose proof (Copy_Write_at (pre ++ le_bytes 4 (wrap32 (Z.of_nat (length (default [] v)) + 1)))
                  (drop 4 junk) post
                  (take (Z.to_nat (wrap32 (Z.of_nat (length (default [] v)) + 1)))
                        (default [] v ++ [0])) (p + 4)) as H.
    rewrite length_str_body in H. rewrite H.
    + cbn. rewrite <- !app_assoc, length_app, length_le_bytes, length_str_body.
      do 3 f_equal. lia.
    + rewrite length_app, length_le_bytes. lia.
    + rewrite length_drop. lia.
  - rewrite length_le_bytes in *. unfold SerializePtrIndex.
    by rewrite (SerializeInt_Write _ _ pre junk post p Hp Hj).
  - by apply (SerializeElems_Write _ (encode e)).
  - rewrite length_app, length_le_bytes in Hj.
    rewrite <- (take_drop 4 junk), <- (app_assoc _ _ post).
    rewrite (SerializeInt_Write _ _ pre _ _ p Hp) by (rewrite length_take; lia). cbn.
    rewrite (app_assoc pre (le_bytes 4 _)).
    rewrite (SerializeElems_Write _ (encode e) IH v (pre ++ le_bytes 4 _));
      [|rewrite length_app, length_le_bytes; lia|rewrite length_drop; lia].
    cbn. rewrite <- !app_assoc, length_app, length_le_bytes. do 3 f_equal. lia.
  - destruct junk; [|done]. by rewrite Nat.add_0_r.
  - destruct v as [x y]. cbn in *. rewrite length_app in Hj.
    rewrite <- (take_drop (length (encode a x)) junk), <- (app_assoc _ _ post).
    rewrite (IHa x pre _ _ p Hp) by (rewrite length_take; lia). cbn.
    rewrite (app_assoc pre (encode a x)).
    rewrite (IHb y (pre ++ encode a x));
      [|rewrite length_app; lia|rewrite length_drop; lia].
    cbn. rewrite <- !app_assoc, length_app. do 3 f_equal. lia.
Qed.

(** Whatever the buffer, a Write that returns has advanced the cursor by the
    bytes of [encode]. *)
Lemma Copy_Write_ptr src n s r s' :
  Copy Write src n s = Some (r, s') -> m_Ptr s' = (m_Ptr s + n)%nat.
Proof.
  unfold Copy. destruct (decide _); [|done]. by intros [= _ <-].
Qed.

Lemma SerializeInt_Write_ptr w x s r s' :
  SerializeInt Write w x s = Some (r, s') -> m_Ptr s' = (m_Ptr s + w)%nat.
Proof.
  unfold SerializeInt. destruct (Copy Write _ _ _) as [[bs s1]|] eqn:E; [|done].
  cbn. intros [= _ <-]. by apply Copy_Write_ptr in E.
Qed.

Lemma SerializeElems_Write_ptr {A} (f : A -> Ser -> option (A * Ser)) (enc : A -> list Z) l :
  (forall x s r s', f x s = Some (r, s') -> m_Ptr s' = (m_Ptr s + length (enc x))%nat) ->
  forall s r s', SerializeElems f l s = Some (r, s') ->
                 m_Ptr s' = (m_Ptr s + length (concat (enc <$> l)))%nat.
Proof.
  intros Hf. induction l as [|x l IH]; intros s r s'; cbn.
  - intros [= _ <-]. lia.
  - destruct (f x s) as [[x' s1]|] eqn:E1; [|done]. cbn.
    destruct (SerializeElems f l s1) as [[l' s2]|] eqn:E2; [|done]. cbn.
    intros [= _ <-]. apply Hf in E1. apply IH in E2. rewrite length_app. lia.
Qed.

Lemma Serialize_Write_ptr t v s r s' :
  Serialize Write t v s = Some (r, s') -> m_Ptr s' = (m_Ptr s + length (encode t v))%nat.
Proof.
  revert v s r s'. induction t as [w| |sentinel|n e IH|e IH| |a IHa b IHb];
    intros v s r s'; cbn [Serialize encode sem fst snd].
  - rewrite length_le_bytes. apply SerializeInt_Write_ptr.
  - unfold SerializeStr.
    destruct (SerializeInt Write _ _ _) as [[len s1]|] eqn:E1; [|done]. cbn.
    destruct (Copy Write _ _ _) as [[bs s2]|] eqn:E2; [|done]. cbn.
    intros [= _ <-]. apply Copy_Write_ptr in E2.
    assert (len = wrap32 (Z.of_nat (length (default [] v)) + 1)) as ->.
    { unfold SerializeInt in E1. destruct (Copy Write _ _ s) as [[? ?]|]; [|done].
      cbn in E1. congruence. }
    apply SerializeInt_Write_ptr in E1.
    rewrite length_app, length_le_bytes, length_str_body. lia.
  - unfold SerializePtrIndex.
    destruct (SerializeInt Write _ _ _) as [[i s1]|] eqn:E1; [|done]. cbn.
    intros [= _ <-]. rewrite length_le_bytes. by apply SerializeInt_Write_ptr in E1.
  - by apply SerializeElems_Write_ptr.
  - destruct (SerializeInt Write _ _ _) as [[i s1]|] eqn:E1; [|done]. cbn.
    intros E2. apply SerializeInt_Write_ptr in E1.
    apply (SerializeElems_Write_ptr _ (encode e)) in E2; [|done].
    rewrite length_app, length_le_bytes. lia.
  - intros [= _ <-]. cbn. lia.
  - destruct v as [x y]. cbn.
    destruct (Serialize Write a x s) as [[x' s1]|] eqn:E1; [|done]. cbn.
    destruct (Serialize Write b y s1) as [[y' s2]|] eqn:E2; [|done]. cbn.
    intros [= _ <-]. apply IHa in E1. apply IHb in E2. rewrite length_app. lia.
Qed.

(** *** Read mode recovers what Write left *)

Lemma ReadElems_encode {A} (g : Ser -> option (A * Ser)) (enc : A -> list Z) (norm : A -> A) l :
  Forall (fun x => reads_encode g (enc x) (norm x)) l ->
  reads_encode (ReadElems g (length l)) (concat (enc <$> l)) (norm <$> l).
Proof.
  induction 1 as [|x l Hx _ IH]; intros pre post p Hp; cbn.
  - by rewrite Nat.add_0_r.
  - rewrite <- (app_assoc (enc x)).
    rewrite (Hx pre _ p Hp). cbn.
    rewrite (app_assoc pre (enc x)).
    rewrite (IH (pre ++ enc x) post) by (rewrite length_app; lia). cbn.
    rewrite length_app. do 3 f_equal. lia.
Qed.

Lemma Serialize_Read t v v0 :
  wfb t v = true -> reads_encode (Serialize Read t v0) (encode t v) (preserved t v).
Proof.
  revert v v0. induction t as [w| |sentinel|n e IH|e IH| |a IHa b IHb];
    intros v v0 Hwf pre post p Hp; cbn [Serialize encode preserved wfb fst snd] in *.
  - apply bool_decide_eq_true in Hwf.
    rewrite length_le_bytes. by apply SerializeInt_Read.
  - apply andb_prop in Hwf as [Hnz Hlen]. apply bool_decide_eq_true in Hlen.
    unfold SerializeStr.
    set (str := default [] v) in *.
    assert (HL : wrap32 (Z.of_nat (length str) + 1) = Z.of_nat (length str) + 1)
      by (apply wrap32_small; lia).
    rewrite HL.
    assert (Hbody : take (Z.to_nat (Z.of_nat (length str) + 1)) (str ++ [0]) = str ++ [0]).
    { apply take_ge. rewrite length_app. cbn. lia. }
    rewrite Hbody, <- (app_assoc (le_bytes 4 _)).
    rewrite (SerializeInt_Read 4 _ _ pre _ p Hp) by (rewrite <- HL; apply wrap32_range).
    cbn. rewrite (app_assoc pre (le_bytes 4 _)).
    rewrite (Copy_Read_at _ (pre ++ le_bytes 4 (Z.of_nat (length str) + 1)) (str ++ [0]) post);
      [|rewrite length_app, length_le_bytes; lia|rewrite length_app; cbn; lia].
    cbn. rewrite (cstr_terminated str []) by done.
    rewrite <- !app_assoc, !length_app, length_le_bytes. cbn. do 3 f_equal. lia.
  - unfold SerializePtrIndex. rewrite length_le_bytes.
    destruct v as [i|]; cbn in *; apply bool_decide_eq_true in Hwf.
    + rewrite (SerializeInt_Read 4 i _ pre post p Hp) by (change (256 ^ Z.of_nat 4) with (2 ^ 32); lia).
      cbn. by rewrite decide_False by lia.
    + rewrite (SerializeInt_Read 4 sentinel _ pre post p Hp) by (change (256 ^ Z.of_nat 4) with (2 ^ 32); lia).
      cbn. by rewrite decide_True.
  - apply andb_prop in Hwf as [Hn Hall]. apply bool_decide_eq_true in Hn. rewrite <- Hn.
    apply (ReadElems_encode _ (encode e) (preserved e)); [|done].
    apply forallb_Forall_true in Hall. eapply Forall_impl; [exact Hall|].
    intros x Hx. by apply IH.
  - apply andb_prop in Hwf as [Hn Hall]. apply bool_decide_eq_true in Hn.
    rewrite (wrap32_small (Z.of_nat (length v))) by lia.
    rewrite <- (app_assoc (le_bytes 4 _)).
    rewrite (SerializeInt_Read 4 _ _ pre _ p Hp) by (change (256 ^ Z.of_nat 4) with (2 ^ 32); lia).
    cbn. rewrite Nat2Z.id, (app_assoc pre (le_bytes 4 _)).
    rewrite (ReadElems_encode _ (encode e) (preserved e) v) with (pre := pre ++ le_bytes 4 (Z.of_nat (length v)));
      [| |rewrite length_app, length_le_bytes; lia].
    + rewrite <- !app_assoc, !length_app, length_le_bytes. do 3 f_equal. lia.
    + apply forallb_Forall_true in Hall. eapply Forall_impl; [exact Hall|].
      intros x Hx. by apply IH.
  - destruct v, v0. cbn. by rewrite Nat.add_0_r.
  - destruct v as [x y]. cbn in *. apply andb_prop in Hwf as [Hx Hy].
    rewrite <- (app_assoc (encode a x)).
    rewrite (IHa x _ Hx pre _ p Hp). cbn.
    rewrite (app_assoc pre (encode a x)).
    rewrite (IHb y _ Hy (pre ++ encode a x) post) by (rewrite length_app; lia). cbn.
    rewrite length_app. do 3 f_equal. lia.
Qed.

(** Writing into a fresh buffer of the measured size fills it with
    [encode]. *)
Lemma Serialize_Write_Allocate t v :
  Serialize Write t v (MkSer (Allocate (MeasureSize t v)) 0)
  = Some (v, MkSer (encode t v) (MeasureSize t v)).
Proof.
  rewrite MeasureSize_encode.
  pose proof (Serialize_Write t v [] (Allocate (length (encode t v))) [] 0%nat eq_refl) as H.
  rewrite !app_nil_r in H. cbn in H. apply H.
  unfold Allocate. by rewrite length_replicate.
Qed.

(** C4. For every schema and every value, the byte count of Measure mode is
    the number of bytes Write mode emits for the same schema and value:
    writing into a buffer of the measured size succeeds and ends with
    [GetSize] equal to the measured size, and a Write into any buffer, when it
    returns, has advanced the cursor by exactly the measured size. *)
Theorem measure_eq_write_size (t : schema) (v : sem t) :
  (exists sW, Serialize Write t v (MkSer (Allocate (MeasureSize t v)) 0) = Some (v, sW)
              /\ GetSize sW = MeasureSize t v)
  /\ (forall s r sW, Serialize Write t v s = Some (r, sW) ->
                     GetSize sW = (GetSize s + MeasureSize t v)%nat).
Proof.
  split.
  - eexists. split; [apply Serialize_Write_Allocate|done].
  - intros s r sW H. rewrite MeasureSize_encode. by apply Serialize_Write_ptr in H.
Qed.

Lemma measure_eq_write_size_witness :
  GetSize (MkSer ([0; 0] ++ encode PRSDesc_schema S1_PRSDesc) 54)
  = (GetSize (MkSer (Allocate 54) 2) + MeasureSize PRSDesc_schema S1_PRSDesc)%nat.
Proof.
  apply (proj2 (measure_eq_write_size PRSDesc_schema S1_PRSDesc)
           (MkSer (Allocate 54) 2) S1_PRSDesc).
  vm_compute. reflexivity.
Defined.

(** C5. For every description schema and every value of it, writing the
    value into a buffer of the measured size and then reading that buffer
    yields the original value in everything the format preserves (a null
    string comes back as the empty string), and the read cursor ends exactly
    at the buffer end. *)
Theorem write_read_roundtrip (t : schema) (v : sem t) :
  wfb t v = true ->
  exists sW sR,
    Serialize Write t v (MkSer (Allocate (MeasureSize t v)) 0) = Some (v, sW)
    /\ GetSize sW = MeasureSize t v
    /\ Serialize Read t (dflt t) (MkSer (m_Buf sW) 0) = Some (preserved t v, sR)
    /\ IsEnd sR.
Proof.
  intros Hwf. do 2 eexists. split; [apply Serialize_Write_Allocate|].
  split; [done|]. cbn [m_Buf].
  pose proof (Serialize_Read t v (dflt t) Hwf [] [] 0%nat eq_refl) as H.
  rewrite !app_nil_r in H. cbn [app] in H. split; [exact H|].
  unfold IsEnd. cbn. done.
Qed.

Lemma write_read_roundtrip_witness :
  exists sW sR,
    Serialize Write PRSDesc_schema S1_PRSDesc
      (MkSer (Allocate (MeasureSize PRSDesc_schema S1_PRSDesc)) 0) = Some (S1_PRSDesc, sW)
    /\ GetSize sW = MeasureSize PRSDesc_schema S1_PRSDesc
    /\ Serialize Read PRSDesc_schema (dflt PRSDesc_schema) (MkSer (m_Buf sW) 0)
       = Some (preserved PRSDesc_schema S1_PRSDesc, sR)
    /\ IsEnd sR.
Proof. apply (write_read_roundtrip PRSDesc_schema S1_PRSDesc). vm_compute. reflexivity. Defined.

End SerializerFacts.

(** ** The writer registry *)

Module ArchiverFacts.
Import Serializer Archiver.

Section Registry.
Context `{Ext : Externals}.

Lemma PSOMap_set_PSOMap kind m w : PSOMap kind (set_PSOMap kind m w) = m.
Proof. by destruct kind. Qed.

Lemma PSOMap_set_PSOMap_ne kind kind' m w :
  kind <> kind' -> PSOMap kind' (set_PSOMap kind m w) = PSOMap kind' w.
Proof. by destruct kind, kind'. Qed.

Lemma m_PRSMap_set_PSOMap kind m w : m_PRSMap (set_PSOMap kind m w) = m_PRSMap w.
Proof. by destruct kind. Qed.

Lemma emplace_lookup {K V} `{Countable K} (k : K) (v : V) (m : gmap K V) :
  (emplace k v m).2 !! k = Some (emplace k v m).1.1.
Proof.
  unfold emplace. destruct (m !! k) eqn:E; cbn; [done|]. by rewrite lookup_insert_eq.
Qed.

(** C2. For every writer state and every non-null signature:
    [AddPipelineResourceSignature] returns [true] and leaves the writer as it
    is when the registry holds, under the signature's name, the very object
    that is added; it returns [false] and leaves the writer as it is when the
    registry holds another object under that name; otherwise it inserts the
    signature under its name (every other entry is kept) and returns
    [true]. *)
Theorem AddPipelineResourceSignature_spec (w : ArchiverImpl)
  (pPRS : SerializableResourceSignatureImpl) :
  (forall found, m_PRSMap w !! prs_Name pPRS = Some found ->
     prs_this found = prs_this pPRS ->
     AddPipelineResourceSignature (Some pPRS) w = (true, w))
  /\ (forall found, m_PRSMap w !! prs_Name pPRS = Some found ->
        prs_this found <> prs_this pPRS ->
        AddPipelineResourceSignature (Some pPRS) w = (false, w))
  /\ (m_PRSMap w !! prs_Name pPRS = None ->
      exists w', AddPipelineResourceSignature (Some pPRS) w = (true, w')
                 /\ m_PRSMap w' = <[prs_Name pPRS := pPRS]> (m_PRSMap w)
                 /\ m_RPMap w' = m_RPMap w
                 /\ (forall kind, PSOMap kind w' = PSOMap kind w)
                 /\ m_Shaders w' = m_Shaders w).
Proof.
  unfold AddPipelineResourceSignature, emplace. repeat split.
  - intros found -> Heq. cbn. by case_bool_decide.
  - intros found -> Hne. cbn. by case_bool_decide.
  - intros ->. cbn. eexists. split; [reflexivity|]. repeat split.
Qed.

(** *** The default signature name *)

Lemma string_app_nil_r (s : string) : s +:+ "" = s.
Proof.
  induction s as [|a s IH]; [done|].
  change (String a (s +:+ "") = String a s). by rewrite IH.
Qed.

Lemma pretty_N_go_nonempty (x : N) : forall s, s <> "" -> pretty_N_go x s <> "".
Proof.
  induction (N.lt_wf_0 x) as [x _ IH]. intros s Hs.
  destruct (decide (x = 0%N)) as [->|Hx]; [by rewrite pretty_N_go_0|].
  rewrite pretty_N_go_step by lia. apply IH; [|done]. apply N.div_lt; lia.
Qed.

Lemma pretty_N_nonempty (x : N) : pretty x <> "".
Proof.
  unfold pretty, pretty_N. case_decide; [done|].
  rewrite pretty_N_go_step by lia. by apply pretty_N_go_nonempty.
Qed.

(** The candidate names differ from one another. *)
Lemma DefaultPRSName_inj (PSOName : string) : Inj (=) (=) (DefaultPRSName PSOName).
Proof.
  intros i j. unfold DefaultPRSName.
  set (PRSName0 := "Default Signature of PSO '" +:+ PSOName +:+ "'").
  destruct (decide (i = 0%N)) as [->|Hi], (decide (j = 0%N)) as [->|Hj]; [done|..].
  - intros H. rewrite <- (string_app_nil_r PRSName0) in H at 1.
    apply (inj _) in H. by destruct (pretty_N_nonempty j).
  - intros H. rewrite <- (string_app_nil_r PRSName0) in H at 2.
    apply (inj _) in H. by destruct (pretty_N_nonempty i).
  - intros H. apply (inj _) in H. by apply (inj pretty).
Qed.

(** A map of [n] entries leaves one of the first [n + 1] candidates free. *)
Lemma DefaultPRSName_free (PSOName : string)
  (Map : gmap string SerializableResourceSignatureImpl) :
  exists i, (i <= N.of_nat (size Map))%N /\ Map !! DefaultPRSName PSOName i = None.
Proof.
  set (names := (fun i => DefaultPRSName PSOName (N.of_nat i)) <$> seq 0 (S (size Map))).
  destruct (Forall_Exists_dec (fun n => n ∈ dom Map) (fun n => n ∉ dom Map)
              (fun n => decide (n ∈ dom Map)) names) as [Hall|Hex].
  - assert (Hsub : list_to_set (C := gset string) names ⊆ dom Map).
    { intros n Hn%elem_of_list_to_set. by eapply Forall_forall in Hall. }
    apply subseteq_size in Hsub. rewrite size_dom, size_list_to_set in Hsub.
    + unfold names in Hsub. rewrite length_fmap, length_seq in Hsub. lia.
    + apply NoDup_fmap_2; [|apply NoDup_seq].
      intros a b H%DefaultPRSName_inj. lia.
  - apply Exists_exists in Hex as (n & Hn & Hfree).
    apply list_elem_of_fmap in Hn as (i & -> & Hi). apply elem_of_seq in Hi.
    exists (N.of_nat i). split; [lia|]. by apply not_elem_of_dom.
Qed.

(** The search from [Index] ends at the first free candidate, if one lies
    within the fuel. *)
Lemma GetDefaultPRSName_from_spec (PSOName : string)
  (Map : gmap string SerializableResourceSignatureImpl) : forall fuel Index,
  (exists i, (Index <= i <= Index + N.of_nat fuel)%N
             /\ Map !! DefaultPRSName PSOName i = None) ->
  exists i, GetDefaultPRSName_from fuel Index Map PSOName = DefaultPRSName PSOName i
            /\ (Index <= i)%N
            /\ Map !! DefaultPRSName PSOName i = None
            /\ forall j, (Index <= j < i)%N -> is_Some (Map !! DefaultPRSName PSOName j).
Proof.
  induction fuel as [|fuel IH]; intros Index (i & Hi & Hfree); cbn [GetDefaultPRSName_from].
  - assert (i = Index) as -> by lia. rewrite Hfree.
    exists Index. split; [done|]. split; [lia|]. split; [done|]. intros j ?. lia.
  - destruct (Map !! DefaultPRSName PSOName Index) as [found|] eqn:E.
    + destruct (IH (N.succ Index)) as (i' & E' & Hle & Hfree' & Hbefore).
      { exists i. split; [|done]. assert (i <> Index) by congruence. lia. }
      exists i'. split; [done|]. split; [lia|]. split; [done|].
      intros j Hj. destruct (decide (j = Index)) as [->|?]; [by rewrite E|].
      apply Hbefore. lia.
    + exists Index. split; [done|]. split; [lia|]. split; [done|]. intros j ?. lia.
Qed.

(** X6. [GetDefaultPRSName] returns the first candidate name that is not a
    key of the signature map ([Default Signature of PSO 'name'], then the
    same with 1, 2, ... appended): the search of the source ends, and the
    fuel of the model is enough for it. *)
Lemma GetDefaultPRSName_first_free (w : ArchiverImpl) (PSOName : string) :
  exists i, GetDefaultPRSName w PSOName = DefaultPRSName PSOName i
            /\ m_PRSMap w !! GetDefaultPRSName w PSOName = None
            /\ forall j, (j < i)%N -> is_Some (m_PRSMap w !! DefaultPRSName PSOName j).
Proof.
  unfold GetDefaultPRSName.
  destruct (DefaultPRSName_free PSOName (m_PRSMap w)) as (i0 & Hle & Hfree).
  destruct (GetDefaultPRSName_from_spec PSOName (m_PRSMap w) (size (m_PRSMap w)) 0)
    as (i & E & _ & Hfree' & Hbefore).
  { exists i0. split; [lia|done]. }
  exists i. rewrite E. split; [done|]. split; [done|]. intros j Hj. apply Hbefore. lia.
Qed.

(** *** Shader deduplication *)

(** The key of a shader is the image of its prefix followed by the payload
    bytes: the buffer has the measured size, so no write falls outside it. *)
Lemma WriteShaderKey_encode (t : schema) (prefix : sem t) (pBytes : list Z) :
  WriteShaderKey t prefix pBytes = encode t prefix ++ concat (le_bytes 1 <$> pBytes).
Proof.
  unfold WriteShaderKey, Allocate.
  rewrite SerializerFacts.MeasureSize_encode, replicate_add.
  pose proof (SerializerFacts.Serialize_Write t prefix [] (replicate (length (encode t prefix)) 0)
                (replicate (length pBytes) 0) 0%nat eq_refl) as H1.
  cbn [app] in H1. rewrite H1 by apply length_replicate. clear H1.
  assert (H2 : writes_encode (SerializeElems (SerializeInt Write 1))
                 (fun l => concat (le_bytes 1 <$> l))).
  { apply SerializerFacts.SerializeElems_Write. intros x pre junk post p Hp Hj.
    by rewrite SerializerFacts.SerializeInt_Write. }
  rewrite <- (app_nil_r (replicate (length pBytes) 0)).
  rewrite (H2 pBytes (encode t prefix) (replicate (length pBytes) 0) []).
  - cbn. by rewrite app_nil_r.
  - lia.
  - rewrite length_replicate. induction pBytes as [|b l IH]; [done|]. cbn [fmap list_fmap concat length]. by rewrite length_app, <- IH.
Qed.

(** The per-device blob of a pipeline is the image of its index array. *)
Lemma SerializeShadersForPSO_encode (ShaderIndices : list Z) :
  SerializeShadersForPSO ShaderIndices = Some (encode ShaderIndexArray_schema ShaderIndices).
Proof.
  unfold SerializeShadersForPSO. by rewrite SerializerFacts.Serialize_Write_Allocate.
Qed.

Lemma shaders_wf_new : shaders_wf (MkShaders [] ∅).
Proof. intros k i. cbn. by rewrite lookup_empty, lookup_nil. Qed.

Lemma shaders_wf_unique sh k i j :
  shaders_wf sh -> Shaders_List sh !! i = Some k -> Shaders_List sh !! j = Some k -> i = j.
Proof. intros Hwf Hi Hj. apply Hwf in Hi, Hj. congruence. Qed.

Lemma shaders_wf_NoDup sh : shaders_wf sh -> NoDup (Shaders_List sh).
Proof. intros Hwf. apply NoDup_alt. intros i j k. apply shaders_wf_unique, Hwf. Qed.

Lemma EmplaceShader_spec Key sh :
  shaders_wf sh ->
  shaders_wf (EmplaceShader Key sh).2
  /\ Shaders_List (EmplaceShader Key sh).2 !! (EmplaceShader Key sh).1 = Some Key
  /\ (Shaders_List (EmplaceShader Key sh).2 = Shaders_List sh
      \/ ((Key ∉ Shaders_List sh)
          /\ Shaders_List (EmplaceShader Key sh).2 = Shaders_List sh ++ [Key])).
Proof.
  intros Hwf. unfold EmplaceShader, emplace.
  destruct (Shaders_Map sh !! Key) as [i|] eqn:E; cbn.
  - split; [done|]. split; [by apply Hwf|by left].
  - assert (Hfresh : Key ∉ Shaders_List sh).
    { intros [j Hj]%list_elem_of_lookup. apply Hwf in Hj. congruence. }
    split; [|split].
    + intros k j. cbn. destruct (decide (k = Key)) as [->|Hk].
      * rewrite lookup_insert_eq. split.
        -- intros [= <-]. by rewrite lookup_app_r, Nat.sub_diag.
        -- intros Hj. f_equal. destruct (decide (j < length (Shaders_List sh))%nat).
           ++ rewrite lookup_app_l in Hj by done. apply Hwf in Hj. congruence.
           ++ apply lookup_lt_Some in Hj. rewrite length_app in Hj. cbn in Hj. lia.
      * rewrite lookup_insert_ne by done. rewrite (Hwf k j). split.
        -- intros Hj. rewrite lookup_app_l; [done|]. by eapply lookup_lt_Some.
        -- intros Hj. destruct (decide (j < length (Shaders_List sh))%nat).
           ++ by rewrite lookup_app_l in Hj.
           ++ rewrite lookup_app_r in Hj by lia.
              destruct (j - length (Shaders_List sh))%nat; cbn in Hj; [congruence|done].
    + by rewrite lookup_app_r, Nat.sub_diag.
    + right. done.
Qed.

Lemma serialize_shader_key idx dev c w :
  serialize_shader idx dev c w = SerializeShaderKey idx dev (ShaderCall_Key c) w.
Proof. by destruct c. Qed.

(** What one call does: it appends the position of the key's entry to
    [ShaderIndices] and at most appends the key to the list of its device. *)
Lemma serialize_shader_spec idx dev c w :
  shaders_wf (m_Shaders w dev) ->
  Z.of_nat (length (Shaders_List (m_Shaders w dev))) < 2 ^ 32 ->
  exists i w',
    serialize_shader idx dev c w = (idx ++ [Z.of_nat i], w')
    /\ shaders_wf (m_Shaders w' dev)
    /\ Shaders_List (m_Shaders w' dev) !! i = Some (ShaderCall_Key c)
    /\ (Shaders_List (m_Shaders w' dev) = Shaders_List (m_Shaders w dev)
        \/ ((ShaderCall_Key c ∉ Shaders_List (m_Shaders w dev))
            /\ Shaders_List (m_Shaders w' dev)
               = Shaders_List (m_Shaders w dev) ++ [ShaderCall_Key c]))
    /\ (forall d, d <> dev -> m_Shaders w' d = m_Shaders w d)
    /\ (forall kind, PSOMap kind w' = PSOMap kind w)
    /\ m_PRSMap w' = m_PRSMap w.
Proof.
  intros Hwf Hlen. rewrite serialize_shader_key. unfold SerializeShaderKey.
  destruct (EmplaceShader_spec (ShaderCall_Key c) _ Hwf) as (Hwf' & Hi & Hl).
  destruct (EmplaceShader (ShaderCall_Key c) (m_Shaders w dev)) as [i sh'] eqn:E.
  cbn [fst snd] in *. exists i, (set_Shaders (<[dev:=sh']> (m_Shaders w)) w).
  split.
  - do 2 f_equal. unfold StaticCast_Uint32. rewrite wrap32_small; [done|].
    apply lookup_lt_Some in Hi.
    destruct Hl as [Hl|[_ Hl]]; rewrite Hl in Hi; [lia|].
    rewrite length_app in Hi. cbn in Hi. lia.
  - cbn. rewrite fn_lookup_insert.
    split; [exact Hwf'|]. split; [exact Hi|]. split; [exact Hl|].
    split; [|split; [by intros []|done]].
    intros d Hd. by rewrite fn_lookup_insert_ne.
Qed.

Lemma serialize_shaders_spec dev calls : forall idx0 w,
  shaders_wf (m_Shaders w dev) ->
  Z.of_nat (length (Shaders_List (m_Shaders w dev)) + length calls) <= 2 ^ 32 ->
  exists res w',
    serialize_shaders idx0 dev calls w = (idx0 ++ res, w')
    /\ shaders_wf (m_Shaders w' dev)
    /\ length res = length calls
    /\ (exists new,
          Shaders_List (m_Shaders w' dev) = Shaders_List (m_Shaders w dev) ++ new
          /\ forall k, k ∈ new ->
               k ∈ (ShaderCall_Key <$> calls) /\ (k ∉ Shaders_List (m_Shaders w dev)))
    /\ (forall j c, calls !! j = Some c ->
          exists i, res !! j = Some (Z.of_nat i)
                    /\ Shaders_List (m_Shaders w' dev) !! i = Some (ShaderCall_Key c))
    /\ (forall d, d <> dev -> m_Shaders w' d = m_Shaders w d)
    /\ (forall kind, PSOMap kind w' = PSOMap kind w)
    /\ m_PRSMap w' = m_PRSMap w.
Proof.
  induction calls as [|c rest IH]; intros idx0 w Hwf Hlen.
  - exists [], w. cbn. rewrite !app_nil_r.
    split; [done|]. split; [done|]. split; [done|]. split; [|done].
    exists []. rewrite app_nil_r. split; [done|]. by intros k ?%elem_of_nil.
  - cbn [length] in Hlen.
    destruct (serialize_shader_spec idx0 dev c w Hwf) as (i & w1 & E1 & Hwf1 & Hi & Hl & Hd1 & Hk1 & Hp1);
      [lia|].
    assert (Hlen1 : (length (Shaders_List (m_Shaders w1 dev))
                     <= length (Shaders_List (m_Shaders w dev)) + 1)%nat).
    { destruct Hl as [->|[_ ->]]; [lia|]. rewrite length_app. cbn. lia. }
    destruct (IH (idx0 ++ [Z.of_nat i]) w1 Hwf1) as
      (res & w' & E & Hwf' & Hres & (new & Hnew & Hin) & Hidx & Hd & Hk & Hp); [lia|].
    exists (Z.of_nat i :: res), w'. cbn [serialize_shaders]. rewrite E1, E.
    split; [by rewrite <- app_assoc|]. split; [done|]. split; [cbn; lia|].
    split; [|split; [|split; [|split]]].
    + destruct Hl as [Hl|[Hfresh Hl]]; rewrite Hl in Hnew.
      * exists new. split; [done|]. intros k Hk'. destruct (Hin k Hk') as [Hk1' Hk2].
        rewrite Hl in Hk2. split; [|done]. rewrite fmap_cons. by apply elem_of_cons; right.
      * exists (ShaderCall_Key c :: new). split; [by rewrite Hnew, <- app_assoc|].
        intros k [->|Hk']%elem_of_cons.
        -- split; [|done]. rewrite fmap_cons. by apply elem_of_cons; left.
        -- destruct (Hin k Hk') as [Hk1' Hk2]. rewrite Hl in Hk2. split.
           ++ rewrite fmap_cons. by apply elem_of_cons; right.
           ++ intros ?. apply Hk2, elem_of_app. by left.
    + intros [|j] c' Hc'; cbn in Hc'.
      * injection Hc' as <-. exists i. split; [done|].
        rewrite Hnew. by apply lookup_app_l_Some.
      * by apply Hidx.
    + intros d Hne. by rewrite Hd, Hd1.
    + intros kind. by rewrite Hk, Hk1.
    + by rewrite Hp, Hp1.
Qed.

(** C3. For every backend: after any run of [serialize_shader] calls (by
    bytecode or by source) the shader list of the backend holds exactly one
    entry for each content key, the index a call yields is the position of
    the entry of its key, and two calls whose keys are byte-identical yield
    the same index; the list has gained exactly one entry for each key
    that it did not hold before.  Indices are 32-bit, so the list is taken to
    stay within 2^32 entries. *)
Theorem serialize_shader_dedup (DevType : DeviceType) (calls : list ShaderCall)
  (w : ArchiverImpl) :
  shaders_wf (m_Shaders w DevType) ->
  Z.of_nat (length (Shaders_List (m_Shaders w DevType)) + length calls) <= 2 ^ 32 ->
  exists ShaderIndices w',
    serialize_shaders [] DevType calls w = (ShaderIndices, w')
    /\ shaders_wf (m_Shaders w' DevType)
    /\ length ShaderIndices = length calls
    /\ (forall j c, calls !! j = Some c ->
          exists i, ShaderIndices !! j = Some (Z.of_nat i)
                    /\ Shaders_List (m_Shaders w' DevType) !! i = Some (ShaderCall_Key c)
                    /\ forall i', Shaders_List (m_Shaders w' DevType) !! i'
                                  = Some (ShaderCall_Key c) -> i' = i)
    /\ (forall j1 j2 c1 c2, calls !! j1 = Some c1 -> calls !! j2 = Some c2 ->
          ShaderCall_Key c1 = ShaderCall_Key c2 ->
          ShaderIndices !! j1 = ShaderIndices !! j2)
    /\ (exists new,
          Shaders_List (m_Shaders w' DevType) = Shaders_List (m_Shaders w DevType) ++ new
          /\ NoDup new
          /\ forall k, k ∈ new <->
               k ∈ (ShaderCall_Key <$> calls) /\ (k ∉ Shaders_List (m_Shaders w DevType))).
Proof.
  intros Hwf Hlen.
  destruct (serialize_shaders_spec DevType calls [] w Hwf Hlen) as
    (res & w' & E & Hwf' & Hres & (new & Hnew & Hin) & Hidx & _).
  exists res, w'. split; [done|]. split; [done|]. split; [done|].
  assert (Hpos : forall j c, calls !! j = Some c ->
            exists i, res !! j = Some (Z.of_nat i)
                      /\ Shaders_List (m_Shaders w' DevType) !! i = Some (ShaderCall_Key c)
                      /\ forall i', Shaders_List (m_Shaders w' DevType) !! i'
                                    = Some (ShaderCall_Key c) -> i' = i).
  { intros j c Hc. destruct (Hidx j c Hc) as (i & Hj & Hi). exists i.
    split; [done|]. split; [done|]. intros i' Hi'. by eapply shaders_wf_unique. }
  split; [exact Hpos|]. split.
  - intros j1 j2 c1 c2 H1 H2 Hkey.
    destruct (Hpos j1 c1 H1) as (i1 & -> & Hi1 & _).
    destruct (Hpos j2 c2 H2) as (i2 & -> & _ & Hu2).
    rewrite Hkey in Hi1. by rewrite (Hu2 i1 Hi1).
  - exists new. split; [done|].
    pose proof (shaders_wf_NoDup _ Hwf') as Hnd. rewrite Hnew in Hnd.
    apply NoDup_app in Hnd as (_ & _ & Hnd). split; [done|].
    intros k. split; [apply Hin|]. intros [Hk Hfresh].
    apply list_elem_of_fmap in Hk as (c & -> & [j Hj]%list_elem_of_lookup).
    destruct (Hidx j c Hj) as (i & _ & Hi).
    apply list_elem_of_lookup_2 in Hi. rewrite Hnew in Hi.
    by apply elem_of_app in Hi as [?|?].
Qed.

(** *** Adding pipelines *)

Lemma serialize_shaders_frame dev calls : forall idx0 w k,
  PSOMap k (serialize_shaders idx0 dev calls w).2 = PSOMap k w.
Proof.
  induction calls as [|c rest IH]; intros idx0 w k; cbn [serialize_shaders]; [done|].
  rewrite serialize_shader_key. unfold SerializeShaderKey.
  destruct (EmplaceShader _ _) as [i sh']. rewrite IH. by destruct k.
Qed.

Lemma PatchShadersGL_frame kind CI Data DefPRS w k :
  PSOMap k (PatchShadersGL kind CI Data DefPRS w).2.2 = PSOMap k w.
Proof.
  unfold PatchShadersGL.
  pose proof (serialize_shaders_frame OpenGL (SourceCall <$> ExtractShadersGL kind CI) [] w k) as H.
  destruct (serialize_shaders _ _ _ _) as [idx w']. exact H.
Qed.

Lemma PatchShaders_frame kind Type_ P :
  PatchShaders kind Type_ = Some P ->
  forall CI Data DefPRS w k, PSOMap k (P CI Data DefPRS w).2.2 = PSOMap k w.
Proof.
  unfold PatchShaders. intros HP CI Data DefPRS w k.
  repeat (destruct (decide _) in HP);
    match type of HP with (if ?b then _ else _) = _ => destruct b | _ => idtac end;
    try discriminate; injection HP as <-;
    try apply PatchShadersGL_frame;
    apply Patcher_frame; repeat (apply list_elem_of_here || apply list_elem_of_further).
Qed.

Lemma SetData_lookup kind Name Data w :
  PSOMap kind (SetData kind Name Data w) !! Name = Some Data.
Proof. unfold SetData. by rewrite PSOMap_set_PSOMap, lookup_insert_eq. Qed.

Lemma SetData_lookup_ne kind Name Data w k n :
  (k, n) <> (kind, Name) ->
  PSOMap k (SetData kind Name Data w) !! n = PSOMap k w !! n.
Proof.
  intros Hne. unfold SetData. destruct (decide (kind = k)) as [<-|Hk].
  - rewrite PSOMap_set_PSOMap, lookup_insert_ne; [done|]. congruence.
  - by rewrite PSOMap_set_PSOMap_ne.
Qed.

(** The loop keeps the entry of the pipeline and touches no other entry of
    the pipeline maps. *)
Lemma PatchLoop_frame kind Name InLayout UseDefaultPRS DeviceBits :
  forall CI Data DefPRS w,
    (is_Some (PSOMap kind w !! Name) ->
     is_Some (PSOMap kind (PatchLoop kind Name InLayout UseDefaultPRS DeviceBits
                             CI Data DefPRS w).2.2 !! Name))
    /\ (forall k n, (k, n) <> (kind, Name) ->
          PSOMap k (PatchLoop kind Name InLayout UseDefaultPRS DeviceBits
                      CI Data DefPRS w).2.2 !! n = PSOMap k w !! n).
Proof.
  induction DeviceBits as [|Type_ rest IH]; intros CI Data DefPRS w; cbn [PatchLoop].
  - done.
  - assert (Hpatch : forall k,
              PSOMap k (match PatchShaders kind Type_ with
                        | Some Patch => Patch CI Data DefPRS w
                        | None => (true, (CI, Data, DefPRS, w))
                        end).2.2 = PSOMap k w).
    { intros k. destruct (PatchShaders kind Type_) as [P|] eqn:EP; [|done].
      by apply (PatchShaders_frame kind Type_ P EP). }
    destruct (match PatchShaders kind Type_ with
              | Some Patch => Patch CI Data DefPRS w
              | None => (true, (CI, Data, DefPRS, w))
              end) as [ok [[[CI1 Data1] DefPRS1] w1]].
    cbn [fst snd] in Hpatch.
    destruct ok; cbn [negb].
    + match goal with |- context [PatchLoop _ _ _ _ rest ?c ?d ?p ?x] =>
        destruct (IH c d p x) as [IH1 IH2] end.
      split.
      * intros _. apply IH1. rewrite SetData_lookup. by eexists.
      * intros k n Hne. by rewrite IH2, SetData_lookup_ne, Hpatch.
    + cbn [fst snd]. split.
      * intros _. rewrite SetData_lookup. by eexists.
      * intros k n Hne. by rewrite SetData_lookup_ne, Hpatch.
Qed.

(** The loop over the device bits, cut in two: after a first part whose
    patchers all succeed, the loop goes on from the state they leave. *)
Lemma PatchLoop_app kind Name InLayout UseDefaultPRS pre rest :
  forall CI Data DefPRS w ci d dp w1,
    PatchLoop kind Name InLayout UseDefaultPRS pre CI Data DefPRS w = (true, (ci, d, dp, w1)) ->
    PatchLoop kind Name InLayout UseDefaultPRS (pre ++ rest) CI Data DefPRS w
    = PatchLoop kind Name InLayout UseDefaultPRS rest ci d dp w1.
Proof.
  induction pre as [|T pre IH]; intros CI Data DefPRS w ci d dp w1; cbn [PatchLoop app].
  - by intros [= -> -> -> ->].
  - destruct (match PatchShaders kind T with
              | Some Patch => Patch CI Data DefPRS w
              | None => (true, (CI, Data, DefPRS, w))
              end) as [ok [[[CI1 Data1] DefPRS1] w2]].
    destruct ok; cbn [negb]; [apply IH|done].
Qed.

(** The patcher that fails on the state it is called with stops the loop
    with [false]. *)
Lemma PatchLoop_fails kind Name InLayout UseDefaultPRS pre Type_ post P
  CI Data DefPRS w ci d dp w1 :
  PatchShaders kind Type_ = Some P ->
  PatchLoop kind Name InLayout UseDefaultPRS pre CI Data DefPRS w = (true, (ci, d, dp, w1)) ->
  (P ci d dp w1).1 = false ->
  (PatchLoop kind Name InLayout UseDefaultPRS (pre ++ Type_ :: post) CI Data DefPRS w).1 = false.
Proof.
  intros HP Hpre Hfail. rewrite (PatchLoop_app _ _ _ _ _ _ _ _ _ _ _ _ _ _ Hpre).
  cbn [PatchLoop]. rewrite HP.
  destruct (P ci d dp w1) as [ok [[[CI1 Data1] DefPRS1] w2]].
  cbn in Hfail. by subst ok.
Qed.

(** Every failure of the loop is of this form: a loop that returns [false]
    has reached a backend whose patcher returned [false] on the state the
    backends before it left. *)
Lemma PatchLoop_false_inv kind Name InLayout UseDefaultPRS DeviceBits :
  forall CI Data DefPRS w,
    (PatchLoop kind Name InLayout UseDefaultPRS DeviceBits CI Data DefPRS w).1 = false ->
    exists pre Type_ post P ci d dp w1,
      DeviceBits = pre ++ Type_ :: post
      /\ PatchShaders kind Type_ = Some P
      /\ PatchLoop kind Name InLayout UseDefaultPRS pre CI Data DefPRS w = (true, (ci, d, dp, w1))
      /\ (P ci d dp w1).1 = false.
Proof.
  induction DeviceBits as [|T rest IH]; intros CI Data DefPRS w; cbn [PatchLoop]; [done|].
  destruct (PatchShaders kind T) as [P|] eqn:EP.
  - destruct (P CI Data DefPRS w) as [ok [[[CI1 Data1] DefPRS1] w2]] eqn:EPatch.
    destruct ok; cbn [negb].
    + intros H. destruct (IH _ _ _ _ H) as (pre & T' & post & P' & ci & d & dp & w1 & -> & HP' & Hpre & Hfail).
      exists (T :: pre), T', post, P', ci, d, dp, w1. split; [done|]. split; [done|].
      split; [|done]. cbn [PatchLoop]. by rewrite EP, EPatch.
    + intros _. exists [], T, rest, P, CI, Data, DefPRS, w. split; [done|]. split; [done|].
      split; [done|]. by rewrite EPatch.
  - cbn [negb]. intros H.
    destruct (IH _ _ _ _ H) as (pre & T' & post & P' & ci & d & dp & w1 & -> & HP' & Hpre & Hfail).
    exists (T :: pre), T', post, P', ci, d, dp, w1. split; [done|]. split; [done|].
    split; [|done]. cbn [PatchLoop]. by rewrite EP.
Qed.

Lemma SerializePSO_patch_failure kind CI AI w Name pre Type_ post P ci d dp w1 :
  ValidatePipelineStateArchiveInfo CI AI GetValidDeviceFlags = true ->
  ValidatePSOCreateInfo kind CI = true ->
  PSODesc_Name CI = Some Name ->
  PSOMap kind w !! Name = None ->
  set_bits (DeviceFlags AI) = pre ++ Type_ :: post ->
  PatchShaders kind Type_ = Some P ->
  PatchLoop kind Name (PSODesc_ResourceLayout CI) (ResourceSignaturesCount CI =? 0) pre
    CI TPSOData_empty
    (PatchLoop_DefPRS CI AI Name
       (set_PSOMap kind (<[Name := TPSOData_empty]> (PSOMap kind w)) w))
    (set_PSOMap kind (<[Name := TPSOData_empty]> (PSOMap kind w)) w)
  = (true, (ci, d, dp, w1)) ->
  (P ci d dp w1).1 = false ->
  exists w', SerializePSO kind CI AI w = (false, w')
             /\ is_Some (PSOMap kind w' !! Name)
             /\ forall k n, (k, n) <> (kind, Name) -> PSOMap k w' !! n = PSOMap k w !! n.
Proof.
  intros Hv1 Hv2 HName Hfresh Hbits HP Hpre Hfail.
  unfold SerializePSO, emplace. rewrite Hv1, Hv2, HName, Hfresh. cbn [andb negb].
  rewrite Hbits. unfold PatchLoop_DefPRS in Hpre.
  match goal with |- context [PatchLoop ?k ?n ?l ?u ?b ?c ?d ?p ?x] =>
    pose proof (PatchLoop_fails k n l u pre Type_ post P c d p x _ _ _ _ HP Hpre Hfail) as Hok;
    destruct (PatchLoop_frame k n l u b c d p x) as [Hkeep Hother];
    destruct (PatchLoop k n l u b c d p x) as [ok [[[CI1 Data1] DefPRS1] w2]]
  end.
  cbn [fst snd] in *. subst ok. cbn [negb]. exists w2. split; [done|]. split.
  - apply Hkeep. rewrite PSOMap_set_PSOMap, lookup_insert_eq. by eexists.
  - intros k n Hne. rewrite Hother by done.
    destruct (decide (kind = k)) as [<-|Hk].
    + rewrite PSOMap_set_PSOMap, lookup_insert_ne; [done|]. congruence.
    + by rewrite PSOMap_set_PSOMap_ne.
Qed.

Lemma AddRenderPass_frame pRP w k : PSOMap k (AddRenderPass pRP w).2 = PSOMap k w.
Proof.
  unfold AddRenderPass, emplace. destruct pRP as [pRPImpl|]; [|done].
  destruct (m_RPMap w !! rp_Name pRPImpl); cbn; [by case_bool_decide|by destruct k].
Qed.

(** C1, as the code has it.  For each of the four pipeline add operations:
    if, in this call, the patcher of a backend of the requested backend set
    fails (the loop over the requested backends reaches the backend [Type_]
    after the patchers of the backends before it have succeeded, and the
    patcher of [Type_] returns [false] on the create info, the data and the
    writer they have left), the call returns [false]; the entry that the
    call registered under the pipeline's name before patching is still in
    the pipeline map after the call, and no entry under another name or of
    another pipeline kind has changed.  (For a graphics pipeline the render
    pass has been added before.) *)
Theorem add_pipeline_patch_failure (kind : PSOKind) (CI : PipelineStateCreateInfo)
  (AI : PipelineStateArchiveInfo) (w : ArchiverImpl) (Name : string)
  (pre : list Z) (Type_ : Z) (post : list Z) (P : Patcher)
  (ci : PipelineStateCreateInfo) (d : TPSOData) (dp : DefaultPRSInfo) (w1 : ArchiverImpl) :
  ValidatePipelineStateArchiveInfo CI AI GetValidDeviceFlags = true ->
  ValidatePSOCreateInfo kind CI = true ->
  PSODesc_Name CI = Some Name ->
  PSOMap kind w !! Name = None ->
  (kind = GraphicsPSO -> (AddRenderPass (pRenderPass CI) w).1 = true \/ pRenderPass CI = None) ->
  set_bits (DeviceFlags AI) = pre ++ Type_ :: post ->
  PatchShaders kind Type_ = Some P ->
  PatchLoop kind Name (PSODesc_ResourceLayout CI) (ResourceSignaturesCount CI =? 0) pre
    CI TPSOData_empty
    (PatchLoop_DefPRS CI AI Name (PatchLoop_writer kind CI Name w))
    (PatchLoop_writer kind CI Name w)
  = (true, (ci, d, dp, w1)) ->
  (P ci d dp w1).1 = false ->
  exists w', AddPipelineState kind CI AI w = (false, w')
             /\ is_Some (PSOMap kind w' !! Name)
             /\ forall k n, (k, n) <> (kind, Name) -> PSOMap k w' !! n = PSOMap k w !! n.
Proof.
  intros Hv1 Hv2 HName Hfresh HRP Hbits HP Hpre Hfail.
  destruct kind; cbn [AddPipelineState];
    try (by eapply SerializePSO_patch_failure).
  unfold AddGraphicsPipelineState. unfold PatchLoop_writer in Hpre.
  destruct (pRenderPass CI) as [pRP|] eqn:ERP;
    [|by eapply SerializePSO_patch_failure].
  destruct (HRP eq_refl) as [Hok|?]; [|done].
  pose proof (AddRenderPass_frame (Some pRP) w) as Hframe.
  destruct (AddRenderPass (Some pRP) w) as [ok w2]. cbn [fst snd] in *. subst ok.
  cbn [negb].
  destruct (SerializePSO_patch_failure GraphicsPSO CI AI w2 Name pre Type_ post P ci d dp w1)
    as (w' & E & Hkeep & Hother); try done.
  { rewrite (Hframe GraphicsPSO). done. }
  exists w'. split; [done|]. split; [done|].
  intros k n Hne. by rewrite Hother, Hframe.
Qed.

End Registry.

Lemma AddPipelineResourceSignature_spec_witness :
  (* the same object again *)
  AddPipelineResourceSignature (Ext := FailingBackends) (Some Sig1)
    (set_PRSMap {[ "Sig" := Sig1 ]} ArchiverImpl_new)
  = (true, set_PRSMap {[ "Sig" := Sig1 ]} ArchiverImpl_new)
  (* another object under the same name *)
  /\ AddPipelineResourceSignature (Ext := FailingBackends) (Some Sig1_other)
       (set_PRSMap {[ "Sig" := Sig1 ]} ArchiverImpl_new)
     = (false, set_PRSMap {[ "Sig" := Sig1 ]} ArchiverImpl_new)
  (* a new name *)
  /\ exists w',
       AddPipelineResourceSignature (Ext := FailingBackends) (Some Sig1) ArchiverImpl_new
       = (true, w')
       /\ m_PRSMap w' = <[ "Sig" := Sig1 ]> (m_PRSMap ArchiverImpl_new).
Proof.
  split; [|split].
  - apply (proj1 (AddPipelineResourceSignature_spec (Ext := FailingBackends)
                    (set_PRSMap {[ "Sig" := Sig1 ]} ArchiverImpl_new) Sig1) Sig1).
    + apply lookup_singleton_eq.
    + reflexivity.
  - apply (proj1 (proj2 (AddPipelineResourceSignature_spec (Ext := FailingBackends)
                    (set_PRSMap {[ "Sig" := Sig1 ]} ArchiverImpl_new) Sig1_other)) Sig1).
    + apply lookup_singleton_eq.
    + discriminate.
  - destruct (proj2 (proj2 (AddPipelineResourceSignature_spec (Ext := FailingBackends)
                              ArchiverImpl_new Sig1)) (lookup_empty _)) as (w' & E & Hmap & _).
    by exists w'.
Defined.

Lemma add_pipeline_patch_failure_witness :
  set_bits (DeviceFlags ForGLAndVulkan) = [3; 5]
  /\ PatchShaders (Ext := SelectiveBackends) ComputePSO 3
     = Some (PatchShadersGL (Ext := SelectiveBackends) ComputePSO)
  /\ PatchShaders (Ext := SelectiveBackends) ComputePSO 5 = Some SelectivePatcher
  /\ exists w', AddPipelineState (Ext := SelectiveBackends) ComputePSO ComputeP ForGLAndVulkan
                  ArchiverImpl_new = (false, w')
                /\ is_Some (PSOMap ComputePSO w' !! "P")
                /\ forall k n, (k, n) <> (ComputePSO, "P") ->
                               PSOMap k w' !! n = PSOMap k ArchiverImpl_new !! n.
Proof.
  split; [by vm_compute|]. split; [reflexivity|]. split; [reflexivity|].
  apply (add_pipeline_patch_failure (Ext := SelectiveBackends) ComputePSO ComputeP
           ForGLAndVulkan ArchiverImpl_new "P" [3] 5 [] SelectivePatcher
           ComputeP
           (PatchShadersGL (Ext := SelectiveBackends) ComputePSO ComputeP TPSOData_empty
              (MkDefPRS None 0 "")
              (PatchLoop_writer ComputePSO ComputeP "P" ArchiverImpl_new)).2.1.1.2
           (MkDefPRS None 0 "")
           (SetData ComputePSO "P"
              (PatchShadersGL (Ext := SelectiveBackends) ComputePSO ComputeP TPSOData_empty
                 (MkDefPRS None 0 "")
                 (PatchLoop_writer ComputePSO ComputeP "P" ArchiverImpl_new)).2.1.1.2
              (PatchShadersGL (Ext := SelectiveBackends) ComputePSO ComputeP TPSOData_empty
                 (MkDefPRS None 0 "")
                 (PatchLoop_writer ComputePSO ComputeP "P" ArchiverImpl_new)).2.2)).
  - vm_compute. reflexivity.
  - reflexivity.
  - reflexivity.
  - reflexivity.
  - discriminate.
  - vm_compute. reflexivity.
  - reflexivity.
  - reflexivity.
  - reflexivity.
Defined.

(** The Vulkan patcher of [SelectiveBackends] depends on its input: the
    same request succeeds for the pipeline that has a field to compile. *)
Lemma selective_patcher_succeeds :
  (AddPipelineState (Ext := SelectiveBackends) ComputePSO ComputeP_with_code ForGLAndVulkan
     ArchiverImpl_new).1 = true.
Proof. vm_compute. reflexivity. Qed.

(** C1 as the spec states it fails: the Direct3D11 patcher fails for the
    compute pipeline [P], the call returns [false], and the pipeline map
    holds an entry under [P] afterwards although it held none before. *)
Lemma patch_failure_leaves_entry :
  (FailingPatcher ComputeP TPSOData_empty (MkDefPRS None 0 "") ArchiverImpl_new).1 = false
  /\ m_ComputePSOMap ArchiverImpl_new !! "P" = None
  /\ (AddComputePipelineState (Ext := FailingBackends) ComputeP ForD3D11 ArchiverImpl_new).1
     = false
  /\ m_ComputePSOMap
       (AddComputePipelineState (Ext := FailingBackends) ComputeP ForD3D11 ArchiverImpl_new).2
     !! "P" <> None.
Proof.
  split; [reflexivity|]. split; [reflexivity|]. split; [vm_compute; reflexivity|].
  vm_compute. discriminate.
Qed.

Lemma serialize_shader_dedup_witness :
  exists ShaderIndices w',
    serialize_shaders (Ext := FailingBackends) [] OpenGL
      [SourceCall S2_ShaderCI; SourceCall S2_ShaderCI] ArchiverImpl_new = (ShaderIndices, w')
    /\ ShaderIndices !! 0%nat = ShaderIndices !! 1%nat
    /\ length (Shaders_List (m_Shaders w' OpenGL)) = 1%nat.
Proof.
  destruct (serialize_shader_dedup (Ext := FailingBackends) OpenGL
              [SourceCall S2_ShaderCI; SourceCall S2_ShaderCI] ArchiverImpl_new)
    as (ShaderIndices & w' & E & _ & _ & _ & Heq & _).
  - apply shaders_wf_new.
  - cbn. lia.
  - exists ShaderIndices, w'. split; [exact E|]. split.
    + by apply (Heq 0%nat 1%nat (SourceCall S2_ShaderCI) (SourceCall S2_ShaderCI)).
    + vm_compute in E. by injection E as <- <-.
Defined.

(** Seed scenario S2: both calls return index 0 and the list has length 1. *)
Example S2_shader_dedup :
  (serialize_shaders (Ext := FailingBackends) [] OpenGL
     [SourceCall S2_ShaderCI; SourceCall S2_ShaderCI] ArchiverImpl_new).1 = [0; 0].
Proof. vm_compute. reflexivity. Qed.

(** ** The writer layout: signatures of the macOS block *)

Section Layout.

Lemma Mem_Ptr_null (m : SerializedMemory) : Mem_bool m = false -> Mem_Ptr m = [].
Proof. by destruct m. Qed.

Lemma NoDup_DeviceTypes : NoDup DeviceTypes.
Proof. compute_done. Qed.

Lemma elem_of_DeviceTypes d : d ∈ DeviceTypes.
Proof. destruct d; compute_done. Qed.

(** One per-device write of a signature: the block of the device grows by
    the bytes of the (substituted) source, the other blocks and the shared
    block stay. *)
Lemma WritePRSPerDeviceData_block Header Type_ Src Pending :
  let r := WritePRSPerDeviceData Header Type_ Src Pending in
  Data (Pending_PerDeviceData r.2 Type_)
  = Data (Pending_PerDeviceData Pending Type_)
    ++ Mem_Ptr (PRS_GetDeviceData Src (PRSDevType Type_))
  /\ (forall d, d <> Type_ -> Pending_PerDeviceData r.2 d = Pending_PerDeviceData Pending d)
  /\ Pending_SharedData r.2 = Pending_SharedData Pending.
Proof.
  unfold WritePRSPerDeviceData, WritePerDeviceData, Data_Copy.
  destruct (Mem_bool _) eqn:E; cbn.
  - rewrite fn_lookup_insert. split; [done|]. split; [|done].
    intros d Hd. by rewrite fn_lookup_insert_ne.
  - rewrite fn_lookup_insert, (Mem_Ptr_null _ E), app_nil_r. split; [done|]. split; [|done].
    intros d Hd. by rewrite fn_lookup_insert_ne.
Qed.

Lemma WritePRS_devices Src l : forall Header Pending,
  NoDup l ->
  let r := foldl (fun '(h, P) d => WritePRSPerDeviceData h d Src P) (Header, Pending) l in
  forall d,
    Data (Pending_PerDeviceData r.2 d)
    = Data (Pending_PerDeviceData Pending d)
      ++ (if decide (d ∈ l) then Mem_Ptr (PRS_GetDeviceData Src (PRSDevType d)) else []).
Proof.
  induction l as [|Type_ l IH]; intros Header Pending Hnd; cbn [foldl].
  - intros d. rewrite decide_False by apply not_elem_of_nil. by rewrite app_nil_r.
  - apply NoDup_cons in Hnd as [Hnotin Hnd]. intros d.
    destruct (WritePRSPerDeviceData_block Header Type_ Src Pending) as (Hd & Hother & _).
    destruct (WritePRSPerDeviceData Header Type_ Src Pending) as [h1 P1]. cbn [fst snd] in *.
    rewrite (IH h1 P1 Hnd d). destruct (decide (d = Type_)) as [->|Hne].
    + rewrite Hd, decide_False, decide_True by (done || apply list_elem_of_here).
      by rewrite app_nil_r.
    + rewrite Hother by done. destruct (decide (d ∈ l)).
      * by rewrite decide_True by (by apply list_elem_of_further).
      * by rewrite decide_False by (by intros [?|?]%elem_of_cons).
Qed.

Lemma ReserveSpaceForPRS_devices PRS l : forall P,
  NoDup l ->
  forall d,
    ReservedSize
      (Pending_PerDeviceData
         (foldl (fun P' Type_ =>
                   let Src := PRS_GetDeviceData PRS (PRSDevType Type_) in
                   set_PerDeviceData Type_
                     (AddSpace (Mem_Size Src) (Pending_PerDeviceData P' Type_)) P') P l) d)
    = ReservedSize (Pending_PerDeviceData P d)
      + (if decide (d ∈ l) then Mem_Size (PRS_GetDeviceData PRS (PRSDevType d)) else 0).
Proof.
  induction l as [|Type_ l IH]; intros P Hnd d; cbn [foldl].
  - rewrite decide_False by apply not_elem_of_nil. lia.
  - apply NoDup_cons in Hnd as [Hnotin Hnd]. rewrite (IH _ Hnd d). cbn.
    destruct (decide (d = Type_)) as [->|Hne].
    + rewrite fn_lookup_insert, decide_False, decide_True by (done || apply list_elem_of_here).
      cbn. lia.
    + rewrite fn_lookup_insert_ne by done. destruct (decide (d ∈ l)).
      * by rewrite decide_True by (by apply list_elem_of_further).
      * by rewrite decide_False by (by intros [?|?]%elem_of_cons).
Qed.

(** C9. For every resource signature, what the writer reserves in the macOS
    block for it is the size of its iOS bytes, what it writes into the macOS
    block for it are its iOS bytes, and the size and the offset of these
    bytes are recorded in the macOS slot of the data header (the iOS slot and
    the slots of the other backends are not touched by that write). *)
Theorem macos_block_gets_ios_signature_bytes
  (PRS : SerializableResourceSignatureImpl) (Header : DataHeader) (Pending : PendingData) :
  let Src_iOS := PRS_GetDeviceData PRS Metal_iOS in
  let Block := Pending_PerDeviceData Pending Metal_MacOS in
  (* the space reserved by [ReserveSpace] for the signature *)
  ReservedSize (Pending_PerDeviceData (ReserveSpaceForPRS PRS Pending) Metal_MacOS)
  = ReservedSize Block + Mem_Size Src_iOS
  (* the bytes written for the signature by [WriteDeviceObjectData] *)
  /\ Data (Pending_PerDeviceData
             (WriteDeviceObject 2 PRS_GetSharedData WritePRSPerDeviceData PRS Pending).2
             Metal_MacOS)
     = Data Block ++ Mem_Ptr Src_iOS
  (* the write for the macOS backend and the header *)
  /\ Data (Pending_PerDeviceData (WritePRSPerDeviceData Header Metal_MacOS PRS Pending).2
             Metal_MacOS)
     = Data Block ++ Mem_Ptr Src_iOS
  /\ (Mem_bool Src_iOS = true ->
      let Header' := (WritePRSPerDeviceData Header Metal_MacOS PRS Pending).1 in
      DeviceSpecificDataSize Header' Metal_MacOS = StaticCast_Uint32 (Mem_Size Src_iOS)
      /\ DeviceSpecificDataOffset Header' Metal_MacOS = StaticCast_Uint32 (GetCurrentSize Block)
      /\ forall d, d <> Metal_MacOS ->
           DeviceSpecificDataSize Header' d = DeviceSpecificDataSize Header d
           /\ DeviceSpecificDataOffset Header' d = DeviceSpecificDataOffset Header d)
  /\ (Mem_bool Src_iOS = false ->
      (WritePRSPerDeviceData Header Metal_MacOS PRS Pending).1 = Header).
Proof.
  cbn zeta. split; [|split; [|split; [|split]]].
  - unfold ReserveSpaceForPRS.
    rewrite (ReserveSpaceForPRS_devices PRS DeviceTypes _ NoDup_DeviceTypes Metal_MacOS).
    by rewrite decide_True by apply elem_of_DeviceTypes.
  - unfold WriteDeviceObject.
    pose proof (WritePRS_devices PRS DeviceTypes (DataHeader_new 2) Pending
                  NoDup_DeviceTypes Metal_MacOS) as H.
    destruct (foldl _ _ DeviceTypes) as [h P1]. cbn in H |- *.
    by rewrite H, decide_True by apply elem_of_DeviceTypes.
  - apply WritePRSPerDeviceData_block.
  - intros Hsome. unfold WritePRSPerDeviceData, WritePerDeviceData, Data_Copy.
    change (PRSDevType Metal_MacOS) with Metal_iOS. rewrite Hsome. cbn.
    rewrite !fn_lookup_insert. split; [done|]. split; [done|].
    intros d Hd. by rewrite !fn_lookup_insert_ne.
  - intros Hnull. unfold WritePRSPerDeviceData, WritePerDeviceData.
    change (PRSDevType Metal_MacOS) with Metal_iOS. by rewrite Hnull.
Qed.

Lemma macos_block_gets_ios_signature_bytes_witness :
  Data (Pending_PerDeviceData
          (WritePRSPerDeviceData (DataHeader_new 2) Metal_MacOS Sig1
             (MkPending TDataElement_new (fun _ => MkData 5 [1; 1; 1]))).2 Metal_MacOS)
  = [1; 1; 1; 7; 8]
  /\ DeviceSpecificDataSize
       (WritePRSPerDeviceData (DataHeader_new 2) Metal_MacOS Sig1
          (MkPending TDataElement_new (fun _ => MkData 5 [1; 1; 1]))).1 Metal_MacOS = 2
  /\ DeviceSpecificDataOffset
       (WritePRSPerDeviceData (DataHeader_new 2) Metal_MacOS Sig1
          (MkPending TDataElement_new (fun _ => MkData 5 [1; 1; 1]))).1 Metal_MacOS = 3.
Proof.
  pose proof (macos_block_gets_ios_signature_bytes Sig1 (DataHeader_new 2)
                (MkPending TDataElement_new (fun _ => MkData 5 [1; 1; 1]))) as H.
  cbn zeta in H. destruct H as (_ & _ & Hbytes & Hhdr & _).
  split; [exact Hbytes|]. destruct (Hhdr eq_refl) as (Hsize & Hoff & _).
  split; [exact Hsize|exact Hoff].
Defined.

End Layout.

End ArchiverFacts.

(** ** The reader parser *)

Module DeviceObjectArchiveFacts.
Import Serializer DeviceObjectArchive.

Section Parser.
Context `{Fmt : ArchiveFormat}.

Lemma ChunkType_of_Z_Some t k : ChunkType_of_Z t = Some k -> t = ChunkType_to_Z k.
Proof.
  unfold ChunkType_of_Z.
  destruct t as [|p|p]; [by intros [= <-]| |done].
  do 4 (try destruct p as [p|p|]); try discriminate; by intros [= <-].
Qed.

(** A chunk that is read has one of the eight kinds the switch handles. *)
Lemma ReadChunk_Ok_type Chunk r r' :
  ReadChunk Chunk r = Ok r' -> 1 <= Chunk_Type Chunk <= 8.
Proof.
  unfold ReadChunk. destruct (ChunkType_of_Z (Chunk_Type Chunk)) as [k|] eqn:E; [|done].
  apply ChunkType_of_Z_Some in E. rewrite E. destruct k; cbn; try lia. done.
Qed.

Lemma ReadChunks_Ok Chunks : forall ProcessedBits r r',
  ReadChunks Chunks ProcessedBits r = Ok r' ->
  NoDup (Chunk_Type <$> Chunks)
  /\ Forall (fun c => 1 <= Chunk_Type c <= 8) Chunks
  /\ Forall (fun c => Chunk_Type c ∉ ProcessedBits) Chunks.
Proof.
  induction Chunks as [|Chunk rest IH]; intros bits r r' H; cbn in *.
  - split; [constructor|]. split; constructor.
  - destruct (ProcessedBits_test bits (Chunk_Type Chunk)) eqn:Etest; [done|].
    destruct (ReadChunk Chunk r) as [r1| |] eqn:Echunk; try done.
    pose proof (ReadChunk_Ok_type _ _ _ Echunk) as Hty.
    destruct (IH _ _ _ H) as (Hnd & Hall & Hnotin).
    assert (Hfresh : Chunk_Type Chunk ∉ bits).
    { unfold ProcessedBits_test, ChunkType_Count in Etest.
      rewrite decide_True in Etest by lia. by apply bool_decide_eq_false in Etest. }
    split; [|split].
    + constructor; [|done]. intros Hin.
      apply list_elem_of_fmap in Hin as (c & Hc & Hin).
      eapply Forall_forall in Hnotin; [|exact Hin].
      apply Hnotin. rewrite <- Hc. apply elem_of_union. left. by apply elem_of_singleton.
    + by constructor.
    + constructor; [done|]. eapply Forall_impl; [exact Hnotin|].
      intros c Hc Hin. apply Hc, elem_of_union. by right.
Qed.

(** The loop over the chunk headers, cut in two: what the first part gives
    is what the loop gives, unless the first part is read to its end; then
    the loop goes on with the kinds of the first part marked. *)
Lemma ReadChunks_app pre rest : forall bits r,
  ReadChunks (pre ++ rest) bits r
  = match ReadChunks pre bits r with
    | Ok r1 => ReadChunks rest (list_to_set (Chunk_Type <$> pre) ∪ bits) r1
    | Throw e => Throw e
    | OutOfBounds => OutOfBounds
    end.
Proof.
  induction pre as [|c pre IH]; intros bits r; cbn [app ReadChunks fmap list_fmap list_to_set].
  - by rewrite (left_id_L ∅ (∪)).
  - destruct (ProcessedBits_test bits (Chunk_Type c)); [done|].
    destruct (ReadChunk c r) as [r'| |]; [|done..].
    rewrite IH. destruct (ReadChunks pre _ r') as [r1| |]; [|done..].
    by rewrite (assoc_L (∪)), (comm_L (∪) (list_to_set _)).
Qed.

Lemma ChunkType_of_Z_range t k : ChunkType_of_Z t = Some k -> 0 <= t <= 8.
Proof. intros H. apply ChunkType_of_Z_Some in H as ->. destruct k; cbn; lia. Qed.

(** The header that stops the loop, after headers that were read: a kind
    that one of them has is a duplicate; a kind that the switch does not
    handle is unknown, unless the test of [ProcessedBits] outside the bit
    set takes it for a duplicate. *)
Lemma ReadChunks_offending pre c post r r1 :
  ReadChunks pre ∅ r = Ok r1 ->
  (Chunk_Type c ∈ Chunk_Type <$> pre ->
   ReadChunks (pre ++ c :: post) ∅ r = Throw DuplicateChunk)
  /\ (~ 1 <= Chunk_Type c <= 8 ->
      ReadChunks (pre ++ c :: post) ∅ r
      = Throw (if ProcessedBits_test ∅ (Chunk_Type c) then DuplicateChunk else UnknownChunk)).
Proof.
  intros Hpre. pose proof (ReadChunks_Ok _ _ _ _ Hpre) as (_ & Hknown & _).
  rewrite ReadChunks_app, Hpre. cbn [ReadChunks]. split.
  - intros Hin. unfold ProcessedBits_test.
    pose proof Hin as Hin'. apply list_elem_of_fmap in Hin' as (c' & Hc' & Hin').
    eapply Forall_forall in Hknown; [|exact Hin'].
    rewrite decide_True by (unfold ChunkType_Count; lia).
    rewrite bool_decide_eq_true_2; [done|].
    apply elem_of_union. left. by apply elem_of_list_to_set.
  - intros Hout.
    assert (Htest : ProcessedBits_test (list_to_set (Chunk_Type <$> pre) ∪ ∅) (Chunk_Type c)
                    = ProcessedBits_test ∅ (Chunk_Type c)).
    { unfold ProcessedBits_test. destruct (decide _) as [Hin|]; [|done].
      rewrite !bool_decide_eq_false_2; [done|set_solver|].
      intros Hc. apply elem_of_union in Hc as [Hc|Hc]; [|set_solver].
      apply elem_of_list_to_set, list_elem_of_fmap in Hc as (c' & Hc' & Hin').
      eapply Forall_forall in Hknown; [|exact Hin']. lia. }
    rewrite Htest. destruct (ProcessedBits_test ∅ (Chunk_Type c)); [done|].
    unfold ReadChunk. destruct (ChunkType_of_Z (Chunk_Type c)) as [k|] eqn:Ek; [|done].
    apply ChunkType_of_Z_Some in Ek. destruct k; cbn in Ek; (done || lia).
Qed.

(** A list of chunk headers with a repeated kind or with a kind that the
    switch does not handle has a first such header: the headers before it
    have different kinds, all handled. *)
Lemma first_offending_header (Chunks : list ChunkHeader) :
  ~ (NoDup (Chunk_Type <$> Chunks) /\ Forall (fun c => 1 <= Chunk_Type c <= 8) Chunks) ->
  exists pre c post,
    Chunks = pre ++ c :: post
    /\ NoDup (Chunk_Type <$> pre)
    /\ Forall (fun c => 1 <= Chunk_Type c <= 8) pre
    /\ (Chunk_Type c ∈ Chunk_Type <$> pre \/ ~ 1 <= Chunk_Type c <= 8).
Proof.
  induction Chunks as [|x l IH] using rev_ind; intros Hbad.
  - exfalso. apply Hbad. split; constructor.
  - destruct (decide (NoDup (Chunk_Type <$> l))) as [Hnd|Hnd].
    + destruct (decide (Forall (fun c => 1 <= Chunk_Type c <= 8) l)) as [Hall|Hall].
      * exists l, x, []. split; [done|]. split; [done|]. split; [done|].
        destruct (decide (Chunk_Type x ∈ Chunk_Type <$> l)) as [|Hnotin]; [by left|].
        destruct (decide (1 <= Chunk_Type x <= 8)) as [Hx|]; [|by right].
        exfalso. apply Hbad. split.
        -- rewrite fmap_app. apply NoDup_app. split; [done|]. split.
           ++ intros t Ht Ht'. cbn in Ht'. apply list_elem_of_singleton in Ht'. by subst.
           ++ cbn. apply NoDup_singleton.
        -- apply Forall_app. split; [done|]. by constructor.
      * destruct IH as (pre & c & post & -> & H); [by intros [_ ?]|].
        exists pre, c, (post ++ [x]). split; [by rewrite <- app_assoc|done].
    + destruct IH as (pre & c & post & -> & H); [by intros [? _]|].
      exists pre, c, (post ++ [x]). split; [by rewrite <- app_assoc|done].
Qed.

(** C6, as the code has it.  For every byte source, reader construction
    raises [bad-magic] when the magic number of the header differs from the
    format's, and raises [unsupported-version] when the magic number matches
    and the version differs.  With the magic number and the version of the
    format, construction does not produce a reader when two chunk headers
    carry the same kind or a chunk header carries a kind other than the
    eight kinds the reader handles (so when the kind is outside the nine
    kinds of the format, and also when it is the reserved kind 0).  What it
    does instead is settled by the first such header: when the chunks
    before it were read, construction raises [duplicate-chunk] for a kind
    that one of them has, and for a kind that is not handled it raises
    [unknown-chunk] (or [duplicate-chunk], where the test of
    [ProcessedBits] outside the bit set takes the kind for processed);
    when reading a chunk before it raises, construction raises that error;
    and when reading a chunk before it leaves the buffer of the chunk, so
    does construction.  The conditions are sufficient only: a source that
    meets none of them can still fail to construct. *)
Theorem reader_construction_failures (A : list Z) (DevType : DeviceType) :
  (forall Header, ReadHeader A = Some Header ->
     MagicNumber Header <> HeaderMagicNumber ->
     DeviceObjectArchiveBase_new (Some A) DevType = Throw BadMagic)
  /\ (forall Header, ReadHeader A = Some Header ->
        MagicNumber Header = HeaderMagicNumber ->
        Version Header <> GetHeaderVersion ->
        DeviceObjectArchiveBase_new (Some A) DevType = Throw UnsupportedVersion)
  /\ (forall r, DeviceObjectArchiveBase_new (Some A) DevType = Ok r ->
        exists Header Chunks,
          ReadHeader A = Some Header
          /\ MagicNumber Header = HeaderMagicNumber
          /\ Version Header = GetHeaderVersion
          /\ ReadChunkHeaders A Header = Some Chunks
          /\ NoDup (Chunk_Type <$> Chunks)
          /\ Forall (fun c => 1 <= Chunk_Type c <= 8) Chunks)
  /\ (forall Header Chunks,
        ReadHeader A = Some Header ->
        MagicNumber Header = HeaderMagicNumber ->
        Version Header = GetHeaderVersion ->
        ReadChunkHeaders A Header = Some Chunks ->
        ~ (NoDup (Chunk_Type <$> Chunks) /\ Forall (fun c => 1 <= Chunk_Type c <= 8) Chunks) ->
        exists pre c post,
          Chunks = pre ++ c :: post
          /\ (Chunk_Type c ∈ Chunk_Type <$> pre \/ ~ 1 <= Chunk_Type c <= 8)
          /\ match ReadChunks pre ∅
                     (MkReader A DevType (BlockBaseOffsets Header) (0, []) ∅ ∅ ∅ ∅ ∅ ∅ []) with
             | Ok _ =>
                 (Chunk_Type c ∈ Chunk_Type <$> pre ->
                  DeviceObjectArchiveBase_new (Some A) DevType = Throw DuplicateChunk)
                 /\ (~ 1 <= Chunk_Type c <= 8 ->
                     DeviceObjectArchiveBase_new (Some A) DevType
                     = Throw (if ProcessedBits_test ∅ (Chunk_Type c)
                              then DuplicateChunk else UnknownChunk))
             | Throw e => DeviceObjectArchiveBase_new (Some A) DevType = Throw e
             | OutOfBounds => DeviceObjectArchiveBase_new (Some A) DevType = OutOfBounds
             end).
Proof.
  unfold DeviceObjectArchiveBase_new. split; [|split; [|split]].
  - intros Header -> Hmagic. by rewrite decide_True.
  - intros Header -> Hmagic Hver. by rewrite decide_False, decide_True by (done || by intros ?).
  - intros r H. destruct (ReadHeader A) as [Header|]; [|done].
    destruct (decide (MagicNumber Header <> HeaderMagicNumber)) as [|Hmagic]; [done|].
    destruct (decide (Version Header <> GetHeaderVersion)) as [|Hver]; [done|].
    destruct (ReadChunkHeaders A Header) as [Chunks|] eqn:EChunks; [|done].
    apply ReadChunks_Ok in H as (Hnd & Hall & _).
    exists Header, Chunks. split; [done|].
    split; [by destruct (decide (MagicNumber Header = HeaderMagicNumber))|].
    split; [by destruct (decide (Version Header = GetHeaderVersion))|].
    done.
  - intros Header Chunks -> Hmagic Hver -> Hbad.
    rewrite decide_False by (by intros ?). rewrite decide_False by (by intros ?).
    destruct (first_offending_header Chunks Hbad) as (pre & c & post & -> & _ & _ & Hc).
    exists pre, c, post. split; [done|]. split; [done|].
    destruct (ReadChunks pre ∅ _) as [r1| |] eqn:Epre.
    + apply (ReadChunks_offending pre c post _ r1 Epre).
    + by rewrite ReadChunks_app, Epre.
    + by rewrite ReadChunks_app, Epre.
Qed.

(** *** The two tests of [ReadNamedResources] *)

(** An entry whose name would end beyond the chunk body is rejected. *)
Lemma ReadNames_name_length_check Data ArchiveSize NameLengthArray DataSizeArray DataOffsetArray
  todo i CurrentSize NameAndOffset NameLength :
  u32_at Data (NameLengthArray + 4 * i) = Some NameLength ->
  CurrentSize + NameLength > Z.of_nat (length Data) ->
  ReadNames Data ArchiveSize NameLengthArray DataSizeArray DataOffsetArray
    (S todo) i CurrentSize NameAndOffset = Throw CorruptArchive.
Proof. intros HL Hgt. cbn [ReadNames]. rewrite HL. by rewrite decide_True. Qed.

(** An entry is rejected when the 32-bit sum of its data offset and data
    size exceeds the archive size. *)
Lemma ReadNames_data_range_check Data ArchiveSize NameLengthArray DataSizeArray DataOffsetArray
  todo i CurrentSize NameAndOffset NameLength DataOffset DataSize :
  u32_at Data (NameLengthArray + 4 * i) = Some NameLength ->
  u32_at Data (DataOffsetArray + 4 * i) = Some DataOffset ->
  u32_at Data (DataSizeArray + 4 * i) = Some DataSize ->
  wrap32 (DataOffset + DataSize) > ArchiveSize ->
  ReadNames Data ArchiveSize NameLengthArray DataSizeArray DataOffsetArray
    (S todo) i CurrentSize NameAndOffset = Throw CorruptArchive.
Proof.
  intros HL HO HS Hgt. cbn [ReadNames]. rewrite HL, HO, HS.
  destruct (decide _); [done|]. by rewrite decide_True.
Qed.

(** What the directory of a chunk that was read holds: for every entry the
    32-bit sum of offset and size is within the archive size.  Nothing is
    known of the sum itself. *)
Lemma ReadNames_Ok_range Data ArchiveSize NameLengthArray DataSizeArray DataOffsetArray :
  forall todo i CurrentSize NameAndOffset Res,
    ReadNames Data ArchiveSize NameLengthArray DataSizeArray DataOffsetArray
      todo i CurrentSize NameAndOffset = Ok Res ->
    forall Name e, Res !! Name = Some e ->
      NameAndOffset !! Name = Some e
      \/ wrap32 (Entry_Offset e + Entry_Size e) <= ArchiveSize.
Proof.
  induction todo as [|todo IH]; intros i CurrentSize m Res H Name e He; cbn [ReadNames] in H.
  - injection H as <-. by left.
  - destruct (u32_at Data (NameLengthArray + 4 * i)) as [NameLength|]; [|done].
    destruct (decide _); [done|].
    destruct (u32_at Data (DataOffsetArray + 4 * i)) as [DataOffset|]; [|done].
    destruct (u32_at Data (DataSizeArray + 4 * i)) as [DataSize|]; [|done].
    destruct (decide _) as [|Hrange]; [done|].
    destruct (if decide (NameLength = 0) then None else cstr_in _) as [Key|]; [|done].
    destruct (IH _ _ _ _ H Name e He) as [Hin|Hok]; [|by right].
    unfold Archiver.emplace in Hin.
    destruct (m !! Key) eqn:Efound; cbn [snd] in Hin; [by left|].
    destruct (decide (Key = Name)) as [<-|Hne].
    + rewrite lookup_insert_eq in Hin. injection Hin as <-. right. cbn. lia.
    + rewrite lookup_insert_ne in Hin by done. by left.
Qed.

(** The test of the name length keeps the [NameLength] bytes that are
    handed out for a name inside the chunk body.  (The key is read from
    their start to the first zero byte, which the test does not bound.) *)
Lemma name_read_in_bounds (Data : list Z) (CurrentSize NameLength : Z) :
  0 <= CurrentSize -> 0 <= NameLength ->
  ~ CurrentSize + NameLength > Z.of_nat (length Data) ->
  exists Name, bytes_at Data CurrentSize NameLength = Some Name
               /\ Z.of_nat (length Name) = NameLength.
Proof.
  intros H1 H2 H3. unfold bytes_at. rewrite decide_True by lia.
  eexists. split; [done|]. rewrite length_take, length_drop. lia.
Qed.

End Parser.

Lemma reader_construction_failures_witness :
  DeviceObjectArchiveBase_new (Fmt := Format_v1) (Some BadMagicArchive) Archiver.OpenGL
  = Throw BadMagic
  /\ DeviceObjectArchiveBase_new (Fmt := Format_v1) (Some BadVersionArchive) Archiver.OpenGL
     = Throw UnsupportedVersion
  /\ (exists Chunks pre c post,
        (ReadChunkHeaders DuplicateChunkArchive <$> ReadHeader DuplicateChunkArchive)
        = Some (Some Chunks)
        /\ Chunks = pre ++ c :: post
        /\ Chunk_Type c ∈ Chunk_Type <$> pre
        /\ DeviceObjectArchiveBase_new (Fmt := Format_v1) (Some DuplicateChunkArchive)
             Archiver.OpenGL = Throw DuplicateChunk)
  /\ (exists Chunks pre c post,
        (ReadChunkHeaders UnknownChunkArchive <$> ReadHeader UnknownChunkArchive)
        = Some (Some Chunks)
        /\ Chunks = pre ++ c :: post
        /\ ~ 1 <= Chunk_Type c <= 8
        /\ DeviceObjectArchiveBase_new (Fmt := Format_v1) (Some UnknownChunkArchive)
             Archiver.OpenGL = Throw UnknownChunk).
Proof.
  split; [|split; [|split]].
  - apply (proj1 (reader_construction_failures (Fmt := Format_v1)
                    BadMagicArchive Archiver.OpenGL)
             (ArchiveHeader_of_bytes BadMagicArchive)); [reflexivity|].
    vm_compute. discriminate.
  - apply (proj1 (proj2 (reader_construction_failures (Fmt := Format_v1)
                           BadVersionArchive Archiver.OpenGL))
             (ArchiveHeader_of_bytes BadVersionArchive)); [reflexivity|reflexivity|].
    vm_compute. discriminate.
  - destruct (proj2 (proj2 (proj2 (reader_construction_failures (Fmt := Format_v1)
                                     DuplicateChunkArchive Archiver.OpenGL)))
                (ArchiveHeader_of_bytes (take 36 DuplicateChunkArchive))
                [MkChunkHeader 2 4 60; MkChunkHeader 2 4 60])
      as (pre & c & post & HC & Hc & H); [reflexivity..| |].
    { intros [Hnd _]. cbn in Hnd. apply NoDup_cons in Hnd as [Hnd _].
      apply Hnd, list_elem_of_here. }
    destruct pre as [|c0 [|c1 [|c2 pre]]]; cbn in HC.
    + injection HC as <- <-. destruct Hc as [Hc|Hc]; [by apply elem_of_nil in Hc|].
      cbn in Hc. lia.
    + injection HC as <- <- <-. eexists _, [_], _, []. split; [reflexivity|].
      split; [reflexivity|]. destruct Hc as [Hc|Hc]; [|cbn in Hc; lia].
      split; [done|].
      assert (E : ReadChunks (Fmt := Format_v1) [MkChunkHeader 2 4 60] ∅
                    (MkReader DuplicateChunkArchive Archiver.OpenGL
                       (BlockBaseOffsets
                          (ArchiveHeader_of_bytes (take 36 DuplicateChunkArchive)))
                       (0, []) ∅ ∅ ∅ ∅ ∅ ∅ [])
                  = Ok (MkReader DuplicateChunkArchive Archiver.OpenGL
                          (BlockBaseOffsets
                             (ArchiveHeader_of_bytes (take 36 DuplicateChunkArchive)))
                          (0, []) ∅ ∅ ∅ ∅ ∅ ∅ [])) by reflexivity.
      rewrite E in H. by apply H.
    + injection HC as _ _ HC. discriminate.
    + injection HC as _ _ HC. discriminate.
  - destruct (proj2 (proj2 (proj2 (reader_construction_failures (Fmt := Format_v1)
                                     UnknownChunkArchive Archiver.OpenGL)))
                (ArchiveHeader_of_bytes (take 36 UnknownChunkArchive))
                [MkChunkHeader 9 0 48])
      as (pre & c & post & HC & Hc & H); [reflexivity..| |].
    { intros [_ Hall]. apply Forall_cons in Hall as [Hall _]. cbn in Hall. lia. }
    destruct pre as [|c0 [|c1 pre]]; cbn in HC.
    + injection HC as <- <-. eexists _, [], _, []. split; [reflexivity|].
      split; [reflexivity|]. split; [vm_compute; intros [? ?]; done|].
      cbn [ReadChunks] in H. apply (proj2 H). cbn. lia.
    + injection HC as _ HC. discriminate.
    + injection HC as _ HC. discriminate.
Defined.

(** C6 as the spec states it fails in the "only when" direction: the source
    below has the magic number and the version of the format and one chunk
    of a recognized kind, and its construction raises, because the chunk
    body lies outside the source. *)
Lemma construction_fails_without_the_four_causes :
  exists Header Chunks,
    ReadHeader TruncatedArchive = Some Header
    /\ MagicNumber Header = HeaderMagicNumber (ArchiveFormat := Format_v1)
    /\ Version Header = GetHeaderVersion (ArchiveFormat := Format_v1)
    /\ ReadChunkHeaders TruncatedArchive Header = Some Chunks
    /\ Chunk_Type <$> Chunks = [ChunkType_to_Z ResourceSignature]
    /\ DeviceObjectArchiveBase_new (Fmt := Format_v1) (Some TruncatedArchive) Archiver.OpenGL
       = Throw ReadFailed.
Proof.
  eexists _, _. split; [vm_compute; reflexivity|].
  split; [vm_compute; reflexivity|]. split; [vm_compute; reflexivity|].
  split; [vm_compute; reflexivity|]. split; vm_compute; reflexivity.
Qed.

(** The causes of C6 at work.  The reserved kind 0 is rejected as unknown;
    and a repeated kind is not reached when the chunk before it cannot be
    read inside its buffer: over a body of two bytes [ReadNamedResources]
    reads the record count outside the buffer before the loop comes to the
    second header. *)
Lemma reserved_kind_is_unknown :
  DeviceObjectArchiveBase_new (Fmt := Format_v1) (Some UndefinedChunkArchive) Archiver.OpenGL
  = Throw UnknownChunk.
Proof. vm_compute. reflexivity. Qed.

Lemma duplicate_kind_after_short_chunk :
  exists Header,
    ReadHeader ShortChunkArchive = Some Header
    /\ (exists Chunks, ReadChunkHeaders ShortChunkArchive Header = Some Chunks
                       /\ Chunk_Type <$> Chunks = [2; 2])
    /\ DeviceObjectArchiveBase_new (Fmt := Format_v1) (Some ShortChunkArchive) Archiver.OpenGL
       = OutOfBounds.
Proof.
  eexists. split; [reflexivity|]. split; [|vm_compute; reflexivity].
  eexists. split; vm_compute; reflexivity.
Qed.

(** C7 at the failing input: the entry [Sig] has data offset [0xFFFFFFFF] and
    data size 2, far beyond the 68 bytes of the archive, the 32-bit sum of
    the two is 1, and construction succeeds with the entry in the
    directory. *)
Lemma data_range_check_wraps :
  Archive_GetSize WrapArchive = 68
  /\ 0xFFFFFFFF + 2 > Archive_GetSize WrapArchive
  /\ exists r,
       DeviceObjectArchiveBase_new (Fmt := Format_v1) (Some WrapArchive) Archiver.OpenGL = Ok r
       /\ m_PRSMap r !! bytes_of_string "Sig" = Some (MkEntry 0xFFFFFFFF 2 None).
Proof.
  split; [reflexivity|]. split; [reflexivity|].
  eexists. split; [vm_compute; reflexivity|]. vm_compute. reflexivity.
Qed.

End DeviceObjectArchiveFacts.

(** ** The reader caches *)

Module UnpackFacts.
Import Serializer DeviceObjectArchive.

(** C10. [ClearResourceCache] empties the cached handle of every entry of
    the shader table and keeps its offset and size; the named-resource
    directories with their weak caches (signatures, render passes, the four
    pipeline kinds) and every other member of the reader are unchanged. *)
Theorem ClearResourceCache_frame (r : DeviceObjectArchiveBase) :
  m_PRSMap (ClearResourceCache r) = m_PRSMap r
  /\ m_RenderPassMap (ClearResourceCache r) = m_RenderPassMap r
  /\ m_GraphicsPSOMap (ClearResourceCache r) = m_GraphicsPSOMap r
  /\ m_ComputePSOMap (ClearResourceCache r) = m_ComputePSOMap r
  /\ m_TilePSOMap (ClearResourceCache r) = m_TilePSOMap r
  /\ m_RayTracingPSOMap (ClearResourceCache r) = m_RayTracingPSOMap r
  /\ m_Shaders (ClearResourceCache r)
     = (fun Shader => MkShaderEntry (Shader_Offset Shader) (Shader_Size Shader) None)
         <$> m_Shaders r
  /\ m_pArchive (ClearResourceCache r) = m_pArchive r
  /\ m_DevType (ClearResourceCache r) = m_DevType r
  /\ m_BaseOffsets (ClearResourceCache r) = m_BaseOffsets r
  /\ m_DebugInfo (ClearResourceCache r) = m_DebugInfo r.
Proof. unfold ClearResourceCache. by destruct r. Qed.

Section Unpack.
Context `{Dev : RenderDevice}.

Lemma get_set_map k m r : get_map k (set_map k m r) = m.
Proof. by destruct k. Qed.

Lemma get_set_map_ne k k' m r : k <> k' -> get_map k' (set_map k m r) = get_map k' r.
Proof. by destruct k, k'. Qed.

Lemma set_get_map k r : set_map k (get_map k r) r = r.
Proof. by destruct k, r. Qed.

Lemma set_set_map k m m' r : set_map k m (set_map k m' r) = set_map k m r.
Proof. by destruct k. Qed.

Lemma set_map_comm k k' m m' r :
  k <> k' -> set_map k m (set_map k' m' r) = set_map k' m' (set_map k m r).
Proof. by destruct k, k'. Qed.

Lemma set_Shaders_set_map k m s r :
  set_Shaders s (set_map k m r) = set_map k m (set_Shaders s r).
Proof. by destruct k. Qed.

Lemma m_pArchive_set_map k m r : m_pArchive (set_map k m r) = m_pArchive r.
Proof. by destruct k. Qed.

Lemma m_Shaders_set_map k m r : m_Shaders (set_map k m r) = m_Shaders r.
Proof. by destruct k. Qed.

Lemma m_BaseOffsets_set_map k m r : m_BaseOffsets (set_map k m r) = m_BaseOffsets r.
Proof. by destruct k. Qed.

Lemma m_DevType_set_map k m r : m_DevType (set_map k m r) = m_DevType r.
Proof. by destruct k. Qed.

Lemma m_Shaders_set_Shaders s r : m_Shaders (set_Shaders s r) = s.
Proof. done. Qed.

Lemma m_pArchive_set_Shaders s r : m_pArchive (set_Shaders s r) = m_pArchive r.
Proof. done. Qed.

Create Rewrite HintDb reader.
#[local] Hint Rewrite get_set_map set_set_map set_Shaders_set_map m_pArchive_set_map
  m_Shaders_set_map m_BaseOffsets_set_map m_DevType_set_map : reader.
#[local] Hint Rewrite get_set_map_ne using done : reader.

Lemma LoadDeviceSpecificData_set_map k m r Header :
  LoadDeviceSpecificData (set_map k m r) Header = LoadDeviceSpecificData r Header.
Proof. unfold LoadDeviceSpecificData. by autorewrite with reader. Qed.

Lemma LoadResourceData_set_map_ne k k' m n r :
  k <> k' -> LoadResourceData k' n (set_map k m r) = LoadResourceData k' n r.
Proof. intros. unfold LoadResourceData. by autorewrite with reader. Qed.

(** The directory lookup of [LoadResourceData] reads the offset and the size
    of the entry, not its cache. *)
Lemma LoadResourceData_same_directory k m n r :
  same_directory m (get_map k r) ->
  LoadResourceData k n (set_map k m r) = LoadResourceData k n r.
Proof.
  intros Hsame. unfold LoadResourceData. autorewrite with reader.
  specialize (Hsame n).
  destruct (m !! n) as [e1|], (get_map k r !! n) as [e2|]; cbn in Hsame; try done.
  by injection Hsame as -> ->.
Qed.

Lemma GetCachedResource_set_map_ne k k' m n r dev :
  k <> k' -> GetCachedResource n k' (set_map k m r) dev = GetCachedResource n k' r dev.
Proof. intros. unfold GetCachedResource. by autorewrite with reader. Qed.

Lemma CacheResource_set_map_ne k k' m n p r dev :
  k <> k' ->
  CacheResource n k' p (set_map k m r) dev
  = ((set_map k m (CacheResource n k' p r dev).1), (CacheResource n k' p r dev).2).
Proof.
  intros Hne. unfold CacheResource. autorewrite with reader.
  destruct (get_map k' r !! n) as [e|]; [|done].
  destruct (match Entry_Cache e with
            | Some obj => _
            | None => _
            end) as [alive dev'].
  destruct alive; [done|]. cbn. by rewrite set_map_comm.
Qed.

Lemma ReadPRSData_set_map_ne k m n r :
  k <> PRSMap -> ReadPRSData n (set_map k m r) = ReadPRSData n r.
Proof. intros. unfold ReadPRSData. by rewrite LoadResourceData_set_map_ne. Qed.

Lemma ReadRPData_set_map_ne k m n r :
  k <> RenderPassMap -> ReadRPData n (set_map k m r) = ReadRPData n r.
Proof. intros. unfold ReadRPData. by rewrite LoadResourceData_set_map_ne. Qed.

Lemma ReadRPData_same_directory m n r :
  same_directory m (m_RenderPassMap r) ->
  ReadRPData n (set_map RenderPassMap m r) = ReadRPData n r.
Proof. intros. unfold ReadRPData. by rewrite LoadResourceData_same_directory. Qed.

Lemma ReadPSOData_same_directory Type_ k m n r :
  same_directory m (get_map k r) ->
  ReadPSOData Type_ n k (set_map k m r) = ReadPSOData Type_ n k r.
Proof. intros. unfold ReadPSOData. by rewrite LoadResourceData_same_directory. Qed.

(** Unpacking a render pass or a signature, loading shaders: none of them
    reads or writes a directory other than its own. *)
Lemma UnpackRenderPass_set_map_ne k m info r dev :
  k <> RenderPassMap ->
  UnpackRenderPass info (set_map k m r) dev = with_map k m (UnpackRenderPass info r dev).
Proof.
  intros Hne. unfold UnpackRenderPass, with_map.
  rewrite GetCachedResource_set_map_ne, ReadRPData_set_map_ne by done.
  destruct (negb (negb (AttachmentCount info =? 0))).
  - destruct (GetCachedResource _ _ _ _) as [[p|] dev0]; [done|].
    destruct (ReadRPData _ _) as [RP|]; [|done].
    destruct (CreateRenderPass_ _ _) as [pRP dev1].
    rewrite CacheResource_set_map_ne by done.
    by destruct (CacheResource _ _ _ _ _) as [r' dev2].
  - destruct (ReadRPData _ _) as [RP|]; [|done].
    by destruct (CreateRenderPass_ _ _) as [pRP dev1].
Qed.

Lemma UnpackResourceSignature_set_map_ne k m info r dev :
  k <> PRSMap ->
  UnpackResourceSignature info (set_map k m r) dev
  = with_map k m (UnpackResourceSignature info r dev).
Proof.
  intros Hne. unfold UnpackResourceSignature, with_map.
  rewrite GetCachedResource_set_map_ne, ReadPRSData_set_map_ne by done.
  destruct (GetCachedResource _ _ _ _) as [[p|] dev0]; [done|].
  destruct (ReadPRSData _ _) as [PRS|]; [|done].
  rewrite LoadDeviceSpecificData_set_map.
  destruct (LoadDeviceSpecificData _ _) as [pData|]; [|done].
  destruct (CreateSignature _ _ _) as [pSignature dev1].
  rewrite CacheResource_set_map_ne by done.
  by destruct (CacheResource _ _ _ _ _) as [r' dev2].
Qed.

Lemma UnpackSignatures_set_map_ne k m Names : forall pp r dev,
  k <> PRSMap ->
  UnpackSignatures Names pp (set_map k m r) dev
  = with_map4 k m (UnpackSignatures Names pp r dev).
Proof.
  induction Names as [|Name rest IH]; intros pp r dev Hne; cbn [UnpackSignatures]; [done|].
  rewrite UnpackResourceSignature_set_map_ne by done. unfold with_map.
  destruct (UnpackResourceSignature _ r dev) as [[[p|] r'] dev']; cbn; [|done].
  by apply IH.
Qed.

Lemma CreateResourceSignatures_set_map_ne k m PSO r dev :
  k <> PRSMap ->
  CreateResourceSignatures PSO (set_map k m r) dev
  = with_map4 k m (CreateResourceSignatures PSO r dev).
Proof.
  intros Hne. unfold CreateResourceSignatures.
  destruct (CI_ResourceSignaturesCount (PSO_CreateInfo PSO) =? 0); [done|].
  rewrite UnpackSignatures_set_map_ne by done. unfold with_map4.
  by destruct (UnpackSignatures _ _ r dev) as [[[ok pp] r'] dev'].
Qed.

Lemma CreateRenderPass_set_map_ne k m PSO r dev :
  k <> RenderPassMap ->
  CreateRenderPass PSO (set_map k m r) dev = with_map4 k m (CreateRenderPass PSO r dev).
Proof.
  intros Hne. unfold CreateRenderPass.
  destruct (PSO_RenderPassName PSO) as [[|c n]|]; try done.
  rewrite UnpackRenderPass_set_map_ne by done. unfold with_map, with_map4.
  by destruct (UnpackRenderPass _ r dev) as [[[p|] r'] dev'].
Qed.

Lemma LoadShaderList_set_map k m BaseOffset Indices : forall Loaded r dev,
  LoadShaderList BaseOffset Indices Loaded (set_map k m r) dev
  = with_map k m (LoadShaderList BaseOffset Indices Loaded r dev).
Proof.
  induction Indices as [|Idx rest IH]; intros Loaded r dev; cbn [LoadShaderList]; [done|].
  autorewrite with reader.
  destruct (m_Shaders r !! Z.to_nat Idx) as [e|]; [|done].
  destruct (Shader_Cache e) as [pShader|]; [by apply IH|].
  destruct (Archive_Read _ _ _) as [pData|]; [|done].
  destruct (Serialize Read _ _ _) as [[[ShaderType [EntryPoint_ [Lang Comp]]] Ser2]|]; [|done].
  destruct (CreateShader _ dev) as [[sh|] dev']; [|done].
  by rewrite <- IH, set_Shaders_set_map.
Qed.

Lemma LoadShaders_set_map k m pData r dev :
  LoadShaders pData (set_map k m r) dev = with_map k m (LoadShaders pData r dev).
Proof.
  unfold LoadShaders. autorewrite with reader.
  destruct (decide _); [done|].
  destruct (Serialize Read _ _ _) as [[Indices ?]|]; [|done].
  apply LoadShaderList_set_map.
Qed.

Lemma same_directory_refl m : same_directory m m.
Proof. by intros n. Qed.

(** A step that commutes with every replacement of the caches of a
    directory leaves that directory as it was. *)
Lemma frame_of_commutes {X : Type} k
  (f : DeviceObjectArchiveBase -> Device -> X * DeviceObjectArchiveBase * Device) r dev :
  (forall m, same_directory m (get_map k r) ->
             f (set_map k m r) dev = with_map k m (f r dev)) ->
  get_map k (f r dev).1.2 = get_map k r.
Proof.
  intros H. specialize (H (get_map k r) (same_directory_refl _)).
  rewrite set_get_map in H. rewrite H at 1. unfold with_map. cbn. apply get_set_map.
Qed.

Lemma UnpackGraphicsPSO_override info r dev m :
  OverrideFlags info <> 0 ->
  same_directory m (get_map GraphicsPSOMap r) ->
  UnpackGraphicsPSO info (set_map GraphicsPSOMap m r) dev
  = with_map GraphicsPSOMap m (UnpackGraphicsPSO info r dev).
Proof.
  intros Hflags Hsame. unfold UnpackGraphicsPSO, PSO_UNPACK_OVERRIDE_FLAG_NONE.
  rewrite (proj2 (Z.eqb_neq _ _) Hflags). cbn [negb].
  rewrite ReadPSOData_same_directory by done.
  destruct (ReadPSOData _ _ _ r) as [PSO|]; [|done].
  rewrite CreateRenderPass_set_map_ne by done. unfold with_map4.
  destruct (CreateRenderPass PSO r dev) as [[[ok1 PSO1] r1] dev1]. cbn [fst snd].
  destruct ok1; cbn [negb]; [|done].
  rewrite CreateResourceSignatures_set_map_ne by done. unfold with_map4.
  destruct (CreateResourceSignatures PSO1 r1 dev1) as [[[ok2 PSO2] r2] dev2]. cbn [fst snd].
  destruct ok2; cbn [negb]; [|done].
  rewrite LoadDeviceSpecificData_set_map.
  destruct (LoadDeviceSpecificData r2 _) as [pData|]; [|done].
  rewrite LoadShaders_set_map. unfold with_map at 1.
  destruct (LoadShaders pData r2 dev2) as [[[Loaded|] r3] dev3]; cbn [fst snd]; [|done].
  destruct (AssignGraphicsShaders _ _ _) as [CI4|]; [|done].
  by destruct (CreateGraphicsPipelineState _ _) as [pPSO dev4].
Qed.

Lemma UnpackTilePSO_override info r dev m :
  OverrideFlags info <> 0 ->
  same_directory m (get_map TilePSOMap r) ->
  UnpackTilePSO info (set_map TilePSOMap m r) dev
  = with_map TilePSOMap m (UnpackTilePSO info r dev).
Proof.
  intros Hflags Hsame. unfold UnpackTilePSO, PSO_UNPACK_OVERRIDE_FLAG_NONE.
  rewrite (proj2 (Z.eqb_neq _ _) Hflags). cbn [negb].
  rewrite ReadPSOData_same_directory by done.
  destruct (ReadPSOData _ _ _ r) as [PSO|]; [|done].
  rewrite CreateResourceSignatures_set_map_ne by done. unfold with_map4.
  destruct (CreateResourceSignatures PSO r dev) as [[[ok2 PSO2] r2] dev2]. cbn [fst snd].
  destruct ok2; cbn [negb]; [|done].
  rewrite LoadDeviceSpecificData_set_map.
  destruct (LoadDeviceSpecificData r2 _) as [pData|]; [|done].
  rewrite LoadShaders_set_map. unfold with_map at 1.
  destruct (LoadShaders pData r2 dev2) as [[[[|Shader [|? ?]]|] r3] dev3]; cbn [fst snd];
    try done.
  destruct (decide _); [done|].
  by destruct (CreateTilePipelineState _ _) as [pPSO dev4].
Qed.

Lemma UnpackRenderPass_override info r dev m :
  AttachmentCount info <> 0 ->
  same_directory m (get_map RenderPassMap r) ->
  UnpackRenderPass info (set_map RenderPassMap m r) dev
  = with_map RenderPassMap m (UnpackRenderPass info r dev).
Proof.
  intros Hcount Hsame. unfold UnpackRenderPass.
  rewrite (proj2 (Z.eqb_neq _ _) Hcount). cbn [negb].
  rewrite ReadRPData_same_directory by done.
  destruct (ReadRPData _ r) as [RP|]; [|done].
  by destruct (CreateRenderPass_ _ _) as [pRP dev1].
Qed.

(** C8. An unpack request that carries an override flag (a graphics or tile
    pipeline request whose [OverrideFlags] are not empty, a render-pass
    request with an attachment override whose flags are not empty) neither
    consults nor writes the weak-reference cache of its directory: the
    directory, caches included, is the same after the call, and the object
    returned, the reader and the device after the call do not depend on what
    the caches of the directory hold (replacing them by any others gives the
    same result, with the replaced caches still in place). *)
Theorem override_unpack_skips_cache :
  (forall info r dev m,
     OverrideFlags info <> 0 ->
     same_directory m (m_GraphicsPSOMap r) ->
     m_GraphicsPSOMap (UnpackGraphicsPSO info r dev).1.2 = m_GraphicsPSOMap r
     /\ UnpackGraphicsPSO info (set_map GraphicsPSOMap m r) dev
        = with_map GraphicsPSOMap m (UnpackGraphicsPSO info r dev))
  /\ (forall info r dev m,
        OverrideFlags info <> 0 ->
        same_directory m (m_TilePSOMap r) ->
        m_TilePSOMap (UnpackTilePSO info r dev).1.2 = m_TilePSOMap r
        /\ UnpackTilePSO info (set_map TilePSOMap m r) dev
           = with_map TilePSOMap m (UnpackTilePSO info r dev))
  /\ (forall info r dev m,
        (exists a, a ∈ RPInfo_pAttachments info /\ Att_OverrideFlags a <> 0) ->
        same_directory m (m_RenderPassMap r) ->
        m_RenderPassMap (UnpackRenderPass info r dev).1.2 = m_RenderPassMap r
        /\ UnpackRenderPass info (set_map RenderPassMap m r) dev
           = with_map RenderPassMap m (UnpackRenderPass info r dev)).
Proof.
  split; [|split].
  - intros info r dev m Hflags Hsame. split; [|by apply UnpackGraphicsPSO_override].
    apply (frame_of_commutes GraphicsPSOMap (UnpackGraphicsPSO info)).
    intros m' Hm'. by apply UnpackGraphicsPSO_override.
  - intros info r dev m Hflags Hsame. split; [|by apply UnpackTilePSO_override].
    apply (frame_of_commutes TilePSOMap (UnpackTilePSO info)).
    intros m' Hm'. by apply UnpackTilePSO_override.
  - intros info r dev m (a & Ha & _) Hsame.
    assert (Hcount : AttachmentCount info <> 0).
    { unfold AttachmentCount. destruct (RPInfo_pAttachments info); [|done].
      by apply elem_of_nil in Ha. }
    split; [|by apply UnpackRenderPass_override].
    apply (frame_of_commutes RenderPassMap (UnpackRenderPass info)).
    intros m' Hm'. by apply UnpackRenderPass_override.
Qed.

End Unpack.

Lemma override_unpack_skips_cache_witness :
  m_GraphicsPSOMap
    (UnpackGraphicsPSO (Dev := CountingDevice) S6_Override (S6_Reader (Some 100)) 1000).1.2
  = m_GraphicsPSOMap (S6_Reader (Some 100))
  /\ UnpackGraphicsPSO (Dev := CountingDevice) S6_Override
       (set_map GraphicsPSOMap (m_GraphicsPSOMap (S6_Reader None)) (S6_Reader (Some 100))) 1000
     = with_map (Dev := CountingDevice) GraphicsPSOMap (m_GraphicsPSOMap (S6_Reader None))
         (UnpackGraphicsPSO (Dev := CountingDevice) S6_Override (S6_Reader (Some 100)) 1000).
Proof.
  apply (proj1 (override_unpack_skips_cache (Dev := CountingDevice))).
  - discriminate.
  - intros n. cbn. rewrite !lookup_insert. case_decide; [done|]. by rewrite !lookup_empty.
Defined.

(** Seed scenario S6: the request without overrides returns the cached
    object 100; the request with the [BLEND_STATE] flag returns the new
    object 1000 and leaves 100 in the cache. *)
Example S6_override_bypasses_cache :
  (UnpackGraphicsPSO (Dev := CountingDevice) S6_Plain (S6_Reader (Some 100)) 1000).1.1
  = Some 100
  /\ (UnpackGraphicsPSO (Dev := CountingDevice) S6_Override (S6_Reader (Some 100)) 1000).1.1
     = Some 1000
  /\ m_GraphicsPSOMap
       (UnpackGraphicsPSO (Dev := CountingDevice) S6_Override (S6_Reader (Some 100)) 1000).1.2
     !! bytes_of_string "P" = Some (MkEntry 0 52 (Some 100)).
Proof. split; [|split]; vm_compute; reflexivity. Qed.

End UnpackFacts.

(** * Part III: further properties of the writer and the reader *)

Module RegistryFacts.
Import Serializer Archiver ArchiverFacts ArchiveStream.

Section Registry.
Context `{Ext : Externals}.

(** X1. [AddRenderPass] fails on a null pointer and leaves the writer as it
    is; it returns [true] and leaves the writer as it is when the same
    object is registered under the name; it returns [false] and leaves the
    writer as it is when another object is registered under the name; and
    otherwise it registers the render pass under its name, changing nothing
    but the render-pass map. *)
Theorem AddRenderPass_spec (w : ArchiverImpl) (pRP : SerializableRenderPassImpl) :
  AddRenderPass None w = (false, w)
  /\ (forall found, m_RPMap w !! rp_Name pRP = Some found ->
        rp_this found = rp_this pRP -> AddRenderPass (Some pRP) w = (true, w))
  /\ (forall found, m_RPMap w !! rp_Name pRP = Some found ->
        rp_this found <> rp_this pRP -> AddRenderPass (Some pRP) w = (false, w))
  /\ (m_RPMap w !! rp_Name pRP = None ->
      AddRenderPass (Some pRP) w = (true, set_RPMap (<[rp_Name pRP := pRP]> (m_RPMap w)) w)).
Proof.
  unfold AddRenderPass, emplace. split; [done|]. split; [|split].
  - intros found -> Heq. cbn. by case_bool_decide.
  - intros found -> Hne. cbn. by case_bool_decide.
  - by intros ->.
Qed.



(** *** Rejected pipelines *)

Lemma SerializePSO_invalid kind CI AI w :
  ValidatePipelineStateArchiveInfo CI AI GetValidDeviceFlags = false
  \/ ValidatePSOCreateInfo kind CI = false ->
  SerializePSO kind CI AI w = (false, w).
Proof.
  intros H. unfold SerializePSO.
  destruct H as [-> | ->]; [done|]. by rewrite andb_false_r.
Qed.

Lemma SerializePSO_duplicate kind CI AI w Name :
  PSODesc_Name CI = Some Name ->
  is_Some (PSOMap kind w !! Name) ->
  SerializePSO kind CI AI w = (false, w).
Proof.
  intros HName [Data HData]. unfold SerializePSO, emplace. rewrite HName, HData.
  by destruct (negb _).
Qed.

Lemma AddRenderPass_other pRP w :
  (forall k, PSOMap k (AddRenderPass pRP w).2 = PSOMap k w)
  /\ m_PRSMap (AddRenderPass pRP w).2 = m_PRSMap w
  /\ m_PRSCache (AddRenderPass pRP w).2 = m_PRSCache w
  /\ m_Shaders (AddRenderPass pRP w).2 = m_Shaders w.
Proof.
  unfold AddRenderPass, emplace. destruct pRP as [pRPImpl|]; [|done].
  destruct (m_RPMap w !! rp_Name pRPImpl); cbn; [by case_bool_decide|].
  split; [by intros []|done].
Qed.

(** X3. Adding a pipeline whose name is already a key of the pipeline map
    of its kind returns [false]; the four pipeline maps, the signature map,
    the signature cache and the shader lists are as before (for a graphics
    pipeline the render pass may have been registered; for the other kinds
    the writer is unchanged). *)
Theorem add_pipeline_duplicate_name (kind : PSOKind) (CI : PipelineStateCreateInfo)
  (AI : PipelineStateArchiveInfo) (w : ArchiverImpl) (Name : string) :
  PSODesc_Name CI = Some Name ->
  is_Some (PSOMap kind w !! Name) ->
  (AddPipelineState kind CI AI w).1 = false
  /\ (forall k, PSOMap k (AddPipelineState kind CI AI w).2 = PSOMap k w)
  /\ m_PRSMap (AddPipelineState kind CI AI w).2 = m_PRSMap w
  /\ m_PRSCache (AddPipelineState kind CI AI w).2 = m_PRSCache w
  /\ m_Shaders (AddPipelineState kind CI AI w).2 = m_Shaders w
  /\ (kind <> GraphicsPSO -> (AddPipelineState kind CI AI w).2 = w).
Proof.
  intros HName Hdup.
  destruct kind; cbn [AddPipelineState];
    try (unfold AddComputePipelineState, AddTilePipelineState, AddRayTracingPipelineState;
         rewrite (SerializePSO_duplicate _ CI AI w Name HName Hdup); done).
  unfold AddGraphicsPipelineState.
  destruct (pRenderPass CI) as [pRP|];
    [|rewrite (SerializePSO_duplicate _ CI AI w Name HName Hdup); done].
  destruct (AddRenderPass_other (Some pRP) w) as (Hk & Hp & Hc & Hs).
  destruct (AddRenderPass (Some pRP) w) as [ok w1]. cbn [fst snd] in *.
  destruct ok; cbn [negb]; [|done].
  rewrite (SerializePSO_duplicate _ CI AI w1 Name HName) by (by rewrite Hk). done.
Qed.

(** X4. Adding a pipeline that fails validation returns [false].  The
    writer is unchanged, except for a graphics pipeline with a render pass:
    [AddGraphicsPipelineState] registers the render pass before the
    pipeline is validated, so a render pass whose name was free is in the
    render-pass map after the failed call. *)
Theorem add_pipeline_invalid_argument (kind : PSOKind) (CI : PipelineStateCreateInfo)
  (AI : PipelineStateArchiveInfo) (w : ArchiverImpl) :
  ValidatePipelineStateArchiveInfo CI AI GetValidDeviceFlags = false
  \/ ValidatePSOCreateInfo kind CI = false ->
  (AddPipelineState kind CI AI w).1 = false
  /\ (kind <> GraphicsPSO \/ pRenderPass CI = None -> (AddPipelineState kind CI AI w).2 = w)
  /\ (forall pRP, kind = GraphicsPSO -> pRenderPass CI = Some pRP ->
        m_RPMap w !! rp_Name pRP = None ->
        (AddPipelineState kind CI AI w).2
        = set_RPMap (<[rp_Name pRP := pRP]> (m_RPMap w)) w).
Proof.
  intros Hinv.
  destruct kind; cbn [AddPipelineState];
    try (unfold AddComputePipelineState, AddTilePipelineState, AddRayTracingPipelineState;
         rewrite (SerializePSO_invalid _ CI AI w Hinv);
         split; [done|]; split; [done|]; by intros pRP [=]).
  unfold AddGraphicsPipelineState, AddRenderPass, emplace.
  destruct (pRenderPass CI) as [pRP|].
  - split; [|split].
    + destruct (m_RPMap w !! rp_Name pRP); cbn.
      * case_bool_decide; [done|]. by rewrite SerializePSO_invalid.
      * by rewrite SerializePSO_invalid.
    + by intros [|].
    + intros ? _ [= <-] ->. cbn. by rewrite SerializePSO_invalid.
  - rewrite (SerializePSO_invalid _ CI AI w Hinv). split; [done|]. split; [done|].
    by intros pRP _ [=].
Qed.

(** *** Accepted pipelines *)

Lemma PatchLoop_data kind Name InLayout UseDefaultPRS DeviceBits :
  forall CI Data DefPRS w,
    PSOMap kind w !! Name = Some Data ->
    PSOMap kind (PatchLoop kind Name InLayout UseDefaultPRS DeviceBits CI Data DefPRS w).2.2
      !! Name
    = Some (PatchLoop kind Name InLayout UseDefaultPRS DeviceBits CI Data DefPRS w).2.1.1.2.
Proof.
  induction DeviceBits as [|Type_ rest IH]; intros CI Data DefPRS w HData; cbn [PatchLoop].
  - done.
  - destruct (match PatchShaders kind Type_ with
              | Some Patch => Patch CI Data DefPRS w
              | None => (true, (CI, Data, DefPRS, w))
              end) as [ok [[[CI1 Data1] DefPRS1] w1]].
    destruct ok; cbn [negb].
    + apply IH. apply SetData_lookup.
    + cbn. apply SetData_lookup.
Qed.

Lemma AddPipelineResourceSignature_PSOMap pPRS w k :
  PSOMap k (AddPipelineResourceSignature pPRS w).2 = PSOMap k w.
Proof.
  unfold AddPipelineResourceSignature, emplace. destruct pPRS as [p|]; [|done].
  destruct (m_PRSMap w !! prs_Name p); cbn; [by case_bool_decide|by destruct k].
Qed.

Lemma AddSignatures_PSOMap pp idxs : forall PRSNames w k,
  PSOMap k (AddSignatures pp idxs PRSNames w).2 = PSOMap k w.
Proof.
  induction idxs as [|i rest IH]; intros PRSNames w k; cbn [AddSignatures]; [done|].
  pose proof (AddPipelineResourceSignature_PSOMap (default None (pp !! i)) w k) as H.
  destruct (AddPipelineResourceSignature _ w) as [ok w1]. cbn [snd] in H.
  destruct ok; cbn [negb]; [by rewrite IH|done].
Qed.

Lemma SerializePSO_success kind CI AI w w' :
  SerializePSO kind CI AI w = (true, w') ->
  exists Name Data,
    PSODesc_Name CI = Some Name
    /\ PSOMap kind w !! Name = None
    /\ PSOMap kind w' !! Name = Some Data
    /\ Mem_bool (SharedData Data) = true
    /\ (forall k n, (k, n) <> (kind, Name) -> PSOMap k w' !! n = PSOMap k w !! n)
    /\ ValidatePipelineStateArchiveInfo CI AI GetValidDeviceFlags = true
    /\ ValidatePSOCreateInfo kind CI = true.
Proof.
  unfold SerializePSO, emplace.
  destruct (ValidatePipelineStateArchiveInfo CI AI GetValidDeviceFlags) eqn:Hv1; [|done].
  destruct (ValidatePSOCreateInfo kind CI) eqn:Hv2; [|done]. cbn [andb negb].
  destruct (PSODesc_Name CI) as [Name|]; [|done].
  destruct (PSOMap kind w !! Name) eqn:Hfresh; [done|]. cbn [negb].
  match goal with |- context [PatchLoop ?k ?n ?l ?u ?b ?c ?d ?p ?x] =>
    pose proof (PatchLoop_data k n l u b c d p x) as Hdata;
    destruct (PatchLoop_frame k n l u b c d p x) as [_ Hother];
    destruct (PatchLoop k n l u b c d p x) as [ok [[[CI1 Data1] DefPRS1] w1]]
  end.
  cbn [fst snd] in *.
  rewrite PSOMap_set_PSOMap, lookup_insert_eq in Hdata. specialize (Hdata eq_refl).
  assert (Hother' : forall k n, (k, n) <> (kind, Name) -> PSOMap k w1 !! n = PSOMap k w !! n).
  { intros k n Hne. rewrite Hother by done.
    destruct (decide (kind = k)) as [<-|Hk].
    - rewrite PSOMap_set_PSOMap, lookup_insert_ne; [done|]. congruence.
    - by rewrite PSOMap_set_PSOMap_ne. }
  destruct ok; cbn [negb]; [|done].
  destruct (Mem_bool (SharedData Data1)) eqn:Hshared.
  - intros [= <-]. by exists Name, Data1.
  - match goal with |- context [AddSignatures ?pp ?idxs ?names ?x] =>
      pose proof (AddSignatures_PSOMap pp idxs names x) as Hsig;
      destruct (AddSignatures pp idxs names x) as [[PRSNames|] w2]
    end; [|done].
    cbn [snd] in Hsig. intros [= <-]. eexists Name, _.
    split; [done|]. split; [done|]. split; [apply SetData_lookup|]. split; [done|].
    split; [|done]. intros k n Hne. by rewrite SetData_lookup_ne, Hsig, Hother'.
Qed.

(** X5. When adding a pipeline returns [true], the pipeline passed
    validation, its name was not a key of the pipeline map of its kind
    before the call and is one after it, the entry under the name has
    non-null shared data, and no other entry of the four pipeline maps has
    changed. *)
Theorem add_pipeline_success (kind : PSOKind) (CI : PipelineStateCreateInfo)
  (AI : PipelineStateArchiveInfo) (w w' : ArchiverImpl) :
  AddPipelineState kind CI AI w = (true, w') ->
  exists Name Data,
    PSODesc_Name CI = Some Name
    /\ PSOMap kind w !! Name = None
    /\ PSOMap kind w' !! Name = Some Data
    /\ Mem_bool (SharedData Data) = true
    /\ (forall k n, (k, n) <> (kind, Name) -> PSOMap k w' !! n = PSOMap k w !! n)
    /\ ValidatePipelineStateArchiveInfo CI AI GetValidDeviceFlags = true
    /\ ValidatePSOCreateInfo kind CI = true.
Proof.
  destruct kind; cbn [AddPipelineState]; try apply SerializePSO_success.
  unfold AddGraphicsPipelineState.
  destruct (pRenderPass CI) as [pRP|]; [|apply SerializePSO_success].
  destruct (AddRenderPass_other (Some pRP) w) as (Hk & _).
  destruct (AddRenderPass (Some pRP) w) as [ok w1]. cbn [fst snd] in *.
  destruct ok; cbn [negb]; [|done].
  intros (Name & Data & H1 & H2 & H3 & H4 & H5 & H6)%SerializePSO_success.
  exists Name, Data. rewrite Hk in H2. split; [done|]. split; [done|]. split; [done|].
  split; [done|]. split; [|done]. intros k n Hne. by rewrite H5, Hk.
Qed.

(** *** The signature cache *)

Lemma find_app_None {A} (f : A -> bool) (l : list A) (x : A) :
  List.find f l = None -> f x = true -> List.find f (l ++ [x]) = Some x.
Proof.
  induction l as [|y l IH]; cbn; intros Hl Hx; [by rewrite Hx|].
  destruct (f y); [done|]. by apply IH.
Qed.

(** X7. [CachePipelineResourceSignature]: when the cache holds a signature
    equal to the new one, the call returns [true], hands back the cached
    signature and changes nothing.  Otherwise the new signature goes into
    the cache first and is then registered by name: with a free name the
    call returns [true] and the signature is in the map and in the cache;
    with a name taken by another object the call returns [false], the map
    is unchanged, and the signature stays in the cache, so that the same
    call again returns [true] although the signature is not registered. *)
Theorem CachePipelineResourceSignature_spec (pPRS : SerializableResourceSignatureImpl)
  (w : ArchiverImpl) :
  (forall found, List.find (PRS_Equal pPRS) (m_PRSCache w) = Some found ->
     CachePipelineResourceSignature pPRS w = (true, found, w))
  /\ (List.find (PRS_Equal pPRS) (m_PRSCache w) = None ->
      m_PRSMap w !! prs_Name pPRS = None ->
      exists w', CachePipelineResourceSignature pPRS w = (true, pPRS, w')
                 /\ m_PRSMap w' = <[prs_Name pPRS := pPRS]> (m_PRSMap w)
                 /\ pPRS ∈ m_PRSCache w')
  /\ (forall other, List.find (PRS_Equal pPRS) (m_PRSCache w) = None ->
        m_PRSMap w !! prs_Name pPRS = Some other ->
        prs_this other <> prs_this pPRS ->
        PRS_Equal pPRS pPRS = true ->
        exists w', CachePipelineResourceSignature pPRS w = (false, pPRS, w')
                   /\ m_PRSMap w' = m_PRSMap w
                   /\ m_PRSCache w' = m_PRSCache w ++ [pPRS]
                   /\ CachePipelineResourceSignature pPRS w' = (true, pPRS, w')).
Proof.
  unfold CachePipelineResourceSignature. split; [|split].
  - by intros found ->.
  - intros -> Hfree. unfold AddPipelineResourceSignature, emplace. cbn.
    rewrite Hfree. cbn. eexists. split; [done|]. split; [done|]. cbn.
    unfold PRSCache_insert. destruct (existsb _ _).
    + apply elem_of_app. right. apply list_elem_of_here.
    + apply elem_of_app. left. apply elem_of_app. right. apply list_elem_of_here.
  - intros other Hnone Hother Hne Hrefl. rewrite Hnone.
    unfold AddPipelineResourceSignature, emplace. cbn. rewrite Hother. cbn.
    rewrite bool_decide_eq_true_2 by done.
    eexists. split; [done|]. split; [done|]. split; [done|]. cbn.
    by rewrite (find_app_None _ _ _ Hnone Hrefl).
Qed.

(** *** Shader indices tell shader keys apart *)

(** X8. Shader indices tell content keys apart: when two calls of a run
    of [serialize_shader] calls for a backend yield the same index, their
    content keys are byte-identical. *)
Theorem serialize_shader_index_injective (DevType : DeviceType) (calls : list ShaderCall)
  (w : ArchiverImpl) :
  shaders_wf (m_Shaders w DevType) ->
  Z.of_nat (length (Shaders_List (m_Shaders w DevType)) + length calls) <= 2 ^ 32 ->
  forall j1 j2 c1 c2,
    calls !! j1 = Some c1 -> calls !! j2 = Some c2 ->
    (serialize_shaders [] DevType calls w).1 !! j1
    = (serialize_shaders [] DevType calls w).1 !! j2 ->
    ShaderCall_Key c1 = ShaderCall_Key c2.
Proof.
  intros Hwf Hlen j1 j2 c1 c2 H1 H2.
  destruct (serialize_shaders_spec DevType calls [] w Hwf Hlen) as
    (res & w' & E & _ & _ & _ & Hidx & _).
  rewrite E. cbn [fst app].
  destruct (Hidx j1 c1 H1) as (i1 & -> & Hk1), (Hidx j2 c2 H2) as (i2 & -> & Hk2).
  intros [= Heq%Nat2Z.inj]. subst i2. congruence.
Qed.

End Registry.

Lemma AddRenderPass_spec_witness :
  AddRenderPass (Some RP1) (set_RPMap {[ "RP" := RP1 ]} ArchiverImpl_new)
  = (true, set_RPMap {[ "RP" := RP1 ]} ArchiverImpl_new)
  /\ AddRenderPass (Some RP1_other) (set_RPMap {[ "RP" := RP1 ]} ArchiverImpl_new)
     = (false, set_RPMap {[ "RP" := RP1 ]} ArchiverImpl_new)
  /\ AddRenderPass (Some RP1) ArchiverImpl_new
     = (true, set_RPMap (<[ "RP" := RP1 ]> ∅) ArchiverImpl_new).
Proof.
  split; [|split].
  - apply (proj1 (proj2 (AddRenderPass_spec
                           (set_RPMap {[ "RP" := RP1 ]} ArchiverImpl_new) RP1)) RP1).
    + apply lookup_singleton_eq.
    + reflexivity.
  - apply (proj1 (proj2 (proj2 (AddRenderPass_spec
                           (set_RPMap {[ "RP" := RP1 ]} ArchiverImpl_new) RP1_other))) RP1).
    + apply lookup_singleton_eq.
    + discriminate.
  - apply (proj2 (proj2 (proj2 (AddRenderPass_spec ArchiverImpl_new RP1)))).
    apply lookup_empty.
Defined.

Lemma CachePipelineResourceSignature_spec_witness :
  exists w',
    CachePipelineResourceSignature (Ext := FailingBackends) Sig1_other
      (set_PRSMap {[ "Sig" := Sig1 ]} ArchiverImpl_new) = (false, Sig1_other, w')
    /\ m_PRSMap w' = m_PRSMap (set_PRSMap {[ "Sig" := Sig1 ]} ArchiverImpl_new)
    /\ m_PRSCache w'
       = m_PRSCache (set_PRSMap {[ "Sig" := Sig1 ]} ArchiverImpl_new) ++ [Sig1_other]
    /\ CachePipelineResourceSignature (Ext := FailingBackends) Sig1_other w'
       = (true, Sig1_other, w').
Proof.
  apply (proj2 (proj2 (CachePipelineResourceSignature_spec (Ext := FailingBackends) Sig1_other
                         (set_PRSMap {[ "Sig" := Sig1 ]} ArchiverImpl_new))) Sig1).
  - reflexivity.
  - apply lookup_singleton_eq.
  - discriminate.
  - reflexivity.
Defined.

Lemma add_pipeline_duplicate_name_witness :
  (AddPipelineState (Ext := FailingBackends) ComputePSO ComputeP ForD3D11 WriterWithP).1 = false
  /\ (AddPipelineState (Ext := FailingBackends) ComputePSO ComputeP ForD3D11 WriterWithP).2
     = WriterWithP.
Proof.
  destruct (add_pipeline_duplicate_name (Ext := FailingBackends) ComputePSO ComputeP ForD3D11
              WriterWithP "P") as (Hfalse & _ & _ & _ & _ & Hsame).
  - reflexivity.
  - eexists. apply lookup_singleton_eq.
  - split; [exact Hfalse|]. by apply Hsame.
Defined.

Lemma add_pipeline_invalid_argument_witness :
  (AddPipelineState (Ext := FailingBackends) GraphicsPSO GraphicsG ForNoDevice
     ArchiverImpl_new).1 = false
  /\ (AddPipelineState (Ext := FailingBackends) GraphicsPSO GraphicsG ForNoDevice
        ArchiverImpl_new).2
     = set_RPMap (<[ "RP" := RP1 ]> ∅) ArchiverImpl_new.
Proof.
  destruct (add_pipeline_invalid_argument (Ext := FailingBackends) GraphicsPSO GraphicsG
              ForNoDevice ArchiverImpl_new) as (Hfalse & _ & Hrp).
  - left. reflexivity.
  - split; [exact Hfalse|]. apply (Hrp RP1); [reflexivity|reflexivity|apply lookup_empty].
Defined.

Lemma add_pipeline_success_witness :
  exists Data,
    PSOMap ComputePSO
      (AddPipelineState (Ext := FailingBackends) ComputePSO ComputeP ForGL ArchiverImpl_new).2
      !! "P" = Some Data
    /\ Mem_bool (SharedData Data) = true.
Proof.
  destruct (add_pipeline_success (Ext := FailingBackends) ComputePSO ComputeP ForGL
              ArchiverImpl_new
              (AddPipelineState (Ext := FailingBackends) ComputePSO ComputeP ForGL
                 ArchiverImpl_new).2)
    as (Name & Data & HName & _ & HData & Hshared & _).
  - assert ((AddPipelineState (Ext := FailingBackends) ComputePSO ComputeP ForGL
               ArchiverImpl_new).1 = true) as E by (vm_compute; reflexivity).
    destruct (AddPipelineState _ _ _ _) as [ok w']. cbn in E. by subst ok.
  - injection HName as <-. by exists Data.
Defined.

Lemma serialize_shader_index_injective_witness :
  ShaderCall_Key (Ext := FailingBackends) (SourceCall S2_ShaderCI)
  = ShaderCall_Key (Ext := FailingBackends) (SourceCall S2_ShaderCI).
Proof.
  apply (serialize_shader_index_injective (Ext := FailingBackends) OpenGL
           [SourceCall S2_ShaderCI; BytecodeCall S2_ShaderCI [1; 2]; SourceCall S2_ShaderCI]
           ArchiverImpl_new shaders_wf_new ltac:(cbn; lia) 0%nat 2%nat);
    [reflexivity|reflexivity|vm_compute; reflexivity].
Defined.

End RegistryFacts.

Module ParserFacts.
Import Serializer DeviceObjectArchive DeviceObjectArchiveFacts UnpackFacts Dearchiver.

Section Parser.
Context `{Fmt : ArchiveFormat}.

Lemma Archive_Read_Some A Pos Size Data :
  Archive_Read A Pos Size = Some Data ->
  0 <= Pos /\ 0 <= Size /\ Pos + Size <= Archive_GetSize A
  /\ Z.of_nat (length Data) = Size
  /\ Data = take (Z.to_nat Size) (drop (Z.to_nat Pos) A).
Proof.
  unfold Archive_Read, Archive_GetSize. destruct (decide _) as [(H1 & H2 & H3)|]; [|done].
  intros [= <-]. repeat split; try done. rewrite length_take, length_drop. lia.
Qed.

(** *** What a chunk of names adds to a directory *)

Lemma ReadNames_Ok_entries Data ArchiveSize NameLengthArray DataSizeArray DataOffsetArray :
  forall todo i CurrentSize NameAndOffset Res,
    ReadNames Data ArchiveSize NameLengthArray DataSizeArray DataOffsetArray
      todo i CurrentSize NameAndOffset = Ok Res ->
    NameAndOffset ⊆ Res
    /\ forall Name e, Res !! Name = Some e ->
         NameAndOffset !! Name = Some e
         \/ (Entry_Cache e = None
             /\ wrap32 (Entry_Offset e + Entry_Size e) <= ArchiveSize).
Proof.
  induction todo as [|todo IH]; intros i CurrentSize m Res H; cbn [ReadNames] in H.
  - injection H as <-. split; [done|]. intros. by left.
  - destruct (u32_at Data (NameLengthArray + 4 * i)) as [NameLength|]; [|done].
    destruct (decide _); [done|].
    destruct (u32_at Data (DataOffsetArray + 4 * i)) as [DataOffset|]; [|done].
    destruct (u32_at Data (DataSizeArray + 4 * i)) as [DataSize|]; [|done].
    destruct (decide _) as [|Hrange]; [done|].
    destruct (if decide (NameLength = 0) then None else cstr_in _) as [Key|]; [|done].
    destruct (IH _ _ _ _ H) as [Hsub Hent].
    unfold Archiver.emplace in Hsub, Hent.
    destruct (m !! Key) eqn:Efound; cbn [snd] in Hsub, Hent; [done|].
    split.
    + etrans; [|exact Hsub]. by apply insert_subseteq.
    + intros Name e He. destruct (Hent Name e He) as [Hin|Hok]; [|by right].
      destruct (decide (Key = Name)) as [<-|Hne].
      * rewrite lookup_insert_eq in Hin. injection Hin as <-. right. cbn. split; [done|lia].
      * rewrite lookup_insert_ne in Hin by done. by left.
Qed.

Lemma ReadNames_first Data ArchiveSize Count :
  forall todo (i0 : nat) CurrentSize m Res,
    ReadNames Data ArchiveSize 4 (4 + 4 * Count) (4 + 8 * Count)
      todo (Z.of_nat i0) CurrentSize m = Ok Res ->
    Name_pos Data Count i0 = Some CurrentSize ->
    forall (i : nat) Name Off Size,
      (i0 <= i < i0 + todo)%nat ->
      Name_key Data Count i = Some Name ->
      m !! Name = None ->
      (forall k, (i0 <= k < i)%nat -> Name_key Data Count k <> Some Name) ->
      DataOffset_at Data Count i = Some Off ->
      DataSize_at Data Count i = Some Size ->
      Res !! Name = Some (MkEntry Off Size None).
Proof.
  induction todo as [|todo IH]; intros i0 CurrentSize m Res H Hpos i Name Off Size Hi HK Hm Hfirst HO HS;
    [lia|].
  cbn [ReadNames] in H.
  destruct (u32_at Data (4 + 4 * Z.of_nat i0)) as [NameLength|] eqn:ENL; [|done].
  destruct (decide (_ > _)); [done|].
  destruct (u32_at Data (4 + 8 * Count + 4 * Z.of_nat i0)) as [DataOffset|] eqn:EDO; [|done].
  destruct (u32_at Data (4 + 4 * Count + 4 * Z.of_nat i0)) as [DataSize|] eqn:EDS; [|done].
  destruct (decide (_ > _)); [done|].
  destruct (decide (NameLength = 0)); [done|].
  destruct (cstr_in (drop (Z.to_nat CurrentSize) Data)) as [Key|] eqn:EKey; [|done].
  assert (HK0 : Name_key Data Count i0 = Some Key) by (unfold Name_key; by rewrite Hpos).
  destruct (decide (i = i0)) as [->|Hne].
  - rewrite HK0 in HK. injection HK as ->.
    unfold DataOffset_at in HO. unfold DataSize_at in HS.
    rewrite EDO in HO. rewrite EDS in HS. injection HO as ->. injection HS as ->.
    apply ReadNames_Ok_entries in H as [Hsub _].
    eapply lookup_weaken; [|exact Hsub].
    unfold Archiver.emplace. rewrite Hm. cbn [snd]. apply lookup_insert_eq.
  - replace (Z.of_nat i0 + 1) with (Z.of_nat (S i0)) in H by lia.
    apply (IH (S i0) _ _ _ H) with (i := i); try done; try lia.
    + cbn [Name_pos]. unfold NameLength_at. by rewrite Hpos, ENL.
    + assert (Key <> Name).
      { intros ->. apply (Hfirst i0); [lia|done]. }
      unfold Archiver.emplace. destruct (m !! Key); cbn [snd]; [done|].
      by rewrite lookup_insert_ne.
    + intros k Hk. apply Hfirst. lia.
Qed.

(** X10. [ReadNamedResources] never replaces an entry of the directory.  A
    name that the directory holds before the call keeps its offset, size
    and cache; and a name that the directory does not hold and that occurs
    in the chunk, once or several times, gets the offset and size of the
    first record of the chunk that carries it, whatever the later records
    with that name say. *)
Theorem ReadNamedResources_keeps_first (pArchive : list Z) (Chunk : ChunkHeader)
  (NameAndOffset Res : gmap (list Z) NameOffsetAndCache) :
  ReadNamedResources pArchive Chunk NameAndOffset = Ok Res ->
  (forall Name e, NameAndOffset !! Name = Some e -> Res !! Name = Some e)
  /\ (forall Data Count (i : nat) Name Off Size,
        Archive_Read pArchive (Chunk_Offset Chunk) (Chunk_Size Chunk) = Some Data ->
        u32_at Data 0 = Some Count ->
        (i < Z.to_nat Count)%nat ->
        Name_key Data Count i = Some Name ->
        (forall k, (k < i)%nat -> Name_key Data Count k <> Some Name) ->
        NameAndOffset !! Name = None ->
        DataOffset_at Data Count i = Some Off ->
        DataSize_at Data Count i = Some Size ->
        Res !! Name = Some (MkEntry Off Size None)).
Proof.
  unfold ReadNamedResources. intros H. split.
  - intros Name e He.
    destruct (Archive_Read _ _ _) as [Data|]; [|done].
    destruct (u32_at Data 0) as [Count|]; [|done].
    apply ReadNames_Ok_entries in H as [Hsub _].
    by eapply lookup_weaken.
  - intros Data Count i Name Off Size ER EC Hi HK Hfirst Hm HO HS.
    rewrite ER, EC in H. cbn zeta in H.
    apply (ReadNames_first _ _ _ _ 0%nat _ _ _ H eq_refl i Name Off Size); try done; [lia|].
    intros k Hk. apply Hfirst. lia.
Qed.

(** *** What a reader holds after its construction *)

Lemma ShaderEntries_of_bytes_fresh n : forall bs,
  Forall (fun s => Shader_Cache s = None) (ShaderEntries_of_bytes n bs).
Proof. induction n as [|n IH]; intros bs; cbn; constructor; [done|apply IH]. Qed.

Lemma constructed_set_map A D B k m r :
  constructed A D B r ->
  (forall Name e, m !! Name = Some e ->
     get_map k r !! Name = Some e
     \/ (Entry_Cache e = None /\ wrap32 (Entry_Offset e + Entry_Size e) <= Archive_GetSize A)) ->
  constructed A D B (set_map k m r).
Proof.
  intros (HA & HD & HB & He & Hs) Hm. unfold constructed.
  rewrite m_pArchive_set_map, m_DevType_set_map, m_BaseOffsets_set_map, m_Shaders_set_map.
  split; [done|]. split; [done|]. split; [done|]. split; [|done].
  intros k' Name e H. destruct (decide (k = k')) as [<-|Hne].
  - rewrite get_set_map in H. destruct (Hm _ _ H) as [Hin|Hnew]; [by apply (He _ _ _ Hin)|done].
  - rewrite get_set_map_ne in H by done. by apply (He _ _ _ H).
Qed.

Lemma ReadChunk_Ok A D B Chunk r r' :
  ReadChunk Chunk r = Ok r' ->
  constructed A D B r ->
  constructed A D B r' /\ chunk_in_archive A Chunk.
Proof.
  intros H Hr. pose proof Hr as (HA & HD & HB & He & Hs).
  assert (Hnamed : forall k, ReadInto k Chunk r = Ok r' ->
            Chunk_Type Chunk <> ChunkType_to_Z Shaders ->
            constructed A D B r' /\ chunk_in_archive A Chunk).
  { intros k Hk Hty. unfold ReadInto in Hk.
    destruct (ReadNamedResources _ _ _) as [m| |] eqn:Em; try done. injection Hk as <-.
    unfold ReadNamedResources in Em. rewrite HA in Em.
    destruct (Archive_Read A _ _) as [Data|] eqn:ERead; [|done].
    apply Archive_Read_Some in ERead as (H1 & H2 & H3 & _).
    destruct (u32_at Data 0) as [Count|]; [|done].
    apply ReadNames_Ok_entries in Em as [_ Hent].
    split; [by apply constructed_set_map|].
    unfold chunk_in_archive. by rewrite decide_False. }
  unfold ReadChunk in H.
  destruct (ChunkType_of_Z (Chunk_Type Chunk)) as [[]|] eqn:Ety; try done;
    apply ChunkType_of_Z_Some in Ety; cbn in Ety;
    try (apply (Hnamed _ H); rewrite Ety; cbn; lia).
  - unfold ReadArchiveDebugInfo in H. rewrite HA in H.
    destruct (Archive_Read A _ _) as [Data|] eqn:ERead; [|done].
    apply Archive_Read_Some in ERead as (H1 & H2 & H3 & _).
    destruct (Serialize Read _ _ _) as [[[APIVersion GitHash] ?]|]; [|done].
    injection H as <-. split.
    + destruct r; cbn in *. done.
    + unfold chunk_in_archive. rewrite decide_False; [done|]. rewrite Ety. cbn. lia.
  - unfold ReadIndexedResources in H. rewrite HA in H.
    destruct (Archive_Read A _ _) as [hb|] eqn:ERead; [|done].
    apply Archive_Read_Some in ERead as (H1 & H2 & H3 & _).
    assert (chunk_in_archive A Chunk).
    { unfold chunk_in_archive. by rewrite decide_True. }
    destruct (LoadDeviceSpecificData r _) as [pData|]; injection H as <-; [|done].
    split; [|done]. destruct r; cbn in *.
    split; [done|]. split; [done|]. split; [done|]. split; [exact He|].
    apply ShaderEntries_of_bytes_fresh.
Qed.

Lemma ReadChunks_constructed A D B Chunks : forall ProcessedBits r r',
  ReadChunks Chunks ProcessedBits r = Ok r' ->
  constructed A D B r ->
  constructed A D B r' /\ Forall (chunk_in_archive A) Chunks.
Proof.
  induction Chunks as [|Chunk rest IH]; intros bits r r' H Hr; cbn [ReadChunks] in H.
  - injection H as <-. by split.
  - destruct (ProcessedBits_test bits (Chunk_Type Chunk)); [done|].
    destruct (ReadChunk Chunk r) as [r1| |] eqn:E1; try done.
    destruct (ReadChunk_Ok A D B _ _ _ E1 Hr) as [Hr1 Hc].
    destruct (IH _ _ _ H Hr1) as [Hr' Hall]. split; [done|by constructor].
Qed.

(** X9. When reader construction succeeds, the header and the chunk
    headers lie inside the archive, every chunk body that was read lies
    inside the archive (for the shaders chunk its data header), the reader
    holds the archive, the device type and the block offsets of the header,
    every directory entry has an empty cache and a 32-bit end offset within
    the archive size, and every entry of the shader table has an empty
    cache. *)
Theorem reader_construction_result (A : list Z) (DevType : DeviceType)
  (r : DeviceObjectArchiveBase) :
  DeviceObjectArchiveBase_new (Some A) DevType = Ok r ->
  exists Header Chunks,
    ReadHeader A = Some Header
    /\ ReadChunkHeaders A Header = Some Chunks
    /\ constructed A DevType (BlockBaseOffsets Header) r
    /\ sizeof_ArchiveHeader + sizeof_ChunkHeader * NumChunks Header <= Archive_GetSize A
    /\ Forall (chunk_in_archive A) Chunks.
Proof.
  unfold DeviceObjectArchiveBase_new. intros H.
  destruct (ReadHeader A) as [Header|]; [|done].
  destruct (decide (MagicNumber Header <> HeaderMagicNumber)); [done|].
  destruct (decide (Version Header <> GetHeaderVersion)); [done|].
  destruct (ReadChunkHeaders A Header) as [Chunks|] eqn:EChunks; [|done].
  exists Header, Chunks. split; [done|]. split; [done|].
  apply (ReadChunks_constructed A DevType (BlockBaseOffsets Header)) in H as [Hr Hall].
  - split; [done|]. split; [|done].
    unfold ReadChunkHeaders in EChunks.
    destruct (Archive_Read A _ _) as [bs|] eqn:ERead; [|done].
    by apply Archive_Read_Some in ERead as (_ & _ & ? & _).
  - split; [done|]. split; [done|]. split; [done|]. split; [|constructor].
    intros k Name e. by destruct k.
Qed.

(** *** The block of the selected device *)

(** X11. [LoadDeviceSpecificData] yields the bytes of the selected device
    only when the block offset of the device is within the archive and the
    size recorded for the device is not zero; the bytes are then exactly
    [size] bytes of the archive, read at the 32-bit sum of block offset and
    data offset.  It yields nothing when the block of the device is absent
    (the invalid offset) or no data is recorded for the device. *)
Theorem LoadDeviceSpecificData_bounds (r : DeviceObjectArchiveBase) (Header : DataHeader) :
  let d := m_DevType r in
  let ArchiveSize := Archive_GetSize (m_pArchive r) in
  (forall pData, LoadDeviceSpecificData r Header = Some pData ->
     m_BaseOffsets r d <= ArchiveSize
     /\ Header_GetSize Header d <> 0
     /\ Z.of_nat (length pData) = Header_GetSize Header d
     /\ wrap32 (m_BaseOffsets r d + Header_GetOffset Header d) + Header_GetSize Header d
        <= ArchiveSize
     /\ pData = take (Z.to_nat (Header_GetSize Header d))
                  (drop (Z.to_nat (wrap32 (m_BaseOffsets r d + Header_GetOffset Header d)))
                     (m_pArchive r)))
  /\ (m_BaseOffsets r d = InvalidOffset -> ArchiveSize < InvalidOffset ->
      LoadDeviceSpecificData r Header = None)
  /\ (Header_GetSize Header d = 0 -> LoadDeviceSpecificData r Header = None).
Proof.
  cbn zeta. unfold LoadDeviceSpecificData. split; [|split].
  - intros pData H.
    destruct (decide (_ > _)) as [|H1]; [done|].
    destruct (decide (_ = 0)) as [|H2]; [done|].
    destruct (decide (_ > _)) as [|H3]; [done|].
    apply Archive_Read_Some in H as (? & ? & ? & ? & ?).
    split; [lia|]. split; [done|]. split; [done|]. split; [lia|done].
  - intros -> Hlt. rewrite decide_True by lia. done.
  - intros ->. destruct (decide (_ > _)); [done|]. by rewrite decide_True.
Qed.

End Parser.

Lemma ReadNamedResources_keeps_first_witness :
  exists Res,
    ReadNamedResources RepeatedNames (MkChunkHeader 2 32 0) ∅ = Ok Res
    /\ Name_key RepeatedNames 2 0 = Some (bytes_of_string "A")
    /\ Name_key RepeatedNames 2 1 = Some (bytes_of_string "A")
    /\ DataOffset_at RepeatedNames 2 1 = Some 5
    /\ Res !! bytes_of_string "A" = Some (MkEntry 3 1 None).
Proof.
  destruct (ReadNamedResources RepeatedNames (MkChunkHeader 2 32 0) ∅) as [Res| |] eqn:E.
  - exists Res. split; [done|]. do 3 (split; [by vm_compute|]).
    apply (proj2 (ReadNamedResources_keeps_first RepeatedNames (MkChunkHeader 2 32 0) ∅ Res E)
             RepeatedNames 2 0%nat (bytes_of_string "A") 3 1).
    + by vm_compute.
    + by vm_compute.
    + vm_compute. lia.
    + by vm_compute.
    + intros k Hk. lia.
    + apply lookup_empty.
    + by vm_compute.
    + by vm_compute.
  - vm_compute in E. discriminate.
  - vm_compute in E. discriminate.
Defined.

(** The key of a record is the C string at the start of its name, not the
    [NameLength] bytes of the name: the first record of [RunOnNames] is
    entered under [ABCD]. *)
Lemma key_runs_into_next_name :
  exists Res,
    ReadNamedResources RunOnNames (MkChunkHeader 2 33 0) ∅ = Ok Res
    /\ Res !! bytes_of_string "ABCD" = Some (MkEntry 0 1 None)
    /\ Res !! bytes_of_string "CD" = Some (MkEntry 0 1 None)
    /\ Res !! bytes_of_string "AB" = None.
Proof. eexists. split; [vm_compute; reflexivity|]. repeat split; vm_compute; reflexivity. Qed.

Lemma reader_construction_result_witness :
  exists Header Chunks r,
    ReadHeader WrapArchive = Some Header
    /\ ReadChunkHeaders WrapArchive Header = Some Chunks
    /\ constructed WrapArchive Archiver.OpenGL (BlockBaseOffsets Header) r
    /\ Forall (chunk_in_archive WrapArchive) Chunks.
Proof.
  destruct (DeviceObjectArchiveBase_new (Fmt := Format_v1) (Some WrapArchive) Archiver.OpenGL)
    as [r| |] eqn:E.
  - destruct (reader_construction_result (Fmt := Format_v1) WrapArchive Archiver.OpenGL r E)
      as (Header & Chunks & H1 & H2 & H3 & _ & H5).
    by exists Header, Chunks, r.
  - vm_compute in E. discriminate.
  - vm_compute in E. discriminate.
Defined.

Lemma LoadDeviceSpecificData_bounds_witness :
  LoadDeviceSpecificData (S6_Reader None)
    (MkDataHeader 3 (fun _ => 0) (fun _ => InvalidOffset)) = None.
Proof.
  apply (proj2 (proj2 (LoadDeviceSpecificData_bounds (S6_Reader None)
                         (MkDataHeader 3 (fun _ => 0) (fun _ => InvalidOffset))))).
  reflexivity.
Defined.

End ParserFacts.

Module DearchiverFacts.
Import Serializer DeviceObjectArchive UnpackFacts Dearchiver.

Section Unpack.
Context `{CDev : ComputeDevice}.

Create Rewrite HintDb dearchiver.
#[local] Hint Rewrite get_set_map set_set_map set_Shaders_set_map m_pArchive_set_map
  m_Shaders_set_map m_BaseOffsets_set_map m_DevType_set_map : dearchiver.
#[local] Hint Rewrite get_set_map_ne using done : dearchiver.

(** *** Unpacking changes caches only *)

Lemma same_directory_trans m1 m2 m3 :
  same_directory m1 m2 -> same_directory m2 m3 -> same_directory m1 m3.
Proof. intros H1 H2 n. by rewrite H1. Qed.

Lemma same_archive_refl r : same_archive r r.
Proof. repeat split; try done. Qed.

Lemma same_archive_trans r1 r2 r3 :
  same_archive r1 r2 -> same_archive r2 r3 -> same_archive r1 r3.
Proof.
  intros (A1 & B1 & C1 & D1 & E1 & F1) (A2 & B2 & C2 & D2 & E2 & F2).
  split; [congruence|]. split; [congruence|]. split; [congruence|]. split; [congruence|].
  split; [|unfold same_shaders in *; congruence].
  intros k. eapply same_directory_trans; [apply E1|apply E2].
Qed.

Lemma m_DebugInfo_set_map k m r : m_DebugInfo (set_map k m r) = m_DebugInfo r.
Proof. by destruct k. Qed.

Lemma same_archive_set_map k m r :
  same_directory m (get_map k r) -> same_archive (set_map k m r) r.
Proof.
  intros Hm. unfold same_archive. autorewrite with dearchiver. rewrite m_DebugInfo_set_map.
  repeat split; try done.
  intros k'. destruct (decide (k = k')) as [<-|Hne]; autorewrite with dearchiver; [done|].
  apply same_directory_refl.
Qed.

Lemma same_archive_set_Shaders s r :
  same_shaders s (m_Shaders r) -> same_archive (set_Shaders s r) r.
Proof.
  intros Hs. unfold same_archive. destruct r; cbn in *. repeat split; try done.
Qed.

Lemma same_directory_insert_cache (m : gmap (list Z) NameOffsetAndCache) n e p :
  m !! n = Some e ->
  same_directory (<[n := MkEntry (Entry_Offset e) (Entry_Size e) p]> m) m.
Proof.
  intros He n'. destruct (decide (n = n')) as [<-|Hne].
  - by rewrite lookup_insert_eq, He.
  - by rewrite lookup_insert_ne.
Qed.

Lemma CacheResource_same_archive n k p r dev :
  same_archive (CacheResource n k p r dev).1 r.
Proof.
  unfold CacheResource. destruct (get_map k r !! n) as [e|] eqn:He; [|apply same_archive_refl].
  destruct (match Entry_Cache e with
            | Some obj => _
            | None => _
            end) as [alive dev'].
  destruct alive; [apply same_archive_refl|]. cbn [fst].
  by apply same_archive_set_map, same_directory_insert_cache.
Qed.

Lemma UnpackRenderPass_same_archive info r dev :
  same_archive (UnpackRenderPass info r dev).1.2 r.
Proof.
  unfold UnpackRenderPass.
  destruct (if negb (negb (AttachmentCount info =? 0)) then _ else _) as [[p|] dev0];
    [apply same_archive_refl|].
  destruct (ReadRPData _ r) as [RP|]; [|apply same_archive_refl].
  destruct (CreateRenderPass_ _ _) as [pRP dev1].
  destruct (negb (negb _)); [|apply same_archive_refl].
  pose proof (CacheResource_same_archive (RPInfo_Name info) RenderPassMap pRP r dev1) as H.
  by destruct (CacheResource _ _ _ _ _) as [r' dev2].
Qed.

Lemma UnpackResourceSignature_same_archive info r dev :
  same_archive (UnpackResourceSignature info r dev).1.2 r.
Proof.
  unfold UnpackResourceSignature.
  destruct (GetCachedResource _ _ _ _) as [[p|] dev0]; [apply same_archive_refl|].
  destruct (ReadPRSData _ r) as [PRS|]; [|apply same_archive_refl].
  destruct (LoadDeviceSpecificData _ _) as [pData|]; [|apply same_archive_refl].
  destruct (CreateSignature _ _ _) as [pSignature dev1].
  pose proof (CacheResource_same_archive (PRSInfo_Name info) PRSMap pSignature r dev1) as H.
  by destruct (CacheResource _ _ _ _ _) as [r' dev2].
Qed.

Lemma UnpackSignatures_same_archive Names : forall pp r dev,
  same_archive (UnpackSignatures Names pp r dev).1.2 r.
Proof.
  induction Names as [|Name rest IH]; intros pp r dev; cbn [UnpackSignatures];
    [apply same_archive_refl|].
  pose proof (UnpackResourceSignature_same_archive
                (MkPRSInfo Name DefaultSRBAllocationGranularity) r dev) as H.
  destruct (UnpackResourceSignature _ r dev) as [[[p|] r'] dev']; cbn [fst snd] in *; [|done].
  eapply same_archive_trans; [apply IH|done].
Qed.

Lemma CreateResourceSignatures_same_archive PSO r dev :
  same_archive (CreateResourceSignatures PSO r dev).1.2 r.
Proof.
  unfold CreateResourceSignatures.
  destruct (CI_ResourceSignaturesCount (PSO_CreateInfo PSO) =? 0); [apply same_archive_refl|].
  match goal with |- context [UnpackSignatures ?N ?pp r dev] =>
    pose proof (UnpackSignatures_same_archive N pp r dev) as H;
    destruct (UnpackSignatures N pp r dev) as [[[ok pp'] r'] dev'] end.
  done.
Qed.

Lemma CreateRenderPass_same_archive PSO r dev :
  same_archive (CreateRenderPass PSO r dev).1.2 r.
Proof.
  unfold CreateRenderPass.
  destruct (PSO_RenderPassName PSO) as [[|c n]|]; try apply same_archive_refl.
  pose proof (UnpackRenderPass_same_archive (MkRPInfo (c :: n) []) r dev) as H.
  by destruct (UnpackRenderPass _ r dev) as [[[p|] r'] dev'].
Qed.

Lemma same_shaders_insert_cache (l : list ShaderOffsetAndCache) i e sh :
  l !! i = Some e ->
  same_shaders (<[i := MkShaderEntry (Shader_Offset e) (Shader_Size e) sh]> l) l.
Proof.
  intros He. unfold same_shaders. rewrite list_fmap_insert. cbn.
  apply list_insert_id. by rewrite list_lookup_fmap, He.
Qed.

Lemma LoadShaderList_same_archive BaseOffset Indices : forall Loaded r dev,
  same_archive (LoadShaderList BaseOffset Indices Loaded r dev).1.2 r.
Proof.
  induction Indices as [|Idx rest IH]; intros Loaded r dev; cbn [LoadShaderList];
    [apply same_archive_refl|].
  destruct (m_Shaders r !! Z.to_nat Idx) as [e|] eqn:He; [|apply same_archive_refl].
  destruct (Shader_Cache e) as [pShader|]; [by apply IH|].
  destruct (Archive_Read _ _ _) as [pData|]; [|apply same_archive_refl].
  destruct (Serialize Read _ _ _) as [[[ShaderType [EntryPoint_ [Lang Comp]]] Ser2]|];
    [|apply same_archive_refl].
  destruct (CreateShader _ dev) as [[sh|] dev']; [|apply same_archive_refl].
  eapply same_archive_trans; [apply IH|].
  by apply same_archive_set_Shaders, same_shaders_insert_cache.
Qed.

Lemma LoadShaders_same_archive pData r dev :
  same_archive (LoadShaders pData r dev).1.2 r.
Proof.
  unfold LoadShaders. destruct (decide _); [apply same_archive_refl|].
  destruct (Serialize Read _ _ _) as [[Indices ?]|]; [|apply same_archive_refl].
  apply LoadShaderList_same_archive.
Qed.

Ltac step_same H :=
  eapply same_archive_trans; [|exact H].

Lemma UnpackGraphicsPSO_same_archive info r dev :
  same_archive (UnpackGraphicsPSO info r dev).1.2 r.
Proof.
  unfold UnpackGraphicsPSO.
  destruct (if negb (negb (OverrideFlags info =? PSO_UNPACK_OVERRIDE_FLAG_NONE))
            then _ else _) as [[p|] dev0]; [apply same_archive_refl|].
  destruct (ReadPSOData _ _ _ r) as [PSO|]; [|apply same_archive_refl].
  pose proof (CreateRenderPass_same_archive PSO r dev0) as H1.
  destruct (CreateRenderPass PSO r dev0) as [[[ok1 PSO1] r1] dev1]. cbn [fst snd] in H1.
  destruct ok1; cbn [negb]; [|done].
  pose proof (CreateResourceSignatures_same_archive PSO1 r1 dev1) as H2.
  destruct (CreateResourceSignatures PSO1 r1 dev1) as [[[ok2 PSO2] r2] dev2].
  cbn [fst snd] in H2. pose proof (same_archive_trans _ _ _ H2 H1) as H12.
  destruct ok2; cbn [negb]; [|done].
  destruct (LoadDeviceSpecificData r2 _) as [pData|]; [|done].
  pose proof (LoadShaders_same_archive pData r2 dev2) as H3.
  destruct (LoadShaders pData r2 dev2) as [[[Loaded|] r3] dev3]; cbn [fst snd] in H3;
    pose proof (same_archive_trans _ _ _ H3 H12) as H123; [|done].
  destruct (AssignGraphicsShaders _ _ _) as [CI4|]; [|done].
  destruct (CreateGraphicsPipelineState _ _) as [pPSO dev4].
  destruct (negb (negb _)); [|done].
  pose proof (CacheResource_same_archive (PSOInfo_Name info) GraphicsPSOMap pPSO r3 dev4) as H4.
  destruct (CacheResource _ _ _ _ _) as [r4 dev5]. cbn [fst snd] in *.
  by eapply same_archive_trans.
Qed.

Lemma UnpackTilePSO_same_archive info r dev :
  same_archive (UnpackTilePSO info r dev).1.2 r.
Proof.
  unfold UnpackTilePSO.
  destruct (if negb (negb (OverrideFlags info =? PSO_UNPACK_OVERRIDE_FLAG_NONE))
            then _ else _) as [[p|] dev0]; [apply same_archive_refl|].
  destruct (ReadPSOData _ _ _ r) as [PSO|]; [|apply same_archive_refl].
  pose proof (CreateResourceSignatures_same_archive PSO r dev0) as H2.
  destruct (CreateResourceSignatures PSO r dev0) as [[[ok2 PSO2] r2] dev2].
  cbn [fst snd] in H2.
  destruct ok2; cbn [negb]; [|done].
  destruct (LoadDeviceSpecificData r2 _) as [pData|]; [|done].
  pose proof (LoadShaders_same_archive pData r2 dev2) as H3.
  destruct (LoadShaders pData r2 dev2) as [[[[|Shader [|? ?]]|] r3] dev3]; cbn [fst snd] in H3;
    pose proof (same_archive_trans _ _ _ H3 H2) as H23; try done.
  destruct (decide _); [done|].
  destruct (CreateTilePipelineState _ _) as [pPSO dev4].
  destruct (negb (negb _)); [|done].
  pose proof (CacheResource_same_archive (PSOInfo_Name info) TilePSOMap pPSO r3 dev4) as H4.
  destruct (CacheResource _ _ _ _ _) as [r4 dev5]. cbn [fst snd] in *.
  by eapply same_archive_trans.
Qed.

Lemma UnpackComputePSO_same_archive info r dev :
  same_archive (UnpackComputePSO info r dev).1.2 r.
Proof.
  unfold UnpackComputePSO.
  destruct (GetCachedResource _ _ _ _) as [[p|] dev0]; [apply same_archive_refl|].
  destruct (ReadPSOData _ _ _ r) as [PSO|]; [|apply same_archive_refl].
  pose proof (CreateResourceSignatures_same_archive PSO r dev0) as H2.
  destruct (CreateResourceSignatures PSO r dev0) as [[[ok2 PSO2] r2] dev2].
  cbn [fst snd] in H2.
  destruct ok2; cbn [negb]; [|done].
  destruct (LoadDeviceSpecificData r2 _) as [pData|]; [|done].
  pose proof (LoadShaders_same_archive pData r2 dev2) as H3.
  destruct (LoadShaders pData r2 dev2) as [[[[|Shader [|? ?]]|] r3] dev3]; cbn [fst snd] in H3;
    pose proof (same_archive_trans _ _ _ H3 H2) as H23; try done.
  destruct (decide _); [done|].
  destruct (CreateComputePipelineState _ _) as [pPSO dev4].
  destruct (negb (negb _)); [|done].
  pose proof (CacheResource_same_archive (PSOInfo_Name info) ComputePSOMap pPSO r3 dev4) as H4.
  destruct (CacheResource _ _ _ _ _) as [r4 dev5]. cbn [fst snd] in *.
  by eapply same_archive_trans.
Qed.

Lemma ClearResourceCache_same_archive r : same_archive (ClearResourceCache r) r.
Proof.
  unfold ClearResourceCache. apply same_archive_set_Shaders.
  unfold same_shaders. rewrite <- list_fmap_compose. by apply list_fmap_ext.
Qed.

(** X14. The reader is immutable after construction except for its
    caches: after unpacking a signature, a render pass, or a graphics,
    compute or tile pipeline, and after [ClearResourceCache], the archive,
    the device type, the block offsets, the debug info, the names of every
    directory with their offsets and sizes, and the offsets and sizes of the
    shader table are what they were. *)
Theorem unpack_changes_caches_only (r : DeviceObjectArchiveBase) (dev : Device) :
  (forall info, same_archive (UnpackResourceSignature info r dev).1.2 r)
  /\ (forall info, same_archive (UnpackRenderPass info r dev).1.2 r)
  /\ (forall info, same_archive (UnpackGraphicsPSO info r dev).1.2 r)
  /\ (forall info, same_archive (UnpackComputePSO info r dev).1.2 r)
  /\ (forall info, same_archive (UnpackTilePSO info r dev).1.2 r)
  /\ same_archive (ClearResourceCache r) r.
Proof.
  split; [intros; apply UnpackResourceSignature_same_archive|].
  split; [intros; apply UnpackRenderPass_same_archive|].
  split; [intros; apply UnpackGraphicsPSO_same_archive|].
  split; [intros; apply UnpackComputePSO_same_archive|].
  split; [intros; apply UnpackTilePSO_same_archive|].
  apply ClearResourceCache_same_archive.
Qed.

(** *** Unknown names *)

Lemma GetCachedResource_not_found n k r dev :
  get_map k r !! n = None -> GetCachedResource n k r dev = (None, dev).
Proof. intros H. unfold GetCachedResource. by rewrite H. Qed.

Lemma LoadResourceData_not_found k n r :
  get_map k r !! n = None -> LoadResourceData k n r = None.
Proof. intros H. unfold LoadResourceData. by rewrite H. Qed.

(** X12. Unpacking a name that the directory of its kind does not hold
    returns a null object, whatever the override flags; the reader and the
    device are untouched (no cache is locked and no factory is called). *)
Theorem unpack_not_found (r : DeviceObjectArchiveBase) (dev : Device) :
  (forall info, m_PRSMap r !! PRSInfo_Name info = None ->
     UnpackResourceSignature info r dev = (None, r, dev))
  /\ (forall info, m_RenderPassMap r !! RPInfo_Name info = None ->
        UnpackRenderPass info r dev = (None, r, dev))
  /\ (forall info, m_GraphicsPSOMap r !! PSOInfo_Name info = None ->
        UnpackGraphicsPSO info r dev = (None, r, dev))
  /\ (forall info, m_ComputePSOMap r !! PSOInfo_Name info = None ->
        UnpackComputePSO info r dev = (None, r, dev))
  /\ (forall info, m_TilePSOMap r !! PSOInfo_Name info = None ->
        UnpackTilePSO info r dev = (None, r, dev)).
Proof.
  split; [|split; [|split; [|split]]]; intros info Hnone.
  - unfold UnpackResourceSignature, ReadPRSData.
    rewrite (GetCachedResource_not_found _ PRSMap), (LoadResourceData_not_found PRSMap) by done.
    done.
  - unfold UnpackRenderPass, ReadRPData.
    rewrite (GetCachedResource_not_found _ RenderPassMap),
      (LoadResourceData_not_found RenderPassMap) by done.
    by destruct (negb _).
  - unfold UnpackGraphicsPSO, ReadPSOData.
    rewrite (GetCachedResource_not_found _ GraphicsPSOMap),
      (LoadResourceData_not_found GraphicsPSOMap) by done.
    by destruct (negb _).
  - unfold UnpackComputePSO, ReadPSOData.
    rewrite (GetCachedResource_not_found _ ComputePSOMap),
      (LoadResourceData_not_found ComputePSOMap) by done.
    done.
  - unfold UnpackTilePSO, ReadPSOData.
    rewrite (GetCachedResource_not_found _ TilePSOMap),
      (LoadResourceData_not_found TilePSOMap) by done.
    by destruct (negb _).
Qed.

(** *** The weak cache *)

Lemma GetCachedResource_expired n k r dev e :
  get_map k r !! n = Some e -> expired e ->
  (GetCachedResource n k r dev).1 = None.
Proof.
  intros He Hdead. unfold GetCachedResource. rewrite He.
  destruct (Entry_Cache e) as [obj|] eqn:Ec; [|done].
  specialize (Hdead obj Ec dev). destruct (Lock obj dev) as [alive dev'].
  cbn in Hdead. by subst alive.
Qed.

Lemma CacheResource_then_Get n k p r dev e :
  get_map k r !! n = Some e -> expired e ->
  get_map k (CacheResource n k (Some p) r dev).1 !! n
  = Some (MkEntry (Entry_Offset e) (Entry_Size e) (Some p))
  /\ forall r' dev2 dev3,
       get_map k r' !! n = Some (MkEntry (Entry_Offset e) (Entry_Size e) (Some p)) ->
       Lock p dev2 = (true, dev3) ->
       GetCachedResource n k r' dev2 = (Some p, dev3).
Proof.
  intros He Hdead. split.
  - unfold CacheResource. rewrite He.
    destruct (Entry_Cache e) as [obj|] eqn:Ec.
    + specialize (Hdead obj Ec dev). destruct (Lock obj dev) as [alive dev'].
      cbn in Hdead. subst alive. cbn. by rewrite get_set_map, lookup_insert_eq.
    + cbn. by rewrite get_set_map, lookup_insert_eq.
  - intros r' dev2 dev3 He' HL. unfold GetCachedResource. rewrite He'. cbn. by rewrite HL.
Qed.

Lemma get_map_of_commutes4 {X Y : Type} k
  (f : DeviceObjectArchiveBase -> Device -> X * Y * DeviceObjectArchiveBase * Device) r dev :
  (forall m, f (set_map k m r) dev = with_map4 k m (f r dev)) ->
  get_map k (f r dev).1.2 = get_map k r.
Proof.
  intros H. specialize (H (get_map k r)). rewrite set_get_map in H.
  rewrite H at 1. unfold with_map4. cbn. apply get_set_map.
Qed.

Lemma get_map_of_commutes {X : Type} k
  (f : DeviceObjectArchiveBase -> Device -> X * DeviceObjectArchiveBase * Device) r dev :
  (forall m, f (set_map k m r) dev = with_map k m (f r dev)) ->
  get_map k (f r dev).1.2 = get_map k r.
Proof.
  intros H. specialize (H (get_map k r)). rewrite set_get_map in H.
  rewrite H at 1. unfold with_map. cbn. apply get_set_map.
Qed.

Lemma CreateRenderPass_get_map k PSO r dev :
  k <> RenderPassMap -> get_map k (CreateRenderPass PSO r dev).1.2 = get_map k r.
Proof.
  intros Hne. apply (get_map_of_commutes4 k (CreateRenderPass PSO)).
  intros m. by apply CreateRenderPass_set_map_ne.
Qed.

Lemma CreateResourceSignatures_get_map k PSO r dev :
  k <> PRSMap -> get_map k (CreateResourceSignatures PSO r dev).1.2 = get_map k r.
Proof.
  intros Hne. apply (get_map_of_commutes4 k (CreateResourceSignatures PSO)).
  intros m. by apply CreateResourceSignatures_set_map_ne.
Qed.

Lemma LoadShaders_get_map k pData r dev :
  get_map k (LoadShaders pData r dev).1.2 = get_map k r.
Proof.
  apply (get_map_of_commutes k (LoadShaders pData)).
  intros m. apply LoadShaders_set_map.
Qed.

Lemma UnpackRenderPass_twice info r dev e p r1 dev1 :
  AttachmentCount info = 0 ->
  m_RenderPassMap r !! RPInfo_Name info = Some e -> expired e ->
  UnpackRenderPass info r dev = (Some p, r1, dev1) ->
  m_RenderPassMap r1 !! RPInfo_Name info
  = Some (MkEntry (Entry_Offset e) (Entry_Size e) (Some p))
  /\ forall dev2 dev3, Lock p dev2 = (true, dev3) ->
       UnpackRenderPass info r1 dev2 = (Some p, r1, dev3).
Proof.
  intros Hcount He Hdead H.
  assert (Hsecond : m_RenderPassMap r1 !! RPInfo_Name info
                    = Some (MkEntry (Entry_Offset e) (Entry_Size e) (Some p)) ->
                    forall dev2 dev3, Lock p dev2 = (true, dev3) ->
                      UnpackRenderPass info r1 dev2 = (Some p, r1, dev3)).
  { intros He1 dev2 dev3 HL. unfold UnpackRenderPass. rewrite Hcount. cbn.
    by rewrite (proj2 (CacheResource_then_Get _ RenderPassMap p r dev e He Hdead) r1 dev2 dev3). }
  unfold UnpackRenderPass in H. rewrite Hcount in H. cbn [Z.eqb negb] in H.
  pose proof (GetCachedResource_expired _ RenderPassMap r dev e He Hdead) as Hget.
  destruct (GetCachedResource _ _ r dev) as [pc dev0]. cbn in Hget. subst pc.
  destruct (ReadRPData _ r) as [RP|]; [|done].
  destruct (CreateRenderPass_ _ _) as [pRP dev1'].
  destruct (CacheResource _ _ pRP _ _) as [r' dev2'] eqn:EC.
  injection H as -> -> ->.
  pose proof (proj1 (CacheResource_then_Get (RPInfo_Name info) RenderPassMap p r dev1' e
                       He Hdead)) as Hc.
  rewrite EC in Hc. cbn in Hc. split; [done|]. by apply Hsecond.
Qed.

Lemma UnpackResourceSignature_twice info r dev e p r1 dev1 :
  m_PRSMap r !! PRSInfo_Name info = Some e -> expired e ->
  UnpackResourceSignature info r dev = (Some p, r1, dev1) ->
  m_PRSMap r1 !! PRSInfo_Name info
  = Some (MkEntry (Entry_Offset e) (Entry_Size e) (Some p))
  /\ forall dev2 dev3, Lock p dev2 = (true, dev3) ->
       UnpackResourceSignature info r1 dev2 = (Some p, r1, dev3).
Proof.
  intros He Hdead H.
  assert (Hsecond : m_PRSMap r1 !! PRSInfo_Name info
                    = Some (MkEntry (Entry_Offset e) (Entry_Size e) (Some p)) ->
                    forall dev2 dev3, Lock p dev2 = (true, dev3) ->
                      UnpackResourceSignature info r1 dev2 = (Some p, r1, dev3)).
  { intros He1 dev2 dev3 HL. unfold UnpackResourceSignature.
    by rewrite (proj2 (CacheResource_then_Get _ PRSMap p r dev e He Hdead) r1 dev2 dev3). }
  unfold UnpackResourceSignature in H.
  pose proof (GetCachedResource_expired _ PRSMap r dev e He Hdead) as Hget.
  destruct (GetCachedResource _ _ r dev) as [pc dev0]. cbn in Hget. subst pc.
  destruct (ReadPRSData _ r) as [PRS|]; [|done].
  destruct (LoadDeviceSpecificData _ _) as [pData|]; [|done].
  destruct (CreateSignature _ _ _) as [pS dev1'].
  destruct (CacheResource _ _ pS _ _) as [r' dev2'] eqn:EC.
  injection H as -> -> ->.
  pose proof (proj1 (CacheResource_then_Get (PRSInfo_Name info) PRSMap p r dev1' e
                       He Hdead)) as Hc.
  rewrite EC in Hc. cbn in Hc. split; [done|]. by apply Hsecond.
Qed.

Lemma UnpackGraphicsPSO_twice info r dev e p r1 dev1 :
  OverrideFlags info = 0 ->
  m_GraphicsPSOMap r !! PSOInfo_Name info = Some e -> expired e ->
  UnpackGraphicsPSO info r dev = (Some p, r1, dev1) ->
  m_GraphicsPSOMap r1 !! PSOInfo_Name info
  = Some (MkEntry (Entry_Offset e) (Entry_Size e) (Some p))
  /\ forall dev2 dev3, Lock p dev2 = (true, dev3) ->
       UnpackGraphicsPSO info r1 dev2 = (Some p, r1, dev3).
Proof.
  intros Hflags He Hdead H.
  assert (Hsecond : m_GraphicsPSOMap r1 !! PSOInfo_Name info
                    = Some (MkEntry (Entry_Offset e) (Entry_Size e) (Some p)) ->
                    forall dev2 dev3, Lock p dev2 = (true, dev3) ->
                      UnpackGraphicsPSO info r1 dev2 = (Some p, r1, dev3)).
  { intros He1 dev2 dev3 HL. unfold UnpackGraphicsPSO. rewrite Hflags. cbn.
    by rewrite (proj2 (CacheResource_then_Get _ GraphicsPSOMap p r dev e He Hdead)
                  r1 dev2 dev3). }
  unfold UnpackGraphicsPSO in H. rewrite Hflags in H.
  unfold PSO_UNPACK_OVERRIDE_FLAG_NONE in H. cbn [Z.eqb negb] in H.
  pose proof (GetCachedResource_expired _ GraphicsPSOMap r dev e He Hdead) as Hget.
  destruct (GetCachedResource _ _ r dev) as [pc dev0]. cbn in Hget. subst pc.
  destruct (ReadPSOData _ _ _ r) as [PSO|]; [|done].
  pose proof (CreateRenderPass_get_map GraphicsPSOMap PSO r dev0 ltac:(done)) as G1.
  destruct (CreateRenderPass PSO r dev0) as [[[ok1 PSO1] r1'] dev1']. cbn [fst snd] in G1.
  destruct ok1; cbn [negb] in H; [|done].
  pose proof (CreateResourceSignatures_get_map GraphicsPSOMap PSO1 r1' dev1' ltac:(done)) as G2.
  destruct (CreateResourceSignatures PSO1 r1' dev1') as [[[ok2 PSO2] r2] dev2'].
  cbn [fst snd] in G2.
  destruct ok2; cbn [negb] in H; [|done].
  destruct (LoadDeviceSpecificData r2 _) as [pData|]; [|done].
  pose proof (LoadShaders_get_map GraphicsPSOMap pData r2 dev2') as G3.
  destruct (LoadShaders pData r2 dev2') as [[[Loaded|] r3] dev3']; cbn [fst snd] in G3; [|done].
  destruct (AssignGraphicsShaders _ _ _) as [CI4|]; [|done].
  destruct (CreateGraphicsPipelineState _ _) as [pPSO dev4].
  assert (He3 : get_map GraphicsPSOMap r3 !! PSOInfo_Name info = Some e)
    by (rewrite G3, G2, G1; exact He).
  destruct (CacheResource _ _ pPSO _ _) as [r' dev5] eqn:EC.
  injection H as Hp Hr Hd. subst pPSO r'.
  pose proof (proj1 (CacheResource_then_Get (PSOInfo_Name info) GraphicsPSOMap p r3 dev4 e
                       He3 Hdead)) as Hc.
  rewrite EC in Hc. cbn in Hc. split; [done|]. by apply Hsecond.
Qed.

(** X13. Weak-cache semantics of signatures, render passes and graphics
    pipelines: when a request without overrides has produced an object for
    a name whose cache was empty or expired, the cache of the name refers
    to that object, and as long as the object is alive the same request
    again returns the same object without a factory call and without a
    change of the reader. *)
Theorem unpack_twice_returns_cached_object :
  (forall info r dev e p r1 dev1,
     m_PRSMap r !! PRSInfo_Name info = Some e -> expired e ->
     UnpackResourceSignature info r dev = (Some p, r1, dev1) ->
     m_PRSMap r1 !! PRSInfo_Name info
     = Some (MkEntry (Entry_Offset e) (Entry_Size e) (Some p))
     /\ forall dev2 dev3, Lock p dev2 = (true, dev3) ->
          UnpackResourceSignature info r1 dev2 = (Some p, r1, dev3))
  /\ (forall info r dev e p r1 dev1,
        AttachmentCount info = 0 ->
        m_RenderPassMap r !! RPInfo_Name info = Some e -> expired e ->
        UnpackRenderPass info r dev = (Some p, r1, dev1) ->
        m_RenderPassMap r1 !! RPInfo_Name info
        = Some (MkEntry (Entry_Offset e) (Entry_Size e) (Some p))
        /\ forall dev2 dev3, Lock p dev2 = (true, dev3) ->
             UnpackRenderPass info r1 dev2 = (Some p, r1, dev3))
  /\ (forall info r dev e p r1 dev1,
        OverrideFlags info = 0 ->
        m_GraphicsPSOMap r !! PSOInfo_Name info = Some e -> expired e ->
        UnpackGraphicsPSO info r dev = (Some p, r1, dev1) ->
        m_GraphicsPSOMap r1 !! PSOInfo_Name info
        = Some (MkEntry (Entry_Offset e) (Entry_Size e) (Some p))
        /\ forall dev2 dev3, Lock p dev2 = (true, dev3) ->
             UnpackGraphicsPSO info r1 dev2 = (Some p, r1, dev3)).
Proof.
  split; [|split].
  - intros. by eapply UnpackResourceSignature_twice.
  - intros. by eapply UnpackRenderPass_twice.
  - intros. by eapply UnpackGraphicsPSO_twice.
Qed.

(** *** Compute pipelines and override flags *)

(** X15. [UnpackComputePSO] does not apply overrides: the object it
    returns is the one the request without override flags returns; the
    cache is consulted whatever the flags are (a live cached pipeline is
    returned even when flags are set), and with flags set the directory of
    compute pipelines is left as it was. *)
Theorem UnpackComputePSO_ignores_flags (info : PipelineStateUnpackInfo)
  (r : DeviceObjectArchiveBase) (dev : Device) :
  (UnpackComputePSO info r dev).1.1 = (UnpackComputePSO (without_flags info) r dev).1.1
  /\ (OverrideFlags info <> 0 ->
      m_ComputePSOMap (UnpackComputePSO info r dev).1.2 = m_ComputePSOMap r)
  /\ (forall e obj dev', m_ComputePSOMap r !! PSOInfo_Name info = Some e ->
        Entry_Cache e = Some obj -> Lock obj dev = (true, dev') ->
        UnpackComputePSO info r dev = (Some obj, r, dev')).
Proof.
  split; [|split].
  - unfold UnpackComputePSO, without_flags. cbn [PSOInfo_Name OverrideFlags
      PSOInfo_SRBAllocationGranularity PSOInfo_ImmediateContextMask].
    destruct (GetCachedResource _ _ r dev) as [[p|] dev0]; [done|].
    destruct (ReadPSOData _ _ _ r) as [PSO|]; [|done].
    destruct (CreateResourceSignatures PSO r dev0) as [[[ok2 PSO2] r2] dev2].
    destruct ok2; cbn [negb]; [|done].
    destruct (LoadDeviceSpecificData r2 _) as [pData|]; [|done].
    destruct (LoadShaders pData r2 dev2) as [[[[|Shader [|? ?]]|] r3] dev3]; try done.
    destruct (decide _); [done|].
    destruct (CreateComputePipelineState _ _) as [pPSO dev4].
    destruct (negb (negb _)); [|by destruct (CacheResource _ _ _ _ _)].
    by destruct (CacheResource _ _ _ _ _).
  - intros Hflags. unfold UnpackComputePSO, PSO_UNPACK_OVERRIDE_FLAG_NONE.
    rewrite (proj2 (Z.eqb_neq _ _) Hflags). cbn [negb].
    destruct (GetCachedResource _ _ r dev) as [[p|] dev0]; [done|].
    destruct (ReadPSOData _ _ _ r) as [PSO|]; [|done].
    pose proof (CreateResourceSignatures_get_map ComputePSOMap PSO r dev0 ltac:(done)) as G2.
    destruct (CreateResourceSignatures PSO r dev0) as [[[ok2 PSO2] r2] dev2].
    cbn [fst snd] in G2.
    destruct ok2; cbn [negb]; [|done].
    destruct (LoadDeviceSpecificData r2 _) as [pData|]; [|done].
    pose proof (LoadShaders_get_map ComputePSOMap pData r2 dev2) as G3.
    destruct (LoadShaders pData r2 dev2) as [[[[|Shader [|? ?]]|] r3] dev3];
      cbn [fst snd get_map] in *;
      try (destruct (decide _));
      try (destruct (CreateComputePipelineState _ _) as [pPSO dev4]);
      cbn [fst snd]; congruence.
  - intros e obj dev' He Hc HL. unfold UnpackComputePSO, GetCachedResource.
    cbn [get_map]. rewrite He, Hc, HL. done.
Qed.

(** *** The shader table as a cache *)

Lemma LoadShaderList_again BaseOffset Indices : forall Loaded r dev L' r' dev',
  LoadShaderList BaseOffset Indices Loaded r dev = (Some L', r', dev') ->
  (forall i e sh, m_Shaders r !! i = Some e -> Shader_Cache e = Some sh ->
     exists e', m_Shaders r' !! i = Some e' /\ Shader_Cache e' = Some sh)
  /\ exists res, L' = Loaded ++ res
       /\ forall Loaded2 dev2,
            LoadShaderList BaseOffset Indices Loaded2 r' dev2 = (Some (Loaded2 ++ res), r', dev2).
Proof.
  induction Indices as [|Idx rest IH]; intros Loaded r dev L' r' dev' H; cbn [LoadShaderList] in *.
  - injection H as <- <- <-. split; [by eauto|]. exists []. rewrite app_nil_r. split; [done|].
    intros. by rewrite app_nil_r.
  - destruct (m_Shaders r !! Z.to_nat Idx) as [e|] eqn:He; [|done].
    destruct (Shader_Cache e) as [pShader|] eqn:Hc.
    + destruct (IH _ _ _ _ _ _ H) as (Hmono & res & -> & Hagain).
      split; [done|]. exists (pShader :: res). split; [by rewrite <- app_assoc|].
      intros Loaded2 dev2. destruct (Hmono _ _ _ He Hc) as (e' & -> & ->).
      rewrite Hagain. by rewrite <- app_assoc.
    + destruct (Archive_Read _ _ _) as [pData|]; [|done].
      destruct (Serialize Read _ _ _) as [[[ShaderType [EntryPoint_ [Lang Comp]]] Ser2]|];
        [|done].
      destruct (CreateShader _ dev) as [[sh|] dev1]; [|done].
      destruct (IH _ _ _ _ _ _ H) as (Hmono & res & -> & Hagain).
      split.
      * intros i e0 sh0 Hi Hsh0. apply (Hmono i e0 sh0); [|done].
        cbn. destruct (decide (i = Z.to_nat Idx)) as [->|Hne].
        -- congruence.
        -- by rewrite list_lookup_insert_ne.
      * exists (sh :: res). split; [by rewrite <- app_assoc|].
        intros Loaded2 dev2.
        destruct (Hmono (Z.to_nat Idx)
                    (MkShaderEntry (Shader_Offset e) (Shader_Size e) (Some sh)) sh)
          as (e' & -> & ->); [|done|].
        { cbn. apply list_lookup_insert_eq. by eapply lookup_lt_Some. }
        rewrite Hagain. by rewrite <- app_assoc.
Qed.

(** X16. The shader table caches every shader it creates: when
    [LoadShaders] has produced the shaders of an index array, loading the
    same array again returns the same shaders without creating a shader
    and without changing the reader. *)
Theorem LoadShaders_again (pData : list Z) (r : DeviceObjectArchiveBase) (dev : Device)
  (Loaded : list Z) (r' : DeviceObjectArchiveBase) (dev' : Device) :
  LoadShaders pData r dev = (Some Loaded, r', dev') ->
  forall dev2, LoadShaders pData r' dev2 = (Some Loaded, r', dev2).
Proof.
  intros H dev2.
  pose proof (LoadShaders_same_archive pData r dev) as (HA & HD & HB & _).
  rewrite H in HA, HD, HB. cbn [fst snd] in HA, HD, HB.
  unfold LoadShaders in *. rewrite HA, HD, HB.
  destruct (decide _); [done|].
  destruct (Serialize Read _ _ _) as [[Indices ?]|]; [|done].
  destruct (LoadShaderList_again _ _ _ _ _ _ _ _ H) as (_ & res & -> & Hagain).
  apply Hagain.
Qed.

End Unpack.

Lemma unpack_not_found_witness :
  UnpackGraphicsPSO (Dev := CountingDevice)
    (MkPSOInfo (bytes_of_string "Q") 0 1 1 EmptyPipelineDesc EmptyPipelineDesc)
    (S6_Reader None) 1000
  = (None, S6_Reader None, 1000).
Proof.
  apply (proj1 (proj2 (proj2 (unpack_not_found (CDev := CountingCompute)
                                (S6_Reader None) 1000)))).
  vm_compute. reflexivity.
Defined.

Lemma unpack_twice_returns_cached_object_witness :
  UnpackRenderPass (Dev := CountingDevice) RP_Plain
    (UnpackRenderPass (Dev := CountingDevice) RP_Plain RP_Reader 1000).1.2 5
  = (Some 1000, (UnpackRenderPass (Dev := CountingDevice) RP_Plain RP_Reader 1000).1.2, 5).
Proof.
  apply (proj2 (proj1 (proj2 (unpack_twice_returns_cached_object (Dev := CountingDevice)))
                  RP_Plain RP_Reader 1000 (MkEntry 0 52 None) 1000
                  (UnpackRenderPass (Dev := CountingDevice) RP_Plain RP_Reader 1000).1.2
                  1001 eq_refl (lookup_singleton_eq _ _) ltac:(intros obj [=])
                  ltac:(vm_compute; reflexivity))).
  reflexivity.
Defined.

Lemma LoadShaders_again_witness :
  LoadShaders (Dev := CountingDevice) Shader_Indices
    (LoadShaders (Dev := CountingDevice) Shader_Indices Shader_Reader 1000).1.2 7
  = (Some [1000; 1000],
     (LoadShaders (Dev := CountingDevice) Shader_Indices Shader_Reader 1000).1.2, 7).
Proof.
  apply (LoadShaders_again (Dev := CountingDevice) Shader_Indices Shader_Reader 1000
           [1000; 1000] _ 1001).
  vm_compute. reflexivity.
Defined.

End DearchiverFacts.

Module ReadBackFacts.
Import DeviceObjectArchive.

(** *** Reading what was laid out *)

Lemma bytes_at_app pre x post :
  bytes_at (pre ++ x ++ post) (Z.of_nat (length pre)) (Z.of_nat (length x)) = Some x.
Proof.
  unfold bytes_at. rewrite decide_True by (rewrite !length_app; lia).
  rewrite !Nat2Z.id, drop_app_length, take_app_length. done.
Qed.

Lemma bytes_at_app_l Data post Off Len x :
  bytes_at Data Off Len = Some x -> bytes_at (Data ++ post) Off Len = Some x.
Proof.
  unfold bytes_at. destruct (decide _) as [(H0 & H1 & H2)|]; [|done]. intros [= <-].
  rewrite decide_True by (rewrite length_app; lia).
  f_equal. rewrite drop_app_le by lia. rewrite take_app_le; [done|].
  rewrite length_drop. lia.
Qed.

Lemma bytes_at_app_r pre Data Off Len x :
  bytes_at Data Off Len = Some x ->
  bytes_at (pre ++ Data) (Z.of_nat (length pre) + Off) Len = Some x.
Proof.
  unfold bytes_at. destruct (decide _) as [(H0 & H1 & H2)|]; [|done]. intros [= <-].
  rewrite decide_True by (rewrite length_app; lia).
  f_equal. rewrite Z2Nat.inj_add, Nat2Z.id by lia.
  by rewrite drop_app_add'.
Qed.

Lemma Archive_Read_bytes_at A Pos Size : Archive_Read A Pos Size = bytes_at A Pos Size.
Proof. done. Qed.

Lemma length_u32_array_bytes a :
  Z.of_nat (length (ArchiveStream.u32_array_bytes a)) = 4 * Z.of_nat (length a).
Proof.
  unfold ArchiveStream.u32_array_bytes. induction a as [|v a IH]; [done|].
  cbn [fmap list_fmap concat length]. rewrite length_app, length_le_bytes.
  change (list_fmap Z (list Z) (le_bytes 4) a) with (le_bytes 4 <$> a). lia.
Qed.

Lemma length_u32_array_bytes_nat a :
  length (ArchiveStream.u32_array_bytes a) = (4 * length a)%nat.
Proof. pose proof (length_u32_array_bytes a). lia. Qed.

Lemma u32_at_here v post :
  0 <= v < 2 ^ 32 -> u32_at (le_bytes 4 v ++ post) 0 = Some v.
Proof.
  intros Hv. unfold u32_at.
  pose proof (bytes_at_app [] (le_bytes 4 v) post) as H. cbn [app length] in H.
  rewrite length_le_bytes in H. change (Z.of_nat 0) with 0 in H.
  change (Z.of_nat 4) with 4 in H. rewrite H. cbn [fmap option_fmap option_map].
  f_equal. apply le_value_le_bytes. change (256 ^ Z.of_nat 4) with (2 ^ 32). lia.
Qed.

Lemma u32_at_array a : forall (j : nat) v post,
  a !! j = Some v -> 0 <= v < 2 ^ 32 ->
  u32_at (ArchiveStream.u32_array_bytes a ++ post) (4 * Z.of_nat j) = Some v.
Proof.
  unfold ArchiveStream.u32_array_bytes. induction a as [|x a IH]; intros j v post Hj Hv; [done|].
  cbn [fmap list_fmap concat].
  change (list_fmap Z (list Z) (le_bytes 4) a) with (le_bytes 4 <$> a).
  rewrite <- app_assoc. destruct j as [|j]; cbn in Hj.
  - injection Hj as ->. by apply u32_at_here.
  - specialize (IH j v post Hj Hv). unfold u32_at in *.
    destruct (bytes_at (concat (le_bytes 4 <$> a) ++ post) (4 * Z.of_nat j) 4) as [bs|] eqn:E;
      [|done].
    pose proof (bytes_at_app_r (le_bytes 4 x) _ _ _ _ E) as H.
    rewrite length_le_bytes in H.
    replace (4 * Z.of_nat (S j)) with (Z.of_nat 4 + 4 * Z.of_nat j) by lia.
    by rewrite H.
Qed.

Lemma u32_at_app_r pre Data Off v :
  u32_at Data Off = Some v -> u32_at (pre ++ Data) (Z.of_nat (length pre) + Off) = Some v.
Proof.
  unfold u32_at. destruct (bytes_at Data Off 4) as [bs|] eqn:E; [|done].
  by rewrite (bytes_at_app_r pre _ _ _ _ E).
Qed.

Lemma field32_here v post : 0 <= v < 2 ^ 32 -> field32 (le_bytes 4 v ++ post) 0 = v.
Proof.
  intros Hv. unfold field32. change (Z.to_nat 0) with 0%nat. rewrite drop_0.
  rewrite take_app_length' by (by rewrite length_le_bytes).
  apply le_value_le_bytes. change (256 ^ Z.of_nat 4) with (2 ^ 32). lia.
Qed.

Lemma field32_skip pre post Off :
  0 <= Off ->
  field32 (pre ++ post) (Z.of_nat (length pre) + Off)
  = field32 post Off.
Proof.
  intros H. unfold field32.
  rewrite Z2Nat.inj_add, Nat2Z.id by lia. by rewrite drop_app_add'.
Qed.

Lemma cstr_in_Some bs s : cstr_in bs = Some s -> s = cstr bs /\ 0 ∈ bs.
Proof.
  revert s. induction bs as [|b bs IH]; intros s; cbn; [done|].
  destruct (decide (b = 0)) as [->|Hb].
  - intros [= <-]. split; [done|]. apply list_elem_of_here.
  - destruct (cstr_in bs) as [s'|]; cbn; [|done]. intros [= <-].
    destruct (IH s' eq_refl) as [-> Hin]. split; [done|]. by apply list_elem_of_further.
Qed.

Lemma cstr_in_app bs post : 0 ∈ bs -> cstr_in (bs ++ post) = Some (cstr bs).
Proof.
  induction bs as [|b bs IH]; intros Hin; [by apply elem_of_nil in Hin|].
  cbn. destruct (decide (b = 0)); [done|].
  apply elem_of_cons in Hin as [Hin|Hin]; [done|]. by rewrite IH.
Qed.

Lemma cstr_cstr bs post : cstr (cstr bs ++ 0 :: post) = cstr bs.
Proof.
  induction bs as [|b bs IH]; cbn; [done|].
  destruct (decide (b = 0)); cbn; [done|].
  rewrite decide_False by done. by rewrite IH.
Qed.

(** A chunk of names as the writer lays it out, read by [ReadNames]: every
    entry is read, none fails a check, and the directory gets the entries
    under the names, which are different C strings that the directory does
    not hold yet. *)
Lemma ReadNames_written Data ArchiveSize (NL DS DO : list Z) (Names : list (list Z)) (n : nat) :
  Data = le_bytes 4 (Z.of_nat n) ++ ArchiveStream.u32_array_bytes NL
         ++ ArchiveStream.u32_array_bytes DS ++ ArchiveStream.u32_array_bytes DO
         ++ concat Names ->
  length NL = n -> length DS = n -> length DO = n -> length Names = n ->
  NoDup (cstr <$> Names) ->
  (forall (j : nat) nl ds do nm,
      NL !! j = Some nl -> DS !! j = Some ds -> DO !! j = Some do -> Names !! j = Some nm ->
      nl = Z.of_nat (length nm) /\ 0 ∈ nm
      /\ 0 <= nl < 2 ^ 32 /\ 0 <= ds < 2 ^ 32 /\ 0 <= do < 2 ^ 32
      /\ wrap32 (do + ds) <= ArchiveSize) ->
  forall (todo i : nat) m,
    (i + todo)%nat = n ->
    (forall nm, nm ∈ drop i Names -> m !! cstr nm = None) ->
    exists Res,
      ReadNames Data ArchiveSize 4 (4 + 4 * Z.of_nat n) (4 + 8 * Z.of_nat n) todo (Z.of_nat i)
        (4 + 12 * Z.of_nat n + Z.of_nat (length (concat (take i Names)))) m = Ok Res
      /\ (forall (j : nat) ds do nm,
             (i <= j)%nat -> DS !! j = Some ds -> DO !! j = Some do -> Names !! j = Some nm ->
             Res !! cstr nm = Some (MkEntry do ds None))
      /\ (forall k, (forall nm, nm ∈ drop i Names -> k <> cstr nm) -> Res !! k = m !! k).
Proof.
  intros HData HNL HDS HDO HNames Hnd Hent.
  induction todo as [|todo IH]; intros i m Hi Hfresh; cbn [ReadNames].
  - exists m. split; [done|]. split; [|done].
    intros j ds do nm Hj _ _ Hnm. apply lookup_lt_Some in Hnm. lia.
  - assert (Hlt : (i < n)%nat) by lia.
    destruct (lookup_lt_is_Some_2 NL i) as [nl Enl]; [lia|].
    destruct (lookup_lt_is_Some_2 DS i) as [ds Eds]; [lia|].
    destruct (lookup_lt_is_Some_2 DO i) as [do Edo]; [lia|].
    destruct (lookup_lt_is_Some_2 Names i) as [nm Enm]; [lia|].
    destruct (Hent i nl ds do nm Enl Eds Edo Enm) as (Hnl & Hzero & Rnl & Rds & Rdo & Hrange).
    pose proof (length_u32_array_bytes_nat NL) as LNL.
    pose proof (length_u32_array_bytes_nat DS) as LDS.
    pose proof (length_u32_array_bytes_nat DO) as LDO.
    assert (E1 : u32_at Data (4 + 4 * Z.of_nat i) = Some nl).
    { rewrite HData.
      pose proof (u32_at_app_r (le_bytes 4 (Z.of_nat n)) _ _ _
                    (u32_at_array NL i nl (ArchiveStream.u32_array_bytes DS ++ ArchiveStream.u32_array_bytes DO ++ concat Names) Enl Rnl)) as H.
      rewrite length_le_bytes in H. exact H. }
    assert (E2 : u32_at Data (4 + 4 * Z.of_nat n + 4 * Z.of_nat i) = Some ds).
    { rewrite HData, (app_assoc (le_bytes 4 _)).
      pose proof (u32_at_app_r (le_bytes 4 (Z.of_nat n) ++ ArchiveStream.u32_array_bytes NL)
                    _ _ _ (u32_at_array DS i ds (ArchiveStream.u32_array_bytes DO ++ concat Names) Eds Rds)) as H.
      rewrite length_app, length_le_bytes, LNL, HNL in H.
      replace (4 + 4 * Z.of_nat n + 4 * Z.of_nat i)
        with (Z.of_nat (4 + 4 * n) + 4 * Z.of_nat i) by lia. exact H. }
    assert (E3 : u32_at Data (4 + 8 * Z.of_nat n + 4 * Z.of_nat i) = Some do).
    { rewrite HData, (app_assoc (le_bytes 4 _)), (app_assoc (_ ++ _)).
      pose proof (u32_at_app_r ((le_bytes 4 (Z.of_nat n) ++ ArchiveStream.u32_array_bytes NL)
                                ++ ArchiveStream.u32_array_bytes DS)
                    _ _ _ (u32_at_array DO i do (concat Names) Edo Rdo)) as H.
      rewrite !length_app, length_le_bytes, LNL, LDS, HNL, HDS in H.
      replace (4 + 8 * Z.of_nat n + 4 * Z.of_nat i)
        with (Z.of_nat (4 + 4 * n + 4 * n) + 4 * Z.of_nat i) by lia. exact H. }
    assert (HN : Names = take i Names ++ nm :: drop (S i) Names)
      by (by rewrite <- (take_drop_middle Names i nm Enm) at 1).
    assert (E4 : cstr_in (drop (Z.to_nat (4 + 12 * Z.of_nat n
                                           + Z.of_nat (length (concat (take i Names))))) Data)
                 = Some (cstr nm)).
    { set (k := Z.to_nat _). rewrite HData, HN at 1. rewrite concat_app, concat_cons.
      rewrite (app_assoc (le_bytes 4 _)), (app_assoc (_ ++ _)), (app_assoc (_ ++ _)),
        (app_assoc (_ ++ _) (concat (take i Names))).
      match goal with |- cstr_in (drop _ (?pre ++ _ ++ _)) = _ =>
        replace k with (length pre); [rewrite drop_app_length; by apply cstr_in_app|] end.
      unfold k. rewrite !length_app, length_le_bytes, LNL, LDS, LDO, HNL, HDS, HDO. lia. }
    assert (Hnl0 : nl <> 0).
    { rewrite Hnl. destruct nm; [by apply elem_of_nil in Hzero|]. cbn [length]. lia. }
    assert (HLen : Z.of_nat (length Data)
                   = 4 + 12 * Z.of_nat n + Z.of_nat (length (concat Names))).
    { rewrite HData, !length_app, length_le_bytes, LNL, LDS, LDO, HNL, HDS, HDO. lia. }
    assert (HLenN : length (concat Names)
                    = (length (concat (take i Names)) + length nm
                       + length (concat (drop (S i) Names)))%nat).
    { rewrite HN at 1. rewrite concat_app, concat_cons, !length_app. lia. }
    rewrite E1. rewrite decide_False by lia. rewrite E3, E2.
    rewrite decide_False by lia. rewrite (decide_False _ _ Hnl0), E4.
    assert (Hm : m !! cstr nm = None).
    { apply Hfresh. rewrite (drop_S _ _ _ Enm). apply list_elem_of_here. }
    unfold Archiver.emplace. rewrite Hm. cbn [snd].
    destruct (IH (S i) (<[cstr nm := MkEntry do ds None]> m)) as (Res & HRes & Hin & Hout).
    { lia. }
    { intros nm' Hnm'. rewrite lookup_insert_ne; [|].
      - apply Hfresh. rewrite (drop_S _ _ _ Enm). by apply list_elem_of_further.
      - intros Heq. apply list_elem_of_lookup in Hnm' as [j' Hj'].
        rewrite lookup_drop in Hj'.
        assert (i = (S i + j')%nat); [|lia].
        eapply (NoDup_lookup _ _ _ _ Hnd); rewrite list_lookup_fmap.
        + by rewrite Enm.
        + by rewrite Hj', Heq. }
    exists Res. split.
    { replace (Z.of_nat i + 1) with (Z.of_nat (S i)) by lia.
      replace (4 + 12 * Z.of_nat n + Z.of_nat (length (concat (take i Names))) + nl)
        with (4 + 12 * Z.of_nat n + Z.of_nat (length (concat (take (S i) Names)))); [done|].
      rewrite (take_S_r _ _ _ Enm), concat_app, length_app. cbn [concat length].
      rewrite app_nil_r. lia. }
    split.
    + intros j ds' do' nm' Hj Eds' Edo' Enm'.
      destruct (decide (j = i)) as [->|Hne].
      * rewrite Eds in Eds'. rewrite Edo in Edo'. rewrite Enm in Enm'.
        injection Eds' as <-. injection Edo' as <-. injection Enm' as <-.
        rewrite Hout; [by rewrite lookup_insert_eq|].
        intros nm' Hnm' Heq. apply list_elem_of_lookup in Hnm' as [j' Hj'].
        rewrite lookup_drop in Hj'.
        assert (i = (S i + j')%nat); [|lia].
        eapply (NoDup_lookup _ _ _ _ Hnd); rewrite list_lookup_fmap.
        -- by rewrite Enm.
        -- by rewrite Hj', Heq.
      * apply (Hin j ds' do' nm'); [lia|done..].
    + intros k Hk. rewrite Hout.
      * rewrite lookup_insert_ne; [done|]. intros Heq. apply (Hk nm); [|done].
        rewrite (drop_S _ _ _ Enm). apply list_elem_of_here.
      * intros nm' Hnm'. apply Hk. rewrite (drop_S _ _ _ Enm). by apply list_elem_of_further.
Qed.

End ReadBackFacts.

Module StreamFacts.
Import Serializer Archiver ArchiveStream.

(** *** A block is filled as far as it was reserved *)

Lemma foldl_measure {A S} (f : S -> A -> S) (m : S -> Z) (c : A -> Z) :
  (forall s a, m (f s a) = m s + c a) ->
  forall l s, m (foldl f s l) = m s + foldr (fun a z => c a + z) 0 l.
Proof.
  intros Hf l. induction l as [|a l IH]; intros s; cbn [foldl foldr]; [lia|].
  rewrite IH, Hf. lia.
Qed.

Lemma for_each_measure {V S} (body : V -> S -> S) (m : S -> Z) (c : V -> Z) :
  (forall s a, m (body a s) = m s + c a) ->
  forall M s, m (for_each body M s)
              = m s + foldr (fun kv z => c kv.2 + z) 0 (map_to_list M).
Proof.
  intros Hf M s. unfold for_each.
  apply (foldl_measure (fun s' kv => body kv.2 s') m (fun kv => c kv.2)).
  intros s' kv. apply Hf.
Qed.

Lemma length_DataHeader_bytes h : Z.of_nat (length (DataHeader_bytes h)) = sizeof_DataHeader.
Proof. done. Qed.

Lemma length_store32 Off v bs :
  0 <= Off -> Off + 4 <= Z.of_nat (length bs) -> length (store32 Off v bs) = length bs.
Proof.
  intros H0 H1. unfold store32.
  rewrite !length_app, length_take, length_le_bytes, length_drop. lia.
Qed.

(** A phase of [ReserveSpace] and the phase of the writes that fills what
    it reserved: if, object by object, the write fills what the reservation
    added, then so do the two loops. *)
Lemma phase_fills {V S} (R : PendingData -> V -> PendingData) (W : S -> V -> S)
  (pending : S -> PendingData) (l : list V) :
  (forall O, exists c : option DeviceType -> Z,
      forall b, (forall D, Unused (Block (R D O) b) = Unused (Block D b) + c b)
                /\ (forall s, Unused (Block (pending (W s O)) b)
                              = Unused (Block (pending s) b) - c b)) ->
  exists c : option DeviceType -> Z,
    forall b, (forall D, Unused (Block (foldl R D l) b) = Unused (Block D b) + c b)
              /\ (forall s, Unused (Block (pending (foldl W s l)) b)
                            = Unused (Block (pending s) b) - c b).
Proof.
  intros Hstep. induction l as [|O l IH].
  - exists (fun _ => 0). intros b. split; intros; cbn [foldl]; lia.
  - destruct IH as [cl Hl]. destruct (Hstep O) as [c Hc].
    exists (fun b => c b + cl b). intros b. destruct (Hl b) as [HR HW].
    destruct (Hc b) as [HR1 HW1].
    split; intros; cbn [foldl]; [rewrite HR, HR1|rewrite HW, HW1]; lia.
Qed.

(** The per-device writes of one object: each device block grows by the
    bytes of the object for the device, the shared block and the
    reservations stay. *)
Lemma WriteDevice_fold {Obj} (O : Obj)
  (WriteDeviceData : DataHeader -> DeviceType -> Obj -> PendingData -> DataHeader * PendingData)
  (Src : DeviceType -> SerializedMemory) :
  (forall h t D,
      WriteDeviceData h t O D
      = (let '(h', e') := WritePerDeviceData h t (Src t) (Pending_PerDeviceData D t) in
         (h', set_PerDeviceData t e' D))) ->
  forall l h D, NoDup l ->
    let r := foldl (fun '(h, P) d => WriteDeviceData h d O P) (h, D) l in
    Pending_SharedData r.2 = Pending_SharedData D
    /\ forall d,
         ReservedSize (Pending_PerDeviceData r.2 d) = ReservedSize (Pending_PerDeviceData D d)
         /\ Data (Pending_PerDeviceData r.2 d)
            = Data (Pending_PerDeviceData D d) ++ (if decide (d ∈ l) then Mem_Ptr (Src d) else []).
Proof.
  intros HW l. induction l as [|t l IH]; intros h D Hnd; cbn [foldl].
  - split; [done|]. intros d. rewrite decide_False by apply not_elem_of_nil.
    by rewrite app_nil_r.
  - apply NoDup_cons in Hnd as [Hnotin Hnd]. rewrite HW.
    destruct (WritePerDeviceData h t (Src t) (Pending_PerDeviceData D t)) as [h' e'] eqn:E.
    destruct (IH h' (set_PerDeviceData t e' D) Hnd) as [Hs Hd].
    split; [by rewrite Hs|]. intros d. destruct (Hd d) as [Hr Hdata].
    rewrite Hr, Hdata. cbn [set_PerDeviceData Pending_PerDeviceData].
    unfold WritePerDeviceData, Data_Copy in E.
    destruct (decide (d = t)) as [->|Hne].
    + rewrite fn_lookup_insert, decide_False, decide_True by (done || apply list_elem_of_here).
      destruct (Mem_bool (Src t)) eqn:Eb; cbn in E; injection E as <- <-; cbn.
      * by rewrite app_nil_r.
      * by rewrite (ArchiverFacts.Mem_Ptr_null _ Eb), !app_nil_r.
    + rewrite fn_lookup_insert_ne by done. split; [done|]. f_equal.
      destruct (decide (d ∈ l)).
      * by rewrite decide_True by (by apply list_elem_of_further).
      * by rewrite decide_False by (by intros [?|?]%elem_of_cons).
Qed.

(** The same for the reservations. *)
Lemma ReserveDevice_fold (Src : DeviceType -> SerializedMemory) l : forall P,
  NoDup l ->
  let r := foldl (fun P' Type_ =>
                    set_PerDeviceData Type_
                      (AddSpace (Mem_Size (Src Type_)) (Pending_PerDeviceData P' Type_)) P') P l in
  Pending_SharedData r = Pending_SharedData P
  /\ forall d,
       Data (Pending_PerDeviceData r d) = Data (Pending_PerDeviceData P d)
       /\ ReservedSize (Pending_PerDeviceData r d)
          = ReservedSize (Pending_PerDeviceData P d)
            + (if decide (d ∈ l) then Mem_Size (Src d) else 0).
Proof.
  induction l as [|t l IH]; intros P Hnd; cbn [foldl].
  - split; [done|]. intros d. rewrite decide_False by apply not_elem_of_nil. split; [done|lia].
  - apply NoDup_cons in Hnd as [Hnotin Hnd].
    destruct (IH (set_PerDeviceData t (AddSpace (Mem_Size (Src t)) (Pending_PerDeviceData P t)) P)
                Hnd) as [Hs Hd].
    split; [by rewrite Hs|]. intros d. destruct (Hd d) as [Hdata Hr].
    rewrite Hr, Hdata. cbn [set_PerDeviceData Pending_PerDeviceData].
    destruct (decide (d = t)) as [->|Hne].
    + rewrite fn_lookup_insert, decide_False, decide_True by (done || apply list_elem_of_here).
      cbn. split; [done|lia].
    + rewrite fn_lookup_insert_ne by done. split; [done|].
      destruct (decide (d ∈ l)).
      * by rewrite decide_True by (by apply list_elem_of_further).
      * by rewrite decide_False by (by intros [?|?]%elem_of_cons).
Qed.

(** One object with per-device data: what is reserved for it is what
    writing it fills. *)
Lemma object_fills {Obj} (Type_ : Z) (GetSharedData : Obj -> SerializedMemory)
  (WriteDeviceData : DataHeader -> DeviceType -> Obj -> PendingData -> DataHeader * PendingData)
  (Src : Obj -> DeviceType -> SerializedMemory) (O : Obj) :
  (forall h t D,
      WriteDeviceData h t O D
      = (let '(h', e') := WritePerDeviceData h t (Src O t) (Pending_PerDeviceData D t) in
         (h', set_PerDeviceData t e' D))) ->
  exists c : option DeviceType -> Z,
    forall b,
      (forall D,
          Unused (Block
            (foldl (fun P' t =>
                      set_PerDeviceData t
                        (AddSpace (Mem_Size (Src O t)) (Pending_PerDeviceData P' t)) P')
               (set_SharedData
                  (AddSpace (Mem_Size (GetSharedData O))
                     (AddSpace sizeof_DataHeader (Pending_SharedData D))) D)
               DeviceTypes) b)
          = Unused (Block D b) + c b)
      /\ (forall D,
            Unused (Block (WriteDeviceObject Type_ GetSharedData WriteDeviceData O D).2 b)
            = Unused (Block D b) - c b).
Proof.
  intros HW.
  exists (fun b => match b with
                   | None => sizeof_DataHeader + Mem_Size (GetSharedData O)
                   | Some d => Mem_Size (Src O d)
                   end).
  intros b. split; intros D.
  - destruct (ReserveDevice_fold (Src O) DeviceTypes
                (set_SharedData
                   (AddSpace (Mem_Size (GetSharedData O))
                      (AddSpace sizeof_DataHeader (Pending_SharedData D))) D)
                ArchiverFacts.NoDup_DeviceTypes) as [Hs Hd].
    destruct b as [d|]; cbn [Block].
    + destruct (Hd d) as [Hdata Hr]. unfold Unused, GetCurrentSize.
      rewrite Hdata, Hr, decide_True by apply ArchiverFacts.elem_of_DeviceTypes.
      cbn. lia.
    + rewrite Hs. unfold Unused, GetCurrentSize. cbn. lia.
  - unfold WriteDeviceObject.
    destruct (WriteDevice_fold O WriteDeviceData (Src O) HW DeviceTypes (DataHeader_new Type_) D
                ArchiverFacts.NoDup_DeviceTypes) as [Hs Hd].
    destruct (foldl _ (DataHeader_new Type_, D) DeviceTypes) as [Header D1].
    cbn [fst snd] in *. destruct b as [d|]; cbn [Block set_SharedData Pending_PerDeviceData
                                                 Pending_SharedData].
    + destruct (Hd d) as [Hr Hdata]. unfold Unused, GetCurrentSize.
      rewrite Hr, Hdata, decide_True by apply ArchiverFacts.elem_of_DeviceTypes.
      rewrite length_app. unfold Mem_Size. lia.
    + unfold Unused, GetCurrentSize, Mem_Size. cbn [ReservedSize Data].
      rewrite !length_app. pose proof (length_DataHeader_bytes Header). lia.
Qed.

Lemma RP_fills (Type_ : Z) (O : SerializableRenderPassImpl) :
  exists c : option DeviceType -> Z,
    forall b,
      (forall D, Unused (Block (ReserveSpaceForRP O D) b) = Unused (Block D b) + c b)
      /\ (forall D,
            Unused (Block (WriteDeviceObject Type_ rp_SharedSerializedMemory
                             (fun Header _ _ D => (Header, D)) O D).2 b)
            = Unused (Block D b) - c b).
Proof.
  exists (fun b => match b with
                   | None => sizeof_DataHeader + Mem_Size (rp_SharedSerializedMemory O)
                   | Some d => 0
                   end).
  intros b. split; intros D.
  - destruct b as [d|]; unfold ReserveSpaceForRP, Unused, GetCurrentSize; cbn; lia.
  - unfold WriteDeviceObject. cbn [foldl DeviceTypes fst snd].
    destruct b as [d|]; unfold Unused, GetCurrentSize, Mem_Size; cbn; [lia|].
    rewrite !length_app. pose proof (length_DataHeader_bytes
      (DataHeader_new Type_)). cbn in *. lia.
Qed.

(** The loop over the shaders of a device fills the table in place and
    adds the shaders. *)
Lemma WriteShader_fold_size pOffsetAndSize List : forall Dst s,
  0 <= pOffsetAndSize -> 0 <= s ->
  pOffsetAndSize + sizeof_FileOffsetAndSize * (s + Z.of_nat (length List))
    <= GetCurrentSize Dst ->
  let r := foldl (WriteShader pOffsetAndSize) (Dst, s) List in
  ReservedSize r.1 = ReservedSize Dst
  /\ GetCurrentSize r.1
     = GetCurrentSize Dst + foldr (fun Sh z => Z.of_nat (length Sh) + z) 0 List.
Proof.
  unfold sizeof_FileOffsetAndSize.
  induction List as [|Sh List IH]; intros Dst s H0 Hs Hin; cbn [foldl foldr].
  - cbn. split; [done|lia].
  - cbn [length] in Hin.
    assert (E : exists bytes,
      WriteShader pOffsetAndSize (Dst, s) Sh = (MkData (ReservedSize Dst) bytes, s + 1)
      /\ length bytes = length (Data Dst ++ Sh)).
    { eexists. split; [reflexivity|]. cbn [Data Data_Copy snd].
      unfold GetCurrentSize, sizeof_FileOffsetAndSize in *.
      rewrite !length_store32; [done|lia| |lia|]; rewrite ?length_store32, ?length_app;
        rewrite ?length_app; lia. }
    destruct E as (bytes & -> & Hlen).
    destruct (IH (MkData (ReservedSize Dst) bytes) (s + 1)) as [Hr Hc]; [lia|lia| |].
    + unfold GetCurrentSize in *. cbn [Data]. rewrite Hlen, length_app. lia.
    + split; [by rewrite Hr|]. rewrite Hc. unfold GetCurrentSize. cbn [Data].
      rewrite Hlen, length_app. lia.
Qed.

Lemma Shaders_fill (w : ArchiverImpl) (t : DeviceType) :
  exists c : option DeviceType -> Z,
    forall b,
      (forall D, Unused (Block (ReserveSpaceForShaders (m_Shaders w) t D) b)
                 = Unused (Block D b) + c b)
      /\ (forall s : DataHeader * PendingData,
            Unused (Block (WriteDeviceShaders w s t).2 b) = Unused (Block s.2 b) - c b).
Proof.
  exists (fun b =>
            if decide (b = Some t)
            then sizeof_FileOffsetAndSize * Z.of_nat (length (Shaders_List (m_Shaders w t)))
                 + foldr (fun Sh z => Z.of_nat (length Sh) + z) 0 (Shaders_List (m_Shaders w t))
            else 0).
  intros b. split.
  - intros D. unfold ReserveSpaceForShaders.
    destruct (Shaders_List (m_Shaders w t)) as [|Sh List] eqn:EL.
    { destruct (decide _); cbn; lia. }
    rewrite <- EL. clear EL Sh List.
    set (List := Shaders_List (m_Shaders w t)).
    assert (HR : forall e,
      ReservedSize (foldl (fun e Sh => AddSpace (Z.of_nat (length Sh)) e) e List)
      = ReservedSize e + foldr (fun Sh z => Z.of_nat (length Sh) + z) 0 List
      /\ Data (foldl (fun e Sh => AddSpace (Z.of_nat (length Sh)) e) e List) = Data e).
    { induction List as [|Sh List IH]; intros e; cbn [foldl foldr]; [split; [lia|done]|].
      destruct (IH (AddSpace (Z.of_nat (length Sh)) e)) as [-> ->]. cbn. split; [lia|done]. }
    destruct b as [d|]; cbn [Block set_PerDeviceData Pending_PerDeviceData Pending_SharedData].
    + destruct (decide (d = t)) as [->|Hne].
      * rewrite fn_lookup_insert, decide_True by done. unfold Unused, GetCurrentSize.
        destruct (HR (AddSpace (sizeof_FileOffsetAndSize * Z.of_nat (length List))
                        (Pending_PerDeviceData D t))) as [-> ->]. cbn. lia.
      * rewrite fn_lookup_insert_ne, decide_False by congruence. lia.
    + rewrite decide_False by done. lia.
  - intros [Header D]. unfold WriteDeviceShaders. cbn [snd].
    destruct (Shaders_List (m_Shaders w t)) as [|Sh List] eqn:EL.
    { destruct (decide _); cbn; lia. }
    rewrite <- EL. clear EL Sh List.
    set (List := Shaders_List (m_Shaders w t)).
    unfold Data_Copy.
    set (Dst1 := MkData _ _).
    pose proof (WriteShader_fold_size (GetCurrentSize (Pending_PerDeviceData D t)) List Dst1 0)
      as HS.
    destruct (foldl _ (Dst1, 0) List) as [Dst2 s2]. cbn [fst snd] in *.
    destruct HS as [Hr Hc].
    { unfold GetCurrentSize. lia. }
    { lia. }
    { unfold Dst1, GetCurrentSize, sizeof_FileOffsetAndSize. cbn [Data].
      rewrite length_app, length_replicate. lia. }
    destruct b as [d|]; cbn [Block set_PerDeviceData Pending_PerDeviceData Pending_SharedData].
    + destruct (decide (d = t)) as [->|Hne].
      * rewrite fn_lookup_insert, decide_True by done. unfold Unused. rewrite Hr, Hc.
        unfold Dst1, GetCurrentSize, sizeof_FileOffsetAndSize. cbn [Data ReservedSize].
        rewrite length_app, length_replicate. lia.
      * rewrite fn_lookup_insert_ne, decide_False by congruence. lia.
    + rewrite decide_False by done. lia.
Qed.

Lemma Pending_WriteShaderData w P :
  Pending (WriteShaderData w P)
  = (foldl (WriteDeviceShaders w)
       (DataHeader_new (DeviceObjectArchive.ChunkType_to_Z DeviceObjectArchive.Shaders),
        Pending P) DeviceTypes).2.
Proof.
  unfold WriteShaderData.
  destruct (existsb _ DeviceTypes) eqn:E; cbn [negb].
  - by destruct (foldl _ _ DeviceTypes).
  - assert (H : forall d, Shaders_List (m_Shaders w d) = []).
    { intros d. destruct (Shaders_List (m_Shaders w d)) eqn:EL; [done|].
      destruct d; cbn in E; rewrite ?EL in E; cbn in E;
        repeat (destruct (Shaders_List (m_Shaders w _)); cbn in E; try done). }
    cbn [foldl DeviceTypes]. unfold WriteDeviceShaders. by rewrite !H.
Qed.

Lemma Pending_WriteDeviceObjectAt {Obj} Type_ GetSharedData WriteDeviceData j (O : Obj) P :
  Pending (WriteDeviceObjectAt Type_ GetSharedData WriteDeviceData j O P)
  = (WriteDeviceObject (DeviceObjectArchive.ChunkType_to_Z Type_) GetSharedData WriteDeviceData
       O (Pending P)).2.
Proof.
  unfold WriteDeviceObjectAt.
  by destruct (WriteDeviceObject _ _ _ _ _) as [[DstOffset Increment] D].
Qed.

Lemma Pending_InitNamedResourceArrayHeader {Obj} Type_ GetSharedData (Map : gmap string Obj) P :
  Pending (InitNamedResourceArrayHeader Type_ GetSharedData Map P) = Pending P.
Proof.
  unfold InitNamedResourceArrayHeader.
  by destruct (foldl _ _ (map_to_list Map)) as [[[? ?] ?] ?].
Qed.

Lemma Pending_WriteDeviceObjectData {Obj} Type_ GetSharedData WriteDeviceData
  (Map : gmap string Obj) P :
  Pending (WriteDeviceObjectData Type_ GetSharedData WriteDeviceData Map P)
  = Pending
      (foldl (fun '(P', j) (Obj_ : string * Obj) =>
                (WriteDeviceObjectAt Type_ GetSharedData WriteDeviceData j Obj_.2 P',
                 wrap32 (j + 1)))
         (InitNamedResourceArrayHeader Type_ GetSharedData Map P, 0) (map_to_list Map)).1.
Proof.
  unfold WriteDeviceObjectData. destruct (decide (Map = ∅)) as [->|]; [|done].
  rewrite map_to_list_empty. cbn [foldl fst].
  by rewrite Pending_InitNamedResourceArrayHeader.
Qed.

(** The phase of one map. *)
Lemma Map_fills {Obj} Type_ GetSharedData WriteDeviceData
  (Reserve : Obj -> PendingData -> PendingData) (Map : gmap string Obj) :
  (forall O, exists c : option DeviceType -> Z,
      forall b,
        (forall D, Unused (Block (Reserve O D) b) = Unused (Block D b) + c b)
        /\ (forall D,
              Unused (Block (WriteDeviceObject (DeviceObjectArchive.ChunkType_to_Z Type_)
                               GetSharedData WriteDeviceData O D).2 b)
              = Unused (Block D b) - c b)) ->
  exists c : option DeviceType -> Z,
    forall b,
      (forall D, Unused (Block (for_each Reserve Map D) b) = Unused (Block D b) + c b)
      /\ (forall P,
            Unused (Block (Pending (WriteDeviceObjectData Type_ GetSharedData WriteDeviceData
                                      Map P)) b)
            = Unused (Block (Pending P) b) - c b).
Proof.
  intros Hstep.
  destruct (phase_fills (fun D (kv : string * Obj) => Reserve kv.2 D)
              (fun '(P', j) (Obj_ : string * Obj) =>
                 (WriteDeviceObjectAt Type_ GetSharedData WriteDeviceData j Obj_.2 P',
                  wrap32 (j + 1)))
              (fun s => Pending s.1) (map_to_list Map)) as [c Hc].
  { intros [n O]. destruct (Hstep O) as [c Hc]. exists c. intros b.
    destruct (Hc b) as [HR HW]. split; [apply HR|].
    intros [P' j]. cbn [fst snd]. rewrite Pending_WriteDeviceObjectAt. apply HW. }
  exists c. intros b. destruct (Hc b) as [HR HW]. split; [apply HR|].
  intros P. rewrite Pending_WriteDeviceObjectData, HW. cbn [fst].
  by rewrite Pending_InitNamedResourceArrayHeader.
Qed.

Lemma PRS_fills (Type_ : Z) (O : SerializableResourceSignatureImpl) :
  exists c : option DeviceType -> Z,
    forall b,
      (forall D, Unused (Block (ReserveSpaceForPRS O D) b) = Unused (Block D b) + c b)
      /\ (forall D,
            Unused (Block (WriteDeviceObject Type_ PRS_GetSharedData WritePRSPerDeviceData
                             O D).2 b)
            = Unused (Block D b) - c b).
Proof.
  apply (object_fills Type_ PRS_GetSharedData WritePRSPerDeviceData
           (fun O t => PRS_GetDeviceData O (PRSDevType t)) O).
  done.
Qed.

Lemma PSO_fills (Type_ : Z) (O : TPSOData) :
  exists c : option DeviceType -> Z,
    forall b,
      (forall D, Unused (Block (ReserveSpaceForPSO O D) b) = Unused (Block D b) + c b)
      /\ (forall D,
            Unused (Block (WriteDeviceObject Type_ SharedData WritePSOPerDeviceData O D).2 b)
            = Unused (Block D b) - c b).
Proof.
  apply (object_fills Type_ SharedData WritePSOPerDeviceData PerDeviceData O). done.
Qed.

(** *** What the writes leave in the chunk of a map *)

Lemma InitNamed_fold {Obj} (GetSharedData : Obj -> SerializedMemory)
  (l2 : list (string * Obj)) : forall l1,
  Z.of_nat (length l1 + length l2) < 2 ^ 32 ->
  foldl (fun '(NameLengthArray, DataSizeArray, Names, i) (NameAndData : string * Obj) =>
           let Name := Name_bytes NameAndData.1 in
           let NameLen := Z.of_nat (length Name) in
           (<[Z.to_nat i := StaticCast_Uint32 (NameLen + 1)]> NameLengthArray,
            <[Z.to_nat i := StaticCast_Uint32 (Mem_Size (GetSharedData NameAndData.2))]>
              DataSizeArray,
            Names ++ [Name ++ [0]],
            wrap32 (i + 1)))
    (((fun kv : string * Obj => wrap32 (Z.of_nat (length (Name_bytes kv.1)) + 1)) <$> l1)
       ++ replicate (length l2) 0,
     ((fun kv : string * Obj => wrap32 (Mem_Size (GetSharedData kv.2))) <$> l1)
       ++ replicate (length l2) 0,
     (fun kv : string * Obj => Name_bytes kv.1 ++ [0]) <$> l1,
     Z.of_nat (length l1)) l2
  = ((fun kv : string * Obj => wrap32 (Z.of_nat (length (Name_bytes kv.1)) + 1)) <$> (l1 ++ l2),
     (fun kv : string * Obj => wrap32 (Mem_Size (GetSharedData kv.2))) <$> (l1 ++ l2),
     (fun kv : string * Obj => Name_bytes kv.1 ++ [0]) <$> (l1 ++ l2),
     Z.of_nat (length (l1 ++ l2))).
Proof.
  induction l2 as [|x l2 IH]; intros l1 Hn; cbn [foldl].
  - by rewrite !app_nil_r.
  - cbn [length replicate] in *. rewrite Nat2Z.id.
    rewrite !insert_app_r_alt by (rewrite length_fmap; lia).
    rewrite !length_fmap, Nat.sub_diag. cbn [insert list_insert].
    rewrite (wrap32_small (Z.of_nat (length l1) + 1)) by lia.
    specialize (IH (l1 ++ [x])). rewrite !fmap_app, length_app in IH. cbn [fmap list_fmap length] in IH.
    rewrite <- !app_assoc in IH. cbn [app] in IH.
    replace (Z.of_nat (length l1 + 1)) with (Z.of_nat (length l1) + 1) in IH by lia.
    unfold StaticCast_Uint32 in *.
    rewrite IH by lia. by rewrite !fmap_app.
Qed.

(** The names are copied whatever the count is. *)
Lemma InitNamed_fold_Names {Obj} (GetSharedData : Obj -> SerializedMemory)
  (l : list (string * Obj)) : forall (NL DS : list Z) Names i,
  (foldl (fun '(NameLengthArray, DataSizeArray, Names, i) (NameAndData : string * Obj) =>
            let Name := Name_bytes NameAndData.1 in
            let NameLen := Z.of_nat (length Name) in
            (<[Z.to_nat i := StaticCast_Uint32 (NameLen + 1)]> NameLengthArray,
             <[Z.to_nat i := StaticCast_Uint32 (Mem_Size (GetSharedData NameAndData.2))]>
               DataSizeArray,
             Names ++ [Name ++ [0]],
             wrap32 (i + 1)))
     (NL, DS, Names, i) l).1.2
  = Names ++ ((fun kv : string * Obj => Name_bytes kv.1 ++ [0]) <$> l).
Proof.
  induction l as [|x l IH]; intros NL DS Names i; cbn [foldl fmap list_fmap].
  - by rewrite app_nil_r.
  - rewrite IH. by rewrite <- app_assoc.
Qed.

Lemma Reserved_fold_pos {Obj} (l : list (string * Obj)) : forall s,
  s <= foldl (fun s (NameAndData : string * Obj) =>
                s + (Z.of_nat (length (Name_bytes NameAndData.1)) + 1)) s l.
Proof.
  induction l as [|x l IH]; intros s; cbn [foldl]; [lia|].
  etrans; [|apply IH]. lia.
Qed.

Lemma extends_refl D : extends D D.
Proof. intros b. exists []. by rewrite app_nil_r. Qed.

Lemma extends_trans D1 D2 D3 : extends D1 D2 -> extends D2 D3 -> extends D1 D3.
Proof.
  intros H1 H2 b. destruct (H1 b) as [s1 E1]. destruct (H2 b) as [s2 E2].
  exists (s1 ++ s2). by rewrite E2, E1, app_assoc.
Qed.

Lemma device_data_written_extends Src Header d Dev suffix :
  device_data_written Src Header d Dev -> device_data_written Src Header d (Dev ++ suffix).
Proof.
  unfold device_data_written. destruct (Mem_bool Src); [|done].
  intros (Offset & H1 & H2 & H3). exists Offset. split; [done|]. split; [done|].
  by apply ReadBackFacts.bytes_at_app_l.
Qed.

Lemma object_written_extends Type_ Shared Src D D' DataOffset :
  extends D D' ->
  object_written Type_ Shared Src D DataOffset -> object_written Type_ Shared Src D' DataOffset.
Proof.
  intros Hext (Offset & Header & H1 & H2 & H3 & H4).
  exists Offset, Header. split; [done|]. split; [done|]. split.
  - destruct (Hext None) as [s Hs]. cbn [Block] in Hs. rewrite Hs.
    by apply ReadBackFacts.bytes_at_app_l.
  - intros d. destruct (Hext (Some d)) as [s Hs]. cbn [Block] in Hs. rewrite Hs.
    by apply device_data_written_extends.
Qed.

(** The header after the per-device writes of one object. *)
Lemma WriteDevice_fold_header {Obj} (O : Obj)
  (WriteDeviceData : DataHeader -> DeviceType -> Obj -> PendingData -> DataHeader * PendingData)
  (Src : DeviceType -> SerializedMemory) :
  (forall h t D,
      WriteDeviceData h t O D
      = (let '(h', e') := WritePerDeviceData h t (Src t) (Pending_PerDeviceData D t) in
         (h', set_PerDeviceData t e' D))) ->
  forall l h D, NoDup l ->
    let r := foldl (fun '(h, P) d => WriteDeviceData h d O P) (h, D) l in
    Header_Type r.1 = Header_Type h
    /\ forall d,
         (d ∈ l -> Mem_bool (Src d) = true ->
          device_data_written (Src d) r.1 d (Data (Pending_PerDeviceData r.2 d)))
         /\ (d ∉ l \/ Mem_bool (Src d) = false ->
             DeviceSpecificDataSize r.1 d = DeviceSpecificDataSize h d
             /\ DeviceSpecificDataOffset r.1 d = DeviceSpecificDataOffset h d).
Proof.
  intros HW l. induction l as [|t l IH]; intros h D Hnd; cbn [foldl].
  - split; [done|]. intros d. split; [by intros ?%elem_of_nil|done].
  - apply NoDup_cons in Hnd as [Hnotin Hnd].
    pose proof (WriteDevice_fold O WriteDeviceData Src HW l) as HD.
    rewrite HW.
    destruct (WritePerDeviceData h t (Src t) (Pending_PerDeviceData D t)) as [h' e'] eqn:E.
    specialize (HD h' (set_PerDeviceData t e' D) Hnd).
    destruct (IH h' (set_PerDeviceData t e' D) Hnd) as [Ht Hd].
    destruct HD as [_ HD].
    unfold WritePerDeviceData, Data_Copy in E.
    split.
    { rewrite Ht. destruct (Mem_bool (Src t)); cbn in E; by injection E as <- <-. }
    intros d. destruct (Hd d) as [Hin Hout]. split.
    + intros [->|Hd']%elem_of_cons Hb; [|by apply Hin].
      destruct Hout as [Hsz Hoff]; [by left|]. destruct (HD t) as [_ Hdata].
      rewrite decide_False, app_nil_r in Hdata by done.
      unfold device_data_written. rewrite Hb, Hsz, Hoff, Hdata.
      cbn [set_PerDeviceData Pending_PerDeviceData]. rewrite fn_lookup_insert.
      rewrite Hb in E. cbn in E. injection E as <- <-. cbn.
      rewrite !fn_lookup_insert. exists (GetCurrentSize (Pending_PerDeviceData D t)).
      split; [done|]. split; [done|].
      pose proof (ReadBackFacts.bytes_at_app (Data (Pending_PerDeviceData D t))
                    (Mem_Ptr (Src t)) []) as H.
      by rewrite app_nil_r in H.
    + intros Hd'.
      assert (Hh : DeviceSpecificDataSize h' d = DeviceSpecificDataSize h d
                   /\ DeviceSpecificDataOffset h' d = DeviceSpecificDataOffset h d).
      { destruct (Mem_bool (Src t)) eqn:Eb; cbn in E; injection E as <- <-; cbn; [|done].
        destruct (decide (d = t)) as [->|Hne].
        - destruct Hd' as [Hd'|Hd']; [|congruence].
          exfalso. apply Hd'. apply list_elem_of_here.
        - by rewrite !fn_lookup_insert_ne. }
      destruct Hh as [<- <-]. apply Hout.
      destruct Hd' as [Hd'|Hd']; [left|by right].
      by apply not_elem_of_cons in Hd' as [_ ?].
Qed.

Lemma WriteDeviceObject_spec {Obj} (Type_ : ChunkType) (GetSharedData : Obj -> SerializedMemory)
  (WriteDeviceData : DataHeader -> DeviceType -> Obj -> PendingData -> DataHeader * PendingData)
  (Src : Obj -> DeviceType -> SerializedMemory) (O : Obj) (D : PendingData) :
  (forall h t D,
      WriteDeviceData h t O D
      = (let '(h', e') := WritePerDeviceData h t (Src O t) (Pending_PerDeviceData D t) in
         (h', set_PerDeviceData t e' D))) ->
  exists DstOffset D',
    WriteDeviceObject (DeviceObjectArchive.ChunkType_to_Z Type_) GetSharedData WriteDeviceData O D
    = (DstOffset, sizeof_DataHeader, D')
    /\ object_written Type_ (GetSharedData O) (Src O) D' DstOffset
    /\ extends D D'.
Proof.
  intros HW. unfold WriteDeviceObject.
  destruct (WriteDevice_fold O WriteDeviceData (Src O) HW DeviceTypes
              (DataHeader_new (DeviceObjectArchive.ChunkType_to_Z Type_)) D
              ArchiverFacts.NoDup_DeviceTypes) as [Hs Hd].
  destruct (WriteDevice_fold_header O WriteDeviceData (Src O) HW DeviceTypes
              (DataHeader_new (DeviceObjectArchive.ChunkType_to_Z Type_)) D
              ArchiverFacts.NoDup_DeviceTypes) as [Ht Hh].
  destruct (foldl _ (DataHeader_new _, D) DeviceTypes) as [Header D1]. cbn [fst snd] in *.
  eexists _, _. split; [reflexivity|]. split.
  - exists (GetCurrentSize (Pending_SharedData D)), Header.
    split; [done|]. split; [done|]. split.
    + cbn [set_SharedData Pending_SharedData Data].
      pose proof (ReadBackFacts.bytes_at_app (Data (Pending_SharedData D))
                    (DataHeader_bytes Header ++ Mem_Ptr (GetSharedData O)) []) as H.
      rewrite app_nil_r in H. rewrite <- H. f_equal.
      rewrite length_app. unfold Mem_Size. pose proof (length_DataHeader_bytes Header). lia.
    + intros d. cbn [set_SharedData Pending_PerDeviceData].
      destruct (Hh d) as [Hin Hout]. pose proof (ArchiverFacts.elem_of_DeviceTypes d) as Hel.
      destruct (Mem_bool (Src O d)) eqn:Eb; [by apply Hin|].
      unfold device_data_written. rewrite Eb. destruct Hout as [-> ->]; [by right|done].
  - intros [d|]; cbn [Block set_SharedData Pending_PerDeviceData Pending_SharedData Data].
    + destruct (Hd d) as [_ ->]. by eexists.
    + by eexists.
Qed.

(** The loop of [WriteDeviceObjectData] from object [length l1] on. *)
Lemma WriteObjects_loop {Obj} (Type_ : ChunkType) (GetSharedData : Obj -> SerializedMemory)
  (WriteDeviceData : DataHeader -> DeviceType -> Obj -> PendingData -> DataHeader * PendingData)
  (Src : Obj -> DeviceType -> SerializedMemory) Reserved Count NameLengthArray Names :
  (forall O D, exists DstOffset D',
      WriteDeviceObject (DeviceObjectArchive.ChunkType_to_Z Type_) GetSharedData WriteDeviceData
        O D = (DstOffset, sizeof_DataHeader, D')
      /\ object_written Type_ (GetSharedData O) (Src O) D' DstOffset
      /\ extends D D') ->
  forall (l2 l1 : list (string * Obj)) P j DataSizeArray DataOffsetArray,
    ChunkData P Type_
    = MkChunk Reserved
        (NamedContent Count NameLengthArray DataSizeArray DataOffsetArray Names) ->
    (Z.of_nat (length l1 + length l2) < 2 ^ 32 ->
     j = Z.of_nat (length l1)
     /\ DataSizeArray
        = ((fun kv : string * Obj =>
              wrap32 (wrap32 (Mem_Size (GetSharedData kv.2)) + sizeof_DataHeader)) <$> l1)
          ++ ((fun kv : string * Obj => wrap32 (Mem_Size (GetSharedData kv.2))) <$> l2)
     /\ exists dos,
          DataOffsetArray = dos ++ replicate (length l2) 0
          /\ Forall2 (fun DataOffset (kv : string * Obj) =>
                        object_written Type_ (GetSharedData kv.2) (Src kv.2) (Pending P)
                          DataOffset) dos l1) ->
    let r := (foldl (fun '(P', j) (Obj_ : string * Obj) =>
                       (WriteDeviceObjectAt Type_ GetSharedData WriteDeviceData j Obj_.2 P',
                        wrap32 (j + 1))) (P, j) l2).1 in
    exists DataSizeArray' DataOffsetArray',
      ChunkData r Type_
      = MkChunk Reserved
          (NamedContent Count NameLengthArray DataSizeArray' DataOffsetArray' Names)
      /\ length DataOffsetArray' = length DataOffsetArray
      /\ (Z.of_nat (length l1 + length l2) < 2 ^ 32 ->
          DataSizeArray'
          = (fun kv : string * Obj =>
               wrap32 (wrap32 (Mem_Size (GetSharedData kv.2)) + sizeof_DataHeader))
              <$> (l1 ++ l2)
          /\ Forall2 (fun DataOffset (kv : string * Obj) =>
                        object_written Type_ (GetSharedData kv.2) (Src kv.2) (Pending r)
                          DataOffset) DataOffsetArray' (l1 ++ l2))
      /\ extends (Pending P) (Pending r)
      /\ (forall t, t <> Type_ -> ChunkData r t = ChunkData P t)
      /\ (forall t, ResourceCountPerChunk r t = ResourceCountPerChunk P t).
Proof.
  intros HW. induction l2 as [|[n O] l2 IH];
    intros l1 P j DS DO HChunk Hinv; cbn [foldl fst].
  - exists DS, DO. split; [done|]. split; [done|]. split; [|by split; [apply extends_refl|]].
    intros Hb. destruct (Hinv Hb) as (_ & -> & dos & -> & HF).
    cbn [replicate fmap list_fmap]. by rewrite !app_nil_r.
  - cbn [snd]. cbn [length] in Hinv.
    destruct (HW O (Pending P)) as (DstOffset & D' & EW & Hobj & Hext).
    set (P1 := WriteDeviceObjectAt Type_ GetSharedData WriteDeviceData j O P).
    assert (HP1 : ChunkData P1 Type_
                  = MkChunk Reserved
                      (NamedContent Count NameLengthArray
                         (alter (fun DstArraySize => wrap32 (DstArraySize + sizeof_DataHeader))
                            (Z.to_nat j) DS)
                         (<[Z.to_nat j := DstOffset]> DO) Names)
                  /\ Pending P1 = D'
                  /\ (forall t, t <> Type_ -> ChunkData P1 t = ChunkData P t)
                  /\ (forall t, ResourceCountPerChunk P1 t = ResourceCountPerChunk P t)).
    { unfold P1, WriteDeviceObjectAt. rewrite EW, HChunk.
      cbn [set_Pending set_ChunkData ChunkData Pending ResourceCountPerChunk Chunk_Content
           Chunk_ReservedSize].
      rewrite fn_lookup_insert. split; [done|]. split; [done|]. split; [|done].
      intros t Ht. by rewrite fn_lookup_insert_ne. }
    destruct HP1 as (HC1 & HD1 & HF1 & HR1).
    destruct (IH (l1 ++ [(n, O)]) P1 (wrap32 (j + 1)) _ _ HC1) as
      (DS' & DO' & HC' & HL' & Hb' & Hext' & HF' & HR').
    { rewrite length_app. cbn [length]. intros Hb.
      destruct Hinv as (-> & -> & dos & -> & HF); [lia|].
      pose proof (Forall2_length _ _ _ HF) as Hlen.
      split; [rewrite wrap32_small; lia|]. rewrite Nat2Z.id.
      cbn [fmap list_fmap replicate]. split.
      - rewrite alter_app_r_alt by (rewrite length_fmap; lia).
        rewrite length_fmap, Nat.sub_diag. cbn [fmap list_fmap alter list_alter].
        rewrite fmap_app. cbn [fmap list_fmap]. by rewrite <- app_assoc.
      - exists (dos ++ [DstOffset]). split.
        + rewrite insert_app_r_alt by lia. rewrite Hlen, Nat.sub_diag.
          cbn [replicate insert list_insert]. by rewrite <- app_assoc.
        + rewrite HD1. apply Forall2_app.
          * eapply Forall2_impl; [exact HF|]. intros do kv. by apply object_written_extends.
          * by constructor. }
    exists DS', DO'. split; [done|]. split.
    { rewrite HL'. by rewrite length_insert. }
    split.
    { intros Hb. rewrite length_app in Hb'. cbn [length] in *.
      rewrite <- app_assoc in Hb'. cbn [app] in Hb'. apply Hb'. lia. }
    split.
    { eapply extends_trans; [|exact Hext']. by rewrite HD1. }
    split.
    { intros t Ht. by rewrite HF', HF1. }
    intros t. by rewrite HR', HR1.
Qed.

Lemma WriteDeviceObject_RP (Type_ : ChunkType) (O : SerializableRenderPassImpl)
  (D : PendingData) :
  exists DstOffset D',
    WriteDeviceObject (DeviceObjectArchive.ChunkType_to_Z Type_) rp_SharedSerializedMemory
      (fun Header _ _ D => (Header, D)) O D
    = (DstOffset, sizeof_DataHeader, D')
    /\ object_written Type_ (rp_SharedSerializedMemory O) (fun _ => None) D' DstOffset
    /\ extends D D'.
Proof.
  unfold WriteDeviceObject. cbn [foldl DeviceTypes].
  eexists _, _. split; [reflexivity|]. split.
  - exists (GetCurrentSize (Pending_SharedData D)),
      (DataHeader_new (DeviceObjectArchive.ChunkType_to_Z Type_)).
    split; [done|]. split; [done|]. split; [|done].
    cbn [set_SharedData Pending_SharedData Data].
    pose proof (ReadBackFacts.bytes_at_app (Data (Pending_SharedData D))
                  (DataHeader_bytes (DataHeader_new (DeviceObjectArchive.ChunkType_to_Z Type_))
                   ++ Mem_Ptr (rp_SharedSerializedMemory O)) []) as H.
    rewrite app_nil_r in H. rewrite <- H. f_equal.
    rewrite length_app. unfold Mem_Size.
    pose proof (length_DataHeader_bytes
                  (DataHeader_new (DeviceObjectArchive.ChunkType_to_Z Type_))). lia.
  - intros [d|]; cbn [Block set_SharedData Pending_PerDeviceData Pending_SharedData Data].
    + exists []. by rewrite app_nil_r.
    + by eexists.
Qed.

Lemma chunk_written_frame {Obj} Type_ (GetSharedData : Obj -> SerializedMemory) Src Map P P' :
  chunk_written Type_ GetSharedData Src Map P ->
  extends (Pending P) (Pending P') ->
  ChunkData P' Type_ = ChunkData P Type_ ->
  ResourceCountPerChunk P' Type_ = ResourceCountPerChunk P Type_ ->
  chunk_written Type_ GetSharedData Src Map P'.
Proof.
  unfold chunk_written. intros H Hext HC HR. destruct (decide (Map = ∅)); [congruence|].
  destruct H as (R & C & NL & DS & DO & HR0 & HCh & HL & HCnt & Hb).
  exists R, C, NL, DS, DO. split; [done|]. split; [congruence|]. split; [done|].
  split; [congruence|]. intros Hn. destruct (Hb Hn) as (H1 & H2 & H3 & H4).
  split; [done|]. split; [done|]. split; [done|].
  eapply Forall2_impl; [exact H4|]. intros do kv. by apply object_written_extends.
Qed.

(** [WriteDeviceObjectData] on a chunk that was not touched before. *)
Lemma WriteDeviceObjectData_spec {Obj} (Type_ : ChunkType)
  (GetSharedData : Obj -> SerializedMemory)
  (WriteDeviceData : DataHeader -> DeviceType -> Obj -> PendingData -> DataHeader * PendingData)
  (Src : Obj -> DeviceType -> SerializedMemory) (Map : gmap string Obj) (P : PendingStream) :
  (forall O D, exists DstOffset D',
      WriteDeviceObject (DeviceObjectArchive.ChunkType_to_Z Type_) GetSharedData WriteDeviceData
        O D = (DstOffset, sizeof_DataHeader, D')
      /\ object_written Type_ (GetSharedData O) (Src O) D' DstOffset
      /\ extends D D') ->
  ChunkData P Type_ = TChunk_new ->
  let P' := WriteDeviceObjectData Type_ GetSharedData WriteDeviceData Map P in
  chunk_written Type_ GetSharedData Src Map P'
  /\ extends (Pending P) (Pending P')
  /\ (forall t, t <> Type_ -> ChunkData P' t = ChunkData P t)
  /\ (forall t, t <> Type_ -> ResourceCountPerChunk P' t = ResourceCountPerChunk P t).
Proof.
  intros HW Hnew. unfold WriteDeviceObjectData, chunk_written.
  destruct (decide (Map = ∅)) as [HM|HM]; cbn zeta.
  { split; [done|]. split; [apply extends_refl|done]. }
  set (items := map_to_list Map).
  set (P1 := InitNamedResourceArrayHeader Type_ GetSharedData Map P).
  set (Count := StaticCast_Uint32 (Z.of_nat (size Map))).
  assert (Hsize : length items = size Map) by apply length_map_to_list.
  assert (HCount : 0 <= Count) by apply wrap32_range.
  assert (HP1 : exists Reserved NL DS,
             P1 = set_ResourceCount Type_ Count
                    (set_ChunkData Type_
                       (MkChunk Reserved
                          (NamedContent Count NL DS (replicate (Z.to_nat Count) 0)
                             ((fun kv : string * Obj => Name_bytes kv.1 ++ [0]) <$> items))) P)
             /\ Reserved <> 0
             /\ (Z.of_nat (length items) < 2 ^ 32 ->
                 Count = Z.of_nat (length items)
                 /\ NL = (fun kv : string * Obj =>
                            wrap32 (Z.of_nat (length (Name_bytes kv.1)) + 1)) <$> items
                 /\ DS = (fun kv : string * Obj => wrap32 (Mem_Size (GetSharedData kv.2)))
                           <$> items)).
  { unfold P1, InitNamedResourceArrayHeader. fold Count. fold items.
    pose proof (InitNamed_fold_Names GetSharedData items (replicate (Z.to_nat Count) 0)
                  (replicate (Z.to_nat Count) 0) [] 0) as HN.
    pose proof (InitNamed_fold GetSharedData items []) as HF.
    pose proof (Reserved_fold_pos items (4 + 4 * Count + 4 * Count + 4 * Count)) as HR.
    destruct (foldl _ (replicate (Z.to_nat Count) 0, replicate (Z.to_nat Count) 0, [], 0) items)
      as [[[NL DS] Names] i] eqn:E.
    cbn [fst snd app] in HN. subst Names.
    eexists _, NL, DS. split; [reflexivity|]. split; [lia|].
    intros Hb.
    assert (HC : Count = Z.of_nat (length items)).
    { unfold Count, StaticCast_Uint32. rewrite <- Hsize. apply wrap32_small. lia. }
    split; [done|].
    cbn [fmap list_fmap app length] in HF. change (Z.of_nat 0) with 0 in HF.
    rewrite HC, Nat2Z.id in E.
    assert (E' : (NL, DS, (fun kv : string * Obj => Name_bytes kv.1 ++ [0]) <$> items, i)
                 = ((fun kv : string * Obj =>
                       wrap32 (Z.of_nat (length (Name_bytes kv.1)) + 1)) <$> items,
                    (fun kv : string * Obj => wrap32 (Mem_Size (GetSharedData kv.2)))
                      <$> items,
                    (fun kv : string * Obj => Name_bytes kv.1 ++ [0]) <$> items,
                    Z.of_nat (length items))).
    { rewrite <- E. apply HF. lia. }
    by injection E' as -> -> _. }
  destruct HP1 as (Reserved & NL & DS & EP1 & HRes & Hb1).
  assert (HC1 : ChunkData P1 Type_
                = MkChunk Reserved
                    (NamedContent Count NL DS (replicate (Z.to_nat Count) 0)
                       ((fun kv : string * Obj => Name_bytes kv.1 ++ [0]) <$> items))).
  { rewrite EP1. cbn. by rewrite fn_lookup_insert. }
  destruct (WriteObjects_loop Type_ GetSharedData WriteDeviceData Src Reserved Count NL
              ((fun kv : string * Obj => Name_bytes kv.1 ++ [0]) <$> items) HW items [] P1 0
              DS (replicate (Z.to_nat Count) 0) HC1)
    as (DS' & DO' & HC' & HL' & Hb' & Hext' & HF' & HR').
  { cbn [length Nat.add fmap list_fmap app]. intros Hb.
    destruct (Hb1 Hb) as (HC & _ & HDS). split; [done|]. split; [done|].
    exists []. cbn [app]. rewrite HC, Nat2Z.id. split; [done|constructor]. }
  cbn zeta in *. split; [|split; [|split]].
  - exists Reserved, Count, NL, DS', DO'. split; [done|]. split; [done|].
    split; [by rewrite HL', length_replicate|]. split.
    { rewrite HR', EP1. cbn. by rewrite fn_lookup_insert. }
    intros Hb. destruct (Hb1 Hb) as (HC & HNL & _).
    destruct Hb' as [HDS' HF2]; [done|]. by cbn [app] in *.
  - assert (Pending P1 = Pending P) as <- by (by rewrite EP1). done.
  - intros t Ht. rewrite HF' by done. rewrite EP1. cbn. by rewrite fn_lookup_insert_ne.
  - intros t Ht. rewrite HR', EP1. cbn. by rewrite fn_lookup_insert_ne.
Qed.

Lemma WriteDeviceObject_PRS (Type_ : ChunkType) (O : SerializableResourceSignatureImpl)
  (D : PendingData) :
  exists DstOffset D',
    WriteDeviceObject (DeviceObjectArchive.ChunkType_to_Z Type_) PRS_GetSharedData
      WritePRSPerDeviceData O D
    = (DstOffset, sizeof_DataHeader, D')
    /\ object_written Type_ (PRS_GetSharedData O)
         (fun t => PRS_GetDeviceData O (PRSDevType t)) D' DstOffset
    /\ extends D D'.
Proof.
  apply (WriteDeviceObject_spec Type_ PRS_GetSharedData WritePRSPerDeviceData
           (fun O t => PRS_GetDeviceData O (PRSDevType t)) O D).
  done.
Qed.

Lemma WriteDeviceObject_PSO (Type_ : ChunkType) (O : TPSOData) (D : PendingData) :
  exists DstOffset D',
    WriteDeviceObject (DeviceObjectArchive.ChunkType_to_Z Type_) SharedData
      WritePSOPerDeviceData O D
    = (DstOffset, sizeof_DataHeader, D')
    /\ object_written Type_ (SharedData O) (PerDeviceData O) D' DstOffset
    /\ extends D D'.
Proof.
  apply (WriteDeviceObject_spec Type_ SharedData WritePSOPerDeviceData PerDeviceData O D).
  done.
Qed.

(** A map written later leaves the chunk of a map written before. *)
Lemma WriteDeviceObjectData_frame {Obj Obj'} (Type_ Type' : ChunkType)
  (GetSharedData : Obj -> SerializedMemory) Src (Map : gmap string Obj)
  (GetSharedData' : Obj' -> SerializedMemory) WriteDeviceData' Src' (Map' : gmap string Obj') P :
  (forall O D, exists DstOffset D',
      WriteDeviceObject (DeviceObjectArchive.ChunkType_to_Z Type') GetSharedData'
        WriteDeviceData' O D = (DstOffset, sizeof_DataHeader, D')
      /\ object_written Type' (GetSharedData' O) (Src' O) D' DstOffset
      /\ extends D D') ->
  ChunkData P Type' = TChunk_new ->
  Type_ <> Type' ->
  chunk_written Type_ GetSharedData Src Map P ->
  chunk_written Type_ GetSharedData Src Map
    (WriteDeviceObjectData Type' GetSharedData' WriteDeviceData' Map' P).
Proof.
  intros HW Hnew Hne H.
  destruct (WriteDeviceObjectData_spec Type' GetSharedData' WriteDeviceData' Src' Map' P HW Hnew)
    as (_ & Hext & HC & HR).
  eapply chunk_written_frame; [exact H|exact Hext|by apply HC|by apply HR].
Qed.

(** *** The offsets in the file *)

Lemma length_FileHeader_bytes h : length (FileHeader_bytes h) = 36%nat.
Proof. done. Qed.

Lemma length_ChunkHdr_bytes hs : length (concat (ChunkHdr_bytes <$> hs)) = (12 * length hs)%nat.
Proof.
  induction hs as [|h hs IH]; [done|]. cbn [fmap list_fmap concat length].
  rewrite length_app. change (list_fmap _ _ ChunkHdr_bytes hs) with (ChunkHdr_bytes <$> hs).
  rewrite IH. unfold ChunkHdr_bytes. rewrite !length_app, !length_le_bytes. lia.
Qed.

Lemma length_concat_ext {A} (f g : A -> list Z) l :
  (forall x, length (f x) = length (g x)) ->
  length (concat (f <$> l)) = length (concat (g <$> l)).
Proof.
  intros H. induction l as [|x l IH]; [done|]. cbn [fmap list_fmap concat].
  rewrite !length_app, H. f_equal. exact IH.
Qed.

Lemma foldl_alter_seq {A} (f : A -> A) (a : list A) : forall pre,
  foldl (fun a j => alter f j a) (pre ++ a) (seq (length pre) (length a)) = pre ++ (f <$> a).
Proof.
  induction a as [|x a IH]; intros pre; cbn [seq foldl length fmap list_fmap]; [done|].
  rewrite alter_app_r_alt by lia. rewrite Nat.sub_diag. cbn [alter list_alter].
  specialize (IH (pre ++ [f x])). rewrite length_app in IH. cbn [length] in IH.
  rewrite Nat.add_1_r, <- !app_assoc in IH. exact IH.
Qed.

Lemma length_foldl_alter {A} (f : A -> A) (js : list nat) : forall a : list A,
  length (foldl (fun a j => alter f j a) a js) = length a.
Proof.
  induction js as [|j js IH]; intros a; cbn [foldl]; [done|].
  by rewrite IH, length_alter.
Qed.

(** [UpdateChunkOffsets] changes the offsets of one chunk of names. *)
Lemma UpdateChunkOffsets_other Off P Hdr i :
  i <> Hdr_Type Hdr -> ChunkData (UpdateChunkOffsets Off P Hdr) i = ChunkData P i.
Proof.
  intros Hi. unfold UpdateChunkOffsets.
  destruct (Chunk_Content (ChunkData P (Hdr_Type Hdr))); try done.
  cbn. by rewrite fn_lookup_insert_ne.
Qed.

Lemma UpdateChunkOffsets_frame Off P Hdr :
  Pending (UpdateChunkOffsets Off P Hdr) = Pending P
  /\ ResourceCountPerChunk (UpdateChunkOffsets Off P Hdr) = ResourceCountPerChunk P.
Proof.
  unfold UpdateChunkOffsets. by destruct (Chunk_Content (ChunkData P (Hdr_Type Hdr))).
Qed.

Lemma UpdateChunkOffsets_size Off P Hdr i :
  Chunk_ReservedSize (ChunkData (UpdateChunkOffsets Off P Hdr) i)
  = Chunk_ReservedSize (ChunkData P i)
  /\ length (Chunk_bytes (ChunkData (UpdateChunkOffsets Off P Hdr) i))
     = length (Chunk_bytes (ChunkData P i)).
Proof.
  destruct (decide (i = Hdr_Type Hdr)) as [->|Hi];
    [|by rewrite UpdateChunkOffsets_other].
  unfold UpdateChunkOffsets.
  destruct (ChunkData P (Hdr_Type Hdr)) as [R c] eqn:E. cbn [Chunk_Content Chunk_ReservedSize].
  destruct c; rewrite ?E; try done.
  cbn [set_ChunkData ChunkData]. rewrite fn_lookup_insert.
  unfold Chunk_bytes. cbn [Chunk_ReservedSize Chunk_Content ChunkContent_bytes].
  split; [done|]. rewrite !length_app.
  do 3 f_equal.
  pose proof (ReadBackFacts.length_u32_array_bytes_nat DataOffsetArray) as H1.
  rewrite H1, ReadBackFacts.length_u32_array_bytes_nat, length_foldl_alter. lia.
Qed.

Lemma UpdateChunkOffsets_fold_size Off hs : forall P i,
  Chunk_ReservedSize (ChunkData (foldl (UpdateChunkOffsets Off) P hs) i)
  = Chunk_ReservedSize (ChunkData P i)
  /\ length (Chunk_bytes (ChunkData (foldl (UpdateChunkOffsets Off) P hs) i))
     = length (Chunk_bytes (ChunkData P i)).
Proof.
  induction hs as [|h hs IH]; intros P i; cbn [foldl]; [done|].
  destruct (IH (UpdateChunkOffsets Off P h) i) as [-> ->].
  apply UpdateChunkOffsets_size.
Qed.

Lemma UpdateChunkOffsets_fold_frame Off hs : forall P,
  Pending (foldl (UpdateChunkOffsets Off) P hs) = Pending P
  /\ ResourceCountPerChunk (foldl (UpdateChunkOffsets Off) P hs) = ResourceCountPerChunk P.
Proof.
  induction hs as [|h hs IH]; intros P; cbn [foldl]; [done|].
  destruct (IH (UpdateChunkOffsets Off P h)) as [-> ->].
  apply UpdateChunkOffsets_frame.
Qed.

(** The first loop of [UpdateOffsetsInArchive]: one header for each chunk
    that is not empty, and the offset after the chunks. *)
Lemma AddChunkHeader_fold_size P l :
  (forall i, Chunk_GetCurrentSize (ChunkData P i) < 2 ^ 32) ->
  forall hs off,
    let r := foldl (AddChunkHeader P) (hs, off) l in
    length r.1
    = (length hs + length (filter (fun i => Chunk_IsEmpty (ChunkData P i) = false) l))%nat
    /\ r.2 = off + Z.of_nat (length (concat
               ((fun i => if Chunk_IsEmpty (ChunkData P i) then []
                          else Chunk_bytes (ChunkData P i)) <$> l))).
Proof.
  intros Hsz. induction l as [|i l IH]; intros hs off; cbn [foldl].
  - cbn. split; lia.
  - rewrite filter_cons. cbn [fmap list_fmap concat].
    assert (EA : AddChunkHeader P (hs, off) i
                 = if Chunk_IsEmpty (ChunkData P i) then (hs, off)
                   else (hs ++ [MkChunkHdr i
                                  (StaticCast_Uint32 (Chunk_GetCurrentSize (ChunkData P i)))
                                  (StaticCast_Uint32 off)],
                         off + StaticCast_Uint32 (Chunk_GetCurrentSize (ChunkData P i))))
      by done.
    rewrite EA. clear EA.
    destruct (Chunk_IsEmpty (ChunkData P i)) eqn:E.
    + rewrite decide_False by done. apply IH.
    + rewrite decide_True by done.
      destruct (IH (hs ++ [MkChunkHdr i (StaticCast_Uint32 (Chunk_GetCurrentSize (ChunkData P i)))
                             (StaticCast_Uint32 off)])
                  (off + StaticCast_Uint32 (Chunk_GetCurrentSize (ChunkData P i)))) as [H1 H2].
      cbn zeta in *. rewrite H1, H2. rewrite !length_app. cbn [length].
      split; [lia|]. unfold StaticCast_Uint32.
      rewrite wrap32_small by (specialize (Hsz i); unfold Chunk_GetCurrentSize in *; lia).
      unfold Chunk_GetCurrentSize. lia.
Qed.

Lemma AddBlockBaseOffset_fold D l : forall f off,
  (foldl (AddBlockBaseOffset D) (f, off) l).2
  = off + Z.of_nat (length (concat
            ((fun d => if IsEmpty (Pending_PerDeviceData D d) then []
                       else Data (Pending_PerDeviceData D d)) <$> l))).
Proof.
  induction l as [|d l IH]; intros f off; cbn [foldl fmap list_fmap concat].
  - cbn. lia.
  - assert (EA : AddBlockBaseOffset D (f, off) d
                 = if IsEmpty (Pending_PerDeviceData D d)
                   then (<[d := InvalidOffset]> f, off)
                   else (<[d := StaticCast_Uint32 off]> f,
                         off + GetCurrentSize (Pending_PerDeviceData D d))) by done.
    rewrite EA. clear EA. destruct (IsEmpty (Pending_PerDeviceData D d)).
    + by rewrite IH.
    + rewrite IH, length_app. unfold GetCurrentSize. lia.
Qed.

(** The chunk headers point to the blocks of their chunks in a file that
    is smaller than 4 GiB. *)
Lemma AddChunkHeader_fold_read P (B : ChunkType -> list Z) A :
  (forall i, length (B i) = length (Chunk_bytes (ChunkData P i))) ->
  Z.of_nat (length A) < 2 ^ 32 ->
  forall l hs off pre post,
    A = pre ++ concat ((fun i => if Chunk_IsEmpty (ChunkData P i) then [] else B i) <$> l)
        ++ post ->
    off = Z.of_nat (length pre) ->
    let r := foldl (AddChunkHeader P) (hs, off) l in
    exists hs',
      r.1 = hs ++ hs'
      /\ Hdr_Type <$> hs' = filter (fun i => Chunk_IsEmpty (ChunkData P i) = false) l
      /\ r.2 = off + Z.of_nat (length (concat
                 ((fun i => if Chunk_IsEmpty (ChunkData P i) then [] else B i) <$> l)))
      /\ Forall (fun h => 0 <= Hdr_Offset h < 2 ^ 32 /\ 0 <= Hdr_Size h < 2 ^ 32
                          /\ DeviceObjectArchive.bytes_at A (Hdr_Offset h) (Hdr_Size h)
                             = Some (B (Hdr_Type h))) hs'.
Proof.
  intros HB HA. induction l as [|i l IH]; intros hs off pre post EA Eoff; cbn [foldl].
  - exists []. rewrite app_nil_r. cbn. split; [done|]. split; [done|]. split; [lia|constructor].
  - rewrite filter_cons. cbn [fmap list_fmap concat] in *.
    assert (EH : AddChunkHeader P (hs, off) i
                 = if Chunk_IsEmpty (ChunkData P i) then (hs, off)
                   else (hs ++ [MkChunkHdr i
                                  (StaticCast_Uint32 (Chunk_GetCurrentSize (ChunkData P i)))
                                  (StaticCast_Uint32 off)],
                         off + StaticCast_Uint32 (Chunk_GetCurrentSize (ChunkData P i))))
      by done.
    rewrite EH. clear EH.
    destruct (Chunk_IsEmpty (ChunkData P i)) eqn:E.
    + rewrite decide_False by done. cbn [app] in *. by apply (IH hs off pre post).
    + rewrite decide_True by done.
      assert (HLen : Z.of_nat (length A)
                     = Z.of_nat (length pre) + Z.of_nat (length (B i))
                       + Z.of_nat (length (concat
                           ((fun i => if Chunk_IsEmpty (ChunkData P i) then [] else B i) <$> l)
                           ++ post))).
      { rewrite EA, <- app_assoc, !length_app. lia. }
      assert (HS : StaticCast_Uint32 (Chunk_GetCurrentSize (ChunkData P i))
                   = Z.of_nat (length (B i))).
      { unfold StaticCast_Uint32, Chunk_GetCurrentSize. rewrite <- HB.
        apply wrap32_small. lia. }
      assert (HO : StaticCast_Uint32 off = off).
      { unfold StaticCast_Uint32. apply wrap32_small. lia. }
      rewrite HS, HO.
      destruct (IH (hs ++ [MkChunkHdr i (Z.of_nat (length (B i))) off])
                  (off + Z.of_nat (length (B i))) (pre ++ B i) post)
        as (hs' & H1 & H2 & H3 & H4).
      { rewrite EA, <- !app_assoc. done. }
      { rewrite length_app. lia. }
      cbn zeta in *.
      exists (MkChunkHdr i (Z.of_nat (length (B i))) off :: hs').
      rewrite H1, <- app_assoc. split; [done|].
      cbn [fmap list_fmap Hdr_Type]. split; [by rewrite <- H2|].
      split; [rewrite H3, length_app; lia|].
      constructor; [|done]. cbn [Hdr_Offset Hdr_Size Hdr_Type].
      split; [lia|]. split; [lia|].
      rewrite EA, Eoff, <- app_assoc. apply ReadBackFacts.bytes_at_app.
Qed.

Lemma UpdateChunkOffsets_fold_other Off hs : forall P i,
  i ∉ Hdr_Type <$> hs -> ChunkData (foldl (UpdateChunkOffsets Off) P hs) i = ChunkData P i.
Proof.
  induction hs as [|h hs IH]; intros P i Hi; cbn [foldl]; [done|].
  cbn [fmap list_fmap] in Hi. apply not_elem_of_cons in Hi as [Hne Hi].
  rewrite IH by done. by apply UpdateChunkOffsets_other.
Qed.

Lemma UpdateChunkOffsets_fold_named Off hs : forall P T R C NL DS DO Names,
  NoDup (Hdr_Type <$> hs) ->
  T ∈ Hdr_Type <$> hs ->
  ChunkData P T = MkChunk R (NamedContent C NL DS DO Names) ->
  length DO = Z.to_nat (ResourceCountPerChunk P T) ->
  ChunkData (foldl (UpdateChunkOffsets Off) P hs) T
  = MkChunk R (NamedContent C NL DS (UpdateDataOffset Off <$> DO) Names).
Proof.
  induction hs as [|h hs IH]; intros P T R C NL DS DO Names Hnd Hin HC HL; cbn [foldl].
  { by apply elem_of_nil in Hin. }
  cbn [fmap list_fmap] in Hnd, Hin. apply NoDup_cons in Hnd as [Hnotin Hnd].
  destruct (decide (T = Hdr_Type h)) as [->|Hne].
  - rewrite UpdateChunkOffsets_fold_other by done.
    unfold UpdateChunkOffsets. rewrite HC. cbn [Chunk_Content Chunk_ReservedSize].
    cbn [set_ChunkData ChunkData]. rewrite fn_lookup_insert. rewrite <- HL.
    pose proof (foldl_alter_seq (UpdateDataOffset Off) DO []) as H.
    cbn [app length] in H. by rewrite H.
  - apply elem_of_cons in Hin as [?|Hin]; [done|].
    apply IH; [done|done| |].
    + by rewrite UpdateChunkOffsets_other.
    + by rewrite (proj2 (UpdateChunkOffsets_frame Off P h)).
Qed.

Lemma UpdateChunkOffsets_fold_plain Off hs : forall P i,
  (forall C NL DS DO Names,
      Chunk_Content (ChunkData P i) <> NamedContent C NL DS DO Names) ->
  ChunkData (foldl (UpdateChunkOffsets Off) P hs) i = ChunkData P i.
Proof.
  induction hs as [|h hs IH]; intros P i Hi; cbn [foldl]; [done|].
  assert (E : ChunkData (UpdateChunkOffsets Off P h) i = ChunkData P i).
  { destruct (decide (i = Hdr_Type h)) as [->|Hne]; [|by apply UpdateChunkOffsets_other].
    unfold UpdateChunkOffsets.
    destruct (Chunk_Content (ChunkData P (Hdr_Type h))) eqn:Ec; try done.
    by destruct (Hi _ _ _ _ _ eq_refl). }
  rewrite IH; [done|]. by rewrite E.
Qed.

Lemma AddChunkHeader_fold_types P l : forall hs off,
  Hdr_Type <$> (foldl (AddChunkHeader P) (hs, off) l).1
  = (Hdr_Type <$> hs) ++ filter (fun i => Chunk_IsEmpty (ChunkData P i) = false) l.
Proof.
  induction l as [|i l IH]; intros hs off; cbn [foldl].
  - by rewrite app_nil_r.
  - rewrite filter_cons.
    assert (EH : AddChunkHeader P (hs, off) i
                 = if Chunk_IsEmpty (ChunkData P i) then (hs, off)
                   else (hs ++ [MkChunkHdr i
                                  (StaticCast_Uint32 (Chunk_GetCurrentSize (ChunkData P i)))
                                  (StaticCast_Uint32 off)],
                         off + StaticCast_Uint32 (Chunk_GetCurrentSize (ChunkData P i))))
      by done.
    rewrite EH. clear EH. destruct (Chunk_IsEmpty (ChunkData P i)) eqn:E.
    + rewrite decide_False by done. apply IH.
    + rewrite decide_True by done. rewrite IH, fmap_app. cbn [fmap list_fmap Hdr_Type].
      by rewrite <- app_assoc.
Qed.

(** The base offsets point to the device blocks in a file that is smaller
    than 4 GiB. *)
Lemma AddBlockBaseOffset_fold_read D A :
  Z.of_nat (length A) < 2 ^ 32 ->
  forall l f off pre post,
    NoDup l ->
    A = pre ++ concat ((fun d => if IsEmpty (Pending_PerDeviceData D d) then []
                                 else Data (Pending_PerDeviceData D d)) <$> l) ++ post ->
    off = Z.of_nat (length pre) ->
    let r := foldl (AddBlockBaseOffset D) (f, off) l in
    forall d,
      (d ∈ l ->
       0 <= r.1 d < 2 ^ 32
       /\ (IsEmpty (Pending_PerDeviceData D d) = false ->
           DeviceObjectArchive.bytes_at A (r.1 d) (GetCurrentSize (Pending_PerDeviceData D d))
           = Some (Data (Pending_PerDeviceData D d))))
      /\ (d ∉ l -> r.1 d = f d).
Proof.
  intros HA. induction l as [|t l IH]; intros f off pre post Hnd EA Eoff; cbn [foldl].
  - intros d. split; [by intros ?%elem_of_nil|done].
  - apply NoDup_cons in Hnd as [Hnotin Hnd]. cbn [fmap list_fmap concat] in EA.
    assert (EH : AddBlockBaseOffset D (f, off) t
                 = if IsEmpty (Pending_PerDeviceData D t)
                   then (<[t := InvalidOffset]> f, off)
                   else (<[t := StaticCast_Uint32 off]> f,
                         off + GetCurrentSize (Pending_PerDeviceData D t))) by done.
    rewrite EH. clear EH.
    assert (HLen : Z.of_nat (length A) >= Z.of_nat (length pre)
                   + Z.of_nat (length (if IsEmpty (Pending_PerDeviceData D t) then []
                                       else Data (Pending_PerDeviceData D t)))).
    { rewrite EA, !length_app. lia. }
    destruct (IsEmpty (Pending_PerDeviceData D t)) eqn:E.
    + cbn [app] in EA. intros d.
      destruct (IH (<[t := InvalidOffset]> f) off pre post Hnd EA Eoff d) as [Hin Hout].
      split.
      * intros [->|Hd]%elem_of_cons; [|by apply Hin].
        rewrite Hout, fn_lookup_insert by done. rewrite E.
        split; [unfold InvalidOffset; lia|done].
      * intros Hd. apply not_elem_of_cons in Hd as [Hne Hd].
        rewrite Hout by done. by rewrite fn_lookup_insert_ne.
    + intros d.
      destruct (IH (<[t := StaticCast_Uint32 off]> f)
                  (off + GetCurrentSize (Pending_PerDeviceData D t))
                  (pre ++ Data (Pending_PerDeviceData D t)) post Hnd) with (d := d)
        as [Hin Hout].
      { rewrite EA, <- !app_assoc. done. }
      { rewrite length_app. unfold GetCurrentSize. lia. }
      split.
      * intros [->|Hd]%elem_of_cons; [|by apply Hin].
        rewrite Hout, fn_lookup_insert by done.
        unfold StaticCast_Uint32. rewrite wrap32_small by lia.
        split; [lia|]. intros _. rewrite EA, Eoff, <- app_assoc.
        apply ReadBackFacts.bytes_at_app.
      * intros Hd. apply not_elem_of_cons in Hd as [Hne Hd].
        rewrite Hout by done. by rewrite fn_lookup_insert_ne.
Qed.

Lemma NoDup_ChunkTypes : NoDup ChunkTypes.
Proof. compute_done. Qed.

Lemma elem_of_ChunkTypes i : i ∈ ChunkTypes.
Proof. destruct i; compute_done. Qed.

(** *** The shaders in the device blocks *)

Lemma store32_at pre old v post :
  length old = 4%nat ->
  store32 (Z.of_nat (length pre)) v (pre ++ old ++ post) = pre ++ le_bytes 4 v ++ post.
Proof.
  intros H. unfold store32. rewrite !Nat2Z.id.
  rewrite take_app_length. f_equal. f_equal.
  rewrite <- drop_drop, drop_app_length.
  by rewrite drop_app_length' by done.
Qed.

Lemma length_ShaderTable List : forall Offset,
  length (ShaderTable Offset List) = (8 * length List)%nat.
Proof.
  induction List as [|Sh List IH]; intros Offset; cbn [ShaderTable length]; [done|].
  rewrite !length_app, !length_le_bytes, IH. lia.
Qed.

(** The loop over the shaders of a device: the records of the table are
    filled in place, the shaders follow what the block held. *)
Lemma WriteShader_fold_data pre List : forall Dst s tbl body,
  Data Dst = pre ++ tbl ++ replicate (8 * length List) 0 ++ body ->
  length tbl = (8 * s)%nat ->
  Data (foldl (WriteShader (Z.of_nat (length pre))) (Dst, Z.of_nat s) List).1
  = pre ++ tbl ++ ShaderTable (GetCurrentSize Dst) List ++ body ++ concat List.
Proof.
  induction List as [|Sh List IH]; intros Dst s tbl body HD Htbl; cbn [foldl].
  - cbn [fst ShaderTable concat]. rewrite HD. cbn [length Nat.mul replicate app].
    by rewrite app_nil_r.
  - assert (E : WriteShader (Z.of_nat (length pre)) (Dst, Z.of_nat s) Sh
                = (MkData (ReservedSize Dst)
                     (pre ++ (tbl ++ le_bytes 4 (StaticCast_Uint32 (GetCurrentSize Dst))
                                  ++ le_bytes 4 (StaticCast_Uint32 (Z.of_nat (length Sh))))
                          ++ replicate (8 * length List) 0 ++ (body ++ Sh)),
                   Z.of_nat (S s))).
    { unfold WriteShader, Data_Copy. cbn [ReservedSize Data]. f_equal; [|lia]. f_equal.
      rewrite HD. unfold sizeof_FileOffsetAndSize.
      replace (8 * length (Sh :: List))%nat with (4 + (4 + 8 * length List))%nat
        by (cbn [length]; lia).
      rewrite !replicate_add. rewrite <- !app_assoc.
      replace (Z.of_nat (length pre) + 8 * Z.of_nat s)
        with (Z.of_nat (length (pre ++ tbl))) by (rewrite length_app; lia).
      rewrite (app_assoc pre tbl).
      rewrite store32_at by (by rewrite length_replicate).
      replace (Z.of_nat (length (pre ++ tbl)) + 4)
        with (Z.of_nat (length ((pre ++ tbl) ++ le_bytes 4 (StaticCast_Uint32
                                  (GetCurrentSize Dst)))))
        by (rewrite !length_app, length_le_bytes; lia).
      rewrite (app_assoc (pre ++ tbl)).
      rewrite store32_at by (by rewrite length_replicate).
      by rewrite <- !app_assoc. }
    rewrite E. clear E.
    rewrite (IH _ (S s)
               (tbl ++ le_bytes 4 (StaticCast_Uint32 (GetCurrentSize Dst))
                    ++ le_bytes 4 (StaticCast_Uint32 (Z.of_nat (length Sh))))
               (body ++ Sh)); [| done |].
    + cbn [ShaderTable concat].
      match goal with |- context [ShaderTable (GetCurrentSize ?e) List] =>
        assert (HG : GetCurrentSize e = GetCurrentSize Dst + Z.of_nat (length Sh)) end.
      { unfold GetCurrentSize. cbn [Data].
        rewrite HD, !length_app, !length_le_bytes, !length_replicate. cbn [length]. lia. }
      rewrite HG. by rewrite <- !app_assoc.
    + rewrite !length_app, !length_le_bytes. lia.
Qed.

Lemma shaders_written_extends List TableOffset Dev suffix :
  shaders_written List TableOffset Dev -> shaders_written List TableOffset (Dev ++ suffix).
Proof. unfold shaders_written. apply ReadBackFacts.bytes_at_app_l. Qed.

(** One device of [WriteShaderData]. *)
Lemma WriteDeviceShaders_step (w : ArchiverImpl) (h : DataHeader) (D : PendingData)
  (t : DeviceType) :
  let List := Shaders_List (m_Shaders w t) in
  let r := WriteDeviceShaders w (h, D) t in
  Pending_SharedData r.2 = Pending_SharedData D
  /\ (forall d, d <> t -> Pending_PerDeviceData r.2 d = Pending_PerDeviceData D d)
  /\ Header_Type r.1 = Header_Type h
  /\ (forall d, d <> t ->
        DeviceSpecificDataSize r.1 d = DeviceSpecificDataSize h d
        /\ DeviceSpecificDataOffset r.1 d = DeviceSpecificDataOffset h d)
  /\ (List = [] -> r = (h, D))
  /\ (List <> [] ->
      DeviceSpecificDataSize r.1 t
      = StaticCast_Uint32 (sizeof_FileOffsetAndSize * Z.of_nat (length List))
      /\ DeviceSpecificDataOffset r.1 t
         = StaticCast_Uint32 (GetCurrentSize (Pending_PerDeviceData D t))
      /\ Data (Pending_PerDeviceData r.2 t)
         = Data (Pending_PerDeviceData D t)
           ++ ShaderTable (GetCurrentSize (Pending_PerDeviceData D t)
                           + sizeof_FileOffsetAndSize * Z.of_nat (length List)) List
           ++ concat List).
Proof.
  cbn zeta. unfold WriteDeviceShaders.
  destruct (Shaders_List (m_Shaders w t)) as [|Sh0 List0] eqn:EL.
  { cbn [fst snd]. repeat split; done. }
  rewrite <- EL. set (List := Shaders_List (m_Shaders w t)).
  assert (HL : List <> []) by (unfold List; by rewrite EL).
  clear EL Sh0 List0.
  unfold Data_Copy.
  set (Dst := Pending_PerDeviceData D t).
  set (Dst1 := MkData (ReservedSize Dst)
                 (Data Dst ++ replicate (Z.to_nat (sizeof_FileOffsetAndSize
                                                   * Z.of_nat (length List))) 0)).
  pose proof (WriteShader_fold_data (Data Dst) List Dst1 0 [] []) as HF.
  unfold GetCurrentSize at 1 in HF.
  change (Z.of_nat 0) with 0 in HF.
  destruct (foldl (WriteShader (GetCurrentSize Dst)) (Dst1, 0) List) as [Dst2 s2] eqn:EF.
  unfold GetCurrentSize in EF. rewrite EF in HF. cbn [fst snd] in *.
  split; [done|]. split.
  { intros d Hd. cbn. by rewrite fn_lookup_insert_ne. }
  split; [done|]. split.
  { intros d Hd. cbn. by rewrite !fn_lookup_insert_ne. }
  split; [done|]. intros _.
  cbn [SetSize SetOffset DeviceSpecificDataSize DeviceSpecificDataOffset set_PerDeviceData
       Pending_PerDeviceData].
  rewrite !fn_lookup_insert. split; [done|]. split; [done|].
  rewrite HF.
  - cbn [app]. do 2 f_equal. unfold Dst1, GetCurrentSize. cbn [Data].
    rewrite length_app, length_replicate. unfold sizeof_FileOffsetAndSize.
    rewrite Nat2Z.inj_add, Z2Nat.id by lia. done.
  - unfold Dst1. cbn [Data app]. rewrite app_nil_r. do 2 f_equal.
    unfold sizeof_FileOffsetAndSize.
    replace (8 * Z.of_nat (length List)) with (Z.of_nat (8 * length List)) by lia.
    by rewrite Nat2Z.id.
  - done.
Qed.

Lemma WriteDeviceShaders_fold (w : ArchiverImpl) l : forall h D,
  NoDup l ->
  let r := foldl (WriteDeviceShaders w) (h, D) l in
  Pending_SharedData r.2 = Pending_SharedData D
  /\ Header_Type r.1 = Header_Type h
  /\ forall d,
       (d ∉ l \/ Shaders_List (m_Shaders w d) = [] ->
        Pending_PerDeviceData r.2 d = Pending_PerDeviceData D d
        /\ DeviceSpecificDataSize r.1 d = DeviceSpecificDataSize h d
        /\ DeviceSpecificDataOffset r.1 d = DeviceSpecificDataOffset h d)
       /\ (d ∈ l -> Shaders_List (m_Shaders w d) <> [] ->
           DeviceSpecificDataSize r.1 d
           = StaticCast_Uint32 (sizeof_FileOffsetAndSize
                                * Z.of_nat (length (Shaders_List (m_Shaders w d))))
           /\ DeviceSpecificDataOffset r.1 d
              = StaticCast_Uint32 (GetCurrentSize (Pending_PerDeviceData D d))
           /\ Data (Pending_PerDeviceData r.2 d)
              = Data (Pending_PerDeviceData D d)
                ++ ShaderTable (GetCurrentSize (Pending_PerDeviceData D d)
                                + sizeof_FileOffsetAndSize
                                  * Z.of_nat (length (Shaders_List (m_Shaders w d))))
                     (Shaders_List (m_Shaders w d))
                ++ concat (Shaders_List (m_Shaders w d))).
Proof.
  induction l as [|t l IH]; intros h D Hnd; cbn [foldl].
  { split; [done|]. split; [done|]. intros d. split; [done|]. by intros ?%elem_of_nil. }
  apply NoDup_cons in Hnd as [Hnotin Hnd].
  destruct (WriteDeviceShaders_step w h D t) as (S1 & S2 & S3 & S4 & S5 & S6).
  destruct (WriteDeviceShaders w (h, D) t) as [h1 D1] eqn:E1. cbn [fst snd] in *.
  destruct (IH h1 D1 Hnd) as (I1 & I2 & I3).
  split; [congruence|]. split; [congruence|].
  intros d. destruct (I3 d) as [Iout Iin]. split.
  - intros Hd. destruct (decide (d = t)) as [->|Hne].
    + destruct Hd as [Hd|Hd]; [exfalso; apply Hd, list_elem_of_here|].
      destruct Iout as (-> & -> & ->); [by right|].
      specialize (S5 Hd). by injection S5 as -> ->.
    + destruct Iout as (-> & -> & ->).
      { destruct Hd as [Hd|Hd]; [left|by right]. by apply not_elem_of_cons in Hd as [_ ?]. }
      rewrite S2 by done. by destruct (S4 d Hne) as [-> ->].
  - intros [->|Hd]%elem_of_cons HL.
    + destruct Iout as (-> & -> & ->); [by left|]. by apply S6.
    + assert (Hne : d <> t) by (intros ->; done).
      destruct (Iin Hd HL) as (-> & -> & ->). by rewrite S2.
Qed.

(** [WriteShaderData] on a shader chunk that was not touched before. *)
Lemma WriteShaderData_spec (w : ArchiverImpl) (P : PendingStream) :
  ChunkData P DeviceObjectArchive.Shaders = TChunk_new ->
  shader_chunk_written w (WriteShaderData w P)
  /\ extends (Pending P) (Pending (WriteShaderData w P)).
Proof.
  intros Hnew.
  pose proof (WriteDeviceShaders_fold w DeviceTypes
                (DataHeader_new (DeviceObjectArchive.ChunkType_to_Z DeviceObjectArchive.Shaders))
                (Pending P) ArchiverFacts.NoDup_DeviceTypes) as HF.
  pose proof (Pending_WriteShaderData w P) as HP.
  unfold WriteShaderData in *. destruct (existsb _ DeviceTypes) eqn:E; cbn [negb] in *.
  - destruct (foldl _ _ DeviceTypes) as [Header D]. cbn [fst snd] in *.
    destruct HF as (F1 & F2 & F3). split.
    + right. exists Header. split.
      { cbn [set_Pending set_ResourceCount set_ChunkData ChunkData].
        by rewrite fn_lookup_insert. }
      intros d. destruct (F3 d) as [Fout Fin].
      destruct (Shaders_List (m_Shaders w d)) as [|Sh List] eqn:EL.
      * destruct Fout as (_ & -> & _); [by right|done].
      * destruct Fin as (G1 & G2 & G3); [apply ArchiverFacts.elem_of_DeviceTypes|done|].
        exists (GetCurrentSize (Pending_PerDeviceData (Pending P) d)).
        split; [done|]. split; [done|].
        unfold shaders_written. cbn [set_Pending Pending]. rewrite G3.
        pose proof (ReadBackFacts.bytes_at_app (Data (Pending_PerDeviceData (Pending P) d))
                      (ShaderTable (GetCurrentSize (Pending_PerDeviceData (Pending P) d)
                                    + sizeof_FileOffsetAndSize
                                      * Z.of_nat (length (Sh :: List))) (Sh :: List)
                       ++ concat (Sh :: List)) []) as HB.
        rewrite app_nil_r in HB. unfold GetCurrentSize in *. rewrite <- HB. f_equal.
        rewrite length_app, length_ShaderTable. unfold sizeof_FileOffsetAndSize. lia.
    + cbn [set_Pending Pending]. intros [d|]; cbn [Block].
      * destruct (F3 d) as [Fout Fin].
        destruct (Shaders_List (m_Shaders w d)) as [|Sh List] eqn:EL.
        -- destruct Fout as (-> & _); [by right|]. exists []. by rewrite app_nil_r.
        -- destruct Fin as (_ & _ & ->); [apply ArchiverFacts.elem_of_DeviceTypes|done|].
           by eexists.
      * rewrite F1. exists []. by rewrite app_nil_r.
  - split; [|apply extends_refl]. left. split; [done|].
    intros d. destruct (Shaders_List (m_Shaders w d)) eqn:EL; [done|].
    destruct d; cbn in E; rewrite ?EL in E; cbn in E;
      repeat (destruct (Shaders_List (m_Shaders w _)); cbn in E; try done).
Qed.

Lemma shader_chunk_written_frame w P P' :
  shader_chunk_written w P ->
  extends (Pending P) (Pending P') ->
  ChunkData P' DeviceObjectArchive.Shaders = ChunkData P DeviceObjectArchive.Shaders ->
  shader_chunk_written w P'.
Proof.
  intros [[H1 H2]|(Header & H1 & H2)] Hext HC; [left; split; [congruence|done]|].
  right. exists Header. split; [congruence|]. intros d. specialize (H2 d).
  destruct (Shaders_List (m_Shaders w d)); [done|].
  destruct H2 as (TableOffset & G1 & G2 & G3). exists TableOffset.
  split; [done|]. split; [done|]. destruct (Hext (Some d)) as [s Hs]. cbn [Block] in Hs.
  rewrite Hs. by apply shaders_written_extends.
Qed.

Section Stream.
Context `{Fmt : DeviceObjectArchive.ArchiveFormat} `{Build : BuildInfo}.

Lemma Pending_WriteDebugInfo P : Pending (WriteDebugInfo P) = Pending P.
Proof. unfold WriteDebugInfo. by destruct (decide _). Qed.

Lemma Unused_WriteAll (w : ArchiverImpl) (b : option DeviceType) :
  Unused (Block (Pending (WriteAll w)) b) = 0.
Proof.
  unfold WriteAll.
  destruct (phase_fills (fun P t => ReserveSpaceForShaders (m_Shaders w) t P)
              (WriteDeviceShaders w) snd DeviceTypes (Shaders_fill w)) as [c0 H0].
  destruct (Map_fills DeviceObjectArchive.ResourceSignature PRS_GetSharedData
              WritePRSPerDeviceData ReserveSpaceForPRS (m_PRSMap w)
              (PRS_fills _)) as [c1 H1].
  destruct (Map_fills DeviceObjectArchive.RenderPass rp_SharedSerializedMemory
              (fun Header _ _ D => (Header, D)) ReserveSpaceForRP (m_RPMap w)
              (RP_fills _)) as [c2 H2].
  destruct (Map_fills DeviceObjectArchive.GraphicsPipelineStates SharedData
              WritePSOPerDeviceData ReserveSpaceForPSO (m_GraphicsPSOMap w)
              (PSO_fills _)) as [c3 H3].
  destruct (Map_fills DeviceObjectArchive.ComputePipelineStates SharedData
              WritePSOPerDeviceData ReserveSpaceForPSO (m_ComputePSOMap w)
              (PSO_fills _)) as [c4 H4].
  destruct (Map_fills DeviceObjectArchive.TilePipelineStates SharedData
              WritePSOPerDeviceData ReserveSpaceForPSO (m_TilePSOMap w)
              (PSO_fills _)) as [c5 H5].
  destruct (Map_fills DeviceObjectArchive.RayTracingPipelineStates SharedData
              WritePSOPerDeviceData ReserveSpaceForPSO (m_RayTracingPSOMap w)
              (PSO_fills _)) as [c6 H6].
  rewrite (proj2 (H6 b)), (proj2 (H5 b)), (proj2 (H4 b)), (proj2 (H3 b)), (proj2 (H2 b)),
    (proj2 (H1 b)).
  rewrite Pending_WriteShaderData, (proj2 (H0 b)). cbn [snd].
  rewrite Pending_WriteDebugInfo. cbn [Pending]. unfold ReserveSpace.
  rewrite (proj1 (H6 b)), (proj1 (H5 b)), (proj1 (H4 b)), (proj1 (H3 b)), (proj1 (H2 b)),
    (proj1 (H1 b)), (proj1 (H0 b)).
  assert (Unused (Block (MkPending TDataElement_new (fun _ => TDataElement_new)) b) = 0)
    by (by destruct b).
  lia.
Qed.

(** *** The requests of the two passes *)

Lemma request_app b t q log : request b t q log = log ++ request b t q [].
Proof. unfold request. destruct (decide _); [done|by rewrite app_nil_r]. Qed.

Lemma foldl_appends {A} (f : list Request -> A -> list Request) (l : list A) :
  (forall log x, f log x = log ++ f [] x) ->
  forall log, foldl f log l = log ++ concat (f [] <$> l).
Proof.
  intros Hf. induction l as [|x l IH]; intros log; cbn; [by rewrite app_nil_r|].
  by rewrite IH, (Hf log x), <- app_assoc.
Qed.

Lemma filter_concat {A} (P : A -> Prop) `{forall x, Decision (P x)} (ls : list (list A)) :
  filter P (concat ls) = concat (filter P <$> ls).
Proof. induction ls as [|l ls IH]; cbn; [done|]. by rewrite filter_app, IH. Qed.

(** Two loops that append, over the same list, with bodies that ask the
    same things: the loops ask the same things. *)
Lemma foldl_asks_same {A} (f g : list Request -> A -> list Request) (l : list A) log log' :
  (forall log x, f log x = log ++ f [] x) ->
  (forall log x, g log x = log ++ g [] x) ->
  (forall x, filter (fun q => asks q = true) (f [] x)
             = filter (fun q => asks q = true) (g [] x)) ->
  filter (fun q => asks q = true) log = filter (fun q => asks q = true) log' ->
  filter (fun q => asks q = true) (foldl f log l)
  = filter (fun q => asks q = true) (foldl g log' l).
Proof.
  intros Hf Hg Hfg Hlog.
  rewrite (foldl_appends f l Hf), (foldl_appends g l Hg), !filter_app, !filter_concat, Hlog.
  f_equal. f_equal. induction l as [|x l IH]; cbn; [done|]. by rewrite Hfg, IH.
Qed.

Lemma ReserveSpaceForShaders_requests_app Shaders b log Type_ :
  ReserveSpaceForShaders_requests Shaders b log Type_
  = log ++ ReserveSpaceForShaders_requests Shaders b [] Type_.
Proof.
  unfold ReserveSpaceForShaders_requests.
  destruct (Shaders_List (Shaders Type_)) as [|Sh List] eqn:E; [by rewrite app_nil_r|].
  rewrite (foldl_appends _ (Sh :: List)) by (intros; apply request_app).
  rewrite (foldl_appends _ (Sh :: List) (fun l x => request_app _ _ _ l)
             (request _ _ _ [])).
  by rewrite request_app, <- app_assoc.
Qed.

Lemma WritePerDeviceData_requests_app b Type_ SrcMem log :
  WritePerDeviceData_requests b Type_ SrcMem log
  = log ++ WritePerDeviceData_requests b Type_ SrcMem [].
Proof.
  unfold WritePerDeviceData_requests.
  destruct (negb _); [by rewrite app_nil_r|apply request_app].
Qed.

(** For the block [b], copying a blob if it is not null asks what reserving
    its size asks. *)
Lemma WritePerDeviceData_asks b Type_ SrcMem :
  filter (fun q => asks q = true) (WritePerDeviceData_requests b Type_ SrcMem [])
  = filter (fun q => asks q = true) (request b (Some Type_) (Bytes (Mem_Size SrcMem)) []).
Proof.
  unfold WritePerDeviceData_requests. destruct SrcMem as [bytes|]; cbn [Mem_bool negb]; [done|].
  unfold request. by destruct (decide _).
Qed.

(** One object: the header and the shared blob, then the device blobs. *)
Lemma object_asks_same {Obj} b T (GetSharedData : Obj -> SerializedMemory)
  (GetDeviceData : Obj -> DeviceType -> SerializedMemory) (O : Obj) log log' :
  filter (fun q => asks q = true) log = filter (fun q => asks q = true) log' ->
  filter (fun q => asks q = true)
    (foldl (fun log'' Type_ => WritePerDeviceData_requests b Type_ (GetDeviceData O Type_) log'')
           (WriteHeader_requests b T (GetSharedData O) log) DeviceTypes)
  = filter (fun q => asks q = true)
      (foldl (fun log'' Type_ =>
                request b (Some Type_) (Bytes (Mem_Size (GetDeviceData O Type_))) log'')
             (request b None (Bytes (Mem_Size (GetSharedData O)))
                (request b None (Objects T 1) log')) DeviceTypes).
Proof.
  intros Hlog. apply foldl_asks_same.
  - intros; apply WritePerDeviceData_requests_app.
  - intros; apply request_app.
  - intros; apply WritePerDeviceData_asks.
  - unfold WriteHeader_requests.
    rewrite (request_app _ _ _ (request _ _ _ log)), (request_app _ _ _ log).
    rewrite (request_app _ _ _ (request _ _ _ log')), (request_app _ _ _ log').
    by rewrite !filter_app, Hlog.
Qed.

Lemma object_app {Obj} b T (GetSharedData : Obj -> SerializedMemory)
  (WriteDeviceData : DeviceType -> Obj -> list Request -> list Request) (O : Obj) :
  (forall Type_ log, WriteDeviceData Type_ O log = log ++ WriteDeviceData Type_ O []) ->
  forall log,
    foldl (fun log'' Type_ => WriteDeviceData Type_ O log'')
          (WriteHeader_requests b T (GetSharedData O) log) DeviceTypes
    = log ++ foldl (fun log'' Type_ => WriteDeviceData Type_ O log'')
               (WriteHeader_requests b T (GetSharedData O) []) DeviceTypes.
Proof.
  intros HW log.
  rewrite (foldl_appends _ DeviceTypes) by (intros; apply HW).
  rewrite (foldl_appends _ DeviceTypes (fun l x => HW x l) (WriteHeader_requests _ _ _ [])).
  unfold WriteHeader_requests.
  rewrite (request_app _ _ _ (request _ _ _ log)), (request_app _ _ _ log).
  rewrite (request_app _ _ _ (request _ _ _ [])). cbn [app].
  by rewrite <- !app_assoc.
Qed.

(** A map of objects: [WriteDeviceObjectData] asks the block [b] what the
    loop of [ReserveSpace] over the map asks. *)
Lemma map_asks_same {Obj} b T (GetSharedData : Obj -> SerializedMemory)
  (GetDeviceData : Obj -> DeviceType -> SerializedMemory)
  (Reserve : Obj -> list Request -> list Request) (Map : gmap string Obj) log log' :
  (forall O l, Reserve O l
               = foldl (fun log'' Type_ =>
                          request b (Some Type_) (Bytes (Mem_Size (GetDeviceData O Type_))) log'')
                       (request b None (Bytes (Mem_Size (GetSharedData O)))
                          (request b None (Objects T 1) l)) DeviceTypes) ->
  filter (fun q => asks q = true) log = filter (fun q => asks q = true) log' ->
  filter (fun q => asks q = true)
    (WriteDeviceObjectData_requests b T GetSharedData
       (fun Type_ O => WritePerDeviceData_requests b Type_ (GetDeviceData O Type_)) Map log)
  = filter (fun q => asks q = true) (for_each Reserve Map log').
Proof.
  intros HR Hlog. unfold WriteDeviceObjectData_requests, for_each.
  destruct (decide (Map = ∅)) as [->|_]; [by rewrite map_to_list_empty|].
  apply foldl_asks_same; [| | |done].
  - intros l [n O]. cbn [snd].
    apply (object_app b T GetSharedData
             (fun Type_ O => WritePerDeviceData_requests b Type_ (GetDeviceData O Type_)) O).
    intros; apply WritePerDeviceData_requests_app.
  - intros l [n O]. cbn [snd]. rewrite !HR.
    apply (object_app b T GetSharedData
             (fun Type_ O => request b (Some Type_) (Bytes (Mem_Size (GetDeviceData O Type_)))) O).
    intros; apply request_app.
  - intros [n O]. cbn [snd]. rewrite HR. by apply object_asks_same.
Qed.

(** X17. The writes of [SerializeToStream] ask the shared block and every
    device block for what [ReserveSpace] has reserved in them: the same
    objects and the same numbers of bytes, in the same order, requests for
    zero bytes apart ([ReserveSpace] makes one for every device and object,
    also where the object has no data for the device; the writes skip a
    null blob).  The statement is about the requests, whatever the
    allocator behind the blocks does with them. *)
Theorem writes_follow_reservations (w : ArchiverImpl) (b : option DeviceType) :
  filter (fun q => asks q = true) (SerializeToStream_requests w b)
  = filter (fun q => asks q = true) (ReserveSpace_requests w b).
Proof.
  unfold SerializeToStream_requests, ReserveSpace_requests. cbn zeta.
  assert (HPSO : forall Map log log',
             filter (fun q => asks q = true) log = filter (fun q => asks q = true) log' ->
             filter (fun q => asks q = true)
               (WriteDeviceObjectData_requests b PSODataHeader_t SharedData
                  (fun Type_ (Src : TPSOData) =>
                     WritePerDeviceData_requests b Type_ (PerDeviceData Src Type_)) Map log)
             = filter (fun q => asks q = true)
                 (for_each (ReserveSpaceForPSO_requests b) Map log')).
  { intros Map log log' Hlog.
    by apply (map_asks_same b PSODataHeader_t SharedData PerDeviceData). }
  do 4 apply HPSO.
  (* render passes: no device data *)
  assert (HRP : forall log log',
             filter (fun q => asks q = true) log = filter (fun q => asks q = true) log' ->
             filter (fun q => asks q = true)
               (WriteDeviceObjectData_requests b RPDataHeader_t rp_SharedSerializedMemory
                  (fun _ _ log => log) (m_RPMap w) log)
             = filter (fun q => asks q = true)
                 (for_each (ReserveSpaceForRP_requests b) (m_RPMap w) log')).
  { intros log log' Hlog. unfold WriteDeviceObjectData_requests, for_each.
    destruct (decide (m_RPMap w = ∅)) as [->|_]; [by rewrite map_to_list_empty|].
    assert (Hloop : forall (RP : SerializableRenderPassImpl) (l : list Request),
               foldl (fun log'' (_ : DeviceType) => log'') l DeviceTypes = l) by done.
    apply foldl_asks_same; [| | |done].
    - intros l [n RP]. cbn [snd]. rewrite !(Hloop RP). unfold WriteHeader_requests.
      rewrite (request_app _ _ _ (request _ _ _ l)), (request_app _ _ _ l).
      rewrite (request_app _ _ _ (request _ _ _ [])). cbn [app]. by rewrite <- !app_assoc.
    - intros l [n RP]. cbn [snd]. unfold ReserveSpaceForRP_requests.
      rewrite (request_app _ _ _ (request _ _ _ l)), (request_app _ _ _ l).
      rewrite (request_app _ _ _ (request _ _ _ [])). cbn [app]. by rewrite <- !app_assoc.
    - intros [n RP]. cbn [snd]. by rewrite (Hloop RP). }
  apply HRP.
  apply (map_asks_same b PRSDataHeader_t PRS_GetSharedData
           (fun O Type_ => PRS_GetDeviceData O (PRSDevType Type_))); [done|].
  (* shaders *)
  unfold WriteShaderData_requests.
  destruct (existsb _ DeviceTypes) eqn:EHas; cbn [negb].
  - apply foldl_asks_same; [| |done|done].
    + intros; apply ReserveSpaceForShaders_requests_app.
    + intros; apply ReserveSpaceForShaders_requests_app.
  - assert (Hnone : forall d, Shaders_List (m_Shaders w d) = []).
    { intros d. destruct (Shaders_List (m_Shaders w d)) eqn:E; [done|].
      assert (existsb (fun d => match Shaders_List (m_Shaders w d) with
                                | [] => false | _ => true end) DeviceTypes = true); [|congruence].
      apply existsb_exists. exists d. split; [destruct d; cbn; tauto|by rewrite E]. }
    unfold DeviceTypes. cbn [foldl]. unfold ReserveSpaceForShaders_requests.
    by rewrite !Hnone.
Qed.

(** The two passes over the writer [WriterSigP], seen from the OpenGL block
    and from the shared block: the signature has no data for OpenGL, for
    which [ReserveSpace] asks for zero bytes and the writes ask for
    nothing. *)
Lemma requests_of_WriterSigP :
  ReserveSpace_requests WriterSigP (Some OpenGL)
  = [Objects FileOffsetAndSize_t 2; Bytes 2; Bytes 1; Bytes 0; Bytes 3]
  /\ SerializeToStream_requests WriterSigP (Some OpenGL)
     = [Objects FileOffsetAndSize_t 2; Bytes 2; Bytes 1; Bytes 3]
  /\ ReserveSpace_requests WriterSigP None
     = [Objects PRSDataHeader_t 1; Bytes 3; Objects RPDataHeader_t 1; Bytes 2;
        Objects PSODataHeader_t 1; Bytes 2]
  /\ SerializeToStream_requests WriterSigP None = ReserveSpace_requests WriterSigP None.
Proof. repeat split; vm_compute; reflexivity. Qed.

Lemma ChunkData_WriteDebugInfo P t :
  t <> DeviceObjectArchive.ArchiveDebugInfo -> ChunkData (WriteDebugInfo P) t = ChunkData P t.
Proof.
  intros Ht. unfold WriteDebugInfo. destruct (decide _); [done|].
  cbn. by rewrite fn_lookup_insert_ne.
Qed.

Lemma ChunkData_WriteShaderData w P t :
  t <> DeviceObjectArchive.Shaders -> ChunkData (WriteShaderData w P) t = ChunkData P t.
Proof.
  intros Ht. unfold WriteShaderData. destruct (negb _); [done|].
  destruct (foldl _ _ DeviceTypes) as [Header D]. cbn. by rewrite fn_lookup_insert_ne.
Qed.

(** The chunks before [UpdateOffsetsInArchive]. *)
Lemma WriteAll_spec (w : ArchiverImpl) :
  let P := WriteAll w in
  chunk_written DeviceObjectArchive.ResourceSignature PRS_GetSharedData
    (fun O t => PRS_GetDeviceData O (PRSDevType t)) (m_PRSMap w) P
  /\ chunk_written DeviceObjectArchive.RenderPass rp_SharedSerializedMemory
       (fun _ _ => None) (m_RPMap w) P
  /\ chunk_written DeviceObjectArchive.GraphicsPipelineStates SharedData PerDeviceData
       (m_GraphicsPSOMap w) P
  /\ chunk_written DeviceObjectArchive.ComputePipelineStates SharedData PerDeviceData
       (m_ComputePSOMap w) P
  /\ chunk_written DeviceObjectArchive.TilePipelineStates SharedData PerDeviceData
       (m_TilePSOMap w) P
  /\ chunk_written DeviceObjectArchive.RayTracingPipelineStates SharedData PerDeviceData
       (m_RayTracingPSOMap w) P
  /\ ChunkData P DeviceObjectArchive.Undefined = TChunk_new
  /\ ChunkData P DeviceObjectArchive.ArchiveDebugInfo
     = ChunkData (WriteDebugInfo
                    (MkStream (DeviceObjectArchive.MkArchiveHeader 0 0 0 (fun _ => 0)) []
                       (fun _ => TChunk_new) (fun _ => 0) (ReserveSpace w) 0))
         DeviceObjectArchive.ArchiveDebugInfo
  /\ (forall t, t <> DeviceObjectArchive.Shaders ->
        ChunkData (WriteShaderData w
                     (WriteDebugInfo
                        (MkStream (DeviceObjectArchive.MkArchiveHeader 0 0 0 (fun _ => 0)) []
                           (fun _ => TChunk_new) (fun _ => 0) (ReserveSpace w) 0))) t
        = ChunkData (WriteDebugInfo
                       (MkStream (DeviceObjectArchive.MkArchiveHeader 0 0 0 (fun _ => 0)) []
                          (fun _ => TChunk_new) (fun _ => 0) (ReserveSpace w) 0)) t)
  /\ ChunkData P DeviceObjectArchive.Shaders
     = ChunkData (WriteShaderData w
                    (WriteDebugInfo
                       (MkStream (DeviceObjectArchive.MkArchiveHeader 0 0 0 (fun _ => 0)) []
                          (fun _ => TChunk_new) (fun _ => 0) (ReserveSpace w) 0)))
         DeviceObjectArchive.Shaders
  /\ shader_chunk_written w P.
Proof.
  unfold WriteAll.
  set (P0 := MkStream _ _ _ _ _ _).
  set (P1 := WriteDebugInfo P0).
  set (P2 := WriteShaderData w P1).
  assert (H2 : forall t, t <> DeviceObjectArchive.ArchiveDebugInfo ->
                         t <> DeviceObjectArchive.Shaders -> ChunkData P2 t = TChunk_new).
  { intros t Ht1 Ht2. unfold P2, P1.
    by rewrite ChunkData_WriteShaderData, ChunkData_WriteDebugInfo. }
  set (P3 := WriteDeviceObjectData DeviceObjectArchive.ResourceSignature _ _ _ P2).
  destruct (WriteDeviceObjectData_spec DeviceObjectArchive.ResourceSignature PRS_GetSharedData
              WritePRSPerDeviceData (fun O t => PRS_GetDeviceData O (PRSDevType t))
              (m_PRSMap w) P2 (WriteDeviceObject_PRS _)) as (W3 & E3 & C3 & _); [by apply H2|].
  fold P3 in W3, C3.
  set (P4 := WriteDeviceObjectData DeviceObjectArchive.RenderPass _ _ _ P3).
  destruct (WriteDeviceObjectData_spec DeviceObjectArchive.RenderPass rp_SharedSerializedMemory
              (fun Header _ _ D => (Header, D)) (fun _ _ => None)
              (m_RPMap w) P3 (WriteDeviceObject_RP _)) as (W4 & E4 & C4 & _).
  { rewrite C3 by done. by apply H2. }
  fold P4 in W4, C4.
  set (P5 := WriteDeviceObjectData DeviceObjectArchive.GraphicsPipelineStates _ _ _ P4).
  destruct (WriteDeviceObjectData_spec DeviceObjectArchive.GraphicsPipelineStates SharedData
              WritePSOPerDeviceData PerDeviceData
              (m_GraphicsPSOMap w) P4 (WriteDeviceObject_PSO _)) as (W5 & E5 & C5 & _).
  { rewrite C4, C3 by done. by apply H2. }
  fold P5 in W5, C5.
  set (P6 := WriteDeviceObjectData DeviceObjectArchive.ComputePipelineStates _ _ _ P5).
  destruct (WriteDeviceObjectData_spec DeviceObjectArchive.ComputePipelineStates SharedData
              WritePSOPerDeviceData PerDeviceData
              (m_ComputePSOMap w) P5 (WriteDeviceObject_PSO _)) as (W6 & E6 & C6 & _).
  { rewrite C5, C4, C3 by done. by apply H2. }
  fold P6 in W6, C6.
  set (P7 := WriteDeviceObjectData DeviceObjectArchive.TilePipelineStates _ _ _ P6).
  destruct (WriteDeviceObjectData_spec DeviceObjectArchive.TilePipelineStates SharedData
              WritePSOPerDeviceData PerDeviceData
              (m_TilePSOMap w) P6 (WriteDeviceObject_PSO _)) as (W7 & E7 & C7 & _).
  { rewrite C6, C5, C4, C3 by done. by apply H2. }
  fold P7 in W7, C7.
  set (P8 := WriteDeviceObjectData DeviceObjectArchive.RayTracingPipelineStates _ _ _ P7).
  destruct (WriteDeviceObjectData_spec DeviceObjectArchive.RayTracingPipelineStates SharedData
              WritePSOPerDeviceData PerDeviceData
              (m_RayTracingPSOMap w) P7 (WriteDeviceObject_PSO _)) as (W8 & E8 & C8 & _).
  { rewrite C7, C6, C5, C4, C3 by done. by apply H2. }
  fold P8 in W8, C8.
  assert (N4 : ChunkData P3 DeviceObjectArchive.RenderPass = TChunk_new)
    by (rewrite C3 by done; by apply H2).
  assert (N5 : ChunkData P4 DeviceObjectArchive.GraphicsPipelineStates = TChunk_new)
    by (rewrite C4, C3 by done; by apply H2).
  assert (N6 : ChunkData P5 DeviceObjectArchive.ComputePipelineStates = TChunk_new)
    by (rewrite C5, C4, C3 by done; by apply H2).
  assert (N7 : ChunkData P6 DeviceObjectArchive.TilePipelineStates = TChunk_new)
    by (rewrite C6, C5, C4, C3 by done; by apply H2).
  assert (N8 : ChunkData P7 DeviceObjectArchive.RayTracingPipelineStates = TChunk_new)
    by (rewrite C7, C6, C5, C4, C3 by done; by apply H2).
  cbn zeta. repeat split.
  - eapply WriteDeviceObjectData_frame; [apply WriteDeviceObject_PSO|exact N8|done|].
    eapply WriteDeviceObjectData_frame; [apply WriteDeviceObject_PSO|exact N7|done|].
    eapply WriteDeviceObjectData_frame; [apply WriteDeviceObject_PSO|exact N6|done|].
    eapply WriteDeviceObjectData_frame; [apply WriteDeviceObject_PSO|exact N5|done|].
    eapply WriteDeviceObjectData_frame; [apply WriteDeviceObject_RP|exact N4|done|].
    exact W3.
  - eapply WriteDeviceObjectData_frame; [apply WriteDeviceObject_PSO|exact N8|done|].
    eapply WriteDeviceObjectData_frame; [apply WriteDeviceObject_PSO|exact N7|done|].
    eapply WriteDeviceObjectData_frame; [apply WriteDeviceObject_PSO|exact N6|done|].
    eapply WriteDeviceObjectData_frame; [apply WriteDeviceObject_PSO|exact N5|done|].
    exact W4.
  - eapply WriteDeviceObjectData_frame; [apply WriteDeviceObject_PSO|exact N8|done|].
    eapply WriteDeviceObjectData_frame; [apply WriteDeviceObject_PSO|exact N7|done|].
    eapply WriteDeviceObjectData_frame; [apply WriteDeviceObject_PSO|exact N6|done|].
    exact W5.
  - eapply WriteDeviceObjectData_frame; [apply WriteDeviceObject_PSO|exact N8|done|].
    eapply WriteDeviceObjectData_frame; [apply WriteDeviceObject_PSO|exact N7|done|].
    exact W6.
  - eapply WriteDeviceObjectData_frame; [apply WriteDeviceObject_PSO|exact N8|done|].
    exact W7.
  - exact W8.
  - rewrite C8, C7, C6, C5, C4, C3 by done. by apply H2.
  - rewrite C8, C7, C6, C5, C4, C3 by done. unfold P2.
    by rewrite ChunkData_WriteShaderData.
  - intros t Ht. by apply ChunkData_WriteShaderData.
  - by rewrite C8, C7, C6, C5, C4, C3.
  - destruct (WriteShaderData_spec w P1) as [HS _].
    { unfold P1. by rewrite ChunkData_WriteDebugInfo. }
    fold P2 in HS.
    eapply shader_chunk_written_frame; [exact HS| |by rewrite C8, C7, C6, C5, C4, C3].
    repeat (eapply extends_trans; [|eassumption]). apply extends_refl.
Qed.

(** X18. For pending data whose chunk blocks are smaller than 4 GiB, the
    number of bytes that [WritePendingDataToStream] writes is the
    [OffsetInFile] that [UpdateOffsetsInArchive] ends with.  The debug
    check at the end of [WritePendingDataToStream] adds the initial size of
    the stream to its final size, so it holds exactly when the stream was
    empty before the call. *)
Theorem stream_length_is_OffsetInFile (P : PendingStream) (Stream : list Z) :
  (forall i, Chunk_GetCurrentSize (ChunkData P i) < 2 ^ 32) ->
  Z.of_nat (length (PendingBytes (UpdateOffsetsInArchive P)))
  = OffsetInFile (UpdateOffsetsInArchive P)
  /\ (WritePendingDataToStream_check (UpdateOffsetsInArchive P) Stream <-> Stream = []).
Proof.
  intros Hsz.
  assert (HL : Z.of_nat (length (PendingBytes (UpdateOffsetsInArchive P)))
               = OffsetInFile (UpdateOffsetsInArchive P)).
  { unfold UpdateOffsetsInArchive, PendingBytes.
    set (k := length (filter (fun i => Chunk_IsEmpty (ChunkData P i) = false) ChunkTypes)).
    pose proof (AddChunkHeader_fold_size P ChunkTypes Hsz []
                  (DeviceObjectArchive.sizeof_ArchiveHeader
                   + DeviceObjectArchive.sizeof_ChunkHeader * Z.of_nat k)) as HA.
    destruct (foldl (AddChunkHeader P) _ ChunkTypes) as [Headers Offset1].
    cbn [fst snd] in HA. destruct HA as [HA1 HA2].
    set (P1 := foldl (UpdateChunkOffsets Offset1) P Headers).
    pose proof (UpdateChunkOffsets_fold_size Offset1 Headers P) as HS.
    destruct (UpdateChunkOffsets_fold_frame Offset1 Headers P) as [HP _].
    fold P1 in HS, HP.
    pose proof (AddBlockBaseOffset_fold (Pending P1) DeviceTypes (fun _ => 0)
                  (Offset1 + GetCurrentSize (Pending_SharedData (Pending P1)))) as HB.
    destruct (foldl (AddBlockBaseOffset (Pending P1)) _ DeviceTypes) as [BBO Offset3].
    cbn [snd] in HB.
    cbn [FileHeader ChunkHeaders ChunkData Pending OffsetInFile].
    rewrite !length_app, length_FileHeader_bytes, length_ChunkHdr_bytes.
    rewrite (length_concat_ext
               (fun i => if Chunk_IsEmpty (ChunkData P1 i) then [] else Chunk_bytes (ChunkData P1 i))
               (fun i => if Chunk_IsEmpty (ChunkData P i) then [] else Chunk_bytes (ChunkData P i))).
    2:{ intros i. destruct (HS i) as [HR HLn]. unfold Chunk_IsEmpty. rewrite HR.
        by destruct (_ =? 0). }
    rewrite HB, HA2, HA1. unfold GetCurrentSize, DeviceObjectArchive.sizeof_ArchiveHeader,
      DeviceObjectArchive.sizeof_ChunkHeader. cbn [length]. fold k. lia. }
  split; [exact HL|].
  unfold WritePendingDataToStream_check, WritePendingDataToStream.
  rewrite length_app, <- HL. split.
  - intros H. destruct Stream; [done|]. cbn [length] in H. lia.
  - intros ->. cbn [length]. lia.
Qed.

(** The layout of the file: where the headers point to, and what
    [UpdateOffsetsInArchive] leaves in the chunks. *)
Lemma UpdateOffsets_layout (P : PendingStream) :
  let Q := UpdateOffsetsInArchive P in
  let A := PendingBytes Q in
  Z.of_nat (length A) < 2 ^ 32 ->
  exists Off1 BBO rest preS postS,
    FileHeader Q
    = DeviceObjectArchive.MkArchiveHeader DeviceObjectArchive.HeaderMagicNumber
        DeviceObjectArchive.GetHeaderVersion (Z.of_nat (length (ChunkHeaders Q))) BBO
    /\ A = FileHeader_bytes (FileHeader Q) ++ concat (ChunkHdr_bytes <$> ChunkHeaders Q) ++ rest
    /\ Hdr_Type <$> ChunkHeaders Q
       = filter (fun i => Chunk_IsEmpty (ChunkData P i) = false) ChunkTypes
    /\ Forall (fun h => 0 <= Hdr_Offset h < 2 ^ 32 /\ 0 <= Hdr_Size h < 2 ^ 32
                        /\ DeviceObjectArchive.bytes_at A (Hdr_Offset h) (Hdr_Size h)
                           = Some (Chunk_bytes (ChunkData Q (Hdr_Type h))))
         (ChunkHeaders Q)
    /\ Pending Q = Pending P
    /\ A = preS ++ Data (Pending_SharedData (Pending P)) ++ postS
    /\ Off1 = Z.of_nat (length preS)
    /\ (forall i, ChunkData Q i
                  = ChunkData (foldl (UpdateChunkOffsets Off1) P (ChunkHeaders Q)) i)
    /\ (forall d, 0 <= BBO d < 2 ^ 32)
    /\ (forall d, IsEmpty (Pending_PerDeviceData (Pending P) d) = false ->
          DeviceObjectArchive.bytes_at A (BBO d)
            (GetCurrentSize (Pending_PerDeviceData (Pending P) d))
          = Some (Data (Pending_PerDeviceData (Pending P) d))).
Proof.
  cbn zeta. unfold UpdateOffsetsInArchive, PendingBytes.
  set (k := length (filter (fun i => Chunk_IsEmpty (ChunkData P i) = false) ChunkTypes)).
  set (Off0 := DeviceObjectArchive.sizeof_ArchiveHeader
               + DeviceObjectArchive.sizeof_ChunkHeader * Z.of_nat k).
  pose proof (AddChunkHeader_fold_types P ChunkTypes [] Off0) as HT.
  destruct (foldl (AddChunkHeader P) ([], Off0) ChunkTypes) as [Headers Offset1] eqn:EH.
  cbn [fst fmap list_fmap app] in HT.
  assert (Hk : length Headers = k).
  { unfold k. rewrite <- HT. by rewrite length_fmap. }
  set (P1 := foldl (UpdateChunkOffsets Offset1) P Headers).
  destruct (UpdateChunkOffsets_fold_frame Offset1 Headers P) as [HP _]. fold P1 in HP.
  pose proof (UpdateChunkOffsets_fold_size Offset1 Headers P) as HS. fold P1 in HS.
  destruct (foldl (AddBlockBaseOffset (Pending P1)) _ DeviceTypes) as [BBO Offset3] eqn:EB.
  cbn [FileHeader ChunkHeaders ChunkData Pending OffsetInFile].
  set (FH := FileHeader_bytes _). set (CH := concat (ChunkHdr_bytes <$> Headers)).
  set (CB := concat ((fun i => if Chunk_IsEmpty (ChunkData P1 i) then []
                               else Chunk_bytes (ChunkData P1 i)) <$> ChunkTypes)).
  set (DB := concat ((fun d => if IsEmpty (Pending_PerDeviceData (Pending P1) d) then []
                               else Data (Pending_PerDeviceData (Pending P1) d))
                       <$> DeviceTypes)).
  intros HA.
  assert (ECB : CB = concat ((fun i => if Chunk_IsEmpty (ChunkData P i) then []
                                       else Chunk_bytes (ChunkData P1 i)) <$> ChunkTypes)).
  { unfold CB. f_equal. apply list_fmap_ext. intros _ i _.
    unfold Chunk_IsEmpty. by rewrite (proj1 (HS i)). }
  destruct (AddChunkHeader_fold_read P (fun i => Chunk_bytes (ChunkData P1 i))
              (FH ++ CH ++ CB ++ Data (Pending_SharedData (Pending P1)) ++ DB))
    with (l := ChunkTypes) (hs := @nil ChunkHdr) (off := Off0) (pre := FH ++ CH)
         (post := Data (Pending_SharedData (Pending P1)) ++ DB)
    as (hs' & H1 & H2 & H3 & H4).
  { intros i. apply HS. }
  { exact HA. }
  { rewrite <- ECB, <- !app_assoc. done. }
  { unfold Off0, FH, CH. rewrite length_app, length_FileHeader_bytes, length_ChunkHdr_bytes.
    unfold DeviceObjectArchive.sizeof_ArchiveHeader, DeviceObjectArchive.sizeof_ChunkHeader.
    lia. }
  cbn zeta in *. rewrite EH in H1, H3. cbn [fst snd app] in H1, H3. subst hs'.
  rewrite <- ECB in H3.
  pose proof (AddBlockBaseOffset_fold_read (Pending P1)
                (FH ++ CH ++ CB ++ Data (Pending_SharedData (Pending P1)) ++ DB) HA
                DeviceTypes (fun _ => 0)
                (Offset1 + GetCurrentSize (Pending_SharedData (Pending P1)))
                (FH ++ CH ++ CB ++ Data (Pending_SharedData (Pending P1))) []
                ArchiverFacts.NoDup_DeviceTypes) as HD.
  cbn zeta in HD. rewrite EB in HD. cbn [fst] in HD.
  assert (HD' : forall d,
            0 <= BBO d < 2 ^ 32
            /\ (IsEmpty (Pending_PerDeviceData (Pending P1) d) = false ->
                DeviceObjectArchive.bytes_at
                  (FH ++ CH ++ CB ++ Data (Pending_SharedData (Pending P1)) ++ DB) (BBO d)
                  (GetCurrentSize (Pending_PerDeviceData (Pending P1) d))
                = Some (Data (Pending_PerDeviceData (Pending P1) d)))).
  { intros d. apply HD.
    - rewrite app_nil_r, <- !app_assoc. done.
    - rewrite H3. unfold Off0, FH, CH, GetCurrentSize.
      rewrite !length_app, length_FileHeader_bytes, length_ChunkHdr_bytes.
      unfold DeviceObjectArchive.sizeof_ArchiveHeader, DeviceObjectArchive.sizeof_ChunkHeader.
      lia.
    - apply ArchiverFacts.elem_of_DeviceTypes. }
  exists Offset1, BBO, (CB ++ Data (Pending_SharedData (Pending P1)) ++ DB),
    (FH ++ CH ++ CB), DB.
  split; [by rewrite Hk|]. split; [done|]. split; [done|]. split; [exact H4|].
  split; [done|]. split; [by rewrite HP, <- !app_assoc|]. split.
  { rewrite H3. unfold Off0, FH, CH.
    rewrite !length_app, length_FileHeader_bytes, length_ChunkHdr_bytes.
    unfold DeviceObjectArchive.sizeof_ArchiveHeader, DeviceObjectArchive.sizeof_ChunkHeader.
    lia. }
  split; [done|]. split; [intros d; apply (proj1 (HD' d))|].
  intros d. rewrite <- HP. apply (proj2 (HD' d)).
Qed.

End Stream.

Lemma stream_length_is_OffsetInFile_witness :
  Z.of_nat (length (PendingBytes
                      (UpdateOffsetsInArchive (Fmt := DeviceObjectArchive.Format_v1)
                         (WriteAll (Build := Build_example) WriterSigP))))
  = OffsetInFile (UpdateOffsetsInArchive (Fmt := DeviceObjectArchive.Format_v1)
                    (WriteAll (Build := Build_example) WriterSigP))
  /\ (WritePendingDataToStream_check
        (UpdateOffsetsInArchive (Fmt := DeviceObjectArchive.Format_v1)
           (WriteAll (Build := Build_example) WriterSigP)) [1; 2; 3]
      <-> [1; 2; 3] = []).
Proof.
  apply (stream_length_is_OffsetInFile (Fmt := DeviceObjectArchive.Format_v1)
           (WriteAll (Build := Build_example) WriterSigP) [1; 2; 3]).
  intros i. destruct i; vm_compute; reflexivity.
Defined.

End StreamFacts.

Module RoundTripFacts.
Import Serializer Archiver ArchiveStream RoundTrip.

Lemma bytes_at_Some Data Off Len x :
  DeviceObjectArchive.bytes_at Data Off Len = Some x ->
  0 <= Off /\ 0 <= Len /\ Off + Len <= Z.of_nat (length Data) /\ Z.of_nat (length x) = Len.
Proof.
  unfold DeviceObjectArchive.bytes_at. destruct (decide _) as [(H0 & H1 & H2)|]; [|done].
  intros [= <-]. rewrite length_take, length_drop. lia.
Qed.

Lemma length_concat_lookup {A} (ls : list (list A)) j l :
  ls !! j = Some l -> (length l <= length (concat ls))%nat.
Proof.
  intros H. rewrite <- (take_drop_middle ls j l H), concat_app, concat_cons, !length_app. lia.
Qed.

Lemma length_concat_names {Obj} (l : list (string * Obj)) :
  (length l <= length (concat ((fun kv : string * Obj => Name_bytes kv.1 ++ [0%Z]) <$> l)))%nat.
Proof.
  induction l as [|x l IH]; [done|]. cbn [fmap list_fmap concat length].
  rewrite !length_app. cbn [length].
  change (list_fmap _ _ ?f l) with (f <$> l). lia.
Qed.

Lemma cstr_Name_bytes n post : cstr (Name_bytes n ++ 0 :: post) = Name_bytes n.
Proof. unfold Name_bytes. apply ReadBackFacts.cstr_cstr. Qed.

Lemma NoDup_names {Obj} (Map : gmap string Obj) :
  distinct_names Map ->
  NoDup (cstr <$> ((fun kv : string * Obj => Name_bytes kv.1 ++ [0]) <$> map_to_list Map)).
Proof.
  intros Hd. rewrite <- list_fmap_compose.
  apply NoDup_fmap_2_strong; [|apply NoDup_map_to_list].
  intros [n1 O1] [n2 O2] H1 H2. cbn [compose fst].
  rewrite !cstr_Name_bytes. intros Heq.
  apply elem_of_map_to_list in H1, H2.
  assert (n1 = n2) as -> by (apply Hd; [by eexists..|done]).
  congruence.
Qed.

Lemma field32_of_u32_at bs Off v :
  DeviceObjectArchive.u32_at bs Off = Some v -> DeviceObjectArchive.field32 bs Off = v.
Proof.
  unfold DeviceObjectArchive.u32_at, DeviceObjectArchive.bytes_at, DeviceObjectArchive.field32.
  destruct (decide _); [|done]. cbn. by intros [= <-].
Qed.

Lemma field32_array a (j : nat) v post :
  a !! j = Some v -> 0 <= v < 2 ^ 32 ->
  DeviceObjectArchive.field32 (u32_array_bytes a ++ post) (4 * Z.of_nat j) = v.
Proof. intros H Hv. apply field32_of_u32_at. by apply ReadBackFacts.u32_at_array. Qed.

(** The file header, read back. *)
Lemma ReadHeader_written (h : DeviceObjectArchive.ArchiveHeader) rest :
  0 <= DeviceObjectArchive.MagicNumber h < 2 ^ 32 ->
  0 <= DeviceObjectArchive.Version h < 2 ^ 32 ->
  0 <= DeviceObjectArchive.NumChunks h < 2 ^ 32 ->
  (forall d, 0 <= DeviceObjectArchive.BlockBaseOffsets h d < 2 ^ 32) ->
  exists h',
    DeviceObjectArchive.ReadHeader (FileHeader_bytes h ++ rest) = Some h'
    /\ DeviceObjectArchive.MagicNumber h' = DeviceObjectArchive.MagicNumber h
    /\ DeviceObjectArchive.Version h' = DeviceObjectArchive.Version h
    /\ DeviceObjectArchive.NumChunks h' = DeviceObjectArchive.NumChunks h
    /\ forall d, DeviceObjectArchive.BlockBaseOffsets h' d
                 = DeviceObjectArchive.BlockBaseOffsets h d.
Proof.
  intros Hm Hv Hn Hb. unfold DeviceObjectArchive.ReadHeader.
  rewrite ReadBackFacts.Archive_Read_bytes_at.
  pose proof (ReadBackFacts.bytes_at_app [] (FileHeader_bytes h) rest) as HR.
  cbn [app length] in HR. rewrite StreamFacts.length_FileHeader_bytes in HR.
  change (Z.of_nat 0) with 0 in HR. change (Z.of_nat 36) with 36 in HR.
  unfold DeviceObjectArchive.sizeof_ArchiveHeader. rewrite HR.
  eexists. split; [reflexivity|].
  set (a := [DeviceObjectArchive.MagicNumber h; DeviceObjectArchive.Version h;
             DeviceObjectArchive.NumChunks h;
             DeviceObjectArchive.BlockBaseOffsets h OpenGL;
             DeviceObjectArchive.BlockBaseOffsets h Direct3D11;
             DeviceObjectArchive.BlockBaseOffsets h Direct3D12;
             DeviceObjectArchive.BlockBaseOffsets h Vulkan;
             DeviceObjectArchive.BlockBaseOffsets h Metal_iOS;
             DeviceObjectArchive.BlockBaseOffsets h Metal_MacOS]).
  assert (E : FileHeader_bytes h = u32_array_bytes a ++ []) by done.
  rewrite E. cbn [DeviceObjectArchive.ArchiveHeader_of_bytes DeviceObjectArchive.MagicNumber
                   DeviceObjectArchive.Version DeviceObjectArchive.NumChunks
                   DeviceObjectArchive.BlockBaseOffsets].
  split; [by apply (field32_array a 0)|]. split; [by apply (field32_array a 1)|].
  split; [by apply (field32_array a 2)|].
  intros d. destruct d; cbn [DeviceObjectArchive.DeviceType_index].
  - by apply (field32_array a 3).
  - by apply (field32_array a 4).
  - by apply (field32_array a 5).
  - by apply (field32_array a 6).
  - by apply (field32_array a 7).
  - by apply (field32_array a 8).
Qed.

(** The chunk headers, read back. *)
Lemma ChunkHeaders_written (hs : list ChunkHdr) :
  Forall (fun h => 0 <= Hdr_Offset h < 2 ^ 32 /\ 0 <= Hdr_Size h < 2 ^ 32) hs ->
  forall rest,
    DeviceObjectArchive.ChunkHeaders_of_bytes (length hs)
      (concat (ChunkHdr_bytes <$> hs) ++ rest)
    = (fun h => DeviceObjectArchive.MkChunkHeader
                  (DeviceObjectArchive.ChunkType_to_Z (Hdr_Type h)) (Hdr_Size h) (Hdr_Offset h))
        <$> hs.
Proof.
  induction 1 as [|h hs [Ho Hs] _ IH]; intros rest; [done|].
  cbn [length fmap list_fmap concat DeviceObjectArchive.ChunkHeaders_of_bytes].
  rewrite <- app_assoc. f_equal.
  - set (a := [DeviceObjectArchive.ChunkType_to_Z (Hdr_Type h); Hdr_Size h; Hdr_Offset h]).
    assert (E : ChunkHdr_bytes h = u32_array_bytes a) by (unfold ChunkHdr_bytes; cbn; done).
    rewrite E. unfold DeviceObjectArchive.ChunkHeader_of_bytes. f_equal.
    + apply (field32_array a 0); [done|]. destruct (Hdr_Type h); cbn; lia.
    + by apply (field32_array a 1).
    + by apply (field32_array a 2).
  - rewrite drop_app_length' by (unfold ChunkHdr_bytes; by rewrite !length_app, !length_le_bytes).
    apply IH.
Qed.

Lemma bytes_at_inv Data Off Len x :
  DeviceObjectArchive.bytes_at Data Off Len = Some x ->
  exists pre post, Data = pre ++ x ++ post /\ Z.of_nat (length pre) = Off.
Proof.
  unfold DeviceObjectArchive.bytes_at. destruct (decide _) as [(H0 & H1 & H2)|]; [|done].
  intros [= <-]. exists (take (Z.to_nat Off) Data), (drop (Z.to_nat Len) (drop (Z.to_nat Off) Data)).
  split; [by rewrite !take_drop|]. rewrite length_take. lia.
Qed.

Lemma bytes_at_sub A Base Len X Off Size y :
  DeviceObjectArchive.bytes_at A Base Len = Some X ->
  DeviceObjectArchive.bytes_at X Off Size = Some y ->
  DeviceObjectArchive.bytes_at A (Base + Off) Size = Some y.
Proof.
  intros (pre & post & -> & <-)%bytes_at_inv HX.
  apply ReadBackFacts.bytes_at_app_r. by apply ReadBackFacts.bytes_at_app_l.
Qed.

Lemma bytes_at_prefix Data Off a b x y :
  DeviceObjectArchive.bytes_at Data Off (a + b) = Some (x ++ y) ->
  Z.of_nat (length x) = a ->
  DeviceObjectArchive.bytes_at Data Off a = Some x.
Proof.
  intros H Hx. destruct (bytes_at_inv _ _ _ _ H) as (pre & post & -> & <-).
  rewrite <- Hx, <- app_assoc. apply ReadBackFacts.bytes_at_app.
Qed.

Lemma bytes_at_concat (List : list (list Z)) (i : nat) Sh pre :
  List !! i = Some Sh ->
  DeviceObjectArchive.bytes_at (pre ++ concat List)
    (Z.of_nat (length pre) + Z.of_nat (length (concat (take i List))))
    (Z.of_nat (length Sh))
  = Some Sh.
Proof.
  intros Hi. rewrite <- (take_drop_middle List i Sh Hi) at 1.
  rewrite concat_app, concat_cons, app_assoc.
  rewrite <- Nat2Z.inj_add, <- length_app. apply ReadBackFacts.bytes_at_app.
Qed.

Lemma length_ShaderEntries_of_bytes n : forall bs,
  length (DeviceObjectArchive.ShaderEntries_of_bytes n bs) = n.
Proof. induction n as [|n IH]; intros bs; cbn; [done|by rewrite IH]. Qed.

(** The table of the writer, as the reader sees it. *)
Lemma ShaderEntries_of_ShaderTable (List : list (list Z)) : forall Offset post (i : nat) Sh,
  List !! i = Some Sh ->
  0 <= Offset ->
  Offset + Z.of_nat (length (concat List)) < 2 ^ 32 ->
  DeviceObjectArchive.ShaderEntries_of_bytes (length List) (ShaderTable Offset List ++ post) !! i
  = Some (DeviceObjectArchive.MkShaderEntry
            (Offset + Z.of_nat (length (concat (take i List))))
            (Z.of_nat (length Sh)) None).
Proof.
  induction List as [|Sh0 List IH]; intros Offset post i Sh Hi H0 Hlt; [done|].
  cbn [concat] in Hlt. rewrite length_app in Hlt.
  cbn [ShaderTable length DeviceObjectArchive.ShaderEntries_of_bytes].
  rewrite <- !app_assoc.
  destruct i as [|i]; cbn [lookup list_lookup] in Hi |- *.
  - injection Hi as ->. cbn [take concat length]. f_equal. f_equal.
    + rewrite ReadBackFacts.field32_here; unfold StaticCast_Uint32.
      * rewrite wrap32_small by lia. change (Z.of_nat 0) with 0. lia.
      * apply wrap32_range.
    + pose proof (ReadBackFacts.field32_skip (le_bytes 4 (StaticCast_Uint32 Offset))
                    (le_bytes 4 (StaticCast_Uint32 (Z.of_nat (length Sh)))
                     ++ ShaderTable (Offset + Z.of_nat (length Sh)) List ++ post) 0) as HX.
      rewrite length_le_bytes in HX. change (Z.of_nat 4 + 0) with 4 in HX.
      rewrite HX by lia. rewrite ReadBackFacts.field32_here; unfold StaticCast_Uint32.
      * apply wrap32_small. lia.
      * apply wrap32_range.
  - assert (ED : drop 8 (le_bytes 4 (StaticCast_Uint32 Offset)
                         ++ le_bytes 4 (StaticCast_Uint32 (Z.of_nat (length Sh0)))
                         ++ ShaderTable (Offset + Z.of_nat (length Sh0)) List ++ post)
                 = ShaderTable (Offset + Z.of_nat (length Sh0)) List ++ post).
    { rewrite app_assoc. apply drop_app_length'. by rewrite length_app, !length_le_bytes. }
    rewrite ED, (IH _ _ _ _ Hi) by lia.
    cbn [take concat]. rewrite length_app. f_equal. f_equal. lia.
Qed.

(** A data header of the writer, as the reader sees it. *)
Lemma DataHeader_of_bytes_written (h : DataHeader) :
  (0 <= Header_Type h < 2 ^ 32 ->
   DeviceObjectArchive.Header_Type (DeviceObjectArchive.DataHeader_of_bytes (DataHeader_bytes h))
   = Header_Type h)
  /\ forall d,
       (0 <= DeviceSpecificDataSize h d < 2 ^ 32 ->
        DeviceObjectArchive.DeviceSpecificDataSize
          (DeviceObjectArchive.DataHeader_of_bytes (DataHeader_bytes h)) d
        = DeviceSpecificDataSize h d)
       /\ (0 <= DeviceSpecificDataOffset h d < 2 ^ 32 ->
           DeviceObjectArchive.DeviceSpecificDataOffset
             (DeviceObjectArchive.DataHeader_of_bytes (DataHeader_bytes h)) d
           = DeviceSpecificDataOffset h d).
Proof.
  set (a := [Header_Type h;
             DeviceSpecificDataSize h OpenGL; DeviceSpecificDataSize h Direct3D11;
             DeviceSpecificDataSize h Direct3D12; DeviceSpecificDataSize h Vulkan;
             DeviceSpecificDataSize h Metal_iOS; DeviceSpecificDataSize h Metal_MacOS;
             DeviceSpecificDataOffset h OpenGL; DeviceSpecificDataOffset h Direct3D11;
             DeviceSpecificDataOffset h Direct3D12; DeviceSpecificDataOffset h Vulkan;
             DeviceSpecificDataOffset h Metal_iOS; DeviceSpecificDataOffset h Metal_MacOS]).
  assert (E : DataHeader_bytes h = u32_array_bytes a ++ []) by done.
  rewrite E.
  cbn [DeviceObjectArchive.DataHeader_of_bytes DeviceObjectArchive.Header_Type
       DeviceObjectArchive.DeviceSpecificDataSize DeviceObjectArchive.DeviceSpecificDataOffset].
  split; [intros Ht; by apply (field32_array a 0)|].
  intros d. destruct d; cbn [DeviceObjectArchive.DeviceType_index]; split; intros Hr.
  - by apply (field32_array a 1).
  - by apply (field32_array a 7).
  - by apply (field32_array a 2).
  - by apply (field32_array a 8).
  - by apply (field32_array a 3).
  - by apply (field32_array a 9).
  - by apply (field32_array a 4).
  - by apply (field32_array a 10).
  - by apply (field32_array a 5).
  - by apply (field32_array a 11).
  - by apply (field32_array a 6).
  - by apply (field32_array a 12).
Qed.

Section RoundTrip.
Context `{Fmt : DeviceObjectArchive.ArchiveFormat} `{Build : BuildInfo}.

(** The chunk of a map, with the offsets that [UpdateOffsetsInArchive]
    leaves, read by [ReadNamedResources] from a file of less than 4 GiB in
    which the shared block starts at [Off1]. *)
Lemma ReadNamedResources_written {Obj} (Type_ : ChunkType)
  (GetSharedData : Obj -> SerializedMemory) (Src : Obj -> DeviceType -> SerializedMemory)
  (Map : gmap string Obj) (P : PendingStream) (A pre post : list Z) (Off1 : Z)
  (Chunk : DeviceObjectArchive.ChunkHeader) R C NL DS DO Names :
  Map <> ∅ -> distinct_names Map ->
  chunk_written Type_ GetSharedData Src Map P ->
  Z.of_nat (length A) < 2 ^ 32 ->
  A = pre ++ Data (Pending_SharedData (Pending P)) ++ post ->
  Off1 = Z.of_nat (length pre) ->
  ChunkData P Type_ = MkChunk R (NamedContent C NL DS DO Names) ->
  DeviceObjectArchive.bytes_at A (DeviceObjectArchive.Chunk_Offset Chunk)
    (DeviceObjectArchive.Chunk_Size Chunk)
  = Some (ChunkContent_bytes (NamedContent C NL DS (UpdateDataOffset Off1 <$> DO) Names)) ->
  exists Res,
    DeviceObjectArchive.ReadNamedResources A Chunk ∅ = DeviceObjectArchive.Ok Res
    /\ directory_of Type_ GetSharedData Src Map (Pending P) A Res.
Proof.
  intros HM Hdist HW HA EA EOff HCh Hbytes.
  unfold chunk_written in HW. rewrite decide_False in HW by done.
  destruct HW as (R' & C' & NL' & DS' & DO' & _ & HCh' & HL & _ & Hb).
  rewrite HCh in HCh'. injection HCh' as <- <- <- <- <- ->.
  set (items := map_to_list Map) in *.
  set (Names := (fun kv : string * Obj => Name_bytes kv.1 ++ [0]) <$> items) in *.
  destruct (bytes_at_Some _ _ _ _ Hbytes) as (Hoff0 & Hsz0 & Hin & Hlen).
  cbn [ChunkContent_bytes] in Hlen. rewrite !length_app in Hlen.
  pose proof (length_concat_names items) as HnN. fold Names in HnN.
  destruct Hb as (HC & HNL & HDS & HF); [lia|].
  pose proof (Forall2_length _ _ _ HF) as HLDO.
  set (n := length items) in *.
  set (DO' := UpdateDataOffset Off1 <$> DO).
  (* every object lies in the shared block, which lies in the file *)
  assert (Hobj : forall (j : nat) do kv,
             DO !! j = Some do -> items !! j = Some kv ->
             exists Header,
               0 <= do /\ do + Off1 + sizeof_DataHeader + Mem_Size (GetSharedData kv.2)
                          <= Z.of_nat (length A)
               /\ DO' !! j = Some (do + Off1)
               /\ DeviceObjectArchive.bytes_at A (do + Off1)
                    (sizeof_DataHeader + Mem_Size (GetSharedData kv.2))
                  = Some (DataHeader_bytes Header ++ Mem_Ptr (GetSharedData kv.2))
               /\ Header_Type Header = DeviceObjectArchive.ChunkType_to_Z Type_
               /\ forall d, device_data_written (Src kv.2 d) Header d
                              (Data (Pending_PerDeviceData (Pending P) d))).
  { intros j do kv Hdo Hkv.
    destruct (Forall2_lookup_lr _ _ _ _ _ _ HF Hdo Hkv) as (Offset & Header & E1 & E2 & E3 & E4).
    destruct (bytes_at_Some _ _ _ _ E3) as (B0 & B1 & B2 & B3).
    assert (HLA : Z.of_nat (length A)
                  = Off1 + Z.of_nat (length (Data (Pending_SharedData (Pending P))))
                    + Z.of_nat (length post)).
    { rewrite EA, !length_app. lia. }
    assert (Mem_Size (GetSharedData kv.2) >= 0) by (unfold Mem_Size; lia).
    assert (Hdo' : StaticCast_Uint32 Offset = Offset).
    { unfold StaticCast_Uint32. apply wrap32_small. unfold sizeof_DataHeader in *. lia. }
    rewrite Hdo' in E1. subst do. exists Header. split; [lia|]. split; [lia|]. split.
    { unfold DO'. rewrite list_lookup_fmap, Hdo. cbn [fmap option_fmap option_map].
      f_equal. unfold UpdateDataOffset. unfold sizeof_DataHeader in *.
      rewrite decide_False by (unfold InvalidOffset; lia).
      unfold StaticCast_Uint32. apply wrap32_small. lia. }
    split; [|done].
    rewrite EA, EOff, (Z.add_comm Offset).
    apply ReadBackFacts.bytes_at_app_r. by apply ReadBackFacts.bytes_at_app_l. }
  destruct (ReadBackFacts.ReadNames_written
              (ChunkContent_bytes (NamedContent C NL DS DO' Names))
              (Z.of_nat (length A)) NL DS DO' Names n) with (todo := n) (i := 0%nat)
              (m := (∅ : gmap (list Z) DeviceObjectArchive.NameOffsetAndCache))
    as (Res & HRes & Hlook & Hother).
  { cbn [ChunkContent_bytes]. by rewrite HC. }
  { by rewrite HNL, length_fmap. }
  { by rewrite HDS, length_fmap. }
  { unfold DO'. by rewrite length_fmap. }
  { unfold Names. by rewrite length_fmap. }
  { by apply NoDup_names. }
  { intros j nl ds do nm Enl Eds Edo Enm.
    rewrite HNL, list_lookup_fmap in Enl. rewrite HDS, list_lookup_fmap in Eds.
    unfold Names in Enm. rewrite list_lookup_fmap in Enm.
    destruct (items !! j) as [kv|] eqn:Ekv; [|done].
    cbn in Enl, Eds, Enm. injection Enl as <-. injection Eds as <-. injection Enm as <-.
    unfold DO' in Edo. rewrite list_lookup_fmap in Edo.
    destruct (DO !! j) as [do0|] eqn:Edo0; [|done]. cbn in Edo. injection Edo as <-.
    destruct (Hobj j do0 kv Edo0 Ekv) as (Header & G0 & G1 & G2 & _).
    unfold DO' in G2. rewrite list_lookup_fmap, Edo0 in G2. cbn in G2. injection G2 as G2.
    assert (Hnm : (length (Name_bytes kv.1 ++ [0%Z]) <= length (concat Names))%nat).
    { apply (length_concat_lookup Names j). unfold Names. by rewrite list_lookup_fmap, Ekv. }
    rewrite length_app in *. cbn [length] in *. unfold sizeof_DataHeader in *.
    assert (Mem_Size (GetSharedData kv.2) >= 0) by (unfold Mem_Size; lia).
    rewrite G2.
    rewrite (wrap32_small (Z.of_nat (length (Name_bytes kv.1)) + 1)) by lia.
    rewrite (wrap32_small (Mem_Size (GetSharedData kv.2))) by lia.
    rewrite (wrap32_small (Mem_Size (GetSharedData kv.2) + 52)) by lia.
    rewrite (wrap32_small (do0 + Off1 + _)) by lia.
    split; [lia|]. split; [apply elem_of_app; right; apply list_elem_of_here|].
    split; [lia|]. split; [lia|]. split; [lia|]. lia. }
  { lia. }
  { intros nm _. apply lookup_empty. }
  exists Res. split.
  - unfold DeviceObjectArchive.ReadNamedResources.
    rewrite ReadBackFacts.Archive_Read_bytes_at, Hbytes.
    cbn [ChunkContent_bytes]. rewrite HC.
    rewrite ReadBackFacts.u32_at_here by lia.
    cbn zeta. rewrite Nat2Z.id.
    cbn [ChunkContent_bytes] in HRes. rewrite HC in HRes.
    cbn [take concat length] in HRes. change (Z.of_nat 0) with 0 in HRes.
    unfold DeviceObjectArchive.Archive_GetSize.
    replace (4 + 12 * Z.of_nat n) with (4 + 12 * Z.of_nat n + 0) by lia.
    exact HRes.
  - split.
    + intros nm O HnO. apply elem_of_map_to_list in HnO. fold items in HnO.
      apply list_elem_of_lookup in HnO as [j Hj].
      destruct (lookup_lt_is_Some_2 DO j) as [do Edo].
      { rewrite HLDO. by apply lookup_lt_Some in Hj. }
      destruct (Hobj j do (nm, O) Edo Hj) as (Header & G0 & G1 & G2 & G3 & G4 & G5).
      cbn [fst snd] in *.
      assert (Eds : DS !! j = Some (wrap32 (wrap32 (Mem_Size (GetSharedData O))
                                            + sizeof_DataHeader)))
        by (by rewrite HDS, list_lookup_fmap, Hj).
      assert (Enm : Names !! j = Some (Name_bytes nm ++ [0]))
        by (unfold Names; by rewrite list_lookup_fmap, Hj).
      pose proof (Hlook j _ _ _ (Nat.le_0_l j) Eds G2 Enm) as HR.
      rewrite cstr_Name_bytes in HR.
      eexists _, Header. split; [exact HR|]. split; [|done].
      cbn [DeviceObjectArchive.Entry_Offset DeviceObjectArchive.Entry_Size].
      rewrite ReadBackFacts.Archive_Read_bytes_at.
      unfold sizeof_DataHeader in *.
      assert (Mem_Size (GetSharedData O) >= 0) by (unfold Mem_Size; lia).
      rewrite (wrap32_small (Mem_Size (GetSharedData O))) by lia.
      rewrite (wrap32_small (Mem_Size (GetSharedData O) + 52)) by lia.
      rewrite <- G3. f_equal. lia.
    + intros Name [e He].
      destruct (decide (Name ∈ cstr <$> Names)) as [Hin'|Hout].
      * apply list_elem_of_fmap in Hin' as (nm & -> & Hnm).
        unfold Names in Hnm. apply list_elem_of_fmap in Hnm as ([n0 O0] & -> & Hkv).
        cbn [fst]. rewrite cstr_Name_bytes. exists n0. split; [|done].
        exists O0. by apply elem_of_map_to_list.
      * rewrite Hother, lookup_empty in He; [done|].
        intros nm Hnm ->. apply Hout. rewrite drop_0 in Hnm. by apply list_elem_of_fmap_2.
Qed.

End RoundTrip.

Lemma ChunkType_of_to_Z T :
  DeviceObjectArchive.ChunkType_of_Z (DeviceObjectArchive.ChunkType_to_Z T) = Some T.
Proof. by destruct T. Qed.

Lemma ChunkType_to_Z_inj T T' :
  DeviceObjectArchive.ChunkType_to_Z T = DeviceObjectArchive.ChunkType_to_Z T' -> T = T'.
Proof. by destruct T, T'. Qed.

Lemma ChunkType_to_Z_range T : 0 <= DeviceObjectArchive.ChunkType_to_Z T < 9.
Proof. destruct T; cbn; lia. Qed.

Lemma ChunkType_of_inj k k' : ChunkType_of k = ChunkType_of k' -> k = k'.
Proof. by destruct k, k'. Qed.

Section Archive.
Context `{Fmt : DeviceObjectArchive.ArchiveFormat} `{Build : BuildInfo}.
Variable w : ArchiverImpl.
Hypothesis HA : Z.of_nat (length (Archive_bytes w)) < 2 ^ 32.
Hypothesis Hnames : names_are_distinct w.
Hypothesis Hdbg :
  wfb DebugInfo_schema (DILIGENT_API_VERSION, DILIGENT_CORE_COMMIT_HASH) = true.

Lemma header_chunk_not_empty h :
  h ∈ ChunkHeaders (UpdateOffsetsInArchive (WriteAll w)) ->
  Chunk_IsEmpty (ChunkData (WriteAll w) (Hdr_Type h)) = false.
Proof.
  intros Hh.
  destruct (StreamFacts.UpdateOffsets_layout (WriteAll w) HA)
    as (Off1 & BBO & rest & preS & postS & _ & _ & HTy & _).
  assert (Hin : Hdr_Type h ∈ Hdr_Type <$> ChunkHeaders (UpdateOffsetsInArchive (WriteAll w)))
    by (by apply list_elem_of_fmap_2).
  rewrite HTy in Hin. by apply list_elem_of_filter in Hin as [? _].
Qed.

Lemma NoDup_header_types :
  NoDup (Hdr_Type <$> ChunkHeaders (UpdateOffsetsInArchive (WriteAll w))).
Proof.
  destruct (StreamFacts.UpdateOffsets_layout (WriteAll w) HA)
    as (Off1 & BBO & rest & preS & postS & _ & _ & HTy & _).
  rewrite HTy. apply NoDup_filter, StreamFacts.NoDup_ChunkTypes.
Qed.

(** The chunk of a map of the writer, read from the archive. *)
Lemma read_directory_generic {Obj} (Type_ : ChunkType) (GetSharedData : Obj -> SerializedMemory)
  (Src : Obj -> DeviceType -> SerializedMemory) (Map : gmap string Obj) (h : ChunkHdr) :
  chunk_written Type_ GetSharedData Src Map (WriteAll w) ->
  distinct_names Map ->
  h ∈ ChunkHeaders (UpdateOffsetsInArchive (WriteAll w)) ->
  Hdr_Type h = Type_ ->
  exists Res,
    DeviceObjectArchive.ReadNamedResources (Archive_bytes w) (ChunkHeader_of h) ∅
    = DeviceObjectArchive.Ok Res
    /\ directory_of Type_ GetSharedData Src Map (Pending (WriteAll w)) (Archive_bytes w) Res.
Proof.
  intros HW Hd Hh HT.
  pose proof (header_chunk_not_empty h Hh) as Hne. rewrite HT in Hne.
  pose proof NoDup_header_types as Hnd.
  destruct (StreamFacts.UpdateOffsets_layout (WriteAll w) HA)
    as (Off1 & BBO & rest & preS & postS & _ & _ & HTy & Hgood & _ & ES & EOff & HQ & _).
  assert (HM : Map <> ∅).
  { intros ->. unfold chunk_written in HW. rewrite decide_True in HW by done.
    by rewrite HW in Hne. }
  pose proof HW as HW'. unfold chunk_written in HW'. rewrite decide_False in HW' by done.
  destruct HW' as (R & C & NL & DS & DO & _ & HCh & HL & HCnt & _).
  assert (HQT : ChunkData (UpdateOffsetsInArchive (WriteAll w)) Type_
                = MkChunk R (NamedContent C NL DS (UpdateDataOffset Off1 <$> DO)
                               ((fun kv : string * Obj => Name_bytes kv.1 ++ [0])
                                  <$> map_to_list Map))).
  { rewrite HQ. apply StreamFacts.UpdateChunkOffsets_fold_named; [done| |done|by rewrite HCnt].
    rewrite <- HT. by apply list_elem_of_fmap_2. }
  rewrite Forall_forall in Hgood. destruct (Hgood h Hh) as (_ & _ & Hbytes).
  rewrite HT, HQT in Hbytes. unfold Chunk_bytes in Hbytes. cbn [Chunk_Content] in Hbytes.
  by eapply (ReadNamedResources_written Type_ GetSharedData Src Map (WriteAll w)
               (Archive_bytes w) preS postS Off1 (ChunkHeader_of h)).
Qed.

Lemma read_directory (k : DeviceObjectArchive.ResMap) (h : ChunkHdr) :
  h ∈ ChunkHeaders (UpdateOffsetsInArchive (WriteAll w)) ->
  Hdr_Type h = ChunkType_of k ->
  exists Res,
    DeviceObjectArchive.ReadNamedResources (Archive_bytes w) (ChunkHeader_of h) ∅
    = DeviceObjectArchive.Ok Res
    /\ writer_directory w k Res.
Proof.
  intros Hh HT.
  destruct (StreamFacts.WriteAll_spec w) as (W1 & W2 & W3 & W4 & W5 & W6 & _).
  destruct Hnames as (N1 & N2 & N3 & N4 & N5 & N6).
  destruct k; cbn [ChunkType_of writer_directory] in *;
    by eapply read_directory_generic.
Qed.

(** The debug info chunk, read from the archive. *)
Lemma read_debug_info (h : ChunkHdr) (r : DeviceObjectArchive.DeviceObjectArchiveBase) :
  h ∈ ChunkHeaders (UpdateOffsetsInArchive (WriteAll w)) ->
  Hdr_Type h = DeviceObjectArchive.ArchiveDebugInfo ->
  DeviceObjectArchive.m_pArchive r = Archive_bytes w ->
  DeviceObjectArchive.ReadArchiveDebugInfo (ChunkHeader_of h) r
  = DeviceObjectArchive.Ok
      (DeviceObjectArchive.set_DebugInfo
         (DILIGENT_API_VERSION, default [] DILIGENT_CORE_COMMIT_HASH) r).
Proof.
  intros Hh HT Hr.
  pose proof (header_chunk_not_empty h Hh) as Hne. rewrite HT in Hne.
  destruct (StreamFacts.UpdateOffsets_layout (WriteAll w) HA)
    as (Off1 & BBO & rest & preS & postS & _ & _ & HTy & Hgood & _ & ES & EOff & HQ & _).
  destruct (StreamFacts.WriteAll_spec w) as (_ & _ & _ & _ & _ & _ & _ & HD & _).
  cbn zeta in HD.
  set (v := (DILIGENT_API_VERSION, DILIGENT_CORE_COMMIT_HASH) : sem DebugInfo_schema) in *.
  assert (HP : ChunkData (WriteAll w) DeviceObjectArchive.ArchiveDebugInfo
               = MkChunk (Z.of_nat (MeasureSize DebugInfo_schema v))
                   (DebugInfoContent (encode DebugInfo_schema v))).
  { rewrite HD in *. unfold WriteDebugInfo in *. fold v in Hne |- *.
    destruct (decide (MeasureSize DebugInfo_schema v = 0%nat)) as [E0|E0]; [done|].
    cbn [set_ChunkData ChunkData]. rewrite fn_lookup_insert.
    by rewrite SerializerFacts.Serialize_Write_Allocate. }
  rewrite Forall_forall in Hgood. destruct (Hgood h Hh) as (_ & _ & Hbytes).
  rewrite HT, HQ, StreamFacts.UpdateChunkOffsets_fold_plain in Hbytes
    by (intros; by rewrite HP).
  rewrite HP in Hbytes. unfold Chunk_bytes in Hbytes.
  cbn [Chunk_Content ChunkContent_bytes] in Hbytes.
  unfold DeviceObjectArchive.ReadArchiveDebugInfo.
  rewrite Hr, ReadBackFacts.Archive_Read_bytes_at.
  cbn [ChunkHeader_of DeviceObjectArchive.Chunk_Offset DeviceObjectArchive.Chunk_Size].
  unfold Archive_bytes. rewrite Hbytes.
  pose proof (SerializerFacts.Serialize_Read DebugInfo_schema v (0, None) Hdbg [] [] 0%nat
                eq_refl) as HR.
  rewrite app_nil_r in HR. cbn [app] in HR.
  change (TPair (TUInt 4) TString) with DebugInfo_schema. rewrite HR. done.
Qed.

(** The device-specific data that a header of the writer points to, loaded
    by the reader. *)
Lemma LoadDeviceSpecificData_written (r : DeviceObjectArchive.DeviceObjectArchiveBase)
  (Header : DataHeader) (Offset Size : Z) (x : list Z) :
  let d := DeviceObjectArchive.m_DevType r in
  DeviceObjectArchive.m_pArchive r = Archive_bytes w ->
  blocks_located w r ->
  DeviceSpecificDataSize Header d = StaticCast_Uint32 Size ->
  DeviceSpecificDataOffset Header d = StaticCast_Uint32 Offset ->
  0 < Size ->
  DeviceObjectArchive.bytes_at (Data (Pending_PerDeviceData (Pending (WriteAll w)) d))
    Offset Size = Some x ->
  DeviceObjectArchive.LoadDeviceSpecificData r
    (DeviceObjectArchive.DataHeader_of_bytes (DataHeader_bytes Header)) = Some x
  /\ 0 <= DeviceObjectArchive.m_BaseOffsets r d
  /\ DeviceObjectArchive.bytes_at (Archive_bytes w) (DeviceObjectArchive.m_BaseOffsets r d)
       (GetCurrentSize (Pending_PerDeviceData (Pending (WriteAll w)) d))
     = Some (Data (Pending_PerDeviceData (Pending (WriteAll w)) d)).
Proof.
  intros d Hr HB HSize HOff Hpos HBytes.
  destruct (bytes_at_Some _ _ _ _ HBytes) as (B0 & B1 & B2 & B3).
  assert (HNE : IsEmpty (Pending_PerDeviceData (Pending (WriteAll w)) d) = false).
  { pose proof (StreamFacts.Unused_WriteAll w (Some d)) as HU.
    unfold Unused, GetCurrentSize in HU. cbn [Block] in HU.
    unfold IsEmpty. apply Z.eqb_neq. lia. }
  specialize (HB d HNE).
  destruct (bytes_at_Some _ _ _ _ HB) as (C0 & C1 & C2 & C3).
  split; [|done].
  unfold GetCurrentSize in *.
  assert (HO : StaticCast_Uint32 Offset = Offset)
    by (unfold StaticCast_Uint32; apply wrap32_small; lia).
  assert (HS : StaticCast_Uint32 Size = Size)
    by (unfold StaticCast_Uint32; apply wrap32_small; lia).
  rewrite HO in HOff. rewrite HS in HSize.
  destruct (DataHeader_of_bytes_written Header) as [_ HSlots].
  destruct (HSlots d) as [ES EO].
  rewrite HSize in ES. rewrite HOff in EO.
  specialize (ES ltac:(lia)). specialize (EO ltac:(lia)).
  unfold DeviceObjectArchive.LoadDeviceSpecificData, DeviceObjectArchive.Header_GetSize,
    DeviceObjectArchive.Header_GetOffset, DeviceObjectArchive.Header_GetEndOffset.
  fold d. rewrite ES, EO, Hr.
  unfold DeviceObjectArchive.Archive_GetSize.
  rewrite decide_False by lia. rewrite decide_False by lia.
  rewrite (wrap32_small (Offset + _)) by lia.
  rewrite (wrap32_small (_ + (Offset + _))) by lia.
  rewrite decide_False by lia.
  rewrite (wrap32_small (_ + Offset)) by lia.
  rewrite ReadBackFacts.Archive_Read_bytes_at.
  by apply (bytes_at_sub _ _ _ _ _ _ _ HB).
Qed.

(** The shader chunk, read from the archive: the shader table of the reader
    points to the shaders of its device. *)
Lemma read_shaders (h : ChunkHdr) (r : DeviceObjectArchive.DeviceObjectArchiveBase) :
  h ∈ ChunkHeaders (UpdateOffsetsInArchive (WriteAll w)) ->
  Hdr_Type h = DeviceObjectArchive.Shaders ->
  DeviceObjectArchive.m_pArchive r = Archive_bytes w ->
  blocks_located w r ->
  DeviceObjectArchive.m_Shaders r = [] ->
  exists s,
    DeviceObjectArchive.ReadIndexedResources (ChunkHeader_of h) r
    = DeviceObjectArchive.Ok (DeviceObjectArchive.set_Shaders s r)
    /\ reads_back_shaders w (DeviceObjectArchive.set_Shaders s r).
Proof.
  intros Hh HT Hr Hloc Hnil.
  pose proof (header_chunk_not_empty h Hh) as Hne. rewrite HT in Hne.
  destruct (StreamFacts.UpdateOffsets_layout (WriteAll w) HA)
    as (Off1 & BBO & rest & preS & postS & _ & _ & HTy & Hgood & _ & ES & EOff & HQ & _).
  destruct (StreamFacts.WriteAll_spec w) as (_ & _ & _ & _ & _ & _ & _ & _ & _ & _ & HS).
  cbn zeta in HS.
  destruct HS as [[HS _]|(Header & HP & HSlots)]; [by rewrite HS in Hne|].
  rewrite Forall_forall in Hgood. destruct (Hgood h Hh) as (_ & _ & Hbytes).
  rewrite HT, HQ, StreamFacts.UpdateChunkOffsets_fold_plain in Hbytes
    by (intros; by rewrite HP).
  rewrite HP in Hbytes. unfold Chunk_bytes in Hbytes.
  cbn [Chunk_Content ChunkContent_bytes] in Hbytes.
  destruct (bytes_at_Some _ _ _ _ Hbytes) as (_ & _ & _ & HLen).
  rewrite StreamFacts.length_DataHeader_bytes in HLen.
  unfold DeviceObjectArchive.ReadIndexedResources.
  rewrite Hr, ReadBackFacts.Archive_Read_bytes_at.
  cbn [ChunkHeader_of DeviceObjectArchive.Chunk_Offset DeviceObjectArchive.Chunk_Size].
  change DeviceObjectArchive.sizeof_DataHeader with sizeof_DataHeader.
  unfold Archive_bytes. rewrite HLen, Hbytes.
  fold (Archive_bytes w).
  set (d := DeviceObjectArchive.m_DevType r).
  specialize (HSlots d).
  destruct (Shaders_List (m_Shaders w d)) as [|Sh0 List'] eqn:EL.
  - assert (HN : DeviceObjectArchive.LoadDeviceSpecificData r
                   (DeviceObjectArchive.DataHeader_of_bytes (DataHeader_bytes Header)) = None).
    { destruct (DataHeader_of_bytes_written Header) as [_ HRd].
      destruct (HRd d) as [ES' _]. rewrite HSlots in ES'. specialize (ES' ltac:(lia)).
      unfold DeviceObjectArchive.LoadDeviceSpecificData, DeviceObjectArchive.Header_GetSize.
      fold d. rewrite ES'. destruct (decide _); [done|]. by rewrite decide_True. }
    rewrite HN. exists []. split; [rewrite <- Hnil; by destruct r|].
    unfold reads_back_shaders.
    change (DeviceObjectArchive.m_DevType (DeviceObjectArchive.set_Shaders [] r)) with d.
    rewrite EL. split; [done|]. intros i Sh Hi. by rewrite lookup_nil in Hi.
  - remember (Sh0 :: List') as List eqn:EList.
    assert (Hn : (0 < length List)%nat) by (subst List; cbn; lia).
    destruct HSlots as (TableOffset & HSz & HOf & HW). unfold shaders_written in HW.
    cbn zeta in HW. unfold sizeof_FileOffsetAndSize in HSz, HW.
    destruct (bytes_at_Some _ _ _ _ HW) as (B0 & B1 & B2 & B3).
    pose proof (bytes_at_prefix _ _ _ _ _ _ HW) as HTbl.
    rewrite StreamFacts.length_ShaderTable in HTbl.
    specialize (HTbl ltac:(lia)).
    destruct (LoadDeviceSpecificData_written r Header TableOffset (8 * Z.of_nat (length List))
                _ Hr Hloc HSz HOf ltac:(lia) HTbl) as (HLoad & HB0 & HB).
    fold d in HB0, HB.
    destruct (bytes_at_Some _ _ _ _ HB) as (C0 & C1 & C2 & C3).
    unfold GetCurrentSize in *.
    rewrite HLoad. cbn zeta. rewrite StreamFacts.length_ShaderTable.
    unfold DeviceObjectArchive.sizeof_FileOffsetAndSize.
    replace (Z.to_nat (Z.of_nat (8 * length List) / 8)) with (length List)
      by (rewrite Nat2Z.inj_mul, Z.mul_comm, Z.div_mul by lia; by rewrite Nat2Z.id).
    eexists. split; [reflexivity|].
    unfold reads_back_shaders.
    change (DeviceObjectArchive.m_DevType (DeviceObjectArchive.set_Shaders _ r)) with d.
    change (DeviceObjectArchive.m_BaseOffsets (DeviceObjectArchive.set_Shaders _ r))
      with (DeviceObjectArchive.m_BaseOffsets r).
    change (DeviceObjectArchive.m_pArchive (DeviceObjectArchive.set_Shaders _ r))
      with (DeviceObjectArchive.m_pArchive r).
    cbn [DeviceObjectArchive.set_Shaders DeviceObjectArchive.m_Shaders].
    rewrite EL, Hr. cbn zeta.
    split; [by rewrite length_ShaderEntries_of_bytes|].
    intros i Sh Hi. eexists. split.
    { rewrite <- (app_nil_r (ShaderTable _ List)).
      apply ShaderEntries_of_ShaderTable; [done|lia|].
      rewrite length_app, StreamFacts.length_ShaderTable in B3. lia. }
    split; [done|].
    cbn [DeviceObjectArchive.Shader_Offset DeviceObjectArchive.Shader_Size].
    pose proof (bytes_at_concat List i Sh (ShaderTable (TableOffset + 8 * Z.of_nat (length List))
                                             List) Hi) as HSh.
    rewrite StreamFacts.length_ShaderTable in HSh.
    pose proof (bytes_at_sub _ _ _ _ _ _ _ HW HSh) as HDevSh.
    pose proof (bytes_at_sub _ _ _ _ _ _ _ HB HDevSh) as HASh.
    destruct (bytes_at_Some _ _ _ _ HASh) as (D0 & D1 & D2 & D3).
    rewrite ReadBackFacts.Archive_Read_bytes_at.
    rewrite wrap32_small by lia.
    rewrite <- HASh. f_equal. lia.
Qed.

Lemma ChunkType_of_not_in_snoc k S T :
  T <> ChunkType_of k -> (ChunkType_of k ∈ S ++ [T] <-> ChunkType_of k ∈ S).
Proof.
  intros Hne. rewrite elem_of_app, list_elem_of_singleton.
  split; [intros [?|?]; [done|congruence]|by left].
Qed.

(** One chunk, read by the constructor. *)
Lemma ReadChunk_written (h : ChunkHdr) (S : list ChunkType)
  (r : DeviceObjectArchive.DeviceObjectArchiveBase) :
  h ∈ ChunkHeaders (UpdateOffsetsInArchive (WriteAll w)) ->
  Hdr_Type h ∉ S ->
  read_so_far w S r ->
  exists r',
    DeviceObjectArchive.ReadChunk (ChunkHeader_of h) r = DeviceObjectArchive.Ok r'
    /\ read_so_far w (S ++ [Hdr_Type h]) r'
    /\ DeviceObjectArchive.m_DevType r' = DeviceObjectArchive.m_DevType r
    /\ DeviceObjectArchive.m_BaseOffsets r' = DeviceObjectArchive.m_BaseOffsets r.
Proof.
  intros Hh HS (Hr & Hloc & Hdir & Hdbg' & Hsh & Hnsh).
  unfold DeviceObjectArchive.ReadChunk.
  cbn [ChunkHeader_of DeviceObjectArchive.Chunk_Type]. rewrite ChunkType_of_to_Z.
  assert (Hnamed : forall k, Hdr_Type h = ChunkType_of k ->
    exists r',
      DeviceObjectArchive.ReadInto k (ChunkHeader_of h) r = DeviceObjectArchive.Ok r'
      /\ read_so_far w (S ++ [Hdr_Type h]) r'
      /\ DeviceObjectArchive.m_DevType r' = DeviceObjectArchive.m_DevType r
      /\ DeviceObjectArchive.m_BaseOffsets r' = DeviceObjectArchive.m_BaseOffsets r).
  { intros k Hk. destruct (read_directory k h Hh Hk) as (Res & HRes & HD).
    unfold DeviceObjectArchive.ReadInto.
    rewrite (proj2 (Hdir k)) by (by rewrite <- Hk). rewrite Hr, HRes.
    assert (HSk : DeviceObjectArchive.Shaders ∈ S ++ [Hdr_Type h]
                  <-> DeviceObjectArchive.Shaders ∈ S).
    { rewrite elem_of_app, list_elem_of_singleton, Hk.
      split; [intros [?|?]; [done|by destruct k]|by left]. }
    eexists. split; [reflexivity|]. split; [|by destruct k].
    split; [by rewrite UnpackFacts.m_pArchive_set_map|].
    split; [by destruct k|]. split; [|split; [|split]].
    - intros k'. destruct (decide (k = k')) as [<-|Hne].
      + rewrite UnpackFacts.get_set_map. split; [done|].
        intros Hn. exfalso. apply Hn. rewrite Hk. apply elem_of_app. right.
        apply list_elem_of_here.
      + rewrite UnpackFacts.get_set_map_ne by done.
        rewrite ChunkType_of_not_in_snoc; [apply Hdir|].
        rewrite Hk. intros ?%ChunkType_of_inj. done.
    - intros Hin. assert (Hm : DeviceObjectArchive.m_DebugInfo
                                 (DeviceObjectArchive.set_map k Res r)
                               = DeviceObjectArchive.m_DebugInfo r) by (by destruct k).
      rewrite Hm. apply Hdbg'. apply elem_of_app in Hin as [?|Hin]; [done|].
      apply list_elem_of_singleton in Hin. rewrite Hk in Hin. by destruct k.
    - intros Hin%HSk. specialize (Hsh Hin). by destruct k.
    - intros Hin. rewrite HSk in Hin. specialize (Hnsh Hin). by destruct k. }
  destruct (Hdr_Type h) eqn:ET.
  - pose proof (header_chunk_not_empty h Hh) as Hne. rewrite ET in Hne.
    destruct (StreamFacts.WriteAll_spec w) as (_ & _ & _ & _ & _ & _ & HU & _).
    cbn zeta in HU. by rewrite HU in Hne.
  - rewrite (read_debug_info h r Hh ET Hr). eexists. split; [reflexivity|].
    assert (HSk : DeviceObjectArchive.Shaders ∈ S ++ [DeviceObjectArchive.ArchiveDebugInfo]
                  <-> DeviceObjectArchive.Shaders ∈ S).
    { rewrite elem_of_app, list_elem_of_singleton.
      split; [intros [?|?]; [done|done]|by left]. }
    split; [|done]. split; [done|]. split; [done|]. split; [|split; [|split]].
    + intros k. change (DeviceObjectArchive.get_map k (DeviceObjectArchive.set_DebugInfo _ r))
        with (DeviceObjectArchive.get_map k r).
      rewrite ChunkType_of_not_in_snoc by (by destruct k). apply Hdir.
    + done.
    + intros Hin%HSk. by specialize (Hsh Hin).
    + intros Hin. rewrite HSk in Hin. by specialize (Hnsh Hin).
  - apply (Hnamed DeviceObjectArchive.PRSMap eq_refl).
  - apply (Hnamed DeviceObjectArchive.GraphicsPSOMap eq_refl).
  - apply (Hnamed DeviceObjectArchive.ComputePSOMap eq_refl).
  - apply (Hnamed DeviceObjectArchive.RayTracingPSOMap eq_refl).
  - apply (Hnamed DeviceObjectArchive.TilePSOMap eq_refl).
  - apply (Hnamed DeviceObjectArchive.RenderPassMap eq_refl).
  - destruct (read_shaders h r Hh ET Hr Hloc (Hnsh HS)) as (s & Hs & Hrb). rewrite Hs.
    eexists. split; [reflexivity|]. split; [|done]. split; [done|]. split; [done|].
    split; [|split; [|split]].
    + intros k. change (DeviceObjectArchive.get_map k (DeviceObjectArchive.set_Shaders s r))
        with (DeviceObjectArchive.get_map k r).
      rewrite ChunkType_of_not_in_snoc by (by destruct k). apply Hdir.
    + intros Hin. cbn. apply Hdbg'. apply elem_of_app in Hin as [?|Hin]; [done|].
      by apply list_elem_of_singleton in Hin.
    + done.
    + intros Hin. exfalso. apply Hin, elem_of_app. right. apply list_elem_of_here.
Qed.

(** The loop of the constructor over the chunk headers of the archive. *)
Lemma ReadChunks_written (hs : list ChunkHdr) : forall (S : list ChunkType) (B : gset Z)
  (r : DeviceObjectArchive.DeviceObjectArchiveBase),
  (forall h, h ∈ hs -> h ∈ ChunkHeaders (UpdateOffsetsInArchive (WriteAll w))) ->
  NoDup (S ++ (Hdr_Type <$> hs)) ->
  (forall T, DeviceObjectArchive.ChunkType_to_Z T ∈ B <-> T ∈ S) ->
  read_so_far w S r ->
  exists r',
    DeviceObjectArchive.ReadChunks (ChunkHeader_of <$> hs) B r = DeviceObjectArchive.Ok r'
    /\ read_so_far w (S ++ (Hdr_Type <$> hs)) r'
    /\ DeviceObjectArchive.m_DevType r' = DeviceObjectArchive.m_DevType r
    /\ DeviceObjectArchive.m_BaseOffsets r' = DeviceObjectArchive.m_BaseOffsets r.
Proof.
  induction hs as [|h hs IH]; intros S B r Hin Hnd HB Hinv;
    cbn [fmap list_fmap DeviceObjectArchive.ReadChunks].
  - exists r. by rewrite app_nil_r.
  - assert (HS : Hdr_Type h ∉ S).
    { apply NoDup_app in Hnd as (_ & Hd & _). intros HhS. apply (Hd _ HhS).
      apply list_elem_of_here. }
    unfold DeviceObjectArchive.ProcessedBits_test.
    cbn [ChunkHeader_of DeviceObjectArchive.Chunk_Type].
    rewrite decide_True by (unfold DeviceObjectArchive.ChunkType_Count;
                            apply ChunkType_to_Z_range).
    rewrite bool_decide_eq_false_2 by (by rewrite HB).
    destruct (ReadChunk_written h S r) as (r1 & E1 & I1 & D1 & B1);
      [apply Hin, list_elem_of_here|done|done|].
    change (DeviceObjectArchive.MkChunkHeader _ _ _) with (ChunkHeader_of h).
    rewrite E1.
    destruct (IH (S ++ [Hdr_Type h])
                ({[DeviceObjectArchive.ChunkType_to_Z (Hdr_Type h)]} ∪ B) r1)
      as (r' & E' & I' & D' & B').
    + intros h' Hh'. apply Hin. by apply list_elem_of_further.
    + by rewrite <- app_assoc.
    + intros T. rewrite elem_of_union, elem_of_singleton, elem_of_app,
        list_elem_of_singleton, HB.
      split.
      * intros [H|H]; [right; by apply ChunkType_to_Z_inj|by left].
      * intros [H|H]; [by right|left; by rewrite H].
    + done.
    + exists r'. split; [done|]. rewrite <- app_assoc in I'. split; [done|].
      split; congruence.
Qed.

(** From a directory with the entries of a map to what the reader gives
    back of the map. *)
Lemma directory_reads_back {Obj} (k : DeviceObjectArchive.ResMap)
  (GetSharedData : Obj -> SerializedMemory) (Src : Obj -> DeviceType -> SerializedMemory)
  (Map : gmap string Obj) (r : DeviceObjectArchive.DeviceObjectArchiveBase) :
  DeviceObjectArchive.m_pArchive r = Archive_bytes w ->
  (forall d, IsEmpty (Pending_PerDeviceData (Pending (WriteAll w)) d) = false ->
     DeviceObjectArchive.bytes_at (Archive_bytes w) (DeviceObjectArchive.m_BaseOffsets r d)
       (GetCurrentSize (Pending_PerDeviceData (Pending (WriteAll w)) d))
     = Some (Data (Pending_PerDeviceData (Pending (WriteAll w)) d))) ->
  directory_of (ChunkType_of k) GetSharedData Src Map (Pending (WriteAll w)) (Archive_bytes w)
    (DeviceObjectArchive.get_map k r) ->
  reads_back k GetSharedData Src Map r.
Proof.
  intros Hr HB [Hdir Hnm]. split; [|exact Hnm].
  intros n O HnO. destruct (Hdir n O HnO) as (e & Header & He & HRead & HTy & HDev).
  exists (DataHeader_bytes Header ++ Mem_Ptr (GetSharedData O)),
    (DeviceObjectArchive.DataHeader_of_bytes (DataHeader_bytes Header)).
  assert (HT : 0 <= Header_Type Header < 2 ^ 32).
  { rewrite HTy. pose proof (ChunkType_to_Z_range (ChunkType_of k)). lia. }
  destruct (DataHeader_of_bytes_written Header) as [HType HSlots].
  specialize (HType HT).
  split; [|split].
  - unfold DeviceObjectArchive.LoadResourceData. by rewrite He, Hr, HRead.
  - unfold DeviceObjectArchive.CastHeader, Copy. cbn [m_Ptr m_Buf].
    rewrite decide_True by (rewrite length_app; pose proof (StreamFacts.length_DataHeader_bytes
      Header); unfold DeviceObjectArchive.sizeof_DataHeader, sizeof_DataHeader in *; lia).
    rewrite drop_0.
    assert (HL : length (DataHeader_bytes Header)
                 = Z.to_nat DeviceObjectArchive.sizeof_DataHeader) by done.
    rewrite take_app_length' by done.
    rewrite decide_False by (rewrite HType, HTy; tauto).
    unfold GetCurrentPtr. cbn [m_Ptr m_Buf]. rewrite Nat.add_0_l.
    by rewrite drop_app_length' by done.
  - set (d := DeviceObjectArchive.m_DevType r). intros Hsz.
    specialize (HDev d). unfold device_data_written in HDev.
    destruct (Src O d) as [bytes|] eqn:ESrc; [|done]. cbn [Mem_bool] in HDev.
    destruct HDev as (Offset & HOff & HSize & HBytes).
    destruct (bytes_at_Some _ _ _ _ HBytes) as (B0 & B1 & B2 & B3).
    assert (Hpos : 0 < Mem_Size (Some bytes)) by (unfold Mem_Size in *; lia).
    assert (HNE : IsEmpty (Pending_PerDeviceData (Pending (WriteAll w)) d) = false).
    { pose proof (StreamFacts.Unused_WriteAll w (Some d)) as HU.
      unfold Unused, GetCurrentSize in HU. cbn [Block] in HU.
      unfold IsEmpty. apply Z.eqb_neq. lia. }
    specialize (HB d HNE).
    destruct (bytes_at_Some _ _ _ _ HB) as (C0 & C1 & C2 & C3).
    unfold GetCurrentSize in *.
    assert (HO : StaticCast_Uint32 Offset = Offset)
      by (unfold StaticCast_Uint32; apply wrap32_small; lia).
    assert (HS : StaticCast_Uint32 (Mem_Size (Some bytes)) = Mem_Size (Some bytes))
      by (unfold StaticCast_Uint32; apply wrap32_small; lia).
    rewrite HO in HOff. rewrite HS in HSize.
    destruct (HSlots d) as [ES EO].
    rewrite HSize in ES. rewrite HOff in EO.
    specialize (ES ltac:(lia)). specialize (EO ltac:(lia)).
    rewrite <- HSize in ES. rewrite <- HOff in EO.
    unfold DeviceObjectArchive.LoadDeviceSpecificData, DeviceObjectArchive.Header_GetSize,
      DeviceObjectArchive.Header_GetOffset, DeviceObjectArchive.Header_GetEndOffset.
    fold d. rewrite ES, EO, HSize, HOff, Hr.
    unfold DeviceObjectArchive.Archive_GetSize.
    rewrite decide_False by lia. rewrite decide_False by lia.
    rewrite (wrap32_small (Offset + _)) by lia.
    rewrite (wrap32_small (_ + (Offset + _))) by lia.
    rewrite decide_False by lia.
    rewrite (wrap32_small (_ + Offset)) by lia.
    rewrite ReadBackFacts.Archive_Read_bytes_at.
    by apply (bytes_at_sub _ _ _ _ _ _ _ HB).
Qed.

Lemma reads_back_of_read {Obj} (k : DeviceObjectArchive.ResMap)
  (GetSharedData : Obj -> SerializedMemory) (Src : Obj -> DeviceType -> SerializedMemory)
  (Map : gmap string Obj) (r : DeviceObjectArchive.DeviceObjectArchiveBase) :
  chunk_written (ChunkType_of k) GetSharedData Src Map (WriteAll w) ->
  DeviceObjectArchive.m_pArchive r = Archive_bytes w ->
  (forall d, IsEmpty (Pending_PerDeviceData (Pending (WriteAll w)) d) = false ->
     DeviceObjectArchive.bytes_at (Archive_bytes w) (DeviceObjectArchive.m_BaseOffsets r d)
       (GetCurrentSize (Pending_PerDeviceData (Pending (WriteAll w)) d))
     = Some (Data (Pending_PerDeviceData (Pending (WriteAll w)) d))) ->
  (ChunkType_of k ∈ Hdr_Type <$> ChunkHeaders (UpdateOffsetsInArchive (WriteAll w)) ->
   directory_of (ChunkType_of k) GetSharedData Src Map (Pending (WriteAll w)) (Archive_bytes w)
     (DeviceObjectArchive.get_map k r)) ->
  (ChunkType_of k ∉ Hdr_Type <$> ChunkHeaders (UpdateOffsetsInArchive (WriteAll w)) ->
   DeviceObjectArchive.get_map k r = ∅) ->
  reads_back k GetSharedData Src Map r.
Proof.
  intros HW Hr HB Hin Hout.
  destruct (StreamFacts.UpdateOffsets_layout (WriteAll w) HA)
    as (Off1 & BBO & rest & preS & postS & _ & _ & HTy & _).
  destruct (decide (ChunkType_of k
                    ∈ Hdr_Type <$> ChunkHeaders (UpdateOffsetsInArchive (WriteAll w))))
    as [Hk|Hk].
  - apply directory_reads_back; [done|done|by apply Hin].
  - assert (HM : Map = ∅).
    { destruct (decide (Map = ∅)) as [|HM]; [done|]. exfalso. apply Hk.
      unfold chunk_written in HW. rewrite decide_False in HW by done.
      destruct HW as (R & C & NL & DS & DO & HR & HCh & _).
      rewrite HTy. apply list_elem_of_filter. split; [|apply StreamFacts.elem_of_ChunkTypes].
      rewrite HCh. unfold Chunk_IsEmpty. cbn. by apply Z.eqb_neq. }
    subst Map. split.
    + intros n O HnO. by rewrite lookup_empty in HnO.
    + intros Name [e He]. by rewrite (Hout Hk), lookup_empty in He.
Qed.

End Archive.

(** The constructor of the reader on the archive of the writer: it reads
    every chunk of the archive. *)
Lemma constructor_reads_archive `{Fmt : DeviceObjectArchive.ArchiveFormat} `{Build : BuildInfo}
  (w : ArchiverImpl) (DevType : DeviceType) :
  Z.of_nat (length (Archive_bytes w)) < 2 ^ 32 ->
  0 <= DeviceObjectArchive.HeaderMagicNumber < 2 ^ 32 ->
  0 <= DeviceObjectArchive.GetHeaderVersion < 2 ^ 32 ->
  wfb DebugInfo_schema (DILIGENT_API_VERSION, DILIGENT_CORE_COMMIT_HASH) = true ->
  names_are_distinct w ->
  exists r,
    DeviceObjectArchive.DeviceObjectArchiveBase_new (Some (Archive_bytes w)) DevType
    = DeviceObjectArchive.Ok r
    /\ DeviceObjectArchive.m_DevType r = DevType
    /\ read_so_far w (filter (fun i => Chunk_IsEmpty (ChunkData (WriteAll w) i) = false)
                        ChunkTypes) r.
Proof.
  intros HA Hmagic Hversion Hdbg Hnames.
  destruct (StreamFacts.UpdateOffsets_layout (WriteAll w) HA)
    as (Off1 & BBO & rest & preS & postS & HFH & EA & HTy & Hgood & HP & ES & EOff & HQ
        & HBBO & HDev).
  set (Q := UpdateOffsetsInArchive (WriteAll w)) in *.
  change (PendingBytes Q) with (Archive_bytes w) in EA, Hgood, ES, HDev.
  assert (HLen : Z.of_nat (length (Archive_bytes w))
                 = 36 + 12 * Z.of_nat (length (ChunkHeaders Q)) + Z.of_nat (length rest)).
  { rewrite EA, !length_app, StreamFacts.length_FileHeader_bytes,
      StreamFacts.length_ChunkHdr_bytes. lia. }
  destruct (ReadHeader_written (FileHeader Q)
              (concat (ChunkHdr_bytes <$> ChunkHeaders Q) ++ rest))
    as (H' & EH & HM & HV & HN & HB).
  { by rewrite HFH. }
  { by rewrite HFH. }
  { rewrite HFH. cbn [DeviceObjectArchive.NumChunks]. lia. }
  { rewrite HFH. exact HBBO. }
  rewrite HFH in HM, HV, HN, HB.
  cbn [DeviceObjectArchive.MagicNumber DeviceObjectArchive.Version
       DeviceObjectArchive.NumChunks DeviceObjectArchive.BlockBaseOffsets] in HM, HV, HN, HB.
  unfold DeviceObjectArchive.DeviceObjectArchiveBase_new.
  rewrite <- EA in EH. rewrite EH.
  rewrite decide_False by (rewrite HM; tauto). rewrite decide_False by (rewrite HV; tauto).
  unfold DeviceObjectArchive.ReadChunkHeaders. rewrite HN.
  rewrite ReadBackFacts.Archive_Read_bytes_at.
  assert (ECH : DeviceObjectArchive.bytes_at (Archive_bytes w)
                  DeviceObjectArchive.sizeof_ArchiveHeader
                  (DeviceObjectArchive.sizeof_ChunkHeader * Z.of_nat (length (ChunkHeaders Q)))
                = Some (concat (ChunkHdr_bytes <$> ChunkHeaders Q))).
  { rewrite EA. pose proof (ReadBackFacts.bytes_at_app (FileHeader_bytes (FileHeader Q))
                              (concat (ChunkHdr_bytes <$> ChunkHeaders Q)) rest) as HX.
    rewrite StreamFacts.length_FileHeader_bytes, StreamFacts.length_ChunkHdr_bytes in HX.
    rewrite <- HX. f_equal.
    unfold DeviceObjectArchive.sizeof_ChunkHeader. lia. }
  rewrite ECH. cbn [fmap option_fmap option_map]. rewrite Nat2Z.id.
  pose proof (ChunkHeaders_written (ChunkHeaders Q)) as HCH.
  rewrite <- (app_nil_r (concat _)), HCH.
  2:{ eapply Forall_impl; [exact Hgood|]. intros h (? & ? & _). done. }
  destruct (ReadChunks_written w HA Hnames Hdbg (ChunkHeaders Q) [] ∅
              (DeviceObjectArchive.MkReader (Archive_bytes w) DevType
                 (DeviceObjectArchive.BlockBaseOffsets H') (0, []) ∅ ∅ ∅ ∅ ∅ ∅ []))
    as (r & Er & Hinv & HDT & HBO).
  { done. }
  { cbn [app]. apply (NoDup_header_types w HA). }
  { intros T. split; [by intros ?%elem_of_empty|by intros ?%elem_of_nil]. }
  { split; [done|]. split.
    { intros d Hd. cbn [DeviceObjectArchive.m_BaseOffsets]. rewrite HB. by apply HDev. }
    split; [intros k; split; [by intros ?%elem_of_nil|by destruct k]|].
    split; [by intros ?%elem_of_nil|]. split; [by intros ?%elem_of_nil|done]. }
  cbn [app] in Hinv. rewrite HTy in Hinv.
  exists r. split; [exact Er|]. split; [by rewrite HDT|done].
Qed.

(** X19. What the writer serializes, the reader reads back.  For a
    writer whose archive is smaller than 4 GiB, whose names in each map are
    different C strings, and with format constants and debug info that fit
    their fields: [SerializeToBlob] succeeds, the constructor of the reader
    accepts the blob for any device type and takes the API version and the
    commit hash from it, and for every signature, render pass and pipeline
    of the writer [LoadResourceData] finds its name and loads a header of
    its kind followed by its shared data, and [LoadDeviceSpecificData] with
    that header loads its data for the device of the reader (for a
    signature and the macOS device, its iOS data); the directories of the
    reader hold no other names. *)
Theorem archive_round_trip `{Fmt : DeviceObjectArchive.ArchiveFormat} `{Build : BuildInfo}
  (w : ArchiverImpl) (DevType : DeviceType) :
  Z.of_nat (length (Archive_bytes w)) < 2 ^ 32 ->
  0 <= DeviceObjectArchive.HeaderMagicNumber < 2 ^ 32 ->
  0 <= DeviceObjectArchive.GetHeaderVersion < 2 ^ 32 ->
  wfb DebugInfo_schema (DILIGENT_API_VERSION, DILIGENT_CORE_COMMIT_HASH) = true ->
  names_are_distinct w ->
  SerializeToBlob w = (true, Some (Archive_bytes w))
  /\ exists r,
       DeviceObjectArchive.DeviceObjectArchiveBase_new (Some (Archive_bytes w)) DevType
       = DeviceObjectArchive.Ok r
       /\ DeviceObjectArchive.m_DevType r = DevType
       /\ DeviceObjectArchive.m_DebugInfo r
          = (DILIGENT_API_VERSION, default [] DILIGENT_CORE_COMMIT_HASH)
       /\ reads_back_all w r.
Proof.
  intros HA Hmagic Hversion Hdbg Hnames. split; [done|].
  destruct (constructor_reads_archive w DevType HA Hmagic Hversion Hdbg Hnames)
    as (r & Er & HDT & Hr & HDev' & Hdir & Hdi & _).
  destruct (StreamFacts.UpdateOffsets_layout (WriteAll w) HA)
    as (Off1 & BBO & rest & preS & postS & _ & _ & HTy & _).
  rewrite <- HTy in Hdir.
  exists r. split; [exact Er|]. split; [done|]. split.
  { apply Hdi. apply list_elem_of_filter.
    split; [|apply StreamFacts.elem_of_ChunkTypes].
    destruct (StreamFacts.WriteAll_spec w) as (_ & _ & _ & _ & _ & _ & _ & HD & _).
    cbn zeta in HD. rewrite HD. unfold WriteDebugInfo.
    rewrite SerializerFacts.MeasureSize_encode.
    destruct (decide _) as [E0|E0].
    - exfalso. cbn [encode DebugInfo_schema] in E0. rewrite length_app, length_le_bytes in E0.
      lia.
    - cbn [set_ChunkData ChunkData]. rewrite fn_lookup_insert. unfold Chunk_IsEmpty.
      cbn [Chunk_ReservedSize]. apply Z.eqb_neq. lia. }
  destruct (StreamFacts.WriteAll_spec w) as (W1 & W2 & W3 & W4 & W5 & W6 & _).
  unfold reads_back_all.
  refine (conj _ (conj _ (conj _ (conj _ (conj _ _))))).
  - apply (reads_back_of_read w HA DeviceObjectArchive.PRSMap); try done;
      apply (Hdir DeviceObjectArchive.PRSMap).
  - apply (reads_back_of_read w HA DeviceObjectArchive.RenderPassMap); try done;
      apply (Hdir DeviceObjectArchive.RenderPassMap).
  - apply (reads_back_of_read w HA DeviceObjectArchive.GraphicsPSOMap); try done;
      apply (Hdir DeviceObjectArchive.GraphicsPSOMap).
  - apply (reads_back_of_read w HA DeviceObjectArchive.ComputePSOMap); try done;
      apply (Hdir DeviceObjectArchive.ComputePSOMap).
  - apply (reads_back_of_read w HA DeviceObjectArchive.TilePSOMap); try done;
      apply (Hdir DeviceObjectArchive.TilePSOMap).
  - apply (reads_back_of_read w HA DeviceObjectArchive.RayTracingPSOMap); try done;
      apply (Hdir DeviceObjectArchive.RayTracingPSOMap).
Qed.

(** X20. The shaders of the writer, read back.  Under the conditions of
    the archive round trip, the reader constructed from the archive of the
    writer for a device has a shader table with one entry per shader that
    the writer holds for that device, in the order of the shader indices
    of the writer; every entry has an empty cache, and the range of the
    archive that [LoadShaders] reads for the entry (the block offset of
    the device plus the offset of the entry, the size of the entry) holds
    exactly the bytes of that shader.  A writer without shaders for the
    device gives an empty table. *)
Theorem shaders_round_trip `{Fmt : DeviceObjectArchive.ArchiveFormat} `{Build : BuildInfo}
  (w : ArchiverImpl) (DevType : DeviceType) :
  Z.of_nat (length (Archive_bytes w)) < 2 ^ 32 ->
  0 <= DeviceObjectArchive.HeaderMagicNumber < 2 ^ 32 ->
  0 <= DeviceObjectArchive.GetHeaderVersion < 2 ^ 32 ->
  wfb DebugInfo_schema (DILIGENT_API_VERSION, DILIGENT_CORE_COMMIT_HASH) = true ->
  names_are_distinct w ->
  exists r,
    DeviceObjectArchive.DeviceObjectArchiveBase_new (Some (Archive_bytes w)) DevType
    = DeviceObjectArchive.Ok r
    /\ DeviceObjectArchive.m_DevType r = DevType
    /\ reads_back_shaders w r.
Proof.
  intros HA Hmagic Hversion Hdbg Hnames.
  destruct (constructor_reads_archive w DevType HA Hmagic Hversion Hdbg Hnames)
    as (r & Er & HDT & Hr & _ & _ & _ & Hsh & Hnsh).
  exists r. split; [exact Er|]. split; [done|].
  set (S := filter (fun i => Chunk_IsEmpty (ChunkData (WriteAll w) i) = false) ChunkTypes)
    in *.
  destruct (decide (DeviceObjectArchive.Shaders ∈ S)) as [Hin|Hout]; [by apply Hsh|].
  specialize (Hnsh Hout). unfold reads_back_shaders. rewrite Hnsh.
  destruct (StreamFacts.WriteAll_spec w) as (_ & _ & _ & _ & _ & _ & _ & _ & _ & _ & HS).
  cbn zeta in HS.
  destruct HS as [[_ HS]|(Header & HP & _)].
  - rewrite HS. split; [done|]. intros i Sh Hi. by rewrite lookup_nil in Hi.
  - exfalso. apply Hout. apply list_elem_of_filter.
    split; [|apply StreamFacts.elem_of_ChunkTypes]. by rewrite HP.
Qed.

Section LoadShaders.
Context `{Fmt : DeviceObjectArchive.ArchiveFormat} `{Build : BuildInfo}
        `{Dev : DeviceObjectArchive.RenderDevice}.

(** The loop of [LoadShaders] over indices of shaders that lie in the
    archive and were not loaded before. *)
Lemma LoadShaderList_written (A : list Z) (BaseOffset : Z)
  (Keys : list (sem ShaderPrefix_schema * list Z)) :
  forall (Indices : list Z) (Loaded : list Z) (r : DeviceObjectArchive.DeviceObjectArchiveBase)
         (dev : DeviceObjectArchive.Device),
  DeviceObjectArchive.m_pArchive r = A ->
  NoDup Indices ->
  Forall (fun Idx =>
            0 <= Idx
            /\ exists k e,
                 Keys !! Z.to_nat Idx = Some k
                 /\ wfb ShaderPrefix_schema k.1 = true
                 /\ DeviceObjectArchive.m_Shaders r !! Z.to_nat Idx = Some e
                 /\ DeviceObjectArchive.Shader_Cache e = None
                 /\ DeviceObjectArchive.Archive_Read A
                      (wrap32 (BaseOffset + DeviceObjectArchive.Shader_Offset e))
                      (DeviceObjectArchive.Shader_Size e)
                    = Some (ShaderKey_bytes k)) Indices ->
  let CIs := omap (fun Idx => ShaderCI_of_key <$> Keys !! Z.to_nat Idx) Indices in
  (DeviceObjectArchive.LoadShaderList BaseOffset Indices Loaded r dev).1.1
  = (CreateShaders CIs Loaded dev).1
  /\ (DeviceObjectArchive.LoadShaderList BaseOffset Indices Loaded r dev).2
     = (CreateShaders CIs Loaded dev).2.
Proof.
  induction Indices as [|Idx rest IH]; intros Loaded r dev Hr Hnd Hall;
    cbn [DeviceObjectArchive.LoadShaderList omap list_omap CreateShaders]; [done|].
  apply Forall_cons in Hall as [(H0 & k & e & Hk & Hwf & He & Hc & HR) Hall].
  apply NoDup_cons in Hnd as [Hnin Hnd].
  rewrite He, Hc, Hr, HR, Hk. cbn [fmap option_fmap option_map].
  pose proof (SerializerFacts.Serialize_Read ShaderPrefix_schema k.1 (0, (None, (0, 0))) Hwf
                [] k.2 0%nat eq_refl) as HS.
  cbn [app] in HS. unfold ShaderKey_bytes. rewrite HS.
  unfold ShaderCI_of_key.
  destruct (preserved ShaderPrefix_schema k.1) as [ShaderType [EntryPoint_ [SL SC]]].
  unfold GetCurrentPtr. cbn [m_Buf m_Ptr Nat.add]. rewrite drop_app_length.
  cbn [CreateShaders].
  destruct (DeviceObjectArchive.CreateShader _ dev) as [[sh|] dev']; [|done].
  apply IH; [done|done|].
  rewrite Forall_forall in Hall |- *. intros Idx' Hin.
  destruct (Hall Idx' Hin) as (H0' & k' & e' & Hk' & Hwf' & He' & Hc' & HR').
  split; [done|]. exists k', e'. split; [done|]. split; [done|]. split; [|done].
  cbn [DeviceObjectArchive.set_Shaders DeviceObjectArchive.m_Shaders].
  rewrite list_lookup_insert_ne; [done|].
  intros E. apply Hnin. apply Z2Nat.inj in E; [by subst|lia|lia].
Qed.

(** X27. The reader creates the shaders that the writer serialized.
    Under the conditions of the archive round trip, let the shaders of the
    writer for a device be prefixes (shader type, entry point, source
    language, compiler) followed by bytes, and let the index array of a
    pipeline hold different indices of these shaders.  Then
    [SerializeShadersForPSO] gives the device data of the pipeline, and
    [LoadShaders] on these data, in the reader constructed from the
    archive, calls [CreateShader] once per index, in the order of the
    indices, with the type, entry point, language and compiler of the
    prefix, the flag [SHADER_COMPILE_FLAG_SKIP_REFLECTION] and the bytes
    after the prefix; it returns the shaders created, or fails at the
    first shader the device does not create. *)
Theorem shaders_load_from_archive (w : ArchiverImpl) (DevType : DeviceType)
  (Keys : list (sem ShaderPrefix_schema * list Z)) (Indices : list Z)
  (dev : DeviceObjectArchive.Device) :
  Z.of_nat (length (Archive_bytes w)) < 2 ^ 32 ->
  0 <= DeviceObjectArchive.HeaderMagicNumber < 2 ^ 32 ->
  0 <= DeviceObjectArchive.GetHeaderVersion < 2 ^ 32 ->
  wfb DebugInfo_schema (DILIGENT_API_VERSION, DILIGENT_CORE_COMMIT_HASH) = true ->
  names_are_distinct w ->
  Shaders_List (m_Shaders w DevType) = ShaderKey_bytes <$> Keys ->
  Forall (fun k => wfb ShaderPrefix_schema k.1 = true) Keys ->
  wfb ShaderIndexArray_schema Indices = true ->
  Indices <> [] ->
  NoDup Indices ->
  Forall (fun Idx => Idx < Z.of_nat (length Keys)) Indices ->
  let CIs := omap (fun Idx => ShaderCI_of_key <$> Keys !! Z.to_nat Idx) Indices in
  exists r pData,
    DeviceObjectArchive.DeviceObjectArchiveBase_new (Some (Archive_bytes w)) DevType
    = DeviceObjectArchive.Ok r
    /\ SerializeShadersForPSO Indices = Some pData
    /\ length CIs = length Indices
    /\ (DeviceObjectArchive.LoadShaders pData r dev).1.1 = (CreateShaders CIs [] dev).1
    /\ (DeviceObjectArchive.LoadShaders pData r dev).2 = (CreateShaders CIs [] dev).2.
Proof.
  intros HA Hmagic Hversion Hdbg Hnames HKeys Hwf HIwf Hne Hnd Hrange CIs.
  destruct (constructor_reads_archive w DevType HA Hmagic Hversion Hdbg Hnames)
    as (r & Er & HDT & Hr & Hloc & _ & _ & Hsh & _).
  exists r, (encode ShaderIndexArray_schema Indices).
  split; [exact Er|]. split; [apply ArchiverFacts.SerializeShadersForPSO_encode|].
  assert (HI0 : Forall (fun Idx => 0 <= Idx) Indices).
  { cbn [wfb ShaderIndexArray_schema] in HIwf. apply andb_prop in HIwf as [_ HIwf].
    apply forallb_Forall_true in HIwf. eapply Forall_impl; [exact HIwf|].
    intros Idx HIdx. cbn in HIdx. apply bool_decide_eq_true in HIdx. lia. }
  assert (HKne : Shaders_List (m_Shaders w DevType) <> []).
  { rewrite HKeys. destruct Indices as [|Idx ?]; [done|].
    apply Forall_cons in Hrange as [Hlt _]. apply Forall_cons in HI0 as [H0 _].
    destruct Keys; [cbn in Hlt; lia|done]. }
  destruct (StreamFacts.WriteAll_spec w) as (_ & _ & _ & _ & _ & _ & _ & _ & _ & _ & HS).
  cbn zeta in HS.
  destruct HS as [[_ HS]|(Header & HP & HSlots)]; [by rewrite HS in HKne|].
  assert (Hrb : reads_back_shaders w r).
  { apply Hsh. apply list_elem_of_filter. split; [|apply StreamFacts.elem_of_ChunkTypes].
    by rewrite HP. }
  destruct Hrb as [HLen Hrb]. rewrite HDT in HLen, Hrb.
  specialize (HSlots DevType).
  destruct (Shaders_List (m_Shaders w DevType)) as [|Sh0 List'] eqn:EL; [done|].
  destruct HSlots as (TableOffset & _ & _ & HW). unfold shaders_written in HW.
  destruct (bytes_at_Some _ _ _ _ HW) as (B0 & B1 & B2 & B3).
  assert (HNE : IsEmpty (Pending_PerDeviceData (Pending (WriteAll w)) DevType) = false).
  { pose proof (StreamFacts.Unused_WriteAll w (Some DevType)) as HU.
    unfold Unused, GetCurrentSize in HU. cbn [Block] in HU.
    unfold IsEmpty. apply Z.eqb_neq. cbn [length] in B1, B2.
    unfold sizeof_FileOffsetAndSize in *. lia. }
  destruct (bytes_at_Some _ _ _ _ (Hloc DevType HNE)) as (C0 & C1 & C2 & C3).
  assert (ELen : length CIs = length Indices).
  { unfold CIs. clear -Hrange HI0. induction Indices as [|Idx rest IH]; [done|].
    apply Forall_cons in Hrange as [Hlt Hrange]. apply Forall_cons in HI0 as [H0 HI0].
    cbn [omap list_omap].
    destruct (lookup_lt_is_Some_2 Keys (Z.to_nat Idx) ltac:(lia)) as [k Hk].
    rewrite Hk. cbn [fmap option_fmap option_map length]. by rewrite IH. }
  split; [done|].
  unfold DeviceObjectArchive.LoadShaders. rewrite HDT, Hr.
  unfold DeviceObjectArchive.Archive_GetSize.
  rewrite decide_False by lia.
  pose proof (SerializerFacts.Serialize_Read ShaderIndexArray_schema Indices [] HIwf
                [] [] 0%nat eq_refl) as HSR.
  cbn [app] in HSR. rewrite app_nil_r in HSR. rewrite HSR.
  assert (EP : preserved ShaderIndexArray_schema Indices = Indices).
  { cbn [preserved ShaderIndexArray_schema]. apply list_fmap_id. }
  rewrite EP.
  apply (LoadShaderList_written (Archive_bytes w)); [done|done|].
  rewrite Forall_forall in Hrange. rewrite Forall_forall in HI0.
  rewrite Forall_forall in Hwf. rewrite Forall_forall. intros Idx Hin.
  specialize (Hrange Idx Hin). specialize (HI0 Idx Hin). split; [done|].
  destruct (lookup_lt_is_Some_2 Keys (Z.to_nat Idx) ltac:(lia)) as [k Hk].
  assert (HSh : (Sh0 :: List') !! Z.to_nat Idx = Some (ShaderKey_bytes k)).
  { rewrite HKeys, list_lookup_fmap, Hk. done. }
  destruct (Hrb _ _ HSh) as (e & He & Hc & HR).
  exists k, e. split; [done|]. split; [apply Hwf; by eapply list_elem_of_lookup_2|].
  split; [done|]. split; [done|]. by rewrite <- Hr.
Qed.

End LoadShaders.

Lemma distinct_names_empty {Obj} : distinct_names (∅ : gmap string Obj).
Proof. intros n1 n2 [x H1]. by rewrite lookup_empty in H1. Qed.

Lemma distinct_names_singleton {Obj} n (O : Obj) : distinct_names ({[ n := O ]} : gmap string Obj).
Proof.
  intros n1 n2 [x H1] [y H2] _.
  apply lookup_singleton_Some in H1 as [<- _]. by apply lookup_singleton_Some in H2 as [<- _].
Qed.

Lemma archive_round_trip_witness :
  SerializeToBlob (Fmt := DeviceObjectArchive.Format_v1) (Build := Build_example) WriterSigP
  = (true, Some (Archive_bytes (Fmt := DeviceObjectArchive.Format_v1) (Build := Build_example)
                   WriterSigP))
  /\ exists r,
       DeviceObjectArchive.DeviceObjectArchiveBase_new (Fmt := DeviceObjectArchive.Format_v1)
         (Some (Archive_bytes (Fmt := DeviceObjectArchive.Format_v1) (Build := Build_example)
                  WriterSigP)) OpenGL
       = DeviceObjectArchive.Ok r
       /\ DeviceObjectArchive.m_DevType r = OpenGL
       /\ DeviceObjectArchive.m_DebugInfo r
          = (DILIGENT_API_VERSION (BuildInfo := Build_example),
             default [] (DILIGENT_CORE_COMMIT_HASH (BuildInfo := Build_example)))
       /\ reads_back_all WriterSigP r.
Proof.
  apply (archive_round_trip (Fmt := DeviceObjectArchive.Format_v1) (Build := Build_example)
           WriterSigP OpenGL).
  - vm_compute. reflexivity.
  - cbn. lia.
  - cbn. lia.
  - vm_compute. reflexivity.
  - repeat split; (apply distinct_names_empty || apply distinct_names_singleton).
Defined.

Lemma shaders_round_trip_witness :
  exists r,
    DeviceObjectArchive.DeviceObjectArchiveBase_new (Fmt := DeviceObjectArchive.Format_v1)
      (Some (Archive_bytes (Fmt := DeviceObjectArchive.Format_v1) (Build := Build_example)
               WriterSigP)) OpenGL
    = DeviceObjectArchive.Ok r
    /\ DeviceObjectArchive.m_DevType r = OpenGL
    /\ reads_back_shaders WriterSigP r.
Proof.
  apply (shaders_round_trip (Fmt := DeviceObjectArchive.Format_v1) (Build := Build_example)
           WriterSigP OpenGL).
  - vm_compute. reflexivity.
  - cbn. lia.
  - cbn. lia.
  - vm_compute. reflexivity.
  - repeat split; (apply distinct_names_empty || apply distinct_names_singleton).
Defined.

Lemma shaders_load_from_archive_witness :
  exists r pData,
    DeviceObjectArchive.DeviceObjectArchiveBase_new (Fmt := DeviceObjectArchive.Format_v1)
      (Some (Archive_bytes (Fmt := DeviceObjectArchive.Format_v1) (Build := Build_example)
               WriterShader)) OpenGL
    = DeviceObjectArchive.Ok r
    /\ SerializeShadersForPSO [0] = Some pData
    /\ length [ShaderCI_of_key ShaderKey_example] = length [0]
    /\ (DeviceObjectArchive.LoadShaders (Dev := DeviceObjectArchive.CountingDevice)
          pData r 1000).1.1
       = (CreateShaders (Dev := DeviceObjectArchive.CountingDevice)
            [ShaderCI_of_key ShaderKey_example] [] 1000).1
    /\ (DeviceObjectArchive.LoadShaders (Dev := DeviceObjectArchive.CountingDevice)
          pData r 1000).2
       = (CreateShaders (Dev := DeviceObjectArchive.CountingDevice)
            [ShaderCI_of_key ShaderKey_example] [] 1000).2.
Proof.
  apply (shaders_load_from_archive (Fmt := DeviceObjectArchive.Format_v1)
           (Build := Build_example) (Dev := DeviceObjectArchive.CountingDevice)
           WriterShader OpenGL [ShaderKey_example] [0] 1000).
  - vm_compute. reflexivity.
  - cbn. lia.
  - cbn. lia.
  - vm_compute. reflexivity.
  - repeat split; (apply distinct_names_empty || apply distinct_names_singleton).
  - reflexivity.
  - repeat constructor.
  - vm_compute. reflexivity.
  - discriminate.
  - apply NoDup_singleton.
  - repeat constructor.
Defined.

End RoundTripFacts.

(** ** Paths of the basic file system *)

Module FileSystemFacts.
Import FileSystem.

Section Paths.
Context `{Plat : Platform}.

Lemma finish_nil : finish [] = [].
Proof. done. Qed.

Lemma finish_cons cur : cur <> [] -> finish cur = [cur].
Proof. intros H. unfold finish. by rewrite bool_decide_eq_false_2. Qed.

Lemma skip_slashes_split c : split_chars [] (skip_slashes c) = split_chars [] c.
Proof.
  induction c as [|x c IH]; [done|]. cbn [skip_slashes split_chars].
  destruct (bool_decide (x = NUL)) eqn:E; cbn [negb andb].
  - cbn [split_chars]. by rewrite E.
  - destruct (IsSlash x) eqn:ES.
    + by rewrite IH, finish_nil.
    + cbn [split_chars]. by rewrite E, ES.
Qed.

Lemma skip_slashes_length c : (length (skip_slashes c) <= length c)%nat.
Proof.
  induction c as [|x c IH]; [done|]. cbn [skip_slashes].
  destruct (negb _ && IsSlash x); cbn [length]; lia.
Qed.

Lemma skip_slashes_head c x c' :
  skip_slashes c = x :: c' -> x <> NUL -> IsSlash x = false.
Proof.
  induction c as [|y c IH]; [done|]. cbn [skip_slashes].
  destruct (bool_decide (y = NUL)) eqn:E; cbn [negb andb].
  - intros [= -> ->] Hx. by apply bool_decide_eq_true_1 in E.
  - destruct (IsSlash y) eqn:ES; [done|]. by intros [= <- <-].
Qed.

Lemma read_component_split c : forall acc p c2,
  read_component c acc = (p, c2) ->
  split_chars acc c = finish p ++ split_chars [] c2
  /\ (length c2 <= length c)%nat
  /\ (acc <> [] -> p <> []).
Proof.
  induction c as [|x c IH]; intros acc p c2; cbn [read_component split_chars].
  - intros [= <- <-]. cbn [split_chars]. by rewrite finish_nil, app_nil_r.
  - destruct (bool_decide (x = NUL)) eqn:E; cbn [negb andb].
    + intros [= <- <-]. cbn [split_chars]. by rewrite E, finish_nil, app_nil_r.
    + destruct (IsSlash x) eqn:ES; cbn [negb].
      * intros [= <- <-]. cbn [split_chars]. by rewrite E, ES, finish_nil.
      * intros H. destruct (IH _ _ _ H) as (H1 & H2 & H3). split; [done|].
        split; [cbn [length]; lia|]. intros _. apply H3. by destruct acc.
Qed.

(** The loop of [SplitPath] takes the components of the path one after
    another; the fuel is enough. *)
Lemma SplitPath_loop_split (fuel : nat) : forall Simplify c Components,
  (length c <= fuel)%nat ->
  SplitPath_loop fuel Simplify c Components
  = foldl (push_component Simplify) Components (split_chars [] c).
Proof.
  induction fuel as [|fuel IH]; intros Simplify c Components Hlen.
  - destruct c; [done|cbn in Hlen; lia].
  - cbn [SplitPath_loop].
    destruct (bool_decide (deref c = NUL)) eqn:E0.
    { apply bool_decide_eq_true_1 in E0. destruct c as [|x c]; [done|].
      cbn [deref] in E0. subst x. done. }
    rewrite <- (skip_slashes_split c).
    pose proof (skip_slashes_length c) as HL1.
    destruct (skip_slashes c) as [|x c1] eqn:E1; [done|].
    cbn [deref].
    destruct (bool_decide (x = NUL)) eqn:E2.
    { cbn [split_chars]. by rewrite E2. }
    apply bool_decide_eq_false_1 in E2.
    pose proof (skip_slashes_head _ _ _ E1 E2) as ES.
    destruct (read_component (x :: c1) []) as [PathCmp c2] eqn:ER.
    destruct (read_component_split _ _ _ _ ER) as (H1 & _ & _).
    cbn [read_component] in ER.
    rewrite bool_decide_eq_false_2, ES in ER by done. cbn [negb andb app] in ER.
    destruct (read_component_split _ _ _ _ ER) as (_ & H2 & H3).
    rewrite H1, finish_cons by (by apply H3).
    cbn [app foldl]. apply IH. cbn [length] in *. lia.
Qed.

Lemma SplitPath_split Path Simplify :
  SplitPath Path Simplify = foldl (push_component Simplify) [] (split_chars [] Path).
Proof. by apply SplitPath_loop_split. Qed.

Lemma foldl_push_false (l : list String) : forall Components,
  foldl (push_component false) Components l = Components ++ l.
Proof.
  induction l as [|p l IH]; intros Components; cbn [foldl]; [by rewrite app_nil_r|].
  rewrite IH. unfold push_component. cbn [andb]. by rewrite <- app_assoc.
Qed.

Lemma SplitPath_false Path : SplitPath Path false = split_chars [] Path.
Proof. by rewrite SplitPath_split, foldl_push_false. Qed.

Lemma finish_components cur :
  (forall x, x ∈ cur -> x <> NUL /\ IsSlash x = false) ->
  Forall is_component (finish cur).
Proof.
  intros H. unfold finish. destruct (bool_decide (cur = [])) eqn:E; [done|].
  apply bool_decide_eq_false_1 in E. constructor; [by split|constructor].
Qed.

Lemma split_chars_components c : forall cur,
  (forall x, x ∈ cur -> x <> NUL /\ IsSlash x = false) ->
  Forall is_component (split_chars cur c).
Proof.
  induction c as [|x c IH]; intros cur Hcur; cbn [split_chars].
  - by apply finish_components.
  - destruct (bool_decide (x = NUL)) eqn:E; [by apply finish_components|].
    apply bool_decide_eq_false_1 in E.
    destruct (IsSlash x) eqn:ES.
    + apply Forall_app. split; [by apply finish_components|]. apply IH.
      intros y Hy. by apply elem_of_nil in Hy.
    + apply IH. intros y [Hy|Hy%list_elem_of_singleton]%elem_of_app; [by apply Hcur|].
      by subst y.
Qed.

Lemma removelast_snoc {A} (l : list A) (a : A) : removelast (l ++ [a]) = l.
Proof. induction l as [|x l IH]; [done|]. cbn. rewrite IH. by destruct l. Qed.

Lemma list_snoc_inv {A} (l : list A) : l <> [] -> exists l' a, l = l' ++ [a].
Proof.
  induction l as [|x l IH] using rev_ind; [done|]. intros _. by exists l, x.
Qed.

Lemma push_component_components Simplify Components p :
  Forall is_component Components -> is_component p ->
  Forall is_component (push_component Simplify Components p).
Proof.
  intros HC Hp. unfold push_component.
  destruct (Simplify && bool_decide (p = Dot)); [done|].
  destruct (Simplify && bool_decide (p = DotDot) && negb (bool_decide (Components = []))
            && negb (bool_decide (last Components = Some DotDot))) eqn:E.
  - destruct (decide (Components = [])) as [->|Hne]; [done|].
    destruct (list_snoc_inv _ Hne) as (l & a & ->). rewrite removelast_snoc.
    by apply Forall_app in HC as [? _].
  - apply Forall_app. split; [done|]. by constructor.
Qed.

Lemma foldl_push_components Simplify (l : list String) : forall Components,
  Forall is_component Components -> Forall is_component l ->
  Forall is_component (foldl (push_component Simplify) Components l).
Proof.
  induction l as [|p l IH]; intros Components HC Hl; cbn [foldl]; [done|].
  apply Forall_cons in Hl as [Hp Hl]. apply IH; [|done].
  by apply push_component_components.
Qed.

Lemma replicate_snoc {A} (k : nat) (a : A) : replicate k a ++ [a] = replicate (S k) a.
Proof. induction k as [|k IH]; [done|]. cbn. by rewrite IH. Qed.

Lemma last_replicate {A} (k : nat) (a : A) : (0 < k)%nat -> last (replicate k a) = Some a.
Proof.
  destruct k as [|k]; [lia|]. intros _. by rewrite <- replicate_snoc, last_snoc.
Qed.

Lemma push_component_simplified Components p :
  simplified Components -> simplified (push_component true Components p).
Proof.
  intros (k & names & -> & Hn). unfold push_component. cbn [andb].
  destruct (bool_decide (p = Dot)) eqn:E1; [by exists k, names|].
  apply bool_decide_eq_false_1 in E1.
  destruct (bool_decide (p = DotDot)) eqn:E2; cbn [andb].
  - apply bool_decide_eq_true_1 in E2. subst p.
    destruct (decide (names = [])) as [->|Hne].
    + rewrite app_nil_r. exists (S k), []. split.
      * destruct k as [|k].
        { cbn [replicate]. rewrite bool_decide_eq_true_2 by done. done. }
        rewrite bool_decide_eq_false_2 by done.
        rewrite last_replicate by lia. rewrite bool_decide_eq_true_2 by done.
        cbn [negb andb]. by rewrite replicate_snoc, app_nil_r.
      * intros n Hin. by apply elem_of_nil in Hin.
    + destruct (list_snoc_inv _ Hne) as (l & a & ->).
      rewrite bool_decide_eq_false_2 by (by destruct (replicate k DotDot)).
      rewrite app_assoc, last_snoc.
      rewrite bool_decide_eq_false_2.
      2:{ intros [= ->]. destruct (Hn DotDot) as [_ H]; [|done].
          apply elem_of_app. right. by apply list_elem_of_singleton. }
      cbn [negb andb]. rewrite removelast_snoc. exists k, l. split; [done|].
      intros n Hin. apply Hn, elem_of_app. by left.
  - apply bool_decide_eq_false_1 in E2. exists k, (names ++ [p]).
    split; [by rewrite app_assoc|].
    intros n [Hin|Hin%list_elem_of_singleton]%elem_of_app; [by apply Hn|by subst n].
Qed.

Lemma foldl_push_simplified (l : list String) : forall Components,
  simplified Components -> simplified (foldl (push_component true) Components l).
Proof.
  induction l as [|p l IH]; intros Components HC; cbn [foldl]; [done|].
  by apply IH, push_component_simplified.
Qed.

Lemma simplified_nil : simplified [].
Proof. exists 0%nat, []. split; [done|]. intros n Hin. by apply elem_of_nil in Hin. Qed.

(** X21. Every component that [SplitPath] returns is a non-empty string
    without terminator and without slash; with [Simplify] set, no component
    is [.], and the [..] components come before all others (a [..] is kept
    only at the start of the list or after another [..]). *)
Theorem SplitPath_components (Path : list Char) (Simplify : bool) :
  Forall is_component (SplitPath Path Simplify)
  /\ (Simplify = true -> simplified (SplitPath Path Simplify)).
Proof.
  rewrite SplitPath_split. split.
  - apply foldl_push_components; [done|]. apply split_chars_components.
    intros x Hx. by apply elem_of_nil in Hx.
  - intros ->. apply foldl_push_simplified, simplified_nil.
Qed.

Lemma split_chars_app_component (w : String) : forall cur rest,
  (forall x, x ∈ w -> x <> NUL /\ IsSlash x = false) ->
  split_chars cur (w ++ rest) = split_chars (cur ++ w) rest.
Proof.
  induction w as [|x w IH]; intros cur rest Hw; [by rewrite app_nil_r|].
  destruct (Hw x) as [H0 H1]; [apply list_elem_of_here|].
  cbn [app split_chars]. rewrite bool_decide_eq_false_2, H1 by done.
  rewrite IH by (intros y Hy; by apply Hw, list_elem_of_further).
  by rewrite <- app_assoc.
Qed.

Lemma split_chars_component (Cmp : String) : is_component Cmp -> split_chars [] Cmp = [Cmp].
Proof.
  intros [Hne Hc]. rewrite <- (app_nil_r Cmp) at 1.
  rewrite split_chars_app_component by done.
  cbn [app split_chars]. by apply finish_cons.
Qed.

Lemma split_chars_app_slash (X : list Char) : forall cur s Y,
  NUL ∉ X -> s <> NUL -> IsSlash s = true ->
  split_chars cur (X ++ s :: Y) = split_chars cur X ++ split_chars [] Y.
Proof.
  induction X as [|x X IH]; intros cur s Y HX Hs0 Hs1; cbn [app split_chars].
  - by rewrite bool_decide_eq_false_2, Hs1.
  - apply not_elem_of_cons in HX as [Hx HX].
    rewrite bool_decide_eq_false_2 by done.
    destruct (IsSlash x); [|by apply IH].
    by rewrite IH, app_assoc.
Qed.

Lemma split_chars_c_str (c : list Char) : forall cur,
  split_chars cur (c_str c) = split_chars cur c.
Proof.
  induction c as [|x c IH]; intros cur; [done|]. cbn [c_str split_chars].
  destruct (bool_decide (x = NUL)) eqn:E; [done|].
  cbn [split_chars]. rewrite E. by rewrite !IH.
Qed.

Lemma c_str_no_NUL (c : list Char) : NUL ∉ c_str c.
Proof.
  induction c as [|x c IH]; cbn [c_str]; [by apply not_elem_of_nil|].
  destruct (bool_decide (x = NUL)) eqn:E; [by apply not_elem_of_nil|].
  apply bool_decide_eq_false_1 in E. apply not_elem_of_cons. split; [congruence|done].
Qed.

Lemma component_no_NUL (Cmp : String) : is_component Cmp -> NUL ∉ Cmp.
Proof. intros [_ H] Hin. by destruct (H _ Hin). Qed.

(** The components of a path that was put together from components. *)
Lemma split_chars_join_from (s : Char) (comps : list String) : forall P,
  s <> NUL -> IsSlash s = true ->
  Forall is_component comps -> NUL ∉ P -> P <> [] ->
  split_chars [] (foldl (append_component s) P comps) = split_chars [] P ++ comps.
Proof.
  induction comps as [|Cmp comps IH]; intros P Hs0 Hs1 Hc HP Hne; cbn [foldl].
  - by rewrite app_nil_r.
  - apply Forall_cons in Hc as [HCmp Hc].
    unfold append_component at 2. rewrite bool_decide_eq_false_2 by done.
    rewrite IH; [|done|done|done| |by destruct P].
    + rewrite <- app_assoc. cbn [app].
      rewrite split_chars_app_slash, (split_chars_component Cmp) by done.
      by rewrite <- app_assoc.
    + rewrite <- app_assoc. cbn [app]. intros [?|Hin]%elem_of_app; [done|].
      apply elem_of_cons in Hin as [?|Hin]; [done|]. by apply component_no_NUL in Hin.
Qed.

Lemma split_chars_join (s : Char) (comps : list String) :
  s <> NUL -> IsSlash s = true ->
  Forall is_component comps ->
  split_chars [] (foldl (append_component s) [] comps) = comps.
Proof.
  intros Hs0 Hs1 Hc. destruct comps as [|Cmp comps]; [done|].
  apply Forall_cons in Hc as [HCmp Hc]. cbn [foldl].
  unfold append_component at 2. rewrite bool_decide_eq_true_2 by done. cbn [app].
  rewrite split_chars_join_from; [|done|done|done|by apply component_no_NUL|by destruct HCmp].
  by rewrite split_chars_component.
Qed.

Lemma join_no_NUL (s : Char) (comps : list String) : forall P,
  s <> NUL -> Forall is_component comps -> NUL ∉ P ->
  NUL ∉ foldl (append_component s) P comps.
Proof.
  induction comps as [|Cmp comps IH]; intros P Hs0 Hc HP; cbn [foldl]; [done|].
  apply Forall_cons in Hc as [HCmp Hc]. apply IH; [done|done|].
  unfold append_component. intros [Hin|Hin]%elem_of_app; [|by apply component_no_NUL in Hin].
  destruct (bool_decide (P = [])); [done|].
  apply elem_of_app in Hin as [?|Hin%list_elem_of_singleton]; [done|congruence].
Qed.

Lemma push_component_name Components n :
  n <> Dot -> n <> DotDot -> push_component true Components n = Components ++ [n].
Proof.
  intros H1 H2. unfold push_component. cbn [andb].
  by rewrite !bool_decide_eq_false_2 by done.
Qed.

Lemma foldl_push_names (names : list String) : forall Components,
  (forall n, n ∈ names -> n <> Dot /\ n <> DotDot) ->
  foldl (push_component true) Components names = Components ++ names.
Proof.
  induction names as [|n names IH]; intros Components Hn; cbn [foldl];
    [by rewrite app_nil_r|].
  destruct (Hn n) as [H1 H2]; [apply list_elem_of_here|].
  rewrite push_component_name, IH by (try done; intros; by apply Hn, list_elem_of_further).
  by rewrite <- app_assoc.
Qed.

Lemma push_component_up (j : nat) :
  push_component true (replicate j DotDot) DotDot = replicate (S j) DotDot.
Proof.
  unfold push_component. cbn [andb].
  rewrite bool_decide_eq_false_2 by done. rewrite bool_decide_eq_true_2 by done.
  destruct j as [|j]; [done|].
  rewrite bool_decide_eq_false_2 by done.
  rewrite last_replicate by lia. rewrite bool_decide_eq_true_2 by done.
  cbn [negb andb]. by rewrite replicate_snoc.
Qed.

Lemma foldl_push_ups (k : nat) : forall j,
  foldl (push_component true) (replicate j DotDot) (replicate k DotDot)
  = replicate (j + k) DotDot.
Proof.
  induction k as [|k IH]; intros j; cbn [replicate foldl].
  - by rewrite Nat.add_0_r.
  - rewrite push_component_up, IH. f_equal. lia.
Qed.

Lemma foldl_push_simplified_id (comps : list String) :
  simplified comps -> foldl (push_component true) [] comps = comps.
Proof.
  intros (k & names & -> & Hn). rewrite foldl_app.
  pose proof (foldl_push_ups k 0) as E. cbn [replicate Nat.add] in E. rewrite E.
  by apply foldl_push_names.
Qed.

(** X22. [SimplifyPath] is idempotent.  When the slash used (the argument,
    or [SlashSymbol] for a zero argument) is a slash for [IsSlash] and not
    the terminator, splitting the simplified path, with or without
    simplification, gives the simplified components of the path, and
    simplifying the simplified path again, with any slash, gives what
    simplifying the path with that slash gives. *)
Theorem SimplifyPath_idempotent (Path : list Char) (Slash Slash' : Char) (Simplify : bool) :
  SlashOrDefault Slash <> NUL ->
  IsSlash (SlashOrDefault Slash) = true ->
  SplitPath (SimplifyPath (Some Path) Slash) Simplify = SplitPath Path true
  /\ SimplifyPath (Some (SimplifyPath (Some Path) Slash)) Slash'
     = SimplifyPath (Some Path) Slash'.
Proof.
  intros Hs0 Hs1.
  destruct (SplitPath_components Path true) as [Hc Hs]. specialize (Hs eq_refl).
  assert (E : forall b, SplitPath (SimplifyPath (Some Path) Slash) b = SplitPath Path true).
  { intros b. rewrite (SplitPath_split (SimplifyPath _ _)). unfold SimplifyPath.
    rewrite split_chars_join by done.
    destruct b; [by apply foldl_push_simplified_id|by rewrite foldl_push_false]. }
  split; [apply E|]. unfold SimplifyPath at 1. by rewrite E.
Qed.

Lemma skip_common_spec (F : list String) : forall T F' T',
  skip_common F T = (F', T') -> exists C, F = C ++ F' /\ T = C ++ T'.
Proof.
  induction F as [|f F IH]; intros T F' T'; cbn [skip_common].
  - intros [= <- <-]. by exists [].
  - destruct T as [|t T]; [intros [= <- <-]; by exists []|].
    destruct (bool_decide (f = t)) eqn:E.
    + apply bool_decide_eq_true_1 in E. subst t. intros H.
      destruct (IH _ _ _ H) as (C & -> & ->). by exists (f :: C).
    + intros [= <- <-]. by exists [].
Qed.

Lemma go_up_spec (IsFromDirectory : bool) (F' : list String) : forall RelPath,
  go_up IsFromDirectory F' RelPath
  = foldl (append_component SlashSymbol) RelPath
      (replicate (if IsFromDirectory then length F' else pred (length F')) DotDot).
Proof.
  induction F' as [|f F' IH]; intros RelPath; cbn [go_up].
  - by destruct IsFromDirectory.
  - destruct IsFromDirectory; cbn [negb andb].
    + by rewrite IH.
    + destruct (bool_decide (F' = [])) eqn:E.
      * apply bool_decide_eq_true_1 in E. by subst F'.
      * apply bool_decide_eq_false_1 in E. rewrite IH. cbn [length pred].
        destruct F' as [|f' F']; [done|]. done.
Qed.

Lemma foldl_push_pops (B : list String) : forall A,
  DotDot ∉ B ->
  foldl (push_component true) (A ++ B) (replicate (length B) DotDot) = A.
Proof.
  induction B as [|b B IH] using rev_ind; intros A HB.
  - by rewrite app_nil_r.
  - rewrite length_app. cbn [length]. rewrite Nat.add_1_r. cbn [replicate foldl].
    apply not_elem_of_app in HB as [HB Hb]. apply not_elem_of_cons in Hb as [Hb _].
    assert (E : push_component true (A ++ B ++ [b]) DotDot = A ++ B).
    { unfold push_component. cbn [andb].
      rewrite bool_decide_eq_false_2 by done. rewrite bool_decide_eq_true_2 by done.
      rewrite app_assoc, last_snoc.
      rewrite bool_decide_eq_false_2 by (by destruct (A ++ B)).
      rewrite bool_decide_eq_false_2 by congruence.
      cbn [negb andb]. by rewrite removelast_snoc. }
    rewrite E. by apply IH.
Qed.

(** X23. The relative path leads from the source to the target.  When
    the simplified source and target paths start with the same component
    and the simplified source path has no [..] component (and, for a source
    that is a file, the source components are not a prefix of the target
    components), the path made of the source directory (the source path,
    or the source path followed by [..] for a file), the slash symbol and
    the result of [GetRelativePath] has the simplified components of the
    target path.  The platform is assumed to have a slash symbol that is a
    slash and not the terminator, and a dot that is not a slash. *)
Theorem GetRelativePath_leads_to_target (PathFrom PathTo : list Char)
  (IsFromDirectory IsToDirectory : bool) :
  SlashSymbol <> NUL ->
  IsSlash SlashSymbol = true ->
  is_component DotDot ->
  head (SplitPath PathFrom true) <> None ->
  head (SplitPath PathFrom true) = head (SplitPath PathTo true) ->
  DotDot ∉ SplitPath PathFrom true ->
  (IsFromDirectory = false -> ~ SplitPath PathFrom true `prefix_of` SplitPath PathTo true) ->
  let Base := if IsFromDirectory then c_str PathFrom
              else c_str PathFrom ++ SlashSymbol :: DotDot in
  SplitPath (Base ++ SlashSymbol :: GetRelativePath PathFrom IsFromDirectory PathTo IsToDirectory)
    true
  = SplitPath PathTo true.
Proof.
  intros Hs0 Hs1 Hdd Hhead Hsame Hup Hfile Base.
  destruct (SplitPath_components PathFrom true) as [HFc _].
  destruct (SplitPath_components PathTo true) as [HTc HTs]. specialize (HTs eq_refl).
  unfold GetRelativePath.
  set (F := SplitPath PathFrom true) in *. set (T := SplitPath PathTo true) in *.
  destruct (skip_common F T) as [F' T'] eqn:ESC.
  destruct (skip_common_spec _ _ _ _ ESC) as (C & EF & ET).
  assert (HC : C <> []).
  { intros ->. cbn [app] in EF, ET. subst F' T'.
    destruct F as [|f F0]; [done|]. destruct T as [|t T0]; [done|].
    cbn [head] in Hsame. injection Hsame as <-.
    cbn [skip_common] in ESC. rewrite bool_decide_eq_true_2 in ESC by done.
    destruct (skip_common_spec _ _ _ _ ESC) as (C & EF & _).
    apply (f_equal length) in EF. rewrite length_app in EF. cbn [length] in EF. lia. }
  rewrite bool_decide_eq_false_2.
  2:{ rewrite EF, length_app. destruct C; [done|]. cbn [length]. lia. }
  rewrite go_up_spec, <- foldl_app.
  set (k := if IsFromDirectory then length F' else pred (length F')).
  assert (HT' : Forall is_component T').
  { rewrite ET in HTc. by apply Forall_app in HTc as [_ ?]. }
  assert (Hk : Forall is_component (replicate k DotDot ++ T')).
  { apply Forall_app. split; [|done]. by apply Forall_replicate. }
  rewrite SplitPath_split.
  assert (HB : NUL ∉ Base).
  { unfold Base. destruct IsFromDirectory; [apply c_str_no_NUL|].
    intros [Hin|Hin]%elem_of_app; [by apply c_str_no_NUL in Hin|].
    apply elem_of_cons in Hin as [?|Hin]; [done|]. by apply component_no_NUL in Hin. }
  rewrite split_chars_app_slash, split_chars_join by done.
  assert (EB : split_chars [] Base ++ replicate k DotDot ++ T'
               = split_chars [] PathFrom ++ replicate (length F') DotDot ++ T').
  { unfold Base, k. destruct IsFromDirectory; [by rewrite split_chars_c_str|].
    rewrite split_chars_app_slash by (try done; apply c_str_no_NUL).
    rewrite split_chars_c_str, (split_chars_component DotDot) by done.
    rewrite <- app_assoc. f_equal. cbn [app].
    destruct F' as [|f' F'']; [|done].
    exfalso. apply Hfile; [done|]. exists T'. rewrite EF, app_nil_r. done. }
  rewrite EB, !foldl_app. rewrite <- SplitPath_split. fold F.
  rewrite EF at 1. rewrite foldl_push_pops.
  2:{ intros Hin. apply Hup. rewrite EF. apply elem_of_app. by right. }
  rewrite ET. apply foldl_push_names.
  destruct HTs as (kT & names & ENames & Hn).
  destruct kT as [|kT].
  - cbn [replicate app] in ENames. intros n Hin. apply Hn. rewrite <- ENames, ET.
    apply elem_of_app. by right.
  - exfalso. apply Hup. rewrite EF. apply elem_of_app. left.
    destruct C as [|c C]; [done|]. rewrite ET in ENames. cbn in ENames.
    injection ENames as -> _. apply list_elem_of_here.
Qed.

(** X26. When the simplified source path is empty or its first component
    differs from the first component of the simplified target path,
    [GetRelativePath] returns the source path as it was given, not the
    target path. *)
Theorem GetRelativePath_no_common_prefix (PathFrom PathTo : list Char)
  (IsFromDirectory IsToDirectory : bool) :
  head (SplitPath PathFrom true) = None
  \/ head (SplitPath PathFrom true) <> head (SplitPath PathTo true) ->
  GetRelativePath PathFrom IsFromDirectory PathTo IsToDirectory = c_str PathFrom.
Proof.
  intros H. unfold GetRelativePath.
  destruct (SplitPath PathFrom true) as [|f F]; [done|].
  destruct H as [H|H]; [done|].
  destruct (SplitPath PathTo true) as [|t T]; cbn [skip_common].
  - by rewrite bool_decide_eq_true_2.
  - cbn [head] in H. rewrite bool_decide_eq_false_2 by congruence.
    by rewrite bool_decide_eq_true_2.
Qed.

Lemma find_last_of_None (Path : String) (chars : list Char) :
  find_last_of Path chars = None -> forall y, y ∈ Path -> y ∉ chars.
Proof.
  induction Path as [|x Path IH]; cbn [find_last_of]; intros H y Hy;
    [by apply elem_of_nil in Hy|].
  destruct (find_last_of Path chars); [done|].
  destruct (bool_decide (x ∈ chars)) eqn:E; [done|]. apply bool_decide_eq_false_1 in E.
  apply elem_of_cons in Hy as [->|Hy]; [done|by apply IH].
Qed.

Lemma find_last_of_Some (Path : String) (chars : list Char) : forall pos,
  find_last_of Path chars = Some pos ->
  exists x, Path = take pos Path ++ x :: drop (S pos) Path
            /\ x ∈ chars
            /\ forall y, y ∈ drop (S pos) Path -> y ∉ chars.
Proof.
  induction Path as [|x Path IH]; cbn [find_last_of]; intros pos H; [done|].
  destruct (find_last_of Path chars) as [p|] eqn:EF.
  - injection H as <-. destruct (IH p eq_refl) as (z & E1 & E2 & E3).
    exists z. cbn [take drop app]. split; [by rewrite <- E1|done].
  - destruct (bool_decide (x ∈ chars)) eqn:E; [|done]. apply bool_decide_eq_true_1 in E.
    injection H as <-. exists x. cbn [take drop app]. rewrite drop_0.
    split; [done|]. split; [done|]. by apply find_last_of_None.
Qed.

End Paths.

(** X24. [GetPathComponents] splits a path at its last slash of either
    kind: the file name holds no slash, and the path is the directory, one
    slash and the file name; a path without slash is its file name, with an
    empty directory. *)
Theorem GetPathComponents_split (Path : String) :
  let Directory := (GetPathComponents Path).1 in
  let FileName := (GetPathComponents Path).2 in
  (forall x, x ∈ FileName -> x <> FwdSlash /\ x <> BackSlash)
  /\ ((exists Slash, (Slash = FwdSlash \/ Slash = BackSlash)
                     /\ Path = Directory ++ Slash :: FileName)
      \/ (Directory = [] /\ FileName = Path)).
Proof.
  cbn zeta. unfold GetPathComponents.
  destruct (find_last_of Path [FwdSlash; BackSlash]) as [pos|] eqn:E; cbn [fst snd].
  - destruct (find_last_of_Some _ _ _ E) as (x & E1 & E2 & E3). split.
    + intros y Hy. specialize (E3 y Hy). split; intros ->; apply E3.
      * apply list_elem_of_here.
      * apply list_elem_of_further, list_elem_of_here.
    + left. exists x. split; [|done].
      apply elem_of_cons in E2 as [?|E2]; [by left|].
      apply list_elem_of_singleton in E2. by right.
  - split; [|by right]. intros y Hy. pose proof (find_last_of_None _ _ E y Hy) as H.
    split; intros ->; apply H.
    + apply list_elem_of_here.
    + apply list_elem_of_further, list_elem_of_here.
Qed.

Section Slashes.
Context `{Plat : Platform}.

Lemma split_chars_fmap (f : Char -> Char) (c : list Char) : forall cur,
  (forall x, x ∈ c -> f x = x
                      \/ (x <> NUL /\ IsSlash x = true /\ f x <> NUL /\ IsSlash (f x) = true)) ->
  split_chars cur (f <$> c) = split_chars cur c.
Proof.
  induction c as [|x c IH]; intros cur Hf; [done|].
  cbn [fmap list_fmap split_chars].
  change (list_fmap Char Char f c) with (f <$> c).
  assert (Hc : forall y, y ∈ c -> f y = y
             \/ (y <> NUL /\ IsSlash y = true /\ f y <> NUL /\ IsSlash (f y) = true))
    by (intros y Hy; by apply Hf, list_elem_of_further).
  destruct (Hf x) as [->|(H0 & H1 & H2 & H3)]; [apply list_elem_of_here| |].
  - destruct (bool_decide (x = NUL)); [done|]. destruct (IsSlash x); by rewrite IH.
  - rewrite !bool_decide_eq_false_2, H1, H3 by done. by rewrite IH.
Qed.

(** X25. [CorrectSlashes] changes the kind of the slashes only.  On a
    platform where both slashes are slashes for [IsSlash], with a slash
    (the argument, or [SlashSymbol] for a zero argument) that is a slash
    and not the terminator: the corrected path splits into the same
    components as the path, has the same length, holds no slash of the
    other kind, and correcting it again changes nothing. *)
Theorem CorrectSlashes_keeps_components (Path : String) (Slash : Char) (Simplify : bool) :
  IsSlash FwdSlash = true ->
  IsSlash BackSlash = true ->
  SlashOrDefault Slash <> NUL ->
  IsSlash (SlashOrDefault Slash) = true ->
  SplitPath (CorrectSlashes Path Slash) Simplify = SplitPath Path Simplify
  /\ length (CorrectSlashes Path Slash) = length Path
  /\ CorrectSlashes (CorrectSlashes Path Slash) Slash = CorrectSlashes Path Slash
  /\ forall x, x ∈ CorrectSlashes Path Slash ->
       x <> (if bool_decide (SlashOrDefault Slash = BackSlash) then FwdSlash else BackSlash).
Proof.
  intros HF HB Hs0 Hs1. unfold CorrectSlashes. cbn zeta.
  set (s := SlashOrDefault Slash) in *.
  set (Rev := if bool_decide (s = BackSlash) then FwdSlash else BackSlash).
  assert (HRs : Rev <> s).
  { unfold Rev. destruct (bool_decide (s = BackSlash)) eqn:E.
    - apply bool_decide_eq_true_1 in E. by rewrite E.
    - apply bool_decide_eq_false_1 in E. congruence. }
  assert (HR0 : Rev <> NUL) by (unfold Rev; by destruct (bool_decide _)).
  assert (HR1 : IsSlash Rev = true) by (unfold Rev; by destruct (bool_decide _)).
  split; [|split; [|split]].
  - rewrite !SplitPath_split. f_equal. apply split_chars_fmap.
    intros x _. destruct (bool_decide (x = Rev)) eqn:E; [|by left].
    apply bool_decide_eq_true_1 in E. subst x. by right.
  - by rewrite length_fmap.
  - rewrite <- list_fmap_compose. apply list_fmap_ext. intros _ x _. cbn.
    destruct (bool_decide (x = Rev)) eqn:E; [|by rewrite E].
    by rewrite bool_decide_eq_false_2 by congruence.
  - intros x (y & -> & _)%list_elem_of_fmap.
    destruct (bool_decide (y = Rev)) eqn:E; [congruence|].
    by apply bool_decide_eq_false_1 in E.
Qed.

End Slashes.

Lemma is_component_DotDot_Linux : is_component (Plat := Platform_Linux) DotDot.
Proof.
  split; [done|]. intros x Hx. apply elem_of_cons in Hx as [->|Hx]; [done|].
  apply list_elem_of_singleton in Hx as ->. done.
Qed.

Lemma SimplifyPath_idempotent_witness :
  SplitPath (Plat := Platform_Linux)
    (SimplifyPath (Plat := Platform_Linux) (Some (str "a/./b/../c")) BackSlash) false
  = SplitPath (Plat := Platform_Linux) (str "a/./b/../c") true
  /\ SimplifyPath (Plat := Platform_Linux)
       (Some (SimplifyPath (Plat := Platform_Linux) (Some (str "a/./b/../c")) BackSlash)) NUL
     = SimplifyPath (Plat := Platform_Linux) (Some (str "a/./b/../c")) NUL.
Proof.
  apply (SimplifyPath_idempotent (Plat := Platform_Linux) (str "a/./b/../c") BackSlash NUL
           false).
  - vm_compute. discriminate.
  - vm_compute. reflexivity.
Defined.

Lemma GetRelativePath_leads_to_target_witness :
  SplitPath (Plat := Platform_Linux)
    ((c_str (str "a/b/c/from/file") ++ FwdSlash :: DotDot)
     ++ FwdSlash :: GetRelativePath (Plat := Platform_Linux) (str "a/b/c/from/file") false
                      (str "a/b/c/to/dir") true)
    true
  = SplitPath (Plat := Platform_Linux) (str "a/b/c/to/dir") true.
Proof.
  apply (GetRelativePath_leads_to_target (Plat := Platform_Linux) (str "a/b/c/from/file")
           (str "a/b/c/to/dir") false true).
  - vm_compute. discriminate.
  - vm_compute. reflexivity.
  - apply is_component_DotDot_Linux.
  - vm_compute. discriminate.
  - vm_compute. reflexivity.
  - apply (bool_decide_unpack _). vm_compute. exact I.
  - intros _. apply (bool_decide_unpack _). vm_compute. exact I.
Defined.

Lemma GetRelativePath_no_common_prefix_witness :
  GetRelativePath (Plat := Platform_Linux) (str "from/dir") true (str "to/dir") true
  = c_str (str "from/dir").
Proof.
  apply (GetRelativePath_no_common_prefix (Plat := Platform_Linux) (str "from/dir")
           (str "to/dir") true true).
  right. vm_compute. discriminate.
Defined.

Lemma CorrectSlashes_keeps_components_witness :
  SplitPath (Plat := Platform_Linux)
    (CorrectSlashes (Plat := Platform_Linux) (str "a/b" ++ BackSlash :: str "c") NUL) true
  = SplitPath (Plat := Platform_Linux) (str "a/b" ++ BackSlash :: str "c") true
  /\ length (CorrectSlashes (Plat := Platform_Linux) (str "a/b" ++ BackSlash :: str "c") NUL)
     = length (str "a/b" ++ BackSlash :: str "c")
  /\ CorrectSlashes (Plat := Platform_Linux)
       (CorrectSlashes (Plat := Platform_Linux) (str "a/b" ++ BackSlash :: str "c") NUL) NUL
     = CorrectSlashes (Plat := Platform_Linux) (str "a/b" ++ BackSlash :: str "c") NUL
  /\ forall x, x ∈ CorrectSlashes (Plat := Platform_Linux) (str "a/b" ++ BackSlash :: str "c") NUL ->
       x <> (if bool_decide (SlashOrDefault (Plat := Platform_Linux) NUL = BackSlash)
             then FwdSlash else BackSlash).
Proof.
  apply (CorrectSlashes_keeps_components (Plat := Platform_Linux)
           (str "a/b" ++ BackSlash :: str "c") NUL true).
  - vm_compute. reflexivity.
  - vm_compute. reflexivity.
  - vm_compute. discriminate.
  - vm_compute. reflexivity.
Defined.

End FileSystemFacts.

(** ** The OpenGL reader and the shader sources of the writer *)

Module GLFacts.
Import Serializer.

Lemma concat_le_bytes_1 (bs : list Z) :
  Forall (fun b => 0 <= b < 256) bs -> concat (le_bytes 1 <$> bs) = bs.
Proof.
  induction 1 as [|b bs Hb _ IH]; [done|].
  cbn [fmap list_fmap concat le_bytes app]. rewrite Z.mod_small by done.
  f_equal. exact IH.
Qed.

Lemma nonzero_bytes_Forall (bs : list Z) :
  nonzero_bytes bs = true -> Forall (fun b => 0 <= b < 256) bs.
Proof.
  intros H. apply forallb_Forall_true in H. eapply Forall_impl; [exact H|].
  intros b Hb. cbn in Hb. apply bool_decide_eq_true in Hb. lia.
Qed.

Section Unpack.
Context `{Ext : Archiver.Externals} `{Dev : DeviceObjectArchiveGL.RenderDeviceGL}.

(** X28. The OpenGL reader reads what [SerializeShaderSource] writes.
    For a shader source of the writer whose fields fit the format and
    whose source text (with the macros appended) has no zero byte: the
    four fields that [LoadShaders] reads first are the shader type, the
    entry point, the source language and the compiler of the writer, and
    [UnpackShader] on the rest reads [UseCombinedTextureSamplers] and
    [CombinedSamplerSuffix] of the writer, clears
    [SHADER_COMPILE_FLAG_SKIP_REFLECTION], and creates the shader with
    [Source] pointing to the source text and its terminator and
    [SourceLength] being the length of the text, so that the check
    [SourceLength == strlen(Source)] of [UnpackShader] holds. *)
Theorem UnpackShader_reads_source (CI : Archiver.ShaderCreateInfo)
  (v0 : sem Archiver.ShaderPrefix_schema)
  (ShaderCI : DeviceObjectArchiveGL.ShaderCreateInfo)
  (pDevice : DeviceObjectArchiveGL.Device) :
  let Source1 :=
    match Archiver.Macros CI with
    | Some M => Archiver.AppendShaderMacros
                  (take (Archiver.SourceLength CI) (Archiver.Source CI)) M
    | None => take (Archiver.SourceLength CI) (Archiver.Source CI)
    end in
  wfb Archiver.ShaderSourcePrefix_schema
    (Archiver.Desc_ShaderType CI, (Archiver.EntryPoint CI, (Archiver.SourceLanguage CI,
       (Archiver.ShaderCompiler CI,
          (Archiver.UseCombinedTextureSamplers CI, Archiver.CombinedSamplerSuffix CI)))))
  = true ->
  nonzero_bytes Source1 = true ->
  Z.of_nat (length Source1) < 2 ^ 64 ->
  exists Ser2,
    Serialize Read Archiver.ShaderPrefix_schema v0 (MkSer (Archiver.ShaderSourceKey CI) 0)
    = Some ((Archiver.Desc_ShaderType CI,
             (Some (default [] (Archiver.EntryPoint CI)),
              (Archiver.SourceLanguage CI, Archiver.ShaderCompiler CI))), Ser2)
    /\ DeviceObjectArchiveGL.UnpackShader Ser2 ShaderCI pDevice
       = Some (DeviceObjectArchiveGL.CreateShader
                 (DeviceObjectArchiveGL.MkShaderCI
                    (DeviceObjectArchiveGL.clear_SKIP_REFLECTION
                       (DeviceObjectArchiveGL.Given ShaderCI))
                    (Archiver.UseCombinedTextureSamplers CI)
                    (Some (default [] (Archiver.CombinedSamplerSuffix CI)))
                    (Source1 ++ [0])
                    (Z.of_nat (length Source1)))
                 pDevice)
    /\ cstr (Source1 ++ [0]) = Source1.
Proof.
  intros Source1 Hwf Hnz Hlen.
  cbn [wfb Archiver.ShaderSourcePrefix_schema fst snd] in Hwf.
  apply andb_prop in Hwf as [W1 Hwf]. apply andb_prop in Hwf as [W2 Hwf].
  apply andb_prop in Hwf as [W3 Hwf]. apply andb_prop in Hwf as [W4 Hwf].
  set (p4 := (Archiver.Desc_ShaderType CI, (Archiver.EntryPoint CI,
               (Archiver.SourceLanguage CI, Archiver.ShaderCompiler CI)))
             : sem Archiver.ShaderPrefix_schema).
  set (p2 := (Archiver.UseCombinedTextureSamplers CI, Archiver.CombinedSamplerSuffix CI)
             : sem DeviceObjectArchiveGL.SourceFields_schema).
  assert (Hwf4 : wfb Archiver.ShaderPrefix_schema p4 = true).
  { cbn [wfb Archiver.ShaderPrefix_schema fst snd p4]. by rewrite W1, W2, W3, W4. }
  assert (Hwf2 : wfb DeviceObjectArchiveGL.SourceFields_schema p2 = true) by exact Hwf.
  assert (EKey : Archiver.ShaderSourceKey CI
                 = encode Archiver.ShaderPrefix_schema p4
                   ++ encode DeviceObjectArchiveGL.SourceFields_schema p2
                   ++ Source1 ++ [0]).
  { unfold Archiver.ShaderSourceKey. fold Source1.
    rewrite ArchiverFacts.WriteShaderKey_encode.
    rewrite concat_le_bytes_1.
    2:{ apply Forall_app. split; [by apply nonzero_bytes_Forall|]. by repeat constructor. }
    cbn [encode Archiver.ShaderSourcePrefix_schema Archiver.ShaderPrefix_schema
         DeviceObjectArchiveGL.SourceFields_schema fst snd p4 p2].
    by rewrite <- !app_assoc. }
  rewrite EKey.
  pose proof (SerializerFacts.Serialize_Read Archiver.ShaderPrefix_schema p4 v0 Hwf4
                [] (encode DeviceObjectArchiveGL.SourceFields_schema p2 ++ Source1 ++ [0])
                0%nat eq_refl) as H4.
  cbn [app] in H4. eexists. split; [exact H4|].
  split; [|by apply cstr_terminated].
  unfold DeviceObjectArchiveGL.UnpackShader.
  pose proof (SerializerFacts.Serialize_Read DeviceObjectArchiveGL.SourceFields_schema p2
                (DeviceObjectArchiveGL.UseCombinedTextureSamplers ShaderCI,
                 DeviceObjectArchiveGL.CombinedSamplerSuffix ShaderCI) Hwf2
                (encode Archiver.ShaderPrefix_schema p4) (Source1 ++ [0])
                (0 + length (encode Archiver.ShaderPrefix_schema p4))%nat eq_refl) as H2.
  rewrite H2. cbn [preserved DeviceObjectArchiveGL.SourceFields_schema fst snd p2].
  unfold GetCurrentPtr, GetRemainSize. cbn [m_Buf m_Ptr].
  do 2 f_equal. f_equal.
  - rewrite Nat.add_0_l, <- length_app, app_assoc. by rewrite drop_app_length.
  - rewrite !length_app. cbn [length]. rewrite Z.mod_small; lia.
Qed.

End Unpack.

Lemma UnpackShader_reads_source_witness :
  exists Ser2,
    Serialize Read Archiver.ShaderPrefix_schema (0, (None, (0, 0)))
      (MkSer (Archiver.ShaderSourceKey (Ext := Archiver.FailingBackends)
                DeviceObjectArchiveGL.SourceCI_example) 0)
    = Some ((1, (Some (bytes_of_string "main"), (0, 0))), Ser2)
    /\ DeviceObjectArchiveGL.UnpackShader (Dev := DeviceObjectArchiveGL.CountingDeviceGL) Ser2
         (DeviceObjectArchiveGL.MkShaderCI
            (DeviceObjectArchive.MkShaderCI 1 (Some (bytes_of_string "main")) 0 0 8 [])
            0 None [] 0) 1000
       = Some (DeviceObjectArchiveGL.CreateShader (RenderDeviceGL := DeviceObjectArchiveGL.CountingDeviceGL)
                 (DeviceObjectArchiveGL.MkShaderCI
                    (DeviceObjectArchiveGL.clear_SKIP_REFLECTION
                       (DeviceObjectArchive.MkShaderCI 1 (Some (bytes_of_string "main")) 0 0 8 []))
                    1 (Some (bytes_of_string "_sampler")) (bytes_of_string "void main(){}" ++ [0])
                    (Z.of_nat (length (bytes_of_string "void main(){}"))))
                 1000)
    /\ cstr (bytes_of_string "void main(){}" ++ [0]) = bytes_of_string "void main(){}".
Proof.
  apply (UnpackShader_reads_source (Ext := Archiver.FailingBackends)
           (Dev := DeviceObjectArchiveGL.CountingDeviceGL)
           DeviceObjectArchiveGL.SourceCI_example (0, (None, (0, 0)))
           (DeviceObjectArchiveGL.MkShaderCI
              (DeviceObjectArchive.MkShaderCI 1 (Some (bytes_of_string "main")) 0 0 8 [])
              0 None [] 0) 1000).
  - vm_compute. reflexivity.
  - vm_compute. reflexivity.
  - vm_compute. reflexivity.
Defined.

End GLFacts.
